(* ===== verification/_CoqProject ===== *)
-Q . S2P
Prelude.v
CLayout.v
VmlinuxCore.v
VmlinuxMm.v
VmlinuxFs.v
VmlinuxNfs.v
KernelTypes.v
CoreRead.v
Bits.v
Common.v
BpfMap.v
BpfProg.v
BpfRecord.v
BpfTracer.v
BpfWarm.v
BlockLatency.v
BlockConcurrency.v
NfsLatency.v
NfsKprobeLatency.v
MapBytes.v
GoFloat.v
Histogram.v
EndToEnd.v
GoStrings.v
Device.v
ProcMounts.v
KubeletPaths.v
Resolver.v
EbpfCollector.v
ScrapePipeline.v
ScrapeConcurrency.v
Loader.v
LoaderConcurrency.v
QgaMetrics.v
DiskMap.v
GoJson.v
Base64.v
QgaCsv.v
GoEffect.v
Script.v
QmpTypes.v
QmpClient.v
QgaClient.v
PromMetrics.v
ConnPool.v
QgaCollector.v
QmpCollector.v
QmpScrape.v
PollConcurrency.v
PollRefine.v
PollOutcome.v
PollQmp.v
PollQga.v
GoNum.v
Config.v
Bindings.v
Command.v
