(* ===== verification/Prelude.v ===== *)
(** * kubevirt-storage-latency-exporter: a verification development

    ** The program

    The exporter runs on a Kubernetes node and publishes storage latencies to
    Prometheus.  Three BPF programs in C (src/bpf) measure latencies in the
    kernel and keep one logarithmic histogram per device and operation in BPF
    maps.  A Go process loads them (src/pkg/ebpf/loader.go), reads the maps on
    every scrape (collector.go), converts slots to cumulative buckets
    (histogram.go) and attributes devices to pods and claims with a resolver
    that scans the mount table (src/pkg/device).  Two further collectors poll the
    virtual machines of the node over libvirt: one asks QEMU for block statistics
    and virtqueues (src/pkg/qmp), the other runs a command in the guest through
    its agent and derives metrics from disk counters (src/pkg/qga).  Settings come
    from flags and the environment (src/pkg/config), and src/cmd/exporter/main.go
    puts the parts together.

    ** Files and what they model

    - Prelude: machine integers, little-endian bytes, bit ranges, sums and
      counts, tactics and hint databases shared by all files.
    - CLayout: C object types and the layout rules (offsets, sizes, bit-fields,
      packed structs).  VmlinuxCore, VmlinuxMm, VmlinuxFs, VmlinuxNfs: 326
      declarations of src/bpf/headers/vmlinux.h, member by member.  KernelTypes:
      the type environment made of them, that it is complete and that member
      accesses stay in bounds.  CoreRead: kernel memory and BPF_CORE_READ over an
      arbitrary type environment (the running kernel's), with the probe-read
      helper behind the class [ProbeReadKernel], and the bytes read where the types
      are those of vmlinux.h.
    - Bits: log2 and log2l of bits.bpf.h.  Common: common.h, the histogram, and
      the slot computation the programs share.
    - BpfMap: LRU hash maps as a pool of elements and an index, with the kernel's
      choices (eviction, failure, which element) as arguments.  BpfProg: programs
      as trees of helper calls, run alone ([run]) or interleaved on several CPUs
      ([cstep], [exec]); memory safety of a tree.  BpfRecord, BpfTracer, BpfWarm:
      recording a sample, the ledger every program family refines, and the counting
      of every finished event under interleaving, each over arbitrary key types.
    - BlockLatency, BlockConcurrency: block_latency.c.  NfsLatency:
      nfs_latency.c.  NfsKprobeLatency: nfs_kprobe_latency.c.  MapBytes: the
      keys and values as bytes.
    - GoFloat: float64 by the Standard Library's floating-point specification.
      Histogram: histogram.go.  EndToEnd: from kernel events to exported buckets.
    - GoStrings: what is used of strings, strconv and fmt.  Device, ProcMounts,
      KubeletPaths, Resolver: src/pkg/device.  EbpfCollector:
      src/pkg/ebpf/collector.go.  Loader: src/pkg/ebpf/loader.go.
      LoaderConcurrency: the loaded programs shared by retries, scrapes and the
      shutdown, one assignment, field or handle at a time.  ScrapePipeline: a
      whole scrape, from the ledgers of the BPF programs to the metrics sent.
      ScrapeConcurrency: scrapes and scans of the resolver that overlap.
    - QgaMetrics: ComputeMetrics of src/pkg/qga/types.go.  QgaCsv: ParseWMICSV of
      the same file, with Go's CSV reader.  DiskMap: the disk locations of
      src/pkg/qmp/types.go and the join of src/pkg/qga/diskmap.go.
    - GoJson, Base64, GoNum: JSON (parser, printer, decoding into Go types),
      base64, and numbers and durations as text.
    - GoEffect: effects as a state monad over a [world] (the environment, the open
      connections, a trace of what was sent), with libvirt, the container runtime,
      the Kubernetes API, the clock and the order of map iteration behind the
      class [Environment]; the predicates [quiet] and [spares] on computations.
      Script: an instance whose answers are written down, for examples.
    - QmpTypes: the rest of src/pkg/qmp/types.go.  QmpClient: client.go, cri.go and
      FetchPVCMap.  QgaClient: src/pkg/qga/client.go.  PromMetrics: constant
      metrics, behind the class [ConstMetrics], and the selection of pods.
    - ConnPool: the map of connections, its update at the start of a poll, and
      Run, which both collectors have alike, over any [PoolEntry].  QgaCollector:
      src/pkg/qga/collector.go and metrics.go.  QmpCollector:
      src/pkg/qmp/collector.go, with its results in QmpScrape.
    - PollConcurrency: the goroutines of a poll as a machine that lets one of them
      take its next step (semaphore, mutex, wait group, and the lock under which
      Collect reads), over a class [Scraper] of what the two collectors do
      differently.  PollRefine: the invariant that explains every state of it,
      progress and termination.  PollOutcome: what a poll leaves behind, in any
      schedule.  PollQmp, PollQga: the two collectors as instances, and that the
      machine does what the sequential models of the collectors do.
    - Config: src/pkg/config/config.go and how main.go hands the configuration on.
      Bindings: the Go files that bpf2go generates (structs, tags, Close) and
      which program is attached where.  Command: src/cmd/exporter/main.go.

    A C function is a definition of the same name; a BPF program is a [prog]
    whose constructors are its helper calls in order, so that [match] on the
    result of a look-up is the null check in the source and [Ret] is a return.
    Structs are records, maps are [bmap], and the state of a program family is
    the pair of its start map and its histogram map.  A Go function is a function
    with the receiver as argument and the changed receiver as result; errors are
    [None] or [false]; what comes from the kernel, a file, a system call or a
    library is an argument or a class with the laws its documentation states, and
    an instance shows each class satisfiable.

    ** What is proved

    - Functional correctness of the measurement: run one event at a time and with
      no evictions, each family of programs implements a ledger of what is in
      flight and of the latencies observed ([block_refines_ledger],
      [nfs_refines_ledger], [kprobe_refines_ledger]), the logarithm is exact
      ([log2l_brackets]), and the buckets exported by Go count the samples of the
      ledger ([block_metric_counts], [nfs_metric_counts], [histogram_counts],
      [histogram_cumulative]).  Put together, what a scrape sends is a function of
      the ledgers and of what the resolver knows ([scrape_refines_ledgers]), with
      no metric twice where each device has a volume of its own
      ([scrape_metrics_distinct]).
    - Concurrency: under every interleaving and every eviction the maps stay
      within their sizes, elements have one owner and counters are addressed in
      bounds (the three [*_interleaving_safe]); samples are never invented
      ([block_never_overcounts]) and, once a histogram exists, every completion that
      has ended is counted once, in the slot of its latency
      ([block_existing_histogram_exact]).
    - Goroutines: in every schedule of a poll at most [Concurrency] machines are
      scraped at a time ([poll_semaphore]), the poll neither deadlocks nor runs
      for ever ([poll_terminates]; without room in the semaphore it hangs,
      [poll_hangs]), what it leaves behind does not depend on the schedule
      ([poll_schedule_irrelevant]) and is what the sequential models say
      ([qmp_poll_refines], [qga_poll_refines]), and Collect never sees half of a
      poll ([collect_sees_one_poll]).  Nor does the eBPF collector see half of a
      retry, and closing the programs after the last retry leaves nothing open
      ([shared_programs_consistent]), which a retry during the shutdown does
      ([retry_during_close_leaks]).  Scrapes and scans of the resolver exclude each
      other where they touch its map, and a scrape handles every entry with the
      state that the scans finished by then have left ([scrape_during_scans]), not
      always the same one, so that two metrics may collide
      ([scan_during_scrape_collides]).
    - Kernel memory: keys and devices are read correctly on any kernel whose type
      information resolves the members, wherever they lie
      ([nfs_start_done_same_key], [kprobes_record_device], [block_ctx_loads]), and
      with the types of vmlinux.h at the offsets and widths of its declarations
      ([vmlinux_reads_exact]); layouts and byte images of the map types agree
      ([map_type_layouts], [images_follow_layout], [map_images_faithful]), also
      with the Go structs the exporter reads them through ([binding_layouts]); every program is attached
      to the hook it was written for ([programs_wired]).
    - The Go side: the loader neither leaks handles nor exports closed NFS maps,
      and retries succeed ([loader_invariant], [retry_activates_nfs]); devices
      are attributed to the pods that mount them ([scan_attribution],
      [scan_lookup], [kubelet_paths_regexp], [mountinfo_roundtrip],
      [stat_block_device], ...); scrapes do not panic and emit what they should
      ([collect_never_panics], [block_metrics_exact], [block_metrics_distinct]);
      guest metrics follow Little's law ([metrics_littles_law]) and guest drives
      are mapped to the volumes they are ([disk_mapping_sound]).  main starts what
      is enabled and nothing else, and registers its collectors without a panic in
      any registry that keeps to the laws of the class [Registerer]
      ([main_starts_enabled]).
    - The polling collectors: connections are neither leaked nor lost in any
      reachable state ([qga_connections], [qmp_connections]) and a run ends clean
      ([qga_run_ends], [qmp_run_ends], [default_config_runs]); what a scrape
      reports is exactly what the answers hold ([qga_scrape_exact],
      [qmp_scrape_exact], which also says for which disks histograms are switched
      on, [convert_buckets_cumulative],
      [collect_disk_counters_exact] through guest-exec, base64 and CSV); waiting
      for the guest terminates ([guest_exec_wait_terminates]); a machine is scraped
      until its failures are reason to give it up, and left alone afterwards
      ([qga_stop_policy], [stopped_vm_silent]).
    - Formats: texts that are printed are read back ([wmi_csv_roundtrip],
      [boundaries_roundtrip]), every command to QEMU is read as the object it
      means ([qmp_command_roundtrip]), device paths are read as
      the expressions say ([extract_disk_info_regexp]), flags go before the
      environment ([flag_precedence]).
    - Defects: [block_creation_race_loses_sample], [nfs_same_extent_loses_sample],
      [kprobe_nested_counts_inner], [bucket_holds_slower_samples],
      [stat_accepts_other_types], [failed_block_leaves_closed_map],
      [counter_wrap_explodes], [guest_drive_name_panics],
      [scsi_controllers_collide], [replugged_disk_lost], [valid_config_breaks],
      [boundaries_unsorted_for_qemu] and [shutdown_not_awaited] state what the code does where that is not
      what it is meant to do.

    ** Bounds and fuel

    [layout] and [find_member] recurse on type names with fuel [vmfuel] = 64;
    [vmlinux_layouts_sound] shows that this is enough for every declaration.  Decimal
    printing has as much fuel as the number has bits.  The JSON parser has fuel
    [json_fuel], twice the length of the text and one, and [parse_value_fuel] shows
    that more changes nothing; a duration has the length of its text
    ([duration_parts_fuel]).  The wait loop counts down from the six attempts of
    the code.  A poll with n machines and r calls of Collect takes at most
    7 + 11 n + 5 r turns ([poll_terminates]).  Clock values are assumed
    below 2^63 ns in the refinement theorems; counters and counts are taken
    modulo 2^64 throughout.

    ** Not modelled

    The BPF verifier and the kernel's own code (its helpers appear through their
    documented effect); memory reads of one program are taken at one point in
    time; which entries an LRU map evicts is left open; log output of the Go
    code; errors of the map iterator, which only reach the log; fused
    multiply-add, which Go may use for the histogram sum on processors other than
    baseline amd64.  The theorems about what one poll does to the outside
    (QgaCollector, QmpCollector, QmpScrape) are about its goroutines one after the
    other, in an order the environment chooses; PollQmp and PollQga carry them to
    every schedule, where a scrape is one step whose outcome is any the code can
    have whatever others do to the environment meanwhile, since the goroutines
    work on different machines over different connections under the lock of the
    machine.  A scan of the resolver sees files and caches as they are at one
    point in time; an iterator is taken to yield every entry once, as it does
    while the map does not change.  Deadlines are among the reasons for which the
    environment may answer with an error.  Decoding XML is a parameter.  JSON
    members that occur twice are merged as Go merges them except for slices
    inside, which are read anew.  The order of the two zeros after sorting is left
    open by Go.  The parser of compiled BPF objects and LoadAndAssign belong to a
    library; informers and the HTTP server are started by main and not modelled
    inside; the tests and manifests are no part of the program. *)
From Stdlib Require Import ZArith Lia.
From stdpp Require Export base tactics numbers list gmap strings.

#[global] Open Scope Z_scope.

(** ** Tactics *)

(** Case analysis on a boolean comparison of the goal or of a hypothesis,
    leaving the arithmetic fact it decides. *)
Ltac zcase :=
  match goal with
  | |- context [if ?a =? ?b then _ else _] => destruct (Z.eqb_spec a b)
  | |- context [if ?a <? ?b then _ else _] => destruct (Z.ltb_spec a b)
  | |- context [if ?a <=? ?b then _ else _] => destruct (Z.leb_spec a b)
  | H : context [if ?a =? ?b then _ else _] |- _ => destruct (Z.eqb_spec a b)
  | H : context [if ?a <? ?b then _ else _] |- _ => destruct (Z.ltb_spec a b)
  | H : context [if ?a <=? ?b then _ else _] |- _ => destruct (Z.leb_spec a b)
  end.

(** Peel the binds of the option monad off a hypothesis [H : m >>= f = Some r]. *)
Ltac inv_bind H :=
  let x := fresh "x" in
  let E := fresh "E" in
  apply bind_Some in H; destruct H as (x & E & H).

Lemma bind_Some_l {A B} (f : A → option B) x : Some x ≫= f = f x.
Proof. reflexivity. Qed.

(** ** Machine integers: a w-bit integer is a [Z] with its wrap-around written out *)

Definition u8 (x : Z) : Z := x mod 2 ^ 8.
Definition u16 (x : Z) : Z := x mod 2 ^ 16.
Definition u32 (x : Z) : Z := x mod 2 ^ 32.
Definition u64 (x : Z) : Z := x mod 2 ^ 64.

(** Two's-complement reinterpretation of the low 32 or 64 bits. *)
Definition s32 (x : Z) : Z := (x + 2 ^ 31) mod 2 ^ 32 - 2 ^ 31.
Definition s64 (x : Z) : Z := (x + 2 ^ 63) mod 2 ^ 64 - 2 ^ 63.

Definition is_u8 (x : Z) : Prop := 0 <= x < 2 ^ 8.
Definition is_u32 (x : Z) : Prop := 0 <= x < 2 ^ 32.
Definition is_u64 (x : Z) : Prop := 0 <= x < 2 ^ 64.

Create HintDb word discriminated.
Create HintDb bpf.

Lemma u8_range x : is_u8 (u8 x).
Proof. apply Z.mod_pos_bound. lia. Qed.
Lemma u32_range x : is_u32 (u32 x).
Proof. apply Z.mod_pos_bound. lia. Qed.
Lemma u64_range x : is_u64 (u64 x).
Proof. apply Z.mod_pos_bound. lia. Qed.
Lemma u8_id x : is_u8 x → u8 x = x.
Proof. apply Z.mod_small. Qed.
Lemma u32_id x : is_u32 x → u32 x = x.
Proof. apply Z.mod_small. Qed.
Lemma u64_id x : is_u64 x → u64 x = x.
Proof. apply Z.mod_small. Qed.

#[export] Hint Resolve u8_range u32_range u64_range : word.

Lemma s64_id x : - 2 ^ 63 <= x < 2 ^ 63 → s64 x = x.
Proof. intros H. unfold s64. rewrite Z.mod_small; lia. Qed.

Lemma s64_range x : - 2 ^ 63 <= s64 x < 2 ^ 63.
Proof. unfold s64. pose proof (Z.mod_pos_bound (x + 2 ^ 63) (2 ^ 64)). lia. Qed.

(** A 64-bit difference read as signed is the true difference whenever that
    difference fits, whatever wrap-around the subtraction went through. *)
Lemma s64_sub_u64 a b : - 2 ^ 63 <= a - b < 2 ^ 63 → s64 (u64 (a - b)) = a - b.
Proof.
  intros H. unfold s64, u64.
  rewrite Zplus_mod_idemp_l. by apply s64_id in H.
Qed.

(** Disjoint bit ranges: and-ing them gives zero, or-ing them adds them. *)
Lemma land_shiftl_low a b n : 0 <= n → 0 <= b < 2 ^ n → Z.land (Z.shiftl a n) b = 0.
Proof.
  intros Hn Hb. apply Z.bits_inj'. intros i Hi. rewrite Z.land_spec, Z.bits_0.
  destruct (Z.lt_ge_cases i n); [by rewrite Z.shiftl_spec_low|].
  destruct (decide (b = 0)) as [->|Hz]; [by rewrite Z.bits_0, andb_false_r|].
  rewrite (Z.bits_above_log2 b), andb_false_r; [done|lia|].
  apply Z.lt_le_trans with n; [|done]. apply Z.log2_lt_pow2; lia.
Qed.

Lemma lor_shiftl_add a b n : 0 <= n → 0 <= b < 2 ^ n → Z.lor (Z.shiftl a n) b = a * 2 ^ n + b.
Proof.
  intros Hn Hb. rewrite <- Z.shiftl_mul_pow2 by done. symmetry. apply Z.add_nocarry_lor. by apply land_shiftl_low.
Qed.

Lemma land_mask a n : 0 <= n → Z.land a (2 ^ n - 1) = a mod 2 ^ n.
Proof. intros Hn. by rewrite <- Z.land_ones, Z.ones_equiv, Z.sub_1_r by done. Qed.

(** The value of zeroed memory, for each type kept in such memory. *)
Class Zeroed (A : Type) := zeroed : A.
#[export] Instance Z_zeroed : Zeroed Z := 0.

(** ** Little-endian byte strings (a byte is a [Z] below 256) *)

Fixpoint le_bytes (n : nat) (x : Z) : list Z :=
  match n with
  | O => []
  | S n' => x mod 256 :: le_bytes n' (x / 256)
  end.

Fixpoint le_val (bs : list Z) : Z :=
  match bs with
  | [] => 0
  | b :: bs' => b + 256 * le_val bs'
  end.

Lemma length_le_bytes n x : length (le_bytes n x) = n.
Proof. revert x. induction n; intros x; simpl; [done | by rewrite IHn]. Qed.

Lemma le_val_bytes n x : 0 <= x < 256 ^ Z.of_nat n → le_val (le_bytes n x) = x.
Proof.
  revert x. induction n as [|n IH]; intros x H.
  - simpl in *. lia.
  - rewrite Nat2Z.inj_succ, Z.pow_succ_r in H by lia.
    cbn [le_bytes le_val]. rewrite IH.
    + pose proof (Z.div_mod x 256). lia.
    + split; [apply Z.div_pos; lia | apply Z.div_lt_upper_bound; lia].
Qed.

Lemma le_bytes_byte n x : Forall is_u8 (le_bytes n x).
Proof.
  revert x. induction n; intros x; cbn [le_bytes]; constructor; [|done].
  apply Z.mod_pos_bound. lia.
Qed.

Lemma le_val_range bs : Forall is_u8 bs → 0 <= le_val bs < 256 ^ Z.of_nat (length bs).
Proof.
  induction 1 as [|b bs Hb _ IH]; [simpl; lia|].
  cbn [length le_val]. rewrite Nat2Z.inj_succ, Z.pow_succ_r by lia.
  unfold is_u8 in Hb. lia.
Qed.

Lemma le_bytes_inj n x y :
  0 <= x < 256 ^ Z.of_nat n → 0 <= y < 256 ^ Z.of_nat n →
  le_bytes n x = le_bytes n y → x = y.
Proof. intros Hx Hy E. rewrite <- (le_val_bytes n x), <- (le_val_bytes n y) by done. by rewrite E. Qed.

(** ** Rounding up to a multiple *)

Definition align_up (x a : Z) : Z := (x + (a - 1)) / a * a.

Lemma align_up_ge x a : 0 < a → x <= align_up x a.
Proof.
  intros Ha. unfold align_up.
  pose proof (Z.div_mod (x + (a - 1)) a). pose proof (Z.mod_pos_bound (x + (a - 1)) a). nia.
Qed.

Lemma align_up_lt x a : 0 < a → align_up x a < x + a.
Proof.
  intros Ha. unfold align_up.
  pose proof (Z.div_mod (x + (a - 1)) a). pose proof (Z.mod_pos_bound (x + (a - 1)) a). nia.
Qed.

Lemma align_up_divide x a : (a | align_up x a).
Proof. exists ((x + (a - 1)) / a). reflexivity. Qed.

(** ** Sums of integer lists *)

Definition zsum (xs : list Z) : Z := foldr Z.add 0 xs.

Lemma zsum_app xs ys : zsum (xs ++ ys) = zsum xs + zsum ys.
Proof. induction xs as [|x xs IH]; simpl; [done|]. rewrite IH. lia. Qed.

Lemma zsum_nonneg xs : Forall (λ x, 0 <= x) xs → 0 <= zsum xs.
Proof. induction 1; simpl; lia. Qed.

(** Wrapping the summands does not change the wrapped sum. *)
Lemma u64_zsum {A} (f : A → Z) xs : u64 (zsum ((λ x, u64 (f x)) <$> xs)) = u64 (zsum (f <$> xs)).
Proof.
  induction xs as [|x xs IH]; [done|]. cbn [fmap list_fmap zsum foldr].
  unfold u64 in *. rewrite Zplus_mod_idemp_l, Zplus_mod. fold (zsum ((λ x, f x mod 2 ^ 64) <$> xs)). rewrite IH.
  by rewrite <- Zplus_mod.
Qed.

(** Counting: how many elements satisfy [P]. *)
Definition zcount {A} (P : A → bool) (xs : list A) : Z := zsum ((λ x, if P x then 1 else 0) <$> xs).

Lemma zcount_cons {A} (P : A → bool) x xs : zcount P (x :: xs) = (if P x then 1 else 0) + zcount P xs.
Proof. done. Qed.

Lemma zcount_nonneg {A} (P : A → bool) xs : 0 <= zcount P xs.
Proof. apply zsum_nonneg, Forall_fmap, Forall_true. intros x. simpl. destruct (P x); lia. Qed.

Lemma zcount_ext {A} (P Q : A → bool) xs : (∀ x, P x = Q x) → zcount P xs = zcount Q xs.
Proof. intros HPQ. induction xs as [|x xs IH]; [done|]. by rewrite !zcount_cons, HPQ, IH. Qed.

Lemma zcount_all {A} (P : A → bool) xs : (∀ x, P x = true) → zcount P xs = Z.of_nat (length xs).
Proof. intros HP. induction xs as [|x xs IH]; [done|]. rewrite zcount_cons, HP, IH. cbn [length]. lia. Qed.

Lemma bool_decide_iff_true (P : Prop) `{!Decision P} b : (P ↔ b = true) → bool_decide P = b.
Proof. intros HP. case_bool_decide; destruct b; naive_solver. Qed.

Lemma zcount_mono {A} (P Q : A → bool) xs : (∀ x, P x = true → Q x = true) → zcount P xs <= zcount Q xs.
Proof.
  intros HPQ. induction xs as [|x xs IH]; [done|]. rewrite !zcount_cons.
  pose proof (HPQ x). destruct (P x), (Q x); naive_solver lia.
Qed.

(** Summing over classes: if every [x] is counted in the class [c x]
    and in no other, the counts of distinct classes add up. *)
Lemma zsum_classes {A} (cl : list nat) (c : A → nat) (xs : list A) :
  NoDup cl →
  zsum ((λ i, zcount (λ x, bool_decide (c x = i)) xs) <$> cl) = zcount (λ x, bool_decide (c x ∈ cl)) xs.
Proof.
  intros Hnd. induction xs as [|x xs IH].
  - clear Hnd. induction cl as [|i cl IHi]; [done|]. exact IHi.
  - rewrite zcount_cons, <- IH. clear IH. induction Hnd as [|i cl Hni Hnd IHi]; [done|].
    cbn [fmap list_fmap zsum foldr]. fold (zsum ((λ i, zcount (λ x, bool_decide (c x = i)) (x :: xs)) <$> cl)).
    rewrite IHi, zcount_cons. fold (zsum ((λ i, zcount (λ x, bool_decide (c x = i)) xs) <$> cl)).
    repeat case_bool_decide; try set_solver; lia.
Qed.

Lemma zsum_filter_mono {A} (f : A → Z) (P Q : A → Prop) `{!∀ x, Decision (P x), !∀ x, Decision (Q x)} xs :
  (∀ x, 0 <= f x) → (∀ x, P x → Q x) → zsum (f <$> filter P xs) <= zsum (f <$> filter Q xs).
Proof.
  intros Hf HPQ. induction xs as [|x xs IH]; [done|]. rewrite !filter_cons.
  pose proof (Hf x). pose proof (HPQ x). repeat case_decide; cbn [fmap list_fmap zsum foldr]; unfold zsum in *; naive_solver lia.
Qed.

Lemma zsum_filter_le {A} (f : A → Z) (P : A → Prop) `{!∀ x, Decision (P x)} xs :
  (∀ x, 0 <= f x) → 0 <= zsum (f <$> filter P xs) <= zsum (f <$> xs).
Proof.
  intros Hf. induction xs as [|x xs IH]; [done|]. rewrite !filter_cons.
  pose proof (Hf x). case_decide; cbn [fmap list_fmap zsum foldr]; unfold zsum in *; lia.
Qed.

(** Distinct keys and an image that determines the key give distinct images. *)
Lemma NoDup_fmap_omap {A B C D} (key : A → C) (g : A → option B) (h : B → D) (l : list A) :
  NoDup (key <$> l) →
  (∀ x y a b, x ∈ l → y ∈ l → g x = Some a → g y = Some b → h a = h b → key x = key y) →
  NoDup (h <$> omap g l).
Proof.
  induction l as [|x l IH]; cbn [fmap list_fmap omap list_omap]; intros Hnd Hinj; [constructor|].
  apply NoDup_cons in Hnd as [Hx Hnd].
  assert (IH' : NoDup (h <$> omap g l)) by (apply IH; [done|]; intros; eapply Hinj; eauto using list_elem_of_further).
  destruct (g x) as [a|] eqn:Hg; [|done]. apply NoDup_cons. split; [|done].
  intros (b & Hab & (y & Hy & Hgy)%list_elem_of_omap)%list_elem_of_fmap.
  apply Hx. rewrite (Hinj x y a b (list_elem_of_here _ _) (list_elem_of_further _ _ _ Hy) Hg Hgy Hab).
  apply list_elem_of_fmap. eauto.
Qed.

Lemma omap_fmap_compose {A B C} (f : A → B) (g : B → option C) (l : list A) : omap g (f <$> l) = omap (λ x, g (f x)) l.
Proof. induction l as [|x l IH]; [done|]. cbn. by rewrite IH. Qed.

(** Two duplicate-free lists that agree on where a partial function is defined
    have the same values of it. *)
Lemma omap_same {A B} `{EqDecision A} (f : A → option B) (l l' : list A) :
  NoDup l → NoDup l' → (∀ x y, f x = Some y → x ∈ l ↔ x ∈ l') → omap f l ≡ₚ omap f l'.
Proof.
  intros Hl Hl' Hf. set (P := λ x, is_Some (f x)).
  assert (Hfil : ∀ l : list A, omap f l = omap f (filter P l)).
  { intros k. induction k as [|x k IH]; [done|]. rewrite filter_cons. cbn [omap list_omap]. case_decide as Hd.
    - destruct Hd as [y E]. cbn [omap list_omap]. rewrite E. by f_equal.
    - destruct (f x) eqn:E; [|done]. exfalso. apply Hd. by eexists. }
  rewrite (Hfil l), (Hfil l'). apply omap_Permutation, NoDup_Permutation; [by apply NoDup_filter..|].
  intros x. rewrite !list_elem_of_filter. unfold P. split; intros [[y Hy] Hx]; (split; [by eexists|]); by apply (Hf x y Hy).
Qed.
