(* ===== verification/CLayout.v ===== *)
(** * C types and their memory layout

    The object types vmlinux.h and the BPF programs declare, and the layout
    rules (size, alignment, member offsets, bit-fields) of the little-endian
    64-bit System V ABI that clang follows for the BPF target. *)
From S2P Require Import Prelude.

(** ** Types *)

Inductive tag := KStruct | KUnion | KEnum | KTypedef.

#[export] Instance tag_eq_dec : EqDecision tag.
Proof. solve_decision. Defined.
#[export] Instance tag_countable : Countable tag.
Proof.
  refine (inj_countable' (λ t, match t with KStruct => 0 | KUnion => 1 | KEnum => 2 | KTypedef => 3 end)%nat
    (λ n, match n with 0 => KStruct | 1 => KUnion | 2 => KEnum | _ => KTypedef end)%nat _).
  by intros [].
Defined.

(** [TComp] is a struct or union body: each member has an optional name, a type
    and, for a bit-field, a width.  Qualifiers carry no layout and are dropped;
    the parameter lists of function types likewise. *)
Inductive ctype : Type :=
  | TVoid
  | TFunc
  | TScalar (size : Z) (signed : bool)
  | TPtr (t : ctype)
  | TArr (t : ctype) (n : Z)
  | TRef (k : tag) (name : string)
  | TEnum (vals : list (string * Z))
  | TComp (union packed : bool) (fs : list (option string * ctype * option Z)).

Abbreviation field := (option string * ctype * option Z)%type.
Abbreviation decl := (tag * string * ctype)%type.
Abbreviation tenv := (gmap (tag * string) ctype).

(** Declarations in the order and with the names of C. *)
Definition Struct (name : string) (fs : list field) : decl := (KStruct, name, TComp false false fs).
Definition PackedStruct (name : string) (fs : list field) : decl := (KStruct, name, TComp false true fs).
Definition Union (name : string) (fs : list field) : decl := (KUnion, name, TComp true false fs).
Definition Enum (name : string) (vals : list (string * Z)) : decl := (KEnum, name, TEnum vals).
Definition Typedef (name : string) (t : ctype) : decl := (KTypedef, name, t).

Definition t_bool := TScalar 1 false.
Definition t_char := TScalar 1 true.
Definition t_uchar := TScalar 1 false.
Definition t_short := TScalar 2 true.
Definition t_ushort := TScalar 2 false.
Definition t_int := TScalar 4 true.
Definition t_uint := TScalar 4 false.
Definition t_long := TScalar 8 true.
Definition t_ulong := TScalar 8 false.
Definition t_llong := TScalar 8 true.
Definition t_ullong := TScalar 8 false.

(** Type expressions: [struct_ "S"] is C's [struct S], [name_ "t"] the typedef
    name [t], [ptr t] is [t *] and [arr t n] is [t[n]]. *)
Definition struct_ (s : string) : ctype := TRef KStruct s.
Definition union_ (s : string) : ctype := TRef KUnion s.
Definition enum_ (s : string) : ctype := TRef KEnum s.
Definition name_ (s : string) : ctype := TRef KTypedef s.
Definition ptr (t : ctype) : ctype := TPtr t.
Definition arr (t : ctype) (n : Z) : ctype := TArr t n.
Definition struct_body (fs : list field) : ctype := TComp false false fs.
Definition union_body (fs : list field) : ctype := TComp true false fs.
Definition func_ptr : ctype := TPtr TFunc.

(** Members: [mem "f" t] is [t f;], [bits "f" t w] is [t f: w;], [padbits t w]
    the unnamed bit-field [t: w;], and [anon t] an anonymous struct or union. *)
Definition mem (f : string) (t : ctype) : field := (Some f, t, None).
Definition bits (f : string) (t : ctype) (w : Z) : field := (Some f, t, Some w).
Definition padbits (t : ctype) (w : Z) : field := (None, t, Some w).
Definition anon (t : ctype) : field := (None, t, None).

(** ** Size and alignment, in bytes *)

(** A member at its place: offset and width in bits from the start of the
    enclosing struct or union. *)
Record placed := Placed { pl_name : option string; pl_type : ctype; pl_off : Z; pl_width : Z; pl_bf : bool }.

Section Place.
(** [lay] gives the size and alignment of a member type. *)
Variable lay : ctype → option (Z * Z).

(** One struct member, at bit position [pos].  A bit-field stays in the current
    storage unit of its declared type when it fits there, and otherwise starts
    the next one; a zero-width one only aligns, and an empty type is no bit-field type.  Its declared type counts for
    the alignment of the struct only when it is named. *)
Definition place_member (packed : bool) (pos : Z) (f : field) : option (placed * Z * Z) :=
  let '(n, t, w) := f in
  '(s, a) ← lay t;
  let a := if packed then 1 else a in
  match w with
  | None =>
      let off := align_up pos (8 * a) in
      Some (Placed n t off (8 * s) false, off + 8 * s, a)
  | Some w =>
      if s <=? 0 then None else
      let off := if w =? 0 then align_up pos (8 * s)
                 else if packed then pos
                 else if pos / (8 * s) =? (pos + w - 1) / (8 * s) then pos
                 else align_up pos (8 * s) in
      Some (Placed n t off w true, off + w, match n with Some _ => a | None => 1 end)
  end.

(** Members in order: their places, the first free bit and the largest alignment. *)
Fixpoint place_struct (packed : bool) (pos al : Z) (fs : list field) : option (list placed * Z * Z) :=
  match fs with
  | [] => Some ([], pos, al)
  | f :: fs' =>
      '(p, pos', a) ← place_member packed pos f;
      '(ps, e, al') ← place_struct packed pos' (Z.max al a) fs';
      Some (p :: ps, e, al')
  end.

(** A union puts every member at bit 0 and is as wide as the widest. *)
Fixpoint place_union (packed : bool) (e al : Z) (fs : list field) : option (list placed * Z * Z) :=
  match fs with
  | [] => Some ([], e, al)
  | f :: fs' =>
      '(p, pos', a) ← place_member packed 0 f;
      '(ps, e', al') ← place_union packed (Z.max e pos') (Z.max al a) fs';
      Some (p :: ps, e', al')
  end.

Definition place_comp (union packed : bool) (fs : list field) : option (list placed * Z * Z) :=
  if union then place_union packed 0 1 fs else place_struct packed 0 1 fs.
End Place.

(** Size and alignment of an object type; [None] for an incomplete type, for a
    name the environment does not define, and when the nesting exceeds [fuel]. *)
Fixpoint layout (fuel : nat) (E : tenv) (t : ctype) : option (Z * Z) :=
  match fuel with
  | O => None
  | S fuel =>
      match t with
      | TVoid | TFunc => None
      | TScalar s _ => Some (s, s)
      | TPtr _ => Some (8, 8)
      | TArr t n => '(s, a) ← layout fuel E t; Some (s * n, a)
      | TRef k n => t ← E !! (k, n); layout fuel E t
      | TEnum _ => Some (4, 4)
      | TComp un pk fs =>
          '(_, e, al) ← place_comp (layout fuel E) un pk fs;
          Some (align_up e (8 * al) / 8, al)
      end
  end.

(** ** Members by name *)

(** Byte offset and type of member [f] among placed members; an anonymous
    struct or union contributes its own members ([sub]). *)
Fixpoint find_placed (sub : ctype → option (Z * ctype)) (f : string) (ps : list placed) : option (Z * ctype) :=
  match ps with
  | [] => None
  | p :: ps' =>
      if pl_bf p then find_placed sub f ps'
      else match pl_name p with
           | Some g => if String.eqb f g then Some (pl_off p / 8, pl_type p) else find_placed sub f ps'
           | None =>
               match sub (pl_type p) with
               | Some (o, t) => Some (pl_off p / 8 + o, t)
               | None => find_placed sub f ps'
               end
           end
  end.

(** C's [offsetof (t, f)], with the member's type; bit-fields have no offset. *)
Fixpoint find_member (fuel : nat) (E : tenv) (t : ctype) (f : string) : option (Z * ctype) :=
  match fuel with
  | O => None
  | S fuel =>
      match t with
      | TRef k n => t ← E !! (k, n); find_member fuel E t f
      | TComp un pk fs =>
          '(ps, _, _) ← place_comp (layout fuel E) un pk fs;
          find_placed (λ t, find_member fuel E t f) f ps
      | _ => None
      end
  end.

(** A dotted member designator [a.b.c]. *)
Fixpoint find_path (fuel : nat) (E : tenv) (t : ctype) (fs : list string) : option (Z * ctype) :=
  match fs with
  | [] => Some (0, t)
  | f :: fs' =>
      '(o, t') ← find_member fuel E t f;
      '(o', t'') ← find_path fuel E t' fs';
      Some (o + o', t'')
  end.

(** A type with typedef names resolved. *)
Fixpoint resolve (fuel : nat) (E : tenv) (t : ctype) : option ctype :=
  match fuel with
  | O => None
  | S fuel => match t with TRef KTypedef n => t ← E !! (KTypedef, n); resolve fuel E t | _ => Some t end
  end.

(** ** Well-formed types *)

Fixpoint wf_ctype (t : ctype) : bool :=
  match t with
  | TVoid | TFunc | TPtr _ | TRef _ _ | TEnum _ => true
  | TScalar s _ => 0 <? s
  | TArr t n => wf_ctype t && (0 <=? n)
  | TComp _ _ fs =>
      forallb (λ '(_, t, w), wf_ctype t && match w with Some w => 0 <=? w | None => true end) fs
  end.

Definition wf_env (E : tenv) : Prop := ∀ k t, E !! k = Some t → wf_ctype t = true.

Definition wf_field (f : field) : bool :=
  wf_ctype f.1.2 && match f.2 with Some w => 0 <=? w | None => true end.

Lemma wf_comp un pk fs : wf_ctype (TComp un pk fs) = true → Forall (λ f, wf_field f = true) fs.
Proof.
  cbn. induction fs as [|[[n t] w] fs IH]; cbn; [constructor|].
  rewrite andb_true_iff. intros [H1 H2]. constructor; [exact H1 | exact (IH H2)].
Qed.

(** ** Members of a struct lie in order, apart from each other, inside it *)

(** [in_order pos ps e]: the members of [ps] follow one another from bit [pos] on
    without overlap and end at or before bit [e]. *)
Fixpoint in_order (pos : Z) (ps : list placed) (e : Z) : Prop :=
  match ps with
  | [] => pos <= e
  | p :: ps' => pos <= pl_off p ∧ 0 <= pl_width p ∧ in_order (pl_off p + pl_width p) ps' e
  end.

Lemma in_order_end pos ps e : in_order pos ps e → pos <= e.
Proof. revert pos. induction ps as [|p ps IH]; intros pos; cbn; [done|]. intros (?&?&?%IH). lia. Qed.

Lemma in_order_bounds pos ps e p :
  in_order pos ps e → p ∈ ps → pos <= pl_off p ∧ 0 <= pl_width p ∧ pl_off p + pl_width p <= e.
Proof.
  revert pos. induction ps as [|q ps IH]; intros pos; [set_solver|].
  intros (H1 & H2 & H3) [->|Hin]%elem_of_cons.
  - apply in_order_end in H3. lia.
  - destruct (IH _ H3 Hin). lia.
Qed.

Lemma in_order_disjoint pos ps e i j p q :
  in_order pos ps e → ps !! i = Some p → ps !! j = Some q → (i < j)%nat →
  pl_off p + pl_width p <= pl_off q.
Proof.
  revert pos i j. induction ps as [|r ps IH]; intros pos i j; [done|].
  intros (H1 & H2 & H3) Hi Hj Hij. destruct j as [|j]; [lia|]. destruct i as [|i]; simpl in *.
  - simplify_eq. apply list_elem_of_lookup_2 in Hj. by destruct (in_order_bounds _ _ _ _ H3 Hj).
  - eapply IH; [done..|lia].
Qed.

Definition lay_pos (lay : ctype → option (Z * Z)) (t : ctype) : Prop :=
  ∀ s a, lay t = Some (s, a) → 0 <= s ∧ 0 < a.

Section Placing.
Variable lay : ctype → option (Z * Z).

Lemma place_member_ok pk pos f p e a :
  lay_pos lay f.1.2 → wf_field f = true → 0 <= pos →
  place_member lay pk pos f = Some (p, e, a) →
  pos <= pl_off p ∧ 0 <= pl_width p ∧ e = pl_off p + pl_width p ∧ 0 < a.
Proof.
  destruct f as [[n t] w]. unfold wf_field. simpl. intros Hlay Hwf Hpos H.
  inv_bind H. destruct x as [s al]. destruct (Hlay _ _ E) as [Hs Ha].
  assert (Hal : 0 < (if pk then 1 else al)) by (destruct pk; lia).
  apply andb_true_iff in Hwf as [_ Hw].
  destruct w as [w|]; [|simplify_eq; simpl; pose proof (align_up_ge pos (8 * (if pk then 1 else al))); lia].
  apply Z.leb_le in Hw. destruct (Z.leb_spec s 0); [done|]. simplify_eq. simpl.
  pose proof (align_up_ge pos (8 * s)).
  assert (0 < match n with Some _ => if pk then 1 else al | None => 1 end) by (destruct n; lia).
  destruct pk; repeat zcase; lia.
Qed.

Lemma place_struct_ok pk pos al fs ps e al' :
  Forall (λ f, lay_pos lay f.1.2) fs → Forall (λ f, wf_field f = true) fs → 0 <= pos → 0 < al →
  place_struct lay pk pos al fs = Some (ps, e, al') → in_order pos ps e ∧ 0 < al'.
Proof.
  intros Hlay Hwf. revert pos al ps. induction fs as [|f fs IH]; intros pos al ps Hpos Hal H.
  - simpl in H. simplify_eq. simpl. lia.
  - simpl in H. inv_bind H. destruct x as [[p pos'] a]. inv_bind H. destruct x as [[ps' e'] al'']. simplify_eq.
    inversion_clear Hlay; inversion_clear Hwf.
    apply place_member_ok in E as (? & ? & -> & ?); [|done..].
    apply IH in E0 as [? ?]; [|done|done|lia|lia]. simpl. done.
Qed.

Lemma place_union_ok pk e0 al fs ps e al' :
  Forall (λ f, lay_pos lay f.1.2) fs → Forall (λ f, wf_field f = true) fs → 0 <= e0 → 0 < al →
  place_union lay pk e0 al fs = Some (ps, e, al') →
  e0 <= e ∧ 0 < al' ∧ (∀ p, p ∈ ps → 0 <= pl_off p ∧ 0 <= pl_width p ∧ pl_off p + pl_width p <= e).
Proof.
  intros Hlay Hwf. revert e0 al ps. induction fs as [|f fs IH]; intros e0 al ps Hpos Hal H.
  - simpl in H. simplify_eq. split_and!; [done..|]. set_solver.
  - simpl in H. inv_bind H. destruct x as [[p pos'] a]. inv_bind H. destruct x as [[ps' e'] al'']. simplify_eq.
    inversion_clear Hlay; inversion_clear Hwf.
    apply place_member_ok in E as (? & ? & -> & ?); [|done..].
    apply IH in E0 as (? & ? & Hps); [|done|done|lia|lia]. split_and!; [lia|done|].
    intros q [->|Hq]%elem_of_cons; [lia|]. by apply Hps.
Qed.

(** Every placed member lies within the bits the struct or union occupies. *)
Lemma place_comp_bounds un pk fs ps e al :
  Forall (λ f, lay_pos lay f.1.2) fs → Forall (λ f, wf_field f = true) fs →
  place_comp lay un pk fs = Some (ps, e, al) →
  0 <= e ∧ 0 < al ∧ (∀ p, p ∈ ps → 0 <= pl_off p ∧ 0 <= pl_width p ∧ pl_off p + pl_width p <= e).
Proof.
  intros Hlay Hwf. unfold place_comp. destruct un; intros H.
  - by apply place_union_ok in H; [|done|done|lia|lia].
  - apply place_struct_ok in H as [H Hal]; [|done|done|lia|lia].
    split_and!; [by eapply in_order_end|done|]. intros p Hp. by eapply in_order_bounds.
Qed.

(** A member that is not a bit-field is aligned, unless the struct is packed. *)
Lemma place_member_aligned pos f p e a :
  place_member lay false pos f = Some (p, e, a) → pl_bf p = false →
  ∃ s, lay (pl_type p) = Some (s, a) ∧ pl_width p = 8 * s ∧ (8 * a | pl_off p).
Proof.
  destruct f as [[n t] w]. simpl. intros H Hb. inv_bind H. destruct x as [s al].
  destruct w as [w|]; [destruct (s <=? 0); [done|]; by simplify_eq|].
  simplify_eq. simpl. eexists. split_and!; [done..|apply align_up_divide].
Qed.

Lemma place_member_width pk pos f p e a :
  place_member lay pk pos f = Some (p, e, a) → pl_bf p = false →
  ∃ s al, lay (pl_type p) = Some (s, al) ∧ pl_width p = 8 * s ∧ (8 | pl_off p).
Proof.
  destruct f as [[n t] w]. simpl. intros H Hb. inv_bind H. destruct x as [s al].
  destruct w as [w|]; [destruct (s <=? 0); [done|]; by simplify_eq|].
  simplify_eq. simpl. eexists _, _. split_and!; [done..|].
  etrans; [|apply align_up_divide]. apply Z.divide_factor_l.
Qed.

Lemma place_comp_elem un pk fs ps e al p :
  place_comp lay un pk fs = Some (ps, e, al) → p ∈ ps →
  ∃ f pos e' a, f ∈ fs ∧ place_member lay pk pos f = Some (p, e', a).
Proof.
  unfold place_comp. destruct un; generalize 0 as e0, 1 as al0; revert ps;
    (induction fs as [|f fs IH]; intros ps e0 al0 H Hp; simpl in H; [simplify_eq; set_solver|]);
    inv_bind H; destruct x as [[q pos'] a]; inv_bind H; destruct x as [[ps' e'] al'']; simplify_eq;
    (apply elem_of_cons in Hp as [->|Hp];
      [eexists f, _, _, _; split; [set_solver|exact E]
      |destruct (IH _ _ _ E0 Hp) as (g & ? & ? & ? & ? & ?); eexists g, _, _, _; split; [set_solver|done]]).
Qed.

Lemma place_member_type pk pos f p e a : place_member lay pk pos f = Some (p, e, a) → pl_type p = f.1.2.
Proof.
  destruct f as [[n t] [w|]]; simpl; intros H; inv_bind H; destruct x as [s al].
  - destruct (s <=? 0); [done|]. by simplify_eq.
  - by simplify_eq.
Qed.
End Placing.

(** ** Layout of a type in a well-formed environment *)

Lemma layout_pos fuel E t s a :
  wf_env E → wf_ctype t = true → layout fuel E t = Some (s, a) → 0 <= s ∧ 0 < a.
Proof.
  intros HE. revert t s a. induction fuel as [|fuel IH]; intros t s a Ht H; [done|].
  destruct t as [| |sz sg|t|t n|k n|vs|un pk fs]; cbn [layout] in H; try done.
  - simplify_eq. apply Z.ltb_lt in Ht. lia.
  - simplify_eq. lia.
  - inv_bind H. destruct x as [s' a']. simplify_eq.
    cbn in Ht. apply andb_true_iff in Ht as [Ht ?%Z.leb_le]. destruct (IH _ _ _ Ht E0). nia.
  - inv_bind H. eapply IH, H. by eapply HE.
  - simplify_eq. lia.
  - inv_bind H. destruct x as [[ps e] al]. simplify_eq. apply wf_comp in Ht.
    apply place_comp_bounds in E0 as (He & Hal & _); [| |done].
    + split; [|done]. apply Z.div_pos; [|lia]. pose proof (align_up_ge e (8 * a)). lia.
    + eapply Forall_impl; [exact Ht|]. intros f Hf s' a'. apply IH.
      unfold wf_field in Hf. by apply andb_true_iff in Hf as [? _].
Qed.

Lemma wf_fields_pos fuel E fs :
  wf_env E → Forall (λ f, wf_field f = true) fs → Forall (λ f : field, lay_pos (layout fuel E) f.1.2) fs.
Proof.
  intros HE Hfs. eapply Forall_impl; [exact Hfs|]. intros f Hf s a. apply layout_pos; [done|].
  unfold wf_field in Hf. by apply andb_true_iff in Hf as [? _].
Qed.

Lemma find_placed_inv sub f ps o t :
  find_placed sub f ps = Some (o, t) →
  ∃ p, p ∈ ps ∧ pl_bf p = false ∧
    ((o = pl_off p / 8 ∧ t = pl_type p) ∨ ∃ o', sub (pl_type p) = Some (o', t) ∧ o = pl_off p / 8 + o').
Proof.
  induction ps as [|p ps IH]; simpl; [done|]. intros H.
  assert (Hrec : find_placed sub f ps = Some (o, t) → ∃ p0, p0 ∈ p :: ps ∧ pl_bf p0 = false ∧
    ((o = pl_off p0 / 8 ∧ t = pl_type p0) ∨ ∃ o', sub (pl_type p0) = Some (o', t) ∧ o = pl_off p0 / 8 + o')).
  { intros (q & ? & ?)%IH. exists q. split; [set_solver|done]. }
  destruct (pl_bf p) eqn:Hb; [by apply Hrec|]. destruct (pl_name p) as [g|].
  - destruct (String.eqb f g); [|by apply Hrec]. simplify_eq. exists p. split; [set_solver|]. by eauto.
  - destruct (sub (pl_type p)) as [[o' t']|] eqn:Hs; [|by apply Hrec]. simplify_eq.
    exists p. split; [set_solver|]. by eauto.
Qed.

(** A member found by name is a member of a well-formed type and lies inside
    the object, so reading it touches no byte outside. *)
Lemma find_member_bounds fuel E t f o t' s a :
  wf_env E → wf_ctype t = true → layout fuel E t = Some (s, a) → find_member fuel E t f = Some (o, t') →
  wf_ctype t' = true ∧ ∃ fuel' s' a', layout fuel' E t' = Some (s', a') ∧ 0 <= o ∧ o + s' <= s.
Proof.
  intros HE. revert t s a o t'. induction fuel as [|fuel IH]; intros t s a o t' Ht HL HF; [done|].
  destruct t as [| |sz sg|t|t n|k n|vs|un pk fs]; cbn [layout find_member] in HL, HF; try done.
  - inv_bind HL. rewrite E0 in HF. simpl in HF. by eapply IH; [eapply HE| |].
  - inv_bind HL. rewrite E0 in HF. simpl in HF. destruct x as [[ps e] al]. simplify_eq.
    apply wf_comp in Ht. apply find_placed_inv in HF as (p & Hp & Hb & HF).
    destruct (place_comp_elem _ _ _ _ _ _ _ _ E0 Hp) as (g & pos & e' & a' & Hg & HM).
    destruct (place_member_width _ _ _ _ _ _ _ HM Hb) as (sp & ap & HLp & Hw & [q Hq]).
    apply place_member_type in HM. rewrite Forall_forall in Ht. pose proof (Ht _ Hg) as Hgw.
    apply andb_true_iff in Hgw as [Hgw _]. rewrite <- HM in Hgw.
    apply place_comp_bounds in E0 as (He & Hal & Hps); [|apply wf_fields_pos; [done|]|]; [|by apply Forall_forall..].
    destruct (Hps _ Hp) as (? & ? & ?).
    pose proof (align_up_ge e (8 * a)) as HU. destruct (align_up_divide e (8 * a)) as [u Hu].
    assert (align_up e (8 * a) / 8 = u * a) as -> by (rewrite Hu, Z.mul_assoc, (Z.mul_comm u 8), <- Z.mul_assoc, Z.mul_comm, Z.div_mul; lia).
    assert (Ho : pl_off p / 8 = q) by (rewrite Hq; apply Z.div_mul; lia).
    destruct HF as [[-> ->]|(o' & Hsub & ->)].
    + split; [done|]. exists fuel, sp, ap. split_and!; [done|lia|nia].
    + destruct (IH _ _ _ _ _ Hgw HLp Hsub) as (? & fuel' & s' & a'' & ? & ? & ?).
      split; [done|]. exists fuel', s', a''. split_and!; [done|lia|nia].
Qed.

#[global] Arguments layout : simpl never.
#[global] Arguments find_member : simpl never.
#[global] Arguments find_path : simpl never.
#[global] Arguments resolve : simpl never.
