(* ===== verification/VmlinuxCore.v ===== *)
(** * Kernel types of vmlinux.h: scalar types, locks, scheduling entities and the task

    The declarations of [src/bpf/headers/vmlinux.h] in file order, one definition
    each, member by member.  See [KernelTypes.v] for the selection. *)
From S2P Require Import Prelude CLayout.

Definition typedef___u8 : decl := Typedef "__u8" t_uchar.

Definition typedef___u16 : decl := Typedef "__u16" t_ushort.

Definition typedef___s32 : decl := Typedef "__s32" t_int.

Definition typedef___u32 : decl := Typedef "__u32" t_uint.

Definition typedef___s64 : decl := Typedef "__s64" t_llong.

Definition typedef___u64 : decl := Typedef "__u64" t_ullong.

Definition typedef_u8 : decl := Typedef "u8" (name_ "__u8").

Definition typedef_u16 : decl := Typedef "u16" (name_ "__u16").

Definition typedef_s32 : decl := Typedef "s32" (name_ "__s32").

Definition typedef_u32 : decl := Typedef "u32" (name_ "__u32").

Definition typedef_s64 : decl := Typedef "s64" (name_ "__s64").

Definition typedef_u64 : decl := Typedef "u64" (name_ "__u64").

Definition typedef___kernel_ulong_t : decl := Typedef "__kernel_ulong_t" t_ulong.

Definition typedef___kernel_pid_t : decl := Typedef "__kernel_pid_t" t_int.

Definition typedef___kernel_uid32_t : decl := Typedef "__kernel_uid32_t" t_uint.

Definition typedef___kernel_size_t : decl := Typedef "__kernel_size_t" (name_ "__kernel_ulong_t").

Definition typedef___kernel_clockid_t : decl := Typedef "__kernel_clockid_t" t_int.

Definition typedef_pid_t : decl := Typedef "pid_t" (name_ "__kernel_pid_t").

Definition typedef_clockid_t : decl := Typedef "clockid_t" (name_ "__kernel_clockid_t").

Definition typedef_uid_t : decl := Typedef "uid_t" (name_ "__kernel_uid32_t").

Definition typedef_size_t : decl := Typedef "size_t" (name_ "__kernel_size_t").

Definition typedef_ktime_t : decl := Typedef "ktime_t" (name_ "s64").

Definition typedef_atomic_t : decl := Typedef "atomic_t" (struct_body [mem "counter" t_int]).

Definition typedef_atomic64_t : decl := Typedef "atomic64_t" (struct_body [mem "counter" (name_ "s64")]).

Definition struct_list_head : decl := Struct "list_head" [
  mem "next" (ptr (struct_ "list_head"));
  mem "prev" (ptr (struct_ "list_head"))].

Definition struct_hlist_head : decl := Struct "hlist_head" [
  mem "first" (ptr (struct_ "hlist_node"))].

Definition struct_hlist_node : decl := Struct "hlist_node" [
  mem "next" (ptr (struct_ "hlist_node"));
  mem "pprev" (ptr (ptr (struct_ "hlist_node")))].

Definition struct_callback_head : decl := Struct "callback_head" [
  mem "next" (ptr (struct_ "callback_head"));
  mem "func" func_ptr].

Definition struct_qspinlock : decl := Struct "qspinlock" [
  anon (union_body [
    mem "val" (name_ "atomic_t");
    anon (struct_body [mem "locked" (name_ "u8"); mem "pending" (name_ "u8")]);
    anon (struct_body [mem "locked_pending" (name_ "u16"); mem "tail" (name_ "u16")])])].

Definition typedef_arch_spinlock_t : decl := Typedef "arch_spinlock_t" (struct_ "qspinlock").

Definition struct_raw_spinlock : decl := Struct "raw_spinlock" [
  mem "raw_lock" (name_ "arch_spinlock_t")].

Definition typedef_raw_spinlock_t : decl := Typedef "raw_spinlock_t" (struct_ "raw_spinlock").

Definition struct_thread_info : decl := Struct "thread_info" [
  mem "flags" t_ulong;
  mem "syscall_work" t_ulong;
  mem "status" (name_ "u32");
  mem "cpu" (name_ "u32")].

Definition struct_refcount_struct : decl := Struct "refcount_struct" [
  mem "refs" (name_ "atomic_t")].

Definition typedef_refcount_t : decl := Typedef "refcount_t" (struct_ "refcount_struct").

Definition struct_llist_node : decl := Struct "llist_node" [
  mem "next" (ptr (struct_ "llist_node"))].

Definition struct___call_single_node : decl := Struct "__call_single_node" [
  mem "llist" (struct_ "llist_node");
  anon (union_body [mem "u_flags" t_uint; mem "a_flags" (name_ "atomic_t")]);
  mem "src" (name_ "u16");
  mem "dst" (name_ "u16")].

Definition struct_load_weight : decl := Struct "load_weight" [
  mem "weight" t_ulong;
  mem "inv_weight" (name_ "u32")].

Definition struct_rb_node : decl := Struct "rb_node" [
  mem "__rb_parent_color" t_ulong;
  mem "rb_right" (ptr (struct_ "rb_node"));
  mem "rb_left" (ptr (struct_ "rb_node"))].

Definition struct_sched_avg : decl := Struct "sched_avg" [
  mem "last_update_time" (name_ "u64");
  mem "load_sum" (name_ "u64");
  mem "runnable_sum" (name_ "u64");
  mem "util_sum" (name_ "u32");
  mem "period_contrib" (name_ "u32");
  mem "load_avg" t_ulong;
  mem "runnable_avg" t_ulong;
  mem "util_avg" t_ulong;
  mem "util_est" t_uint].

Definition struct_sched_entity : decl := Struct "sched_entity" [
  mem "load" (struct_ "load_weight");
  mem "run_node" (struct_ "rb_node");
  mem "deadline" (name_ "u64");
  mem "min_vruntime" (name_ "u64");
  mem "min_slice" (name_ "u64");
  mem "group_node" (struct_ "list_head");
  mem "on_rq" t_uchar;
  mem "sched_delayed" t_uchar;
  mem "rel_deadline" t_uchar;
  mem "custom_slice" t_uchar;
  mem "exec_start" (name_ "u64");
  mem "sum_exec_runtime" (name_ "u64");
  mem "prev_sum_exec_runtime" (name_ "u64");
  mem "vruntime" (name_ "u64");
  mem "vlag" (name_ "s64");
  mem "slice" (name_ "u64");
  mem "nr_migrations" (name_ "u64");
  mem "depth" t_int;
  mem "parent" (ptr (struct_ "sched_entity"));
  mem "cfs_rq" (ptr (struct_ "cfs_rq"));
  mem "my_q" (ptr (struct_ "cfs_rq"));
  mem "runnable_weight" t_ulong;
  padbits t_long 64;
  mem "avg" (struct_ "sched_avg")].

Definition struct_sched_rt_entity : decl := Struct "sched_rt_entity" [
  mem "run_list" (struct_ "list_head");
  mem "timeout" t_ulong;
  mem "watchdog_stamp" t_ulong;
  mem "time_slice" t_uint;
  mem "on_rq" t_ushort;
  mem "on_list" t_ushort;
  mem "back" (ptr (struct_ "sched_rt_entity"))].

Definition struct_timerqueue_node : decl := Struct "timerqueue_node" [
  mem "node" (struct_ "rb_node");
  mem "expires" (name_ "ktime_t")].

Definition struct_hrtimer : decl := Struct "hrtimer" [
  mem "node" (struct_ "timerqueue_node");
  mem "_softexpires" (name_ "ktime_t");
  mem "function" func_ptr;
  mem "base" (ptr (struct_ "hrtimer_clock_base"));
  mem "state" (name_ "u8");
  mem "is_rel" (name_ "u8");
  mem "is_soft" (name_ "u8");
  mem "is_hard" (name_ "u8")].

Definition typedef_dl_server_has_tasks_f : decl := Typedef "dl_server_has_tasks_f" func_ptr.

Definition typedef_dl_server_pick_f : decl := Typedef "dl_server_pick_f" func_ptr.

Definition struct_sched_dl_entity : decl := Struct "sched_dl_entity" [
  mem "rb_node" (struct_ "rb_node");
  mem "dl_runtime" (name_ "u64");
  mem "dl_deadline" (name_ "u64");
  mem "dl_period" (name_ "u64");
  mem "dl_bw" (name_ "u64");
  mem "dl_density" (name_ "u64");
  mem "runtime" (name_ "s64");
  mem "deadline" (name_ "u64");
  mem "flags" t_uint;
  bits "dl_throttled" t_uint 1;
  bits "dl_yielded" t_uint 1;
  bits "dl_non_contending" t_uint 1;
  bits "dl_overrun" t_uint 1;
  bits "dl_server" t_uint 1;
  bits "dl_defer" t_uint 1;
  bits "dl_defer_armed" t_uint 1;
  bits "dl_defer_running" t_uint 1;
  mem "dl_timer" (struct_ "hrtimer");
  mem "inactive_timer" (struct_ "hrtimer");
  mem "rq" (ptr (struct_ "rq"));
  mem "server_has_tasks" (name_ "dl_server_has_tasks_f");
  mem "server_pick_task" (name_ "dl_server_pick_f");
  mem "pi_se" (ptr (struct_ "sched_dl_entity"))].

Definition struct_scx_dsq_list_node : decl := Struct "scx_dsq_list_node" [
  mem "node" (struct_ "list_head");
  mem "flags" (name_ "u32");
  mem "priv" (name_ "u32")].

Definition typedef_atomic_long_t : decl := Typedef "atomic_long_t" (name_ "atomic64_t").

Definition struct_sched_ext_entity : decl := Struct "sched_ext_entity" [
  mem "dsq" (ptr (struct_ "scx_dispatch_q"));
  mem "dsq_list" (struct_ "scx_dsq_list_node");
  mem "dsq_priq" (struct_ "rb_node");
  mem "dsq_seq" (name_ "u32");
  mem "dsq_flags" (name_ "u32");
  mem "flags" (name_ "u32");
  mem "weight" (name_ "u32");
  mem "sticky_cpu" (name_ "s32");
  mem "holding_cpu" (name_ "s32");
  mem "kf_mask" (name_ "u32");
  mem "kf_tasks" (arr (ptr (struct_ "task_struct")) 2);
  mem "ops_state" (name_ "atomic_long_t");
  mem "runnable_node" (struct_ "list_head");
  mem "runnable_at" t_ulong;
  mem "core_sched_at" (name_ "u64");
  mem "ddsp_dsq_id" (name_ "u64");
  mem "ddsp_enq_flags" (name_ "u64");
  mem "slice" (name_ "u64");
  mem "dsq_vtime" (name_ "u64");
  mem "disallow" t_bool;
  mem "cgrp_moving_from" (ptr (struct_ "cgroup"));
  mem "tasks_node" (struct_ "list_head")].

Definition struct_uclamp_se : decl := Struct "uclamp_se" [
  bits "value" t_uint 11;
  bits "bucket_id" t_uint 3;
  bits "active" t_uint 1;
  bits "user_defined" t_uint 1].

Definition struct_sched_statistics : decl := Struct "sched_statistics" [
  mem "wait_start" (name_ "u64");
  mem "wait_max" (name_ "u64");
  mem "wait_count" (name_ "u64");
  mem "wait_sum" (name_ "u64");
  mem "iowait_count" (name_ "u64");
  mem "iowait_sum" (name_ "u64");
  mem "sleep_start" (name_ "u64");
  mem "sleep_max" (name_ "u64");
  mem "sum_sleep_runtime" (name_ "s64");
  mem "block_start" (name_ "u64");
  mem "block_max" (name_ "u64");
  mem "sum_block_runtime" (name_ "s64");
  mem "exec_max" (name_ "s64");
  mem "slice_max" (name_ "u64");
  mem "nr_migrations_cold" (name_ "u64");
  mem "nr_failed_migrations_affine" (name_ "u64");
  mem "nr_failed_migrations_running" (name_ "u64");
  mem "nr_failed_migrations_hot" (name_ "u64");
  mem "nr_forced_migrations" (name_ "u64");
  mem "nr_wakeups" (name_ "u64");
  mem "nr_wakeups_sync" (name_ "u64");
  mem "nr_wakeups_migrate" (name_ "u64");
  mem "nr_wakeups_local" (name_ "u64");
  mem "nr_wakeups_remote" (name_ "u64");
  mem "nr_wakeups_affine" (name_ "u64");
  mem "nr_wakeups_affine_attempts" (name_ "u64");
  mem "nr_wakeups_passive" (name_ "u64");
  mem "nr_wakeups_idle" (name_ "u64");
  mem "core_forceidle_sum" (name_ "u64");
  padbits t_long 64;
  padbits t_long 64;
  padbits t_long 64].

Definition struct_cpumask : decl := Struct "cpumask" [
  mem "bits" (arr t_ulong 128)].

Definition typedef_cpumask_t : decl := Typedef "cpumask_t" (struct_ "cpumask").

Definition union_rcu_special : decl := Union "rcu_special" [
  mem "b" (struct_body [
    mem "blocked" (name_ "u8");
    mem "need_qs" (name_ "u8");
    mem "exp_hint" (name_ "u8");
    mem "need_mb" (name_ "u8")]);
  mem "s" (name_ "u32")].

Definition struct_sched_info : decl := Struct "sched_info" [
  mem "pcount" t_ulong;
  mem "run_delay" t_ullong;
  mem "last_arrival" t_ullong;
  mem "last_queued" t_ullong].

Definition struct_plist_node : decl := Struct "plist_node" [
  mem "prio" t_int;
  mem "prio_list" (struct_ "list_head");
  mem "node_list" (struct_ "list_head")].

Definition enum_timespec_type : decl := Enum "timespec_type" [("TT_NONE", 0); ("TT_NATIVE", 1);
  ("TT_COMPAT", 2)].

Definition struct_restart_block : decl := Struct "restart_block" [
  mem "arch_data" t_ulong;
  mem "fn" func_ptr;
  anon (union_body [
    mem "futex" (struct_body [
      mem "uaddr" (ptr (name_ "u32"));
      mem "val" (name_ "u32");
      mem "flags" (name_ "u32");
      mem "bitset" (name_ "u32");
      mem "time" (name_ "u64");
      mem "uaddr2" (ptr (name_ "u32"))]);
    mem "nanosleep" (struct_body [
      mem "clockid" (name_ "clockid_t");
      mem "type" (enum_ "timespec_type");
      anon (union_body [
        mem "rmtp" (ptr (struct_ "__kernel_timespec"));
        mem "compat_rmtp" (ptr (struct_ "old_timespec32"))]);
      mem "expires" (name_ "u64")]);
    mem "poll" (struct_body [
      mem "ufds" (ptr (struct_ "pollfd"));
      mem "nfds" t_int;
      mem "has_timeout" t_int;
      mem "tv_sec" t_ulong;
      mem "tv_nsec" t_ulong])])].

Definition struct_prev_cputime : decl := Struct "prev_cputime" [
  mem "utime" (name_ "u64");
  mem "stime" (name_ "u64");
  mem "lock" (name_ "raw_spinlock_t")].

Definition struct_seqcount : decl := Struct "seqcount" [
  mem "sequence" t_uint].

Definition typedef_seqcount_t : decl := Typedef "seqcount_t" (struct_ "seqcount").

Definition enum_vtime_state : decl := Enum "vtime_state" [("VTIME_INACTIVE", 0); ("VTIME_IDLE", 1);
  ("VTIME_SYS", 2); ("VTIME_USER", 3); ("VTIME_GUEST", 4)].

Definition struct_vtime : decl := Struct "vtime" [
  mem "seqcount" (name_ "seqcount_t");
  mem "starttime" t_ullong;
  mem "state" (enum_ "vtime_state");
  mem "cpu" t_uint;
  mem "utime" (name_ "u64");
  mem "stime" (name_ "u64");
  mem "gtime" (name_ "u64")].

Definition struct_rb_root : decl := Struct "rb_root" [
  mem "rb_node" (ptr (struct_ "rb_node"))].

Definition struct_rb_root_cached : decl := Struct "rb_root_cached" [
  mem "rb_root" (struct_ "rb_root");
  mem "rb_leftmost" (ptr (struct_ "rb_node"))].

Definition struct_timerqueue_head : decl := Struct "timerqueue_head" [
  mem "rb_root" (struct_ "rb_root_cached")].

Definition struct_posix_cputimer_base : decl := Struct "posix_cputimer_base" [
  mem "nextevt" (name_ "u64");
  mem "tqhead" (struct_ "timerqueue_head")].

Definition struct_posix_cputimers : decl := Struct "posix_cputimers" [
  mem "bases" (arr (struct_ "posix_cputimer_base") 3);
  mem "timers_active" t_uint;
  mem "expiry_active" t_uint].

Definition struct_optimistic_spin_queue : decl := Struct "optimistic_spin_queue" [
  mem "tail" (name_ "atomic_t")].

Definition struct_mutex : decl := Struct "mutex" [
  mem "owner" (name_ "atomic_long_t");
  mem "wait_lock" (name_ "raw_spinlock_t");
  mem "osq" (struct_ "optimistic_spin_queue");
  mem "wait_list" (struct_ "list_head")].

Definition struct_posix_cputimers_work : decl := Struct "posix_cputimers_work" [
  mem "work" (struct_ "callback_head");
  mem "mutex" (struct_ "mutex");
  mem "scheduled" t_uint].

Definition struct_sysv_sem : decl := Struct "sysv_sem" [
  mem "undo_list" (ptr (struct_ "sem_undo_list"))].

Definition struct_sysv_shm : decl := Struct "sysv_shm" [
  mem "shm_clist" (struct_ "list_head")].

Definition typedef_sigset_t : decl := Typedef "sigset_t" (struct_body [mem "sig" (arr t_ulong 1)]).

Definition struct_sigpending : decl := Struct "sigpending" [
  mem "list" (struct_ "list_head");
  mem "signal" (name_ "sigset_t")].

Definition typedef_kuid_t : decl := Typedef "kuid_t" (struct_body [mem "val" (name_ "uid_t")]).

Definition struct_seccomp : decl := Struct "seccomp" [
  mem "mode" t_int;
  mem "filter_count" (name_ "atomic_t");
  mem "filter" (ptr (struct_ "seccomp_filter"))].

Definition struct_syscall_user_dispatch : decl := Struct "syscall_user_dispatch" [
  mem "selector" (ptr t_char);
  mem "offset" t_ulong;
  mem "len" t_ulong;
  mem "on_dispatch" t_bool].

Definition struct_spinlock : decl := Struct "spinlock" [
  anon (union_body [mem "rlock" (struct_ "raw_spinlock")])].

Definition typedef_spinlock_t : decl := Typedef "spinlock_t" (struct_ "spinlock").

Definition struct_wake_q_node : decl := Struct "wake_q_node" [
  mem "next" (ptr (struct_ "wake_q_node"))].

Definition struct_task_io_accounting : decl := Struct "task_io_accounting" [
  mem "rchar" (name_ "u64");
  mem "wchar" (name_ "u64");
  mem "syscr" (name_ "u64");
  mem "syscw" (name_ "u64");
  mem "read_bytes" (name_ "u64");
  mem "write_bytes" (name_ "u64");
  mem "cancelled_write_bytes" (name_ "u64")].

Definition typedef_nodemask_t : decl := Typedef "nodemask_t" (struct_body [mem "bits" (arr t_ulong 16)]).

Definition struct_seqcount_spinlock : decl := Struct "seqcount_spinlock" [
  mem "seqcount" (name_ "seqcount_t")].

Definition typedef_seqcount_spinlock_t : decl := Typedef "seqcount_spinlock_t" (struct_
  "seqcount_spinlock").

Definition struct_arch_tlbflush_unmap_batch : decl := Struct "arch_tlbflush_unmap_batch" [
  mem "cpumask" (struct_ "cpumask")].

Definition struct_tlbflush_unmap_batch : decl := Struct "tlbflush_unmap_batch" [
  mem "arch" (struct_ "arch_tlbflush_unmap_batch");
  mem "flush_required" t_bool;
  mem "writable" t_bool].

Definition struct_page_frag : decl := Struct "page_frag" [
  mem "page" (ptr (struct_ "page"));
  mem "offset" (name_ "__u32");
  mem "size" (name_ "__u32")].

Definition struct_latency_record : decl := Struct "latency_record" [
  mem "backtrace" (arr t_ulong 12);
  mem "count" t_uint;
  mem "time" t_ulong;
  mem "max" t_ulong].

Definition struct_kmap_ctrl : decl := Struct "kmap_ctrl" [
].

Definition struct_timer_list : decl := Struct "timer_list" [
  mem "entry" (struct_ "hlist_node");
  mem "expires" t_ulong;
  mem "function" func_ptr;
  mem "flags" (name_ "u32")].

Definition struct_llist_head : decl := Struct "llist_head" [
  mem "first" (ptr (struct_ "llist_node"))].

Definition struct_da_monitor : decl := Struct "da_monitor" [
  mem "monitoring" t_bool;
  mem "curr_state" t_uint].

Definition union_rv_task_monitor : decl := Union "rv_task_monitor" [
  mem "da_mon" (struct_ "da_monitor")].

Definition struct_desc_struct : decl := Struct "desc_struct" [
  mem "limit0" (name_ "u16");
  mem "base0" (name_ "u16");
  bits "base1" (name_ "u16") 8;
  bits "type" (name_ "u16") 4;
  bits "s" (name_ "u16") 1;
  bits "dpl" (name_ "u16") 2;
  bits "p" (name_ "u16") 1;
  bits "limit1" (name_ "u16") 4;
  bits "avl" (name_ "u16") 1;
  bits "l" (name_ "u16") 1;
  bits "d" (name_ "u16") 1;
  bits "g" (name_ "u16") 1;
  bits "base2" (name_ "u16") 8].

Definition struct_thread_shstk : decl := Struct "thread_shstk" [
  mem "base" (name_ "u64");
  mem "size" (name_ "u64")].

Definition struct_fpu_state_perm : decl := Struct "fpu_state_perm" [
  mem "__state_perm" (name_ "u64");
  mem "__state_size" t_uint;
  mem "__user_state_size" t_uint].

Definition struct_fregs_state : decl := Struct "fregs_state" [
  mem "cwd" (name_ "u32");
  mem "swd" (name_ "u32");
  mem "twd" (name_ "u32");
  mem "fip" (name_ "u32");
  mem "fcs" (name_ "u32");
  mem "foo" (name_ "u32");
  mem "fos" (name_ "u32");
  mem "st_space" (arr (name_ "u32") 20);
  mem "status" (name_ "u32")].

Definition struct_fxregs_state : decl := Struct "fxregs_state" [
  mem "cwd" (name_ "u16");
  mem "swd" (name_ "u16");
  mem "twd" (name_ "u16");
  mem "fop" (name_ "u16");
  anon (union_body [
    anon (struct_body [mem "rip" (name_ "u64"); mem "rdp" (name_ "u64")]);
    anon (struct_body [
      mem "fip" (name_ "u32");
      mem "fcs" (name_ "u32");
      mem "foo" (name_ "u32");
      mem "fos" (name_ "u32")])]);
  mem "mxcsr" (name_ "u32");
  mem "mxcsr_mask" (name_ "u32");
  mem "st_space" (arr (name_ "u32") 32);
  mem "xmm_space" (arr (name_ "u32") 64);
  mem "padding" (arr (name_ "u32") 12);
  anon (union_body [
    mem "padding1" (arr (name_ "u32") 12);
    mem "sw_reserved" (arr (name_ "u32") 12)])].

Definition struct_swregs_state : decl := Struct "swregs_state" [
  mem "cwd" (name_ "u32");
  mem "swd" (name_ "u32");
  mem "twd" (name_ "u32");
  mem "fip" (name_ "u32");
  mem "fcs" (name_ "u32");
  mem "foo" (name_ "u32");
  mem "fos" (name_ "u32");
  mem "st_space" (arr (name_ "u32") 20);
  mem "ftop" (name_ "u8");
  mem "changed" (name_ "u8");
  mem "lookahead" (name_ "u8");
  mem "no_update" (name_ "u8");
  mem "rm" (name_ "u8");
  mem "alimit" (name_ "u8");
  mem "info" (ptr (struct_ "math_emu_info"));
  mem "entry_eip" (name_ "u32")].

Definition struct_xstate_header : decl := Struct "xstate_header" [
  mem "xfeatures" (name_ "u64");
  mem "xcomp_bv" (name_ "u64");
  mem "reserved" (arr (name_ "u64") 6)].

Definition struct_xregs_state : decl := Struct "xregs_state" [
  mem "i387" (struct_ "fxregs_state");
  mem "header" (struct_ "xstate_header");
  mem "extended_state_area" (arr (name_ "u8") 0)].

Definition union_fpregs_state : decl := Union "fpregs_state" [
  mem "fsave" (struct_ "fregs_state");
  mem "fxsave" (struct_ "fxregs_state");
  mem "soft" (struct_ "swregs_state");
  mem "xsave" (struct_ "xregs_state");
  mem "__padding" (arr (name_ "u8") 4096)].

Definition struct_fpstate : decl := Struct "fpstate" [
  mem "size" t_uint;
  mem "user_size" t_uint;
  mem "xfeatures" (name_ "u64");
  mem "user_xfeatures" (name_ "u64");
  mem "xfd" (name_ "u64");
  bits "is_valloc" t_uint 1;
  bits "is_guest" t_uint 1;
  bits "is_confidential" t_uint 1;
  bits "in_use" t_uint 1;
  padbits t_long 64;
  padbits t_long 64;
  padbits t_long 64;
  mem "regs" (union_ "fpregs_state")].

Definition struct_fpu : decl := Struct "fpu" [
  mem "last_cpu" t_uint;
  mem "avx512_timestamp" t_ulong;
  mem "fpstate" (ptr (struct_ "fpstate"));
  mem "__task_fpstate" (ptr (struct_ "fpstate"));
  mem "perm" (struct_ "fpu_state_perm");
  mem "guest_perm" (struct_ "fpu_state_perm");
  mem "__fpstate" (struct_ "fpstate")].

Definition struct_thread_struct : decl := Struct "thread_struct" [
  mem "tls_array" (arr (struct_ "desc_struct") 3);
  mem "sp" t_ulong;
  mem "es" t_ushort;
  mem "ds" t_ushort;
  mem "fsindex" t_ushort;
  mem "gsindex" t_ushort;
  mem "fsbase" t_ulong;
  mem "gsbase" t_ulong;
  mem "ptrace_bps" (arr (ptr (struct_ "perf_event")) 4);
  mem "virtual_dr6" t_ulong;
  mem "ptrace_dr7" t_ulong;
  mem "cr2" t_ulong;
  mem "trap_nr" t_ulong;
  mem "error_code" t_ulong;
  mem "io_bitmap" (ptr (struct_ "io_bitmap"));
  mem "iopl_emul" t_ulong;
  bits "iopl_warn" t_uint 1;
  mem "pkru" (name_ "u32");
  mem "features" t_ulong;
  mem "features_locked" t_ulong;
  mem "shstk" (struct_ "thread_shstk");
  padbits t_long 64;
  mem "fpu" (struct_ "fpu")].

Definition struct_task_struct : decl := Struct "task_struct" [
  mem "thread_info" (struct_ "thread_info");
  mem "__state" t_uint;
  mem "saved_state" t_uint;
  mem "stack" (ptr TVoid);
  mem "usage" (name_ "refcount_t");
  mem "flags" t_uint;
  mem "ptrace" t_uint;
  mem "on_cpu" t_int;
  mem "wake_entry" (struct_ "__call_single_node");
  mem "wakee_flips" t_uint;
  mem "wakee_flip_decay_ts" t_ulong;
  mem "last_wakee" (ptr (struct_ "task_struct"));
  mem "recent_used_cpu" t_int;
  mem "wake_cpu" t_int;
  mem "on_rq" t_int;
  mem "prio" t_int;
  mem "static_prio" t_int;
  mem "normal_prio" t_int;
  mem "rt_priority" t_uint;
  mem "se" (struct_ "sched_entity");
  mem "rt" (struct_ "sched_rt_entity");
  mem "dl" (struct_ "sched_dl_entity");
  mem "dl_server" (ptr (struct_ "sched_dl_entity"));
  mem "scx" (struct_ "sched_ext_entity");
  mem "sched_class" (ptr (struct_ "sched_class"));
  mem "core_node" (struct_ "rb_node");
  mem "core_cookie" t_ulong;
  mem "core_occupation" t_uint;
  mem "sched_task_group" (ptr (struct_ "task_group"));
  mem "uclamp_req" (arr (struct_ "uclamp_se") 2);
  mem "uclamp" (arr (struct_ "uclamp_se") 2);
  padbits t_long 64;
  padbits t_long 64;
  padbits t_long 64;
  padbits t_long 64;
  padbits t_long 64;
  padbits t_long 64;
  padbits t_long 64;
  mem "stats" (struct_ "sched_statistics");
  mem "preempt_notifiers" (struct_ "hlist_head");
  mem "btrace_seq" t_uint;
  mem "policy" t_uint;
  mem "max_allowed_capacity" t_ulong;
  mem "nr_cpus_allowed" t_int;
  mem "cpus_ptr" (ptr (name_ "cpumask_t"));
  mem "user_cpus_ptr" (ptr (name_ "cpumask_t"));
  mem "cpus_mask" (name_ "cpumask_t");
  mem "migration_pending" (ptr TVoid);
  mem "migration_disabled" t_ushort;
  mem "migration_flags" t_ushort;
  mem "rcu_read_lock_nesting" t_int;
  mem "rcu_read_unlock_special" (union_ "rcu_special");
  mem "rcu_node_entry" (struct_ "list_head");
  mem "rcu_blocked_node" (ptr (struct_ "rcu_node"));
  mem "rcu_tasks_nvcsw" t_ulong;
  mem "rcu_tasks_holdout" (name_ "u8");
  mem "rcu_tasks_idx" (name_ "u8");
  mem "rcu_tasks_idle_cpu" t_int;
  mem "rcu_tasks_holdout_list" (struct_ "list_head");
  mem "rcu_tasks_exit_cpu" t_int;
  mem "rcu_tasks_exit_list" (struct_ "list_head");
  mem "trc_reader_nesting" t_int;
  mem "trc_ipi_to_cpu" t_int;
  mem "trc_reader_special" (union_ "rcu_special");
  mem "trc_holdout_list" (struct_ "list_head");
  mem "trc_blkd_node" (struct_ "list_head");
  mem "trc_blkd_cpu" t_int;
  mem "sched_info" (struct_ "sched_info");
  mem "tasks" (struct_ "list_head");
  mem "pushable_tasks" (struct_ "plist_node");
  mem "pushable_dl_tasks" (struct_ "rb_node");
  mem "mm" (ptr (struct_ "mm_struct"));
  mem "active_mm" (ptr (struct_ "mm_struct"));
  mem "faults_disabled_mapping" (ptr (struct_ "address_space"));
  mem "exit_state" t_int;
  mem "exit_code" t_int;
  mem "exit_signal" t_int;
  mem "pdeath_signal" t_int;
  mem "jobctl" t_ulong;
  mem "personality" t_uint;
  bits "sched_reset_on_fork" t_uint 1;
  bits "sched_contributes_to_load" t_uint 1;
  bits "sched_migrated" t_uint 1;
  padbits t_long 29;
  bits "sched_remote_wakeup" t_uint 1;
  bits "sched_rt_mutex" t_uint 1;
  bits "in_execve" t_uint 1;
  bits "in_iowait" t_uint 1;
  bits "restore_sigmask" t_uint 1;
  bits "in_lru_fault" t_uint 1;
  bits "no_cgroup_migration" t_uint 1;
  bits "frozen" t_uint 1;
  bits "use_memdelay" t_uint 1;
  bits "in_memstall" t_uint 1;
  bits "in_eventfd" t_uint 1;
  bits "pasid_activated" t_uint 1;
  bits "reported_split_lock" t_uint 1;
  bits "in_thrashing" t_uint 1;
  mem "atomic_flags" t_ulong;
  mem "restart_block" (struct_ "restart_block");
  mem "pid" (name_ "pid_t");
  mem "tgid" (name_ "pid_t");
  mem "stack_canary" t_ulong;
  mem "real_parent" (ptr (struct_ "task_struct"));
  mem "parent" (ptr (struct_ "task_struct"));
  mem "children" (struct_ "list_head");
  mem "sibling" (struct_ "list_head");
  mem "group_leader" (ptr (struct_ "task_struct"));
  mem "ptraced" (struct_ "list_head");
  mem "ptrace_entry" (struct_ "list_head");
  mem "thread_pid" (ptr (struct_ "pid"));
  mem "pid_links" (arr (struct_ "hlist_node") 4);
  mem "thread_node" (struct_ "list_head");
  mem "vfork_done" (ptr (struct_ "completion"));
  mem "set_child_tid" (ptr t_int);
  mem "clear_child_tid" (ptr t_int);
  mem "worker_private" (ptr TVoid);
  mem "utime" (name_ "u64");
  mem "stime" (name_ "u64");
  mem "gtime" (name_ "u64");
  mem "prev_cputime" (struct_ "prev_cputime");
  mem "vtime" (struct_ "vtime");
  mem "tick_dep_mask" (name_ "atomic_t");
  mem "nvcsw" t_ulong;
  mem "nivcsw" t_ulong;
  mem "start_time" (name_ "u64");
  mem "start_boottime" (name_ "u64");
  mem "min_flt" t_ulong;
  mem "maj_flt" t_ulong;
  mem "posix_cputimers" (struct_ "posix_cputimers");
  mem "posix_cputimers_work" (struct_ "posix_cputimers_work");
  mem "ptracer_cred" (ptr (struct_ "cred"));
  mem "real_cred" (ptr (struct_ "cred"));
  mem "cred" (ptr (struct_ "cred"));
  mem "cached_requested_key" (ptr (struct_ "key"));
  mem "comm" (arr t_char 16);
  mem "nameidata" (ptr (struct_ "nameidata"));
  mem "sysvsem" (struct_ "sysv_sem");
  mem "sysvshm" (struct_ "sysv_shm");
  mem "last_switch_count" t_ulong;
  mem "last_switch_time" t_ulong;
  mem "fs" (ptr (struct_ "fs_struct"));
  mem "files" (ptr (struct_ "files_struct"));
  mem "io_uring" (ptr (struct_ "io_uring_task"));
  mem "nsproxy" (ptr (struct_ "nsproxy"));
  mem "signal" (ptr (struct_ "signal_struct"));
  mem "sighand" (ptr (struct_ "sighand_struct"));
  mem "blocked" (name_ "sigset_t");
  mem "real_blocked" (name_ "sigset_t");
  mem "saved_sigmask" (name_ "sigset_t");
  mem "pending" (struct_ "sigpending");
  mem "sas_ss_sp" t_ulong;
  mem "sas_ss_size" (name_ "size_t");
  mem "sas_ss_flags" t_uint;
  mem "task_works" (ptr (struct_ "callback_head"));
  mem "audit_context" (ptr (struct_ "audit_context"));
  mem "loginuid" (name_ "kuid_t");
  mem "sessionid" t_uint;
  mem "seccomp" (struct_ "seccomp");
  mem "syscall_dispatch" (struct_ "syscall_user_dispatch");
  mem "parent_exec_id" (name_ "u64");
  mem "self_exec_id" (name_ "u64");
  mem "alloc_lock" (name_ "spinlock_t");
  mem "pi_lock" (name_ "raw_spinlock_t");
  mem "wake_q" (struct_ "wake_q_node");
  mem "pi_waiters" (struct_ "rb_root_cached");
  mem "pi_top_task" (ptr (struct_ "task_struct"));
  mem "pi_blocked_on" (ptr (struct_ "rt_mutex_waiter"));
  mem "in_ubsan" t_uint;
  mem "journal_info" (ptr TVoid);
  mem "bio_list" (ptr (struct_ "bio_list"));
  mem "plug" (ptr (struct_ "blk_plug"));
  mem "reclaim_state" (ptr (struct_ "reclaim_state"));
  mem "io_context" (ptr (struct_ "io_context"));
  mem "capture_control" (ptr (struct_ "capture_control"));
  mem "ptrace_message" t_ulong;
  mem "last_siginfo" (ptr (name_ "kernel_siginfo_t"));
  mem "ioac" (struct_ "task_io_accounting");
  mem "psi_flags" t_uint;
  mem "acct_rss_mem1" (name_ "u64");
  mem "acct_vm_mem1" (name_ "u64");
  mem "acct_timexpd" (name_ "u64");
  mem "mems_allowed" (name_ "nodemask_t");
  mem "mems_allowed_seq" (name_ "seqcount_spinlock_t");
  mem "cpuset_mem_spread_rotor" t_int;
  mem "cgroups" (ptr (struct_ "css_set"));
  mem "cg_list" (struct_ "list_head");
  mem "closid" (name_ "u32");
  mem "rmid" (name_ "u32");
  mem "robust_list" (ptr (struct_ "robust_list_head"));
  mem "compat_robust_list" (ptr (struct_ "compat_robust_list_head"));
  mem "pi_state_list" (struct_ "list_head");
  mem "pi_state_cache" (ptr (struct_ "futex_pi_state"));
  mem "futex_exit_mutex" (struct_ "mutex");
  mem "futex_state" t_uint;
  mem "perf_recursion" (arr (name_ "u8") 4);
  mem "perf_event_ctxp" (ptr (struct_ "perf_event_context"));
  mem "perf_event_mutex" (struct_ "mutex");
  mem "perf_event_list" (struct_ "list_head");
  mem "mempolicy" (ptr (struct_ "mempolicy"));
  mem "il_prev" t_short;
  mem "il_weight" (name_ "u8");
  mem "pref_node_fork" t_short;
  mem "numa_scan_seq" t_int;
  mem "numa_scan_period" t_uint;
  mem "numa_scan_period_max" t_uint;
  mem "numa_preferred_nid" t_int;
  mem "numa_migrate_retry" t_ulong;
  mem "node_stamp" (name_ "u64");
  mem "last_task_numa_placement" (name_ "u64");
  mem "last_sum_exec_runtime" (name_ "u64");
  mem "numa_work" (struct_ "callback_head");
  mem "numa_group" (ptr (struct_ "numa_group"));
  mem "numa_faults" (ptr t_ulong);
  mem "total_numa_faults" t_ulong;
  mem "numa_faults_locality" (arr t_ulong 3);
  mem "numa_pages_migrated" t_ulong;
  mem "rseq" (ptr (struct_ "rseq"));
  mem "rseq_len" (name_ "u32");
  mem "rseq_sig" (name_ "u32");
  mem "rseq_event_mask" t_ulong;
  mem "mm_cid" t_int;
  mem "last_mm_cid" t_int;
  mem "migrate_from_cpu" t_int;
  mem "mm_cid_active" t_int;
  mem "cid_work" (struct_ "callback_head");
  mem "tlb_ubc" (struct_ "tlbflush_unmap_batch");
  mem "splice_pipe" (ptr (struct_ "pipe_inode_info"));
  mem "task_frag" (struct_ "page_frag");
  mem "delays" (ptr (struct_ "task_delay_info"));
  mem "nr_dirtied" t_int;
  mem "nr_dirtied_pause" t_int;
  mem "dirty_paused_when" t_ulong;
  mem "latency_record_count" t_int;
  mem "latency_record" (arr (struct_ "latency_record") 32);
  mem "timer_slack_ns" (name_ "u64");
  mem "default_timer_slack_ns" (name_ "u64");
  mem "curr_ret_stack" t_int;
  mem "curr_ret_depth" t_int;
  mem "ret_stack" (ptr t_ulong);
  mem "ftrace_timestamp" t_ullong;
  mem "trace_overrun" (name_ "atomic_t");
  mem "tracing_graph_pause" (name_ "atomic_t");
  mem "trace_recursion" t_ulong;
  mem "memcg_nr_pages_over_high" t_uint;
  mem "active_memcg" (ptr (struct_ "mem_cgroup"));
  mem "objcg" (ptr (struct_ "obj_cgroup"));
  mem "throttle_disk" (ptr (struct_ "gendisk"));
  mem "utask" (ptr (struct_ "uprobe_task"));
  mem "sequential_io" t_uint;
  mem "sequential_io_avg" t_uint;
  mem "kmap_ctrl" (struct_ "kmap_ctrl");
  mem "rcu" (struct_ "callback_head");
  mem "rcu_users" (name_ "refcount_t");
  mem "pagefault_disabled" t_int;
  mem "oom_reaper_list" (ptr (struct_ "task_struct"));
  mem "oom_reaper_timer" (struct_ "timer_list");
  mem "stack_vm_area" (ptr (struct_ "vm_struct"));
  mem "stack_refcount" (name_ "refcount_t");
  mem "patch_state" t_int;
  mem "security" (ptr TVoid);
  mem "bpf_storage" (ptr (struct_ "bpf_local_storage"));
  mem "bpf_ctx" (ptr (struct_ "bpf_run_ctx"));
  mem "bpf_net_context" (ptr (struct_ "bpf_net_context"));
  mem "mce_vaddr" (ptr TVoid);
  mem "mce_kflags" (name_ "__u64");
  mem "mce_addr" (name_ "u64");
  bits "mce_ripv" (name_ "__u64") 1;
  bits "mce_whole_page" (name_ "__u64") 1;
  bits "__mce_reserved" (name_ "__u64") 62;
  mem "mce_kill_me" (struct_ "callback_head");
  mem "mce_count" t_int;
  mem "kretprobe_instances" (struct_ "llist_head");
  mem "rethooks" (struct_ "llist_head");
  mem "l1d_flush_kill" (struct_ "callback_head");
  mem "rv" (arr (union_ "rv_task_monitor") 1);
  mem "user_event_mm" (ptr (struct_ "user_event_mm"));
  padbits t_long 64;
  mem "thread" (struct_ "thread_struct")].

Definition struct_fred_cs : decl := Struct "fred_cs" [
  bits "cs" (name_ "u64") 16;
  bits "sl" (name_ "u64") 2;
  bits "wfe" (name_ "u64") 1].

Definition struct_fred_ss : decl := Struct "fred_ss" [
  bits "ss" (name_ "u64") 16;
  bits "sti" (name_ "u64") 1;
  bits "swevent" (name_ "u64") 1;
  bits "nmi" (name_ "u64") 1;
  padbits t_int 13;
  bits "vector" (name_ "u64") 8;
  padbits t_short 8;
  bits "type" (name_ "u64") 4;
  padbits t_char 4;
  bits "enclave" (name_ "u64") 1;
  bits "lm" (name_ "u64") 1;
  bits "nested" (name_ "u64") 1;
  padbits t_char 1;
  bits "insnlen" (name_ "u64") 4].

Definition struct_pt_regs : decl := Struct "pt_regs" [
  mem "r15" t_ulong;
  mem "r14" t_ulong;
  mem "r13" t_ulong;
  mem "r12" t_ulong;
  mem "bp" t_ulong;
  mem "bx" t_ulong;
  mem "r11" t_ulong;
  mem "r10" t_ulong;
  mem "r9" t_ulong;
  mem "r8" t_ulong;
  mem "ax" t_ulong;
  mem "cx" t_ulong;
  mem "dx" t_ulong;
  mem "si" t_ulong;
  mem "di" t_ulong;
  mem "orig_ax" t_ulong;
  mem "ip" t_ulong;
  anon (union_body [
    mem "cs" (name_ "u16");
    mem "csx" (name_ "u64");
    mem "fred_cs" (struct_ "fred_cs")]);
  mem "flags" t_ulong;
  mem "sp" t_ulong;
  anon (union_body [
    mem "ss" (name_ "u16");
    mem "ssx" (name_ "u64");
    mem "fred_ss" (struct_ "fred_ss")])].

Definition enum_pid_type : decl := Enum "pid_type" [("PIDTYPE_PID", 0); ("PIDTYPE_TGID", 1);
  ("PIDTYPE_PGID", 2); ("PIDTYPE_SID", 3); ("PIDTYPE_MAX", 4)].

Definition typedef___kernel_gid32_t : decl := Typedef "__kernel_gid32_t" t_uint.

Definition typedef_gid_t : decl := Typedef "gid_t" (name_ "__kernel_gid32_t").

Definition typedef_kgid_t : decl := Typedef "kgid_t" (struct_body [mem "val" (name_ "gid_t")]).

Definition typedef_kernel_cap_t : decl := Typedef "kernel_cap_t" (struct_body [mem "val" (name_ "u64")]).

Definition struct_cred : decl := Struct "cred" [
  mem "usage" (name_ "atomic_long_t");
  mem "uid" (name_ "kuid_t");
  mem "gid" (name_ "kgid_t");
  mem "suid" (name_ "kuid_t");
  mem "sgid" (name_ "kgid_t");
  mem "euid" (name_ "kuid_t");
  mem "egid" (name_ "kgid_t");
  mem "fsuid" (name_ "kuid_t");
  mem "fsgid" (name_ "kgid_t");
  mem "securebits" t_uint;
  mem "cap_inheritable" (name_ "kernel_cap_t");
  mem "cap_permitted" (name_ "kernel_cap_t");
  mem "cap_effective" (name_ "kernel_cap_t");
  mem "cap_bset" (name_ "kernel_cap_t");
  mem "cap_ambient" (name_ "kernel_cap_t");
  mem "jit_keyring" t_uchar;
  mem "session_keyring" (ptr (struct_ "key"));
  mem "process_keyring" (ptr (struct_ "key"));
  mem "thread_keyring" (ptr (struct_ "key"));
  mem "request_key_auth" (ptr (struct_ "key"));
  mem "security" (ptr TVoid);
  mem "user" (ptr (struct_ "user_struct"));
  mem "user_ns" (ptr (struct_ "user_namespace"));
  mem "ucounts" (ptr (struct_ "ucounts"));
  mem "group_info" (ptr (struct_ "group_info"));
  anon (union_body [mem "non_rcu" t_int; mem "rcu" (struct_ "callback_head")])].

Definition struct_ns_common : decl := Struct "ns_common" [
  mem "stashed" (ptr (struct_ "dentry"));
  mem "ops" (ptr (struct_ "proc_ns_operations"));
  mem "inum" t_uint;
  mem "count" (name_ "refcount_t")].

Definition typedef___kernel_loff_t : decl := Typedef "__kernel_loff_t" t_llong.

Definition typedef___kernel_dev_t : decl := Typedef "__kernel_dev_t" (name_ "u32").

Definition typedef_dev_t : decl := Typedef "dev_t" (name_ "__kernel_dev_t").

Definition typedef_umode_t : decl := Typedef "umode_t" t_ushort.

Definition typedef_loff_t : decl := Typedef "loff_t" (name_ "__kernel_loff_t").

Definition typedef_int32_t : decl := Typedef "int32_t" (name_ "s32").

Definition typedef_uint32_t : decl := Typedef "uint32_t" (name_ "u32").

Definition typedef_sector_t : decl := Typedef "sector_t" (name_ "u64").

Definition typedef_blkcnt_t : decl := Typedef "blkcnt_t" (name_ "u64").

Definition typedef_gfp_t : decl := Typedef "gfp_t" t_uint.

Definition typedef_fmode_t : decl := Typedef "fmode_t" t_uint.

Definition struct_lock_class_key : decl := Struct "lock_class_key" [
].

Definition struct_file_system_type : decl := Struct "file_system_type" [
  mem "name" (ptr t_char);
  mem "fs_flags" t_int;
  mem "init_fs_context" func_ptr;
  mem "parameters" (ptr (struct_ "fs_parameter_spec"));
  mem "mount" func_ptr;
  mem "kill_sb" func_ptr;
  mem "owner" (ptr (struct_ "module"));
  mem "next" (ptr (struct_ "file_system_type"));
  mem "fs_supers" (struct_ "hlist_head");
  mem "s_lock_key" (struct_ "lock_class_key");
  mem "s_umount_key" (struct_ "lock_class_key");
  mem "s_vfs_rename_key" (struct_ "lock_class_key");
  mem "s_writers_key" (arr (struct_ "lock_class_key") 3);
  mem "i_lock_key" (struct_ "lock_class_key");
  mem "i_mutex_key" (struct_ "lock_class_key");
  mem "invalidate_lock_key" (struct_ "lock_class_key");
  mem "i_mutex_dir_key" (struct_ "lock_class_key")].

Definition struct_wait_queue_head : decl := Struct "wait_queue_head" [
  mem "lock" (name_ "spinlock_t");
  mem "head" (struct_ "list_head")].

Definition typedef_wait_queue_head_t : decl := Typedef "wait_queue_head_t" (struct_ "wait_queue_head").

Definition decls_VmlinuxCore : list decl := [
  typedef___u8; typedef___u16; typedef___s32; typedef___u32; typedef___s64; typedef___u64;
  typedef_u8; typedef_u16; typedef_s32; typedef_u32; typedef_s64; typedef_u64;
  typedef___kernel_ulong_t; typedef___kernel_pid_t; typedef___kernel_uid32_t;
  typedef___kernel_size_t; typedef___kernel_clockid_t; typedef_pid_t; typedef_clockid_t;
  typedef_uid_t; typedef_size_t; typedef_ktime_t; typedef_atomic_t; typedef_atomic64_t;
  struct_list_head; struct_hlist_head; struct_hlist_node; struct_callback_head; struct_qspinlock;
  typedef_arch_spinlock_t; struct_raw_spinlock; typedef_raw_spinlock_t; struct_thread_info;
  struct_refcount_struct; typedef_refcount_t; struct_llist_node; struct___call_single_node;
  struct_load_weight; struct_rb_node; struct_sched_avg; struct_sched_entity; struct_sched_rt_entity;
  struct_timerqueue_node; struct_hrtimer; typedef_dl_server_has_tasks_f; typedef_dl_server_pick_f;
  struct_sched_dl_entity; struct_scx_dsq_list_node; typedef_atomic_long_t; struct_sched_ext_entity;
  struct_uclamp_se; struct_sched_statistics; struct_cpumask; typedef_cpumask_t; union_rcu_special;
  struct_sched_info; struct_plist_node; enum_timespec_type; struct_restart_block;
  struct_prev_cputime; struct_seqcount; typedef_seqcount_t; enum_vtime_state; struct_vtime;
  struct_rb_root; struct_rb_root_cached; struct_timerqueue_head; struct_posix_cputimer_base;
  struct_posix_cputimers; struct_optimistic_spin_queue; struct_mutex; struct_posix_cputimers_work;
  struct_sysv_sem; struct_sysv_shm; typedef_sigset_t; struct_sigpending; typedef_kuid_t;
  struct_seccomp; struct_syscall_user_dispatch; struct_spinlock; typedef_spinlock_t;
  struct_wake_q_node; struct_task_io_accounting; typedef_nodemask_t; struct_seqcount_spinlock;
  typedef_seqcount_spinlock_t; struct_arch_tlbflush_unmap_batch; struct_tlbflush_unmap_batch;
  struct_page_frag; struct_latency_record; struct_kmap_ctrl; struct_timer_list; struct_llist_head;
  struct_da_monitor; union_rv_task_monitor; struct_desc_struct; struct_thread_shstk;
  struct_fpu_state_perm; struct_fregs_state; struct_fxregs_state; struct_swregs_state;
  struct_xstate_header; struct_xregs_state; union_fpregs_state; struct_fpstate; struct_fpu;
  struct_thread_struct; struct_task_struct; struct_fred_cs; struct_fred_ss; struct_pt_regs;
  enum_pid_type; typedef___kernel_gid32_t; typedef_gid_t; typedef_kgid_t; typedef_kernel_cap_t;
  struct_cred; struct_ns_common; typedef___kernel_loff_t; typedef___kernel_dev_t; typedef_dev_t;
  typedef_umode_t; typedef_loff_t; typedef_int32_t; typedef_uint32_t; typedef_sector_t;
  typedef_blkcnt_t; typedef_gfp_t; typedef_fmode_t; struct_lock_class_key; struct_file_system_type;
  struct_wait_queue_head; typedef_wait_queue_head_t].
