(* ===== verification/VmlinuxMm.v ===== *)
(** * Kernel types of vmlinux.h: memory management, work queues, files and devices

    The declarations of [src/bpf/headers/vmlinux.h] in file order, one definition
    each, member by member.  See [KernelTypes.v] for the selection. *)
From S2P Require Import Prelude CLayout.

Definition struct_qrwlock : decl := Struct "qrwlock" [
  anon (union_body [
    mem "cnts" (name_ "atomic_t");
    anon (struct_body [mem "wlocked" (name_ "u8"); mem "__lstate" (arr (name_ "u8") 3)])]);
  mem "wait_lock" (name_ "arch_spinlock_t")].

Definition typedef_arch_rwlock_t : decl := Typedef "arch_rwlock_t" (struct_ "qrwlock").

Definition struct_lockdep_map : decl := Struct "lockdep_map" [
].

Definition struct_page : decl := Struct "page" [
  mem "flags" t_ulong;
  anon (union_body [
    anon (struct_body [
      anon (union_body [
        mem "lru" (struct_ "list_head");
        anon (struct_body [mem "__filler" (ptr TVoid); mem "mlock_count" t_uint]);
        mem "buddy_list" (struct_ "list_head");
        mem "pcp_list" (struct_ "list_head")]);
      mem "mapping" (ptr (struct_ "address_space"));
      anon (union_body [mem "index" t_ulong; mem "share" t_ulong]);
      mem "private" t_ulong]);
    anon (struct_body [
      mem "pp_magic" t_ulong;
      mem "pp" (ptr (struct_ "page_pool"));
      mem "_pp_mapping_pad" t_ulong;
      mem "dma_addr" t_ulong;
      mem "pp_ref_count" (name_ "atomic_long_t")]);
    anon (struct_body [mem "compound_head" t_ulong]);
    anon (struct_body [
      mem "pgmap" (ptr (struct_ "dev_pagemap"));
      mem "zone_device_data" (ptr TVoid)]);
    mem "callback_head" (struct_ "callback_head")]);
  anon (union_body [mem "page_type" t_uint; mem "_mapcount" (name_ "atomic_t")]);
  mem "_refcount" (name_ "atomic_t");
  mem "memcg_data" t_ulong].

Definition struct_rw_semaphore : decl := Struct "rw_semaphore" [
  mem "count" (name_ "atomic_long_t");
  mem "owner" (name_ "atomic_long_t");
  mem "osq" (struct_ "optimistic_spin_queue");
  mem "wait_lock" (name_ "raw_spinlock_t");
  mem "wait_list" (struct_ "list_head")].

Definition struct_percpu_counter : decl := Struct "percpu_counter" [
  mem "lock" (name_ "raw_spinlock_t");
  mem "count" (name_ "s64");
  mem "list" (struct_ "list_head");
  mem "counters" (ptr (name_ "s32"))].

Definition typedef_work_func_t : decl := Typedef "work_func_t" func_ptr.

Definition struct_work_struct : decl := Struct "work_struct" [
  mem "data" (name_ "atomic_long_t");
  mem "entry" (struct_ "list_head");
  mem "func" (name_ "work_func_t")].

Definition struct_kref : decl := Struct "kref" [
  mem "refcount" (name_ "refcount_t")].

Definition struct_kobject : decl := Struct "kobject" [
  mem "name" (ptr t_char);
  mem "entry" (struct_ "list_head");
  mem "parent" (ptr (struct_ "kobject"));
  mem "kset" (ptr (struct_ "kset"));
  mem "ktype" (ptr (struct_ "kobj_type"));
  mem "sd" (ptr (struct_ "kernfs_node"));
  mem "kref" (struct_ "kref");
  bits "state_initialized" t_uint 1;
  bits "state_in_sysfs" t_uint 1;
  bits "state_add_uevent_sent" t_uint 1;
  bits "state_remove_uevent_sent" t_uint 1;
  bits "uevent_suppress" t_uint 1].

Definition typedef_fop_flags_t : decl := Typedef "fop_flags_t" t_uint.

Definition typedef_fl_owner_t : decl := Typedef "fl_owner_t" (ptr TVoid).

Definition struct_file_operations : decl := Struct "file_operations" [
  mem "owner" (ptr (struct_ "module"));
  mem "fop_flags" (name_ "fop_flags_t");
  mem "llseek" func_ptr;
  mem "read" func_ptr;
  mem "write" func_ptr;
  mem "read_iter" func_ptr;
  mem "write_iter" func_ptr;
  mem "iopoll" func_ptr;
  mem "iterate_shared" func_ptr;
  mem "poll" func_ptr;
  mem "unlocked_ioctl" func_ptr;
  mem "compat_ioctl" func_ptr;
  mem "mmap" func_ptr;
  mem "open" func_ptr;
  mem "flush" func_ptr;
  mem "release" func_ptr;
  mem "fsync" func_ptr;
  mem "fasync" func_ptr;
  mem "lock" func_ptr;
  mem "get_unmapped_area" func_ptr;
  mem "check_flags" func_ptr;
  mem "flock" func_ptr;
  mem "splice_write" func_ptr;
  mem "splice_read" func_ptr;
  mem "splice_eof" func_ptr;
  mem "setlease" func_ptr;
  mem "fallocate" func_ptr;
  mem "show_fdinfo" func_ptr;
  mem "copy_file_range" func_ptr;
  mem "remap_file_range" func_ptr;
  mem "fadvise" func_ptr;
  mem "uring_cmd" func_ptr;
  mem "uring_cmd_iopoll" func_ptr].

Definition typedef_cpumask_var_t : decl := Typedef "cpumask_var_t" (ptr (struct_ "cpumask")).

Definition struct_rcuwait : decl := Struct "rcuwait" [
  mem "task" (ptr (struct_ "task_struct"))].

Definition struct_xarray : decl := Struct "xarray" [
  mem "xa_lock" (name_ "spinlock_t");
  mem "xa_flags" (name_ "gfp_t");
  mem "xa_head" (ptr TVoid)].

Definition typedef_rwlock_t : decl := Typedef "rwlock_t" (struct_body [mem "raw_lock" (name_
  "arch_rwlock_t")]).

Definition struct_percpu_ref : decl := Struct "percpu_ref" [
  mem "percpu_count_ptr" t_ulong;
  mem "data" (ptr (struct_ "percpu_ref_data"))].

Definition typedef_errseq_t : decl := Typedef "errseq_t" (name_ "u32").

Definition struct_address_space : decl := Struct "address_space" [
  mem "host" (ptr (struct_ "inode"));
  mem "i_pages" (struct_ "xarray");
  mem "invalidate_lock" (struct_ "rw_semaphore");
  mem "gfp_mask" (name_ "gfp_t");
  mem "i_mmap_writable" (name_ "atomic_t");
  mem "i_mmap" (struct_ "rb_root_cached");
  mem "nrpages" t_ulong;
  mem "writeback_index" t_ulong;
  mem "a_ops" (ptr (struct_ "address_space_operations"));
  mem "flags" t_ulong;
  mem "wb_err" (name_ "errseq_t");
  mem "i_private_lock" (name_ "spinlock_t");
  mem "i_private_list" (struct_ "list_head");
  mem "i_mmap_rwsem" (struct_ "rw_semaphore");
  mem "i_private_data" (ptr TVoid)].

Definition struct_swait_queue_head : decl := Struct "swait_queue_head" [
  mem "lock" (name_ "raw_spinlock_t");
  mem "task_list" (struct_ "list_head")].

Definition struct_completion : decl := Struct "completion" [
  mem "done" t_uint;
  mem "wait" (struct_ "swait_queue_head")].

Definition typedef_key_serial_t : decl := Typedef "key_serial_t" (name_ "int32_t").

Definition typedef_time64_t : decl := Typedef "time64_t" (name_ "__s64").

Definition struct_timespec64 : decl := Struct "timespec64" [
  mem "tv_sec" (name_ "time64_t");
  mem "tv_nsec" t_long].

Definition struct_delayed_work : decl := Struct "delayed_work" [
  mem "work" (struct_ "work_struct");
  mem "timer" (struct_ "timer_list");
  mem "wq" (ptr (struct_ "workqueue_struct"));
  mem "cpu" t_int].

Definition struct_path : decl := Struct "path" [
  mem "mnt" (ptr (struct_ "vfsmount"));
  mem "dentry" (ptr (struct_ "dentry"))].

Definition struct_file_ra_state : decl := Struct "file_ra_state" [
  mem "start" t_ulong;
  mem "size" t_uint;
  mem "async_size" t_uint;
  mem "ra_pages" t_uint;
  mem "mmap_miss" t_uint;
  mem "prev_pos" (name_ "loff_t")].

Definition typedef_freeptr_t : decl := Typedef "freeptr_t" (struct_body [mem "v" t_ulong]).

Definition struct_file : decl := Struct "file" [
  mem "f_count" (name_ "atomic_long_t");
  mem "f_lock" (name_ "spinlock_t");
  mem "f_mode" (name_ "fmode_t");
  mem "f_op" (ptr (struct_ "file_operations"));
  mem "f_mapping" (ptr (struct_ "address_space"));
  mem "private_data" (ptr TVoid);
  mem "f_inode" (ptr (struct_ "inode"));
  mem "f_flags" t_uint;
  mem "f_iocb_flags" t_uint;
  mem "f_cred" (ptr (struct_ "cred"));
  mem "f_path" (struct_ "path");
  anon (union_body [mem "f_pos_lock" (struct_ "mutex"); mem "f_pipe" (name_ "u64")]);
  mem "f_pos" (name_ "loff_t");
  mem "f_security" (ptr TVoid);
  mem "f_owner" (ptr (struct_ "fown_struct"));
  mem "f_wb_err" (name_ "errseq_t");
  mem "f_sb_err" (name_ "errseq_t");
  mem "f_ep" (ptr (struct_ "hlist_head"));
  anon (union_body [
    mem "f_task_work" (struct_ "callback_head");
    mem "f_llist" (struct_ "llist_node");
    mem "f_ra" (struct_ "file_ra_state");
    mem "f_freeptr" (name_ "freeptr_t")])].

Definition struct_uid_gid_extent : decl := Struct "uid_gid_extent" [
  mem "first" (name_ "u32");
  mem "lower_first" (name_ "u32");
  mem "count" (name_ "u32")].

Definition struct_uid_gid_map : decl := Struct "uid_gid_map" [
  anon (union_body [
    anon (struct_body [
      mem "extent" (arr (struct_ "uid_gid_extent") 5);
      mem "nr_extents" (name_ "u32")]);
    anon (struct_body [
      mem "forward" (ptr (struct_ "uid_gid_extent"));
      mem "reverse" (ptr (struct_ "uid_gid_extent"))])])].

Definition struct_ctl_table_header : decl := Struct "ctl_table_header" [
  anon (union_body [
    anon (struct_body [
      mem "ctl_table" (ptr (struct_ "ctl_table"));
      mem "ctl_table_size" t_int;
      mem "used" t_int;
      mem "count" t_int;
      mem "nreg" t_int]);
    mem "rcu" (struct_ "callback_head")]);
  mem "unregistering" (ptr (struct_ "completion"));
  mem "ctl_table_arg" (ptr (struct_ "ctl_table"));
  mem "root" (ptr (struct_ "ctl_table_root"));
  mem "set" (ptr (struct_ "ctl_table_set"));
  mem "parent" (ptr (struct_ "ctl_dir"));
  mem "node" (ptr (struct_ "ctl_node"));
  mem "inodes" (struct_ "hlist_head");
  mem "type" (TEnum [("SYSCTL_TABLE_TYPE_DEFAULT", 0); ("SYSCTL_TABLE_TYPE_PERMANENTLY_EMPTY", 1)])].

Definition struct_ctl_dir : decl := Struct "ctl_dir" [
  mem "header" (struct_ "ctl_table_header");
  mem "root" (struct_ "rb_root")].

Definition struct_ctl_table_set : decl := Struct "ctl_table_set" [
  mem "is_seen" func_ptr;
  mem "dir" (struct_ "ctl_dir")].

Definition struct_user_namespace : decl := Struct "user_namespace" [
  mem "uid_map" (struct_ "uid_gid_map");
  mem "gid_map" (struct_ "uid_gid_map");
  mem "projid_map" (struct_ "uid_gid_map");
  mem "parent" (ptr (struct_ "user_namespace"));
  mem "level" t_int;
  mem "owner" (name_ "kuid_t");
  mem "group" (name_ "kgid_t");
  mem "ns" (struct_ "ns_common");
  mem "flags" t_ulong;
  mem "parent_could_setfcap" t_bool;
  mem "keyring_name_list" (struct_ "list_head");
  mem "user_keyring_register" (ptr (struct_ "key"));
  mem "keyring_sem" (struct_ "rw_semaphore");
  mem "persistent_keyring_register" (ptr (struct_ "key"));
  mem "work" (struct_ "work_struct");
  mem "set" (struct_ "ctl_table_set");
  mem "sysctls" (ptr (struct_ "ctl_table_header"));
  mem "ucounts" (ptr (struct_ "ucounts"));
  mem "ucount_max" (arr t_long 12);
  mem "rlimit_max" (arr t_long 4);
  mem "binfmt_misc" (ptr (struct_ "binfmt_misc"))].

Definition struct_list_lru : decl := Struct "list_lru" [
  mem "node" (ptr (struct_ "list_lru_node"));
  mem "list" (struct_ "list_head");
  mem "shrinker_id" t_int;
  mem "memcg_aware" t_bool;
  mem "xa" (struct_ "xarray")].

Definition struct_kstat : decl := Struct "kstat" [
  mem "result_mask" (name_ "u32");
  mem "mode" (name_ "umode_t");
  mem "nlink" t_uint;
  mem "blksize" (name_ "uint32_t");
  mem "attributes" (name_ "u64");
  mem "attributes_mask" (name_ "u64");
  mem "ino" (name_ "u64");
  mem "dev" (name_ "dev_t");
  mem "rdev" (name_ "dev_t");
  mem "uid" (name_ "kuid_t");
  mem "gid" (name_ "kgid_t");
  mem "size" (name_ "loff_t");
  mem "atime" (struct_ "timespec64");
  mem "mtime" (struct_ "timespec64");
  mem "ctime" (struct_ "timespec64");
  mem "btime" (struct_ "timespec64");
  mem "blocks" (name_ "u64");
  mem "mnt_id" (name_ "u64");
  mem "dio_mem_align" (name_ "u32");
  mem "dio_offset_align" (name_ "u32");
  mem "change_cookie" (name_ "u64");
  mem "subvol" (name_ "u64");
  mem "atomic_write_unit_min" (name_ "u32");
  mem "atomic_write_unit_max" (name_ "u32");
  mem "atomic_write_segments_max" (name_ "u32")].

Definition enum_dl_dev_state : decl := Enum "dl_dev_state" [("DL_DEV_NO_DRIVER", 0); ("DL_DEV_PROBING", 1);
  ("DL_DEV_DRIVER_BOUND", 2); ("DL_DEV_UNBINDING", 3)].

Definition struct_dev_links_info : decl := Struct "dev_links_info" [
  mem "suppliers" (struct_ "list_head");
  mem "consumers" (struct_ "list_head");
  mem "defer_sync" (struct_ "list_head");
  mem "status" (enum_ "dl_dev_state")].

Definition struct_pm_message : decl := Struct "pm_message" [
  mem "event" t_int].

Definition typedef_pm_message_t : decl := Typedef "pm_message_t" (struct_ "pm_message").

Definition enum_rpm_request : decl := Enum "rpm_request" [("RPM_REQ_NONE", 0); ("RPM_REQ_IDLE", 1);
  ("RPM_REQ_SUSPEND", 2); ("RPM_REQ_AUTOSUSPEND", 3); ("RPM_REQ_RESUME", 4)].

Definition enum_rpm_status : decl := Enum "rpm_status" [("RPM_INVALID", -1); ("RPM_ACTIVE", 0);
  ("RPM_RESUMING", 1); ("RPM_SUSPENDED", 2); ("RPM_SUSPENDING", 3)].

Definition struct_dev_pm_info : decl := Struct "dev_pm_info" [
  mem "power_state" (name_ "pm_message_t");
  bits "can_wakeup" t_bool 1;
  bits "async_suspend" t_bool 1;
  bits "in_dpm_list" t_bool 1;
  bits "is_prepared" t_bool 1;
  bits "is_suspended" t_bool 1;
  bits "is_noirq_suspended" t_bool 1;
  bits "is_late_suspended" t_bool 1;
  bits "no_pm" t_bool 1;
  bits "early_init" t_bool 1;
  bits "direct_complete" t_bool 1;
  mem "driver_flags" (name_ "u32");
  mem "lock" (name_ "spinlock_t");
  mem "entry" (struct_ "list_head");
  mem "completion" (struct_ "completion");
  mem "wakeup" (ptr (struct_ "wakeup_source"));
  bits "wakeup_path" t_bool 1;
  bits "syscore" t_bool 1;
  bits "no_pm_callbacks" t_bool 1;
  bits "async_in_progress" t_bool 1;
  bits "must_resume" t_bool 1;
  bits "may_skip_resume" t_bool 1;
  mem "suspend_timer" (struct_ "hrtimer");
  mem "timer_expires" (name_ "u64");
  mem "work" (struct_ "work_struct");
  mem "wait_queue" (name_ "wait_queue_head_t");
  mem "wakeirq" (ptr (struct_ "wake_irq"));
  mem "usage_count" (name_ "atomic_t");
  mem "child_count" (name_ "atomic_t");
  bits "disable_depth" t_uint 3;
  bits "idle_notification" t_bool 1;
  bits "request_pending" t_bool 1;
  bits "deferred_resume" t_bool 1;
  bits "needs_force_resume" t_bool 1;
  bits "runtime_auto" t_bool 1;
  bits "ignore_children" t_bool 1;
  bits "no_callbacks" t_bool 1;
  bits "irq_safe" t_bool 1;
  bits "use_autosuspend" t_bool 1;
  bits "timer_autosuspends" t_bool 1;
  bits "memalloc_noio" t_bool 1;
  mem "links_count" t_uint;
  mem "request" (enum_ "rpm_request");
  mem "runtime_status" (enum_ "rpm_status");
  mem "last_status" (enum_ "rpm_status");
  mem "runtime_error" t_int;
  mem "autosuspend_delay" t_int;
  mem "last_busy" (name_ "u64");
  mem "active_time" (name_ "u64");
  mem "suspended_time" (name_ "u64");
  mem "accounting_timestamp" (name_ "u64");
  mem "subsys_data" (ptr (struct_ "pm_subsys_data"));
  mem "set_latency_tolerance" func_ptr;
  mem "qos" (ptr (struct_ "dev_pm_qos"))].

Definition struct_dev_msi_info : decl := Struct "dev_msi_info" [
  mem "domain" (ptr (struct_ "irq_domain"));
  mem "data" (ptr (struct_ "msi_device_data"))].

Definition struct_dev_archdata : decl := Struct "dev_archdata" [
].

Definition enum_device_removable : decl := Enum "device_removable" [("DEVICE_REMOVABLE_NOT_SUPPORTED", 0);
  ("DEVICE_REMOVABLE_UNKNOWN", 1); ("DEVICE_FIXED", 2); ("DEVICE_REMOVABLE", 3)].

Definition struct_device : decl := Struct "device" [
  mem "kobj" (struct_ "kobject");
  mem "parent" (ptr (struct_ "device"));
  mem "p" (ptr (struct_ "device_private"));
  mem "init_name" (ptr t_char);
  mem "type" (ptr (struct_ "device_type"));
  mem "bus" (ptr (struct_ "bus_type"));
  mem "driver" (ptr (struct_ "device_driver"));
  mem "platform_data" (ptr TVoid);
  mem "driver_data" (ptr TVoid);
  mem "mutex" (struct_ "mutex");
  mem "links" (struct_ "dev_links_info");
  mem "power" (struct_ "dev_pm_info");
  mem "pm_domain" (ptr (struct_ "dev_pm_domain"));
  mem "em_pd" (ptr (struct_ "em_perf_domain"));
  mem "pins" (ptr (struct_ "dev_pin_info"));
  mem "msi" (struct_ "dev_msi_info");
  mem "dma_ops" (ptr (struct_ "dma_map_ops"));
  mem "dma_mask" (ptr (name_ "u64"));
  mem "coherent_dma_mask" (name_ "u64");
  mem "bus_dma_limit" (name_ "u64");
  mem "dma_range_map" (ptr (struct_ "bus_dma_region"));
  mem "dma_parms" (ptr (struct_ "device_dma_parameters"));
  mem "dma_pools" (struct_ "list_head");
  mem "dma_io_tlb_mem" (ptr (struct_ "io_tlb_mem"));
  mem "dma_io_tlb_pools" (struct_ "list_head");
  mem "dma_io_tlb_lock" (name_ "spinlock_t");
  mem "dma_uses_io_tlb" t_bool;
  mem "archdata" (struct_ "dev_archdata");
  mem "of_node" (ptr (struct_ "device_node"));
  mem "fwnode" (ptr (struct_ "fwnode_handle"));
  mem "numa_node" t_int;
  mem "devt" (name_ "dev_t");
  mem "id" (name_ "u32");
  mem "devres_lock" (name_ "spinlock_t");
  mem "devres_head" (struct_ "list_head");
  mem "class" (ptr (struct_ "class"));
  mem "groups" (ptr (ptr (struct_ "attribute_group")));
  mem "release" func_ptr;
  mem "iommu_group" (ptr (struct_ "iommu_group"));
  mem "iommu" (ptr (struct_ "dev_iommu"));
  mem "physical_location" (ptr (struct_ "device_physical_location"));
  mem "removable" (enum_ "device_removable");
  bits "offline_disabled" t_bool 1;
  bits "offline" t_bool 1;
  bits "of_node_reused" t_bool 1;
  bits "state_synced" t_bool 1;
  bits "can_match" t_bool 1;
  bits "dma_skip_sync" t_bool 1;
  bits "dma_iommu" t_bool 1].

Definition decls_VmlinuxMm : list decl := [
  struct_qrwlock; typedef_arch_rwlock_t; struct_lockdep_map; struct_page; struct_rw_semaphore;
  struct_percpu_counter; typedef_work_func_t; struct_work_struct; struct_kref; struct_kobject;
  typedef_fop_flags_t; typedef_fl_owner_t; struct_file_operations; typedef_cpumask_var_t;
  struct_rcuwait; struct_xarray; typedef_rwlock_t; struct_percpu_ref; typedef_errseq_t;
  struct_address_space; struct_swait_queue_head; struct_completion; typedef_key_serial_t;
  typedef_time64_t; struct_timespec64; struct_delayed_work; struct_path; struct_file_ra_state;
  typedef_freeptr_t; struct_file; struct_uid_gid_extent; struct_uid_gid_map;
  struct_ctl_table_header; struct_ctl_dir; struct_ctl_table_set; struct_user_namespace;
  struct_list_lru; struct_kstat; enum_dl_dev_state; struct_dev_links_info; struct_pm_message;
  typedef_pm_message_t; enum_rpm_request; enum_rpm_status; struct_dev_pm_info; struct_dev_msi_info;
  struct_dev_archdata; enum_device_removable; struct_device].
