(* ===== verification/VmlinuxFs.v ===== *)
(** * Kernel types of vmlinux.h: VFS objects (dentry, inode, super_block), quota, block devices, tracing

    The declarations of [src/bpf/headers/vmlinux.h] in file order, one definition
    each, member by member.  See [KernelTypes.v] for the selection. *)
From S2P Require Import Prelude CLayout.

Definition struct_iovec : decl := Struct "iovec" [
  mem "iov_base" (ptr TVoid);
  mem "iov_len" (name_ "__kernel_size_t")].

Definition struct_kvec : decl := Struct "kvec" [
  mem "iov_base" (ptr TVoid);
  mem "iov_len" (name_ "size_t")].

Definition struct_bio_vec : decl := Struct "bio_vec" [
  mem "bv_page" (ptr (struct_ "page"));
  mem "bv_len" t_uint;
  mem "bv_offset" t_uint].

Definition struct_folio_batch : decl := Struct "folio_batch" [
  mem "nr" t_uchar;
  mem "i" t_uchar;
  mem "percpu_pvec_drained" t_bool;
  mem "folios" (arr (ptr (struct_ "folio")) 31)].

Definition struct_folio_queue : decl := Struct "folio_queue" [
  mem "vec" (struct_ "folio_batch");
  mem "orders" (arr (name_ "u8") 31);
  mem "next" (ptr (struct_ "folio_queue"));
  mem "prev" (ptr (struct_ "folio_queue"));
  mem "marks" t_ulong;
  mem "marks2" t_ulong;
  mem "marks3" t_ulong].

Definition struct_iov_iter : decl := Struct "iov_iter" [
  mem "iter_type" (name_ "u8");
  mem "nofault" t_bool;
  mem "data_source" t_bool;
  mem "iov_offset" (name_ "size_t");
  anon (union_body [
    mem "__ubuf_iovec" (struct_ "iovec");
    anon (struct_body [
      anon (union_body [
        mem "__iov" (ptr (struct_ "iovec"));
        mem "kvec" (ptr (struct_ "kvec"));
        mem "bvec" (ptr (struct_ "bio_vec"));
        mem "folioq" (ptr (struct_ "folio_queue"));
        mem "xarray" (ptr (struct_ "xarray"));
        mem "ubuf" (ptr TVoid)]);
      mem "count" (name_ "size_t")])]);
  anon (union_body [
    mem "nr_segs" t_ulong;
    mem "folioq_slot" (name_ "u8");
    mem "xarray_start" (name_ "loff_t")])].

Definition struct_kiocb : decl := Struct "kiocb" [
  mem "ki_filp" (ptr (struct_ "file"));
  mem "ki_pos" (name_ "loff_t");
  mem "ki_complete" func_ptr;
  mem "private" (ptr TVoid);
  mem "ki_flags" t_int;
  mem "ki_ioprio" (name_ "u16");
  anon (union_body [mem "ki_waitq" (ptr (struct_ "wait_page_queue")); mem "dio_complete" func_ptr])].

Definition struct_hlist_bl_head : decl := Struct "hlist_bl_head" [
  mem "first" (ptr (struct_ "hlist_bl_node"))].

Definition struct_hlist_bl_node : decl := Struct "hlist_bl_node" [
  mem "next" (ptr (struct_ "hlist_bl_node"));
  mem "pprev" (ptr (ptr (struct_ "hlist_bl_node")))].

Definition struct_lockref : decl := Struct "lockref" [
  anon (union_body [
    mem "lock_count" (name_ "__u64");
    anon (struct_body [mem "lock" (name_ "spinlock_t"); mem "count" t_int])])].

Definition struct_qstr : decl := Struct "qstr" [
  anon (union_body [
    anon (struct_body [mem "hash" (name_ "u32"); mem "len" (name_ "u32")]);
    mem "hash_len" (name_ "u64")]);
  mem "name" (ptr t_uchar)].

Definition struct_dentry : decl := Struct "dentry" [
  mem "d_flags" t_uint;
  mem "d_seq" (name_ "seqcount_spinlock_t");
  mem "d_hash" (struct_ "hlist_bl_node");
  mem "d_parent" (ptr (struct_ "dentry"));
  mem "d_name" (struct_ "qstr");
  mem "d_inode" (ptr (struct_ "inode"));
  mem "d_iname" (arr t_uchar 40);
  mem "d_op" (ptr (struct_ "dentry_operations"));
  mem "d_sb" (ptr (struct_ "super_block"));
  mem "d_time" t_ulong;
  mem "d_fsdata" (ptr TVoid);
  mem "d_lockref" (struct_ "lockref");
  anon (union_body [
    mem "d_lru" (struct_ "list_head");
    mem "d_wait" (ptr (name_ "wait_queue_head_t"))]);
  mem "d_sib" (struct_ "hlist_node");
  mem "d_children" (struct_ "hlist_head");
  mem "d_u" (union_body [
    mem "d_alias" (struct_ "hlist_node");
    mem "d_in_lookup_hash" (struct_ "hlist_bl_node");
    mem "d_rcu" (struct_ "callback_head")])].

Definition enum_rw_hint : decl := Enum "rw_hint" [("WRITE_LIFE_NOT_SET", 0); ("WRITE_LIFE_NONE", 1);
  ("WRITE_LIFE_SHORT", 2); ("WRITE_LIFE_MEDIUM", 3); ("WRITE_LIFE_LONG", 4); ("WRITE_LIFE_EXTREME", 5)].

Definition struct_inode : decl := Struct "inode" [
  mem "i_mode" (name_ "umode_t");
  mem "i_opflags" t_ushort;
  mem "i_uid" (name_ "kuid_t");
  mem "i_gid" (name_ "kgid_t");
  mem "i_flags" t_uint;
  mem "i_acl" (ptr (struct_ "posix_acl"));
  mem "i_default_acl" (ptr (struct_ "posix_acl"));
  mem "i_op" (ptr (struct_ "inode_operations"));
  mem "i_sb" (ptr (struct_ "super_block"));
  mem "i_mapping" (ptr (struct_ "address_space"));
  mem "i_security" (ptr TVoid);
  mem "i_ino" t_ulong;
  anon (union_body [mem "i_nlink" t_uint; mem "__i_nlink" t_uint]);
  mem "i_rdev" (name_ "dev_t");
  mem "i_size" (name_ "loff_t");
  mem "i_atime_sec" (name_ "time64_t");
  mem "i_mtime_sec" (name_ "time64_t");
  mem "i_ctime_sec" (name_ "time64_t");
  mem "i_atime_nsec" (name_ "u32");
  mem "i_mtime_nsec" (name_ "u32");
  mem "i_ctime_nsec" (name_ "u32");
  mem "i_generation" (name_ "u32");
  mem "i_lock" (name_ "spinlock_t");
  mem "i_bytes" t_ushort;
  mem "i_blkbits" (name_ "u8");
  mem "i_write_hint" (enum_ "rw_hint");
  mem "i_blocks" (name_ "blkcnt_t");
  mem "i_state" (name_ "u32");
  mem "i_rwsem" (struct_ "rw_semaphore");
  mem "dirtied_when" t_ulong;
  mem "dirtied_time_when" t_ulong;
  mem "i_hash" (struct_ "hlist_node");
  mem "i_io_list" (struct_ "list_head");
  mem "i_wb" (ptr (struct_ "bdi_writeback"));
  mem "i_wb_frn_winner" t_int;
  mem "i_wb_frn_avg_time" (name_ "u16");
  mem "i_wb_frn_history" (name_ "u16");
  mem "i_lru" (struct_ "list_head");
  mem "i_sb_list" (struct_ "list_head");
  mem "i_wb_list" (struct_ "list_head");
  anon (union_body [mem "i_dentry" (struct_ "hlist_head"); mem "i_rcu" (struct_ "callback_head")]);
  mem "i_version" (name_ "atomic64_t");
  mem "i_sequence" (name_ "atomic64_t");
  mem "i_count" (name_ "atomic_t");
  mem "i_dio_count" (name_ "atomic_t");
  mem "i_writecount" (name_ "atomic_t");
  mem "i_readcount" (name_ "atomic_t");
  anon (union_body [mem "i_fop" (ptr (struct_ "file_operations")); mem "free_inode" func_ptr]);
  mem "i_flctx" (ptr (struct_ "file_lock_context"));
  mem "i_data" (struct_ "address_space");
  mem "i_devices" (struct_ "list_head");
  anon (union_body [
    mem "i_pipe" (ptr (struct_ "pipe_inode_info"));
    mem "i_cdev" (ptr (struct_ "cdev"));
    mem "i_link" (ptr t_char);
    mem "i_dir_seq" t_uint]);
  mem "i_fsnotify_mask" (name_ "__u32");
  mem "i_fsnotify_marks" (ptr (struct_ "fsnotify_mark_connector"));
  mem "i_crypt_info" (ptr (struct_ "fscrypt_inode_info"));
  mem "i_verity_info" (ptr (struct_ "fsverity_info"));
  mem "i_private" (ptr TVoid)].

Definition struct_dentry_operations : decl := Struct "dentry_operations" [
  mem "d_revalidate" func_ptr;
  mem "d_weak_revalidate" func_ptr;
  mem "d_hash" func_ptr;
  mem "d_compare" func_ptr;
  mem "d_delete" func_ptr;
  mem "d_init" func_ptr;
  mem "d_release" func_ptr;
  mem "d_prune" func_ptr;
  mem "d_iput" func_ptr;
  mem "d_dname" func_ptr;
  mem "d_automount" func_ptr;
  mem "d_manage" func_ptr;
  mem "d_real" func_ptr;
  padbits t_long 64;
  padbits t_long 64;
  padbits t_long 64].

Definition typedef_qsize_t : decl := Typedef "qsize_t" t_llong.

Definition struct_mem_dqinfo : decl := Struct "mem_dqinfo" [
  mem "dqi_format" (ptr (struct_ "quota_format_type"));
  mem "dqi_fmt_id" t_int;
  mem "dqi_dirty_list" (struct_ "list_head");
  mem "dqi_flags" t_ulong;
  mem "dqi_bgrace" t_uint;
  mem "dqi_igrace" t_uint;
  mem "dqi_max_spc_limit" (name_ "qsize_t");
  mem "dqi_max_ino_limit" (name_ "qsize_t");
  mem "dqi_priv" (ptr TVoid)].

Definition struct_quota_info : decl := Struct "quota_info" [
  mem "flags" t_uint;
  mem "dqio_sem" (struct_ "rw_semaphore");
  mem "files" (arr (ptr (struct_ "inode")) 3);
  mem "info" (arr (struct_ "mem_dqinfo") 3);
  mem "ops" (arr (ptr (struct_ "quota_format_ops")) 3)].

Definition struct_rcu_sync : decl := Struct "rcu_sync" [
  mem "gp_state" t_int;
  mem "gp_count" t_int;
  mem "gp_wait" (name_ "wait_queue_head_t");
  mem "cb_head" (struct_ "callback_head")].

Definition struct_percpu_rw_semaphore : decl := Struct "percpu_rw_semaphore" [
  mem "rss" (struct_ "rcu_sync");
  mem "read_count" (ptr t_uint);
  mem "writer" (struct_ "rcuwait");
  mem "waiters" (name_ "wait_queue_head_t");
  mem "block" (name_ "atomic_t")].

Definition struct_sb_writers : decl := Struct "sb_writers" [
  mem "frozen" t_ushort;
  mem "freeze_kcount" t_int;
  mem "freeze_ucount" t_int;
  mem "rw_sem" (arr (struct_ "percpu_rw_semaphore") 3)].

Definition typedef_uuid_t : decl := Typedef "uuid_t" (struct_body [mem "b" (arr (name_ "__u8") 16)]).

Definition struct_super_block : decl := Struct "super_block" [
  mem "s_list" (struct_ "list_head");
  mem "s_dev" (name_ "dev_t");
  mem "s_blocksize_bits" t_uchar;
  mem "s_blocksize" t_ulong;
  mem "s_maxbytes" (name_ "loff_t");
  mem "s_type" (ptr (struct_ "file_system_type"));
  mem "s_op" (ptr (struct_ "super_operations"));
  mem "dq_op" (ptr (struct_ "dquot_operations"));
  mem "s_qcop" (ptr (struct_ "quotactl_ops"));
  mem "s_export_op" (ptr (struct_ "export_operations"));
  mem "s_flags" t_ulong;
  mem "s_iflags" t_ulong;
  mem "s_magic" t_ulong;
  mem "s_root" (ptr (struct_ "dentry"));
  mem "s_umount" (struct_ "rw_semaphore");
  mem "s_count" t_int;
  mem "s_active" (name_ "atomic_t");
  mem "s_security" (ptr TVoid);
  mem "s_xattr" (ptr (ptr (struct_ "xattr_handler")));
  mem "s_cop" (ptr (struct_ "fscrypt_operations"));
  mem "s_master_keys" (ptr (struct_ "fscrypt_keyring"));
  mem "s_vop" (ptr (struct_ "fsverity_operations"));
  mem "s_encoding" (ptr (struct_ "unicode_map"));
  mem "s_encoding_flags" (name_ "__u16");
  mem "s_roots" (struct_ "hlist_bl_head");
  mem "s_mounts" (struct_ "list_head");
  mem "s_bdev" (ptr (struct_ "block_device"));
  mem "s_bdev_file" (ptr (struct_ "file"));
  mem "s_bdi" (ptr (struct_ "backing_dev_info"));
  mem "s_mtd" (ptr (struct_ "mtd_info"));
  mem "s_instances" (struct_ "hlist_node");
  mem "s_quota_types" t_uint;
  mem "s_dquot" (struct_ "quota_info");
  mem "s_writers" (struct_ "sb_writers");
  mem "s_fs_info" (ptr TVoid);
  mem "s_time_gran" (name_ "u32");
  mem "s_time_min" (name_ "time64_t");
  mem "s_time_max" (name_ "time64_t");
  mem "s_fsnotify_mask" (name_ "u32");
  mem "s_fsnotify_info" (ptr (struct_ "fsnotify_sb_info"));
  mem "s_id" (arr t_char 32);
  mem "s_uuid" (name_ "uuid_t");
  mem "s_uuid_len" (name_ "u8");
  mem "s_sysfs_name" (arr t_char 37);
  mem "s_max_links" t_uint;
  mem "s_vfs_rename_mutex" (struct_ "mutex");
  mem "s_subtype" (ptr t_char);
  mem "s_d_op" (ptr (struct_ "dentry_operations"));
  mem "s_shrink" (ptr (struct_ "shrinker"));
  mem "s_remove_count" (name_ "atomic_long_t");
  mem "s_readonly_remount" t_int;
  mem "s_wb_err" (name_ "errseq_t");
  mem "s_dio_done_wq" (ptr (struct_ "workqueue_struct"));
  mem "s_pins" (struct_ "hlist_head");
  mem "s_user_ns" (ptr (struct_ "user_namespace"));
  mem "s_dentry_lru" (struct_ "list_lru");
  mem "s_inode_lru" (struct_ "list_lru");
  mem "rcu" (struct_ "callback_head");
  mem "destroy_work" (struct_ "work_struct");
  mem "s_sync_lock" (struct_ "mutex");
  mem "s_stack_depth" t_int;
  padbits t_long 64;
  mem "s_inode_list_lock" (name_ "spinlock_t");
  mem "s_inodes" (struct_ "list_head");
  mem "s_inode_wblist_lock" (name_ "spinlock_t");
  mem "s_inodes_wb" (struct_ "list_head");
  padbits t_long 64;
  padbits t_long 64].

Definition struct_vfsmount : decl := Struct "vfsmount" [
  mem "mnt_root" (ptr (struct_ "dentry"));
  mem "mnt_sb" (ptr (struct_ "super_block"));
  mem "mnt_flags" t_int;
  mem "mnt_idmap" (ptr (struct_ "mnt_idmap"))].

Definition struct_shrinker : decl := Struct "shrinker" [
  mem "count_objects" func_ptr;
  mem "scan_objects" func_ptr;
  mem "batch" t_long;
  mem "seeks" t_int;
  mem "flags" t_uint;
  mem "refcount" (name_ "refcount_t");
  mem "done" (struct_ "completion");
  mem "rcu" (struct_ "callback_head");
  mem "private_data" (ptr TVoid);
  mem "list" (struct_ "list_head");
  mem "id" t_int;
  mem "nr_deferred" (ptr (name_ "atomic_long_t"))].

Definition struct_list_lru_one : decl := Struct "list_lru_one" [
  mem "list" (struct_ "list_head");
  mem "nr_items" t_long].

Definition struct_list_lru_node : decl := Struct "list_lru_node" [
  mem "lock" (name_ "spinlock_t");
  mem "lru" (struct_ "list_lru_one");
  mem "nr_items" t_long;
  padbits t_long 64;
  padbits t_long 64;
  padbits t_long 64].

Definition struct_io_cq : decl := Struct "io_cq" [
  mem "q" (ptr (struct_ "request_queue"));
  mem "ioc" (ptr (struct_ "io_context"));
  anon (union_body [
    mem "q_node" (struct_ "list_head");
    mem "__rcu_icq_cache" (ptr (struct_ "kmem_cache"))]);
  anon (union_body [
    mem "ioc_node" (struct_ "hlist_node");
    mem "__rcu_head" (struct_ "callback_head")]);
  mem "flags" t_uint].

Definition typedef_blk_features_t : decl := Typedef "blk_features_t" t_uint.

Definition typedef_blk_flags_t : decl := Typedef "blk_flags_t" t_uint.

Definition enum_blk_integrity_checksum : decl := Enum "blk_integrity_checksum" [("BLK_INTEGRITY_CSUM_NONE",
  0); ("BLK_INTEGRITY_CSUM_IP", 1); ("BLK_INTEGRITY_CSUM_CRC", 2); ("BLK_INTEGRITY_CSUM_CRC64", 3)].

Definition struct_blk_integrity : decl := Struct "blk_integrity" [
  mem "flags" t_uchar;
  mem "csum_type" (enum_ "blk_integrity_checksum");
  mem "tuple_size" t_uchar;
  mem "pi_offset" t_uchar;
  mem "interval_exp" t_uchar;
  mem "tag_size" t_uchar].

Definition struct_queue_limits : decl := Struct "queue_limits" [
  mem "features" (name_ "blk_features_t");
  mem "flags" (name_ "blk_flags_t");
  mem "seg_boundary_mask" t_ulong;
  mem "virt_boundary_mask" t_ulong;
  mem "max_hw_sectors" t_uint;
  mem "max_dev_sectors" t_uint;
  mem "chunk_sectors" t_uint;
  mem "max_sectors" t_uint;
  mem "max_user_sectors" t_uint;
  mem "max_segment_size" t_uint;
  mem "physical_block_size" t_uint;
  mem "logical_block_size" t_uint;
  mem "alignment_offset" t_uint;
  mem "io_min" t_uint;
  mem "io_opt" t_uint;
  mem "max_discard_sectors" t_uint;
  mem "max_hw_discard_sectors" t_uint;
  mem "max_user_discard_sectors" t_uint;
  mem "max_secure_erase_sectors" t_uint;
  mem "max_write_zeroes_sectors" t_uint;
  mem "max_zone_append_sectors" t_uint;
  mem "discard_granularity" t_uint;
  mem "discard_alignment" t_uint;
  mem "zone_write_granularity" t_uint;
  mem "atomic_write_hw_max" t_uint;
  mem "atomic_write_max_sectors" t_uint;
  mem "atomic_write_hw_boundary" t_uint;
  mem "atomic_write_boundary_sectors" t_uint;
  mem "atomic_write_hw_unit_min" t_uint;
  mem "atomic_write_unit_min" t_uint;
  mem "atomic_write_hw_unit_max" t_uint;
  mem "atomic_write_unit_max" t_uint;
  mem "max_segments" t_ushort;
  mem "max_integrity_segments" t_ushort;
  mem "max_discard_segments" t_ushort;
  mem "max_open_zones" t_uint;
  mem "max_active_zones" t_uint;
  mem "dma_alignment" t_uint;
  mem "dma_pad_mask" t_uint;
  mem "integrity" (struct_ "blk_integrity")].

Definition struct_request_queue : decl := Struct "request_queue" [
  mem "queuedata" (ptr TVoid);
  mem "elevator" (ptr (struct_ "elevator_queue"));
  mem "mq_ops" (ptr (struct_ "blk_mq_ops"));
  mem "queue_ctx" (ptr (struct_ "blk_mq_ctx"));
  mem "queue_flags" t_ulong;
  mem "rq_timeout" t_uint;
  mem "queue_depth" t_uint;
  mem "refs" (name_ "refcount_t");
  mem "nr_hw_queues" t_uint;
  mem "hctx_table" (struct_ "xarray");
  mem "q_usage_counter" (struct_ "percpu_ref");
  mem "io_lock_cls_key" (struct_ "lock_class_key");
  mem "io_lockdep_map" (struct_ "lockdep_map");
  mem "q_lock_cls_key" (struct_ "lock_class_key");
  mem "q_lockdep_map" (struct_ "lockdep_map");
  mem "last_merge" (ptr (struct_ "request"));
  mem "queue_lock" (name_ "spinlock_t");
  mem "quiesce_depth" t_int;
  mem "disk" (ptr (struct_ "gendisk"));
  mem "mq_kobj" (ptr (struct_ "kobject"));
  mem "limits" (struct_ "queue_limits");
  mem "dev" (ptr (struct_ "device"));
  mem "rpm_status" (enum_ "rpm_status");
  mem "pm_only" (name_ "atomic_t");
  mem "stats" (ptr (struct_ "blk_queue_stats"));
  mem "rq_qos" (ptr (struct_ "rq_qos"));
  mem "rq_qos_mutex" (struct_ "mutex");
  mem "id" t_int;
  mem "nr_requests" t_ulong;
  mem "crypto_profile" (ptr (struct_ "blk_crypto_profile"));
  mem "crypto_kobject" (ptr (struct_ "kobject"));
  mem "timeout" (struct_ "timer_list");
  mem "timeout_work" (struct_ "work_struct");
  mem "nr_active_requests_shared_tags" (name_ "atomic_t");
  mem "sched_shared_tags" (ptr (struct_ "blk_mq_tags"));
  mem "icq_list" (struct_ "list_head");
  mem "blkcg_pols" (arr t_ulong 1);
  mem "root_blkg" (ptr (struct_ "blkcg_gq"));
  mem "blkg_list" (struct_ "list_head");
  mem "blkcg_mutex" (struct_ "mutex");
  mem "node" t_int;
  mem "requeue_lock" (name_ "spinlock_t");
  mem "requeue_list" (struct_ "list_head");
  mem "requeue_work" (struct_ "delayed_work");
  mem "blk_trace" (ptr (struct_ "blk_trace"));
  mem "fq" (ptr (struct_ "blk_flush_queue"));
  mem "flush_list" (struct_ "list_head");
  mem "sysfs_lock" (struct_ "mutex");
  mem "sysfs_dir_lock" (struct_ "mutex");
  mem "limits_lock" (struct_ "mutex");
  mem "unused_hctx_list" (struct_ "list_head");
  mem "unused_hctx_lock" (name_ "spinlock_t");
  mem "mq_freeze_depth" t_int;
  mem "td" (ptr (struct_ "throtl_data"));
  mem "callback_head" (struct_ "callback_head");
  mem "mq_freeze_wq" (name_ "wait_queue_head_t");
  mem "mq_freeze_lock" (struct_ "mutex");
  mem "tag_set" (ptr (struct_ "blk_mq_tag_set"));
  mem "tag_set_list" (struct_ "list_head");
  mem "debugfs_dir" (ptr (struct_ "dentry"));
  mem "sched_debugfs_dir" (ptr (struct_ "dentry"));
  mem "rqos_debugfs_dir" (ptr (struct_ "dentry"));
  mem "debugfs_mutex" (struct_ "mutex");
  mem "mq_sysfs_init_done" t_bool].

Definition struct_quota_format_type : decl := Struct "quota_format_type" [
  mem "qf_fmt_id" t_int;
  mem "qf_ops" (ptr (struct_ "quota_format_ops"));
  mem "qf_owner" (ptr (struct_ "module"));
  mem "qf_next" (ptr (struct_ "quota_format_type"))].

Definition struct_quota_format_ops : decl := Struct "quota_format_ops" [
  mem "check_quota_file" func_ptr;
  mem "read_file_info" func_ptr;
  mem "write_file_info" func_ptr;
  mem "free_file_info" func_ptr;
  mem "read_dqblk" func_ptr;
  mem "commit_dqblk" func_ptr;
  mem "release_dqblk" func_ptr;
  mem "get_next_id" func_ptr].

Definition struct_dquot_operations : decl := Struct "dquot_operations" [
  mem "write_dquot" func_ptr;
  mem "alloc_dquot" func_ptr;
  mem "destroy_dquot" func_ptr;
  mem "acquire_dquot" func_ptr;
  mem "release_dquot" func_ptr;
  mem "mark_dirty" func_ptr;
  mem "write_info" func_ptr;
  mem "get_reserved_space" func_ptr;
  mem "get_projid" func_ptr;
  mem "get_inode_usage" func_ptr;
  mem "get_next_id" func_ptr].

Definition struct_quotactl_ops : decl := Struct "quotactl_ops" [
  mem "quota_on" func_ptr;
  mem "quota_off" func_ptr;
  mem "quota_enable" func_ptr;
  mem "quota_disable" func_ptr;
  mem "quota_sync" func_ptr;
  mem "set_info" func_ptr;
  mem "get_dqblk" func_ptr;
  mem "get_nextdqblk" func_ptr;
  mem "set_dqblk" func_ptr;
  mem "get_state" func_ptr;
  mem "rm_xquota" func_ptr].

Definition struct_address_space_operations : decl := Struct "address_space_operations" [
  mem "writepage" func_ptr;
  mem "read_folio" func_ptr;
  mem "writepages" func_ptr;
  mem "dirty_folio" func_ptr;
  mem "readahead" func_ptr;
  mem "write_begin" func_ptr;
  mem "write_end" func_ptr;
  mem "bmap" func_ptr;
  mem "invalidate_folio" func_ptr;
  mem "release_folio" func_ptr;
  mem "free_folio" func_ptr;
  mem "direct_IO" func_ptr;
  mem "migrate_folio" func_ptr;
  mem "launder_folio" func_ptr;
  mem "is_partially_uptodate" func_ptr;
  mem "is_dirty_writeback" func_ptr;
  mem "error_remove_folio" func_ptr;
  mem "swap_activate" func_ptr;
  mem "swap_deactivate" func_ptr;
  mem "swap_rw" func_ptr].

Definition struct_inode_operations : decl := Struct "inode_operations" [
  mem "lookup" func_ptr;
  mem "get_link" func_ptr;
  mem "permission" func_ptr;
  mem "get_inode_acl" func_ptr;
  mem "readlink" func_ptr;
  mem "create" func_ptr;
  mem "link" func_ptr;
  mem "unlink" func_ptr;
  mem "symlink" func_ptr;
  mem "mkdir" func_ptr;
  mem "rmdir" func_ptr;
  mem "mknod" func_ptr;
  mem "rename" func_ptr;
  mem "setattr" func_ptr;
  mem "getattr" func_ptr;
  mem "listxattr" func_ptr;
  mem "fiemap" func_ptr;
  mem "update_time" func_ptr;
  mem "atomic_open" func_ptr;
  mem "tmpfile" func_ptr;
  mem "get_acl" func_ptr;
  mem "set_acl" func_ptr;
  mem "fileattr_set" func_ptr;
  mem "fileattr_get" func_ptr;
  mem "get_offset_ctx" func_ptr;
  padbits t_long 64;
  padbits t_long 64;
  padbits t_long 64;
  padbits t_long 64;
  padbits t_long 64;
  padbits t_long 64;
  padbits t_long 64].

Definition struct_fprop_local_percpu : decl := Struct "fprop_local_percpu" [
  mem "events" (struct_ "percpu_counter");
  mem "period" t_uint;
  mem "lock" (name_ "raw_spinlock_t")].

Definition enum_wb_reason : decl := Enum "wb_reason" [("WB_REASON_BACKGROUND", 0); ("WB_REASON_VMSCAN", 1);
  ("WB_REASON_SYNC", 2); ("WB_REASON_PERIODIC", 3); ("WB_REASON_LAPTOP_TIMER", 4);
  ("WB_REASON_FS_FREE_SPACE", 5); ("WB_REASON_FORKER_THREAD", 6); ("WB_REASON_FOREIGN_FLUSH", 7);
  ("WB_REASON_MAX", 8)].

Definition struct_bdi_writeback : decl := Struct "bdi_writeback" [
  mem "bdi" (ptr (struct_ "backing_dev_info"));
  mem "state" t_ulong;
  mem "last_old_flush" t_ulong;
  mem "b_dirty" (struct_ "list_head");
  mem "b_io" (struct_ "list_head");
  mem "b_more_io" (struct_ "list_head");
  mem "b_dirty_time" (struct_ "list_head");
  mem "list_lock" (name_ "spinlock_t");
  mem "writeback_inodes" (name_ "atomic_t");
  mem "stat" (arr (struct_ "percpu_counter") 4);
  mem "bw_time_stamp" t_ulong;
  mem "dirtied_stamp" t_ulong;
  mem "written_stamp" t_ulong;
  mem "write_bandwidth" t_ulong;
  mem "avg_write_bandwidth" t_ulong;
  mem "dirty_ratelimit" t_ulong;
  mem "balanced_dirty_ratelimit" t_ulong;
  mem "completions" (struct_ "fprop_local_percpu");
  mem "dirty_exceeded" t_int;
  mem "start_all_reason" (enum_ "wb_reason");
  mem "work_lock" (name_ "spinlock_t");
  mem "work_list" (struct_ "list_head");
  mem "dwork" (struct_ "delayed_work");
  mem "bw_dwork" (struct_ "delayed_work");
  mem "bdi_node" (struct_ "list_head");
  mem "refcnt" (struct_ "percpu_ref");
  mem "memcg_completions" (struct_ "fprop_local_percpu");
  mem "memcg_css" (ptr (struct_ "cgroup_subsys_state"));
  mem "blkcg_css" (ptr (struct_ "cgroup_subsys_state"));
  mem "memcg_node" (struct_ "list_head");
  mem "blkcg_node" (struct_ "list_head");
  mem "b_attached" (struct_ "list_head");
  mem "offline_node" (struct_ "list_head");
  anon (union_body [
    mem "release_work" (struct_ "work_struct");
    mem "rcu" (struct_ "callback_head")])].

Definition struct_fown_struct : decl := Struct "fown_struct" [
  mem "file" (ptr (struct_ "file"));
  mem "lock" (name_ "rwlock_t");
  mem "pid" (ptr (struct_ "pid"));
  mem "pid_type" (enum_ "pid_type");
  mem "uid" (name_ "kuid_t");
  mem "euid" (name_ "kuid_t");
  mem "signum" t_int].

Definition struct_super_operations : decl := Struct "super_operations" [
  mem "alloc_inode" func_ptr;
  mem "destroy_inode" func_ptr;
  mem "free_inode" func_ptr;
  mem "dirty_inode" func_ptr;
  mem "write_inode" func_ptr;
  mem "drop_inode" func_ptr;
  mem "evict_inode" func_ptr;
  mem "put_super" func_ptr;
  mem "sync_fs" func_ptr;
  mem "freeze_super" func_ptr;
  mem "freeze_fs" func_ptr;
  mem "thaw_super" func_ptr;
  mem "unfreeze_fs" func_ptr;
  mem "statfs" func_ptr;
  mem "remount_fs" func_ptr;
  mem "umount_begin" func_ptr;
  mem "show_options" func_ptr;
  mem "show_devname" func_ptr;
  mem "show_path" func_ptr;
  mem "show_stats" func_ptr;
  mem "quota_read" func_ptr;
  mem "quota_write" func_ptr;
  mem "get_dquots" func_ptr;
  mem "nr_cached_objects" func_ptr;
  mem "free_cached_objects" func_ptr;
  mem "shutdown" func_ptr].

Definition struct_export_operations : decl := Struct "export_operations" [
  mem "encode_fh" func_ptr;
  mem "fh_to_dentry" func_ptr;
  mem "fh_to_parent" func_ptr;
  mem "get_name" func_ptr;
  mem "get_parent" func_ptr;
  mem "commit_metadata" func_ptr;
  mem "get_uuid" func_ptr;
  mem "map_blocks" func_ptr;
  mem "commit_blocks" func_ptr;
  mem "flags" t_ulong].

Definition struct_xattr_handler : decl := Struct "xattr_handler" [
  mem "name" (ptr t_char);
  mem "prefix" (ptr t_char);
  mem "flags" t_int;
  mem "list" func_ptr;
  mem "get" func_ptr;
  mem "set" func_ptr].

Definition struct_fscrypt_operations : decl := Struct "fscrypt_operations" [
  bits "needs_bounce_pages" t_uint 1;
  bits "has_32bit_inodes" t_uint 1;
  bits "supports_subblock_data_units" t_uint 1;
  mem "legacy_key_prefix" (ptr t_char);
  mem "get_context" func_ptr;
  mem "set_context" func_ptr;
  mem "get_dummy_policy" func_ptr;
  mem "empty_dir" func_ptr;
  mem "has_stable_inodes" func_ptr;
  mem "get_devices" func_ptr].

Definition struct_fsverity_operations : decl := Struct "fsverity_operations" [
  mem "begin_enable_verity" func_ptr;
  mem "end_enable_verity" func_ptr;
  mem "get_verity_descriptor" func_ptr;
  mem "read_merkle_tree_page" func_ptr;
  mem "write_merkle_tree_block" func_ptr].

Definition struct_block_device : decl := Struct "block_device" [
  mem "bd_start_sect" (name_ "sector_t");
  mem "bd_nr_sectors" (name_ "sector_t");
  mem "bd_disk" (ptr (struct_ "gendisk"));
  mem "bd_queue" (ptr (struct_ "request_queue"));
  mem "bd_stats" (ptr (struct_ "disk_stats"));
  mem "bd_stamp" t_ulong;
  mem "__bd_flags" (name_ "atomic_t");
  mem "bd_dev" (name_ "dev_t");
  mem "bd_mapping" (ptr (struct_ "address_space"));
  mem "bd_openers" (name_ "atomic_t");
  mem "bd_size_lock" (name_ "spinlock_t");
  mem "bd_claiming" (ptr TVoid);
  mem "bd_holder" (ptr TVoid);
  mem "bd_holder_ops" (ptr (struct_ "blk_holder_ops"));
  mem "bd_holder_lock" (struct_ "mutex");
  mem "bd_holders" t_int;
  mem "bd_holder_dir" (ptr (struct_ "kobject"));
  mem "bd_fsfreeze_count" (name_ "atomic_t");
  mem "bd_fsfreeze_mutex" (struct_ "mutex");
  mem "bd_meta_info" (ptr (struct_ "partition_meta_info"));
  mem "bd_writers" t_int;
  mem "bd_security" (ptr TVoid);
  mem "bd_device" (struct_ "device")].

Definition struct_backing_dev_info : decl := Struct "backing_dev_info" [
  mem "id" (name_ "u64");
  mem "rb_node" (struct_ "rb_node");
  mem "bdi_list" (struct_ "list_head");
  mem "ra_pages" t_ulong;
  mem "io_pages" t_ulong;
  mem "refcnt" (struct_ "kref");
  mem "capabilities" t_uint;
  mem "min_ratio" t_uint;
  mem "max_ratio" t_uint;
  mem "max_prop_frac" t_uint;
  mem "tot_write_bandwidth" (name_ "atomic_long_t");
  mem "last_bdp_sleep" t_ulong;
  mem "wb" (struct_ "bdi_writeback");
  mem "wb_list" (struct_ "list_head");
  mem "cgwb_tree" (struct_ "xarray");
  mem "cgwb_release_mutex" (struct_ "mutex");
  mem "wb_switch_rwsem" (struct_ "rw_semaphore");
  mem "wb_waitq" (name_ "wait_queue_head_t");
  mem "dev" (ptr (struct_ "device"));
  mem "dev_name" (arr t_char 64);
  mem "owner" (ptr (struct_ "device"));
  mem "laptop_mode_wb_timer" (struct_ "timer_list");
  mem "debug_dir" (ptr (struct_ "dentry"))].

Definition typedef_blk_opf_t : decl := Typedef "blk_opf_t" (name_ "__u32").

Definition typedef_blk_status_t : decl := Typedef "blk_status_t" (name_ "u8").

Definition struct_bvec_iter : decl := PackedStruct "bvec_iter" [
  mem "bi_sector" (name_ "sector_t");
  mem "bi_size" t_uint;
  mem "bi_idx" t_uint;
  mem "bi_bvec_done" t_uint].

Definition typedef_blk_qc_t : decl := Typedef "blk_qc_t" t_uint.

Definition struct_bio_issue : decl := Struct "bio_issue" [
  mem "value" (name_ "u64")].

Definition struct_bio : decl := Struct "bio" [
  mem "bi_next" (ptr (struct_ "bio"));
  mem "bi_bdev" (ptr (struct_ "block_device"));
  mem "bi_opf" (name_ "blk_opf_t");
  mem "bi_flags" t_ushort;
  mem "bi_ioprio" t_ushort;
  mem "bi_write_hint" (enum_ "rw_hint");
  mem "bi_status" (name_ "blk_status_t");
  mem "__bi_remaining" (name_ "atomic_t");
  mem "bi_iter" (struct_ "bvec_iter");
  anon (union_body [mem "bi_cookie" (name_ "blk_qc_t"); mem "__bi_nr_segments" t_uint]);
  mem "bi_end_io" (ptr (name_ "bio_end_io_t"));
  mem "bi_private" (ptr TVoid);
  mem "bi_blkg" (ptr (struct_ "blkcg_gq"));
  mem "bi_issue" (struct_ "bio_issue");
  mem "bi_iocost_cost" (name_ "u64");
  mem "bi_crypt_context" (ptr (struct_ "bio_crypt_ctx"));
  mem "bi_integrity" (ptr (struct_ "bio_integrity_payload"));
  mem "bi_vcnt" t_ushort;
  mem "bi_max_vecs" t_ushort;
  mem "__bi_cnt" (name_ "atomic_t");
  mem "bi_io_vec" (ptr (struct_ "bio_vec"));
  mem "bi_pool" (ptr (struct_ "bio_set"));
  mem "bi_inline_vecs" (arr (struct_ "bio_vec") 0)].

Definition struct_trace_entry : decl := Struct "trace_entry" [
  mem "type" t_ushort;
  mem "flags" t_uchar;
  mem "preempt_count" t_uchar;
  mem "pid" t_int].

Definition typedef___be32 : decl := Typedef "__be32" (name_ "__u32").

Definition typedef_siphash_key_t : decl := Typedef "siphash_key_t" (struct_body [mem "key" (arr (name_
  "u64") 2)]).

Definition struct_cdev : decl := Struct "cdev" [
  mem "kobj" (struct_ "kobject");
  mem "owner" (ptr (struct_ "module"));
  mem "ops" (ptr (struct_ "file_operations"));
  mem "list" (struct_ "list_head");
  mem "dev" (name_ "dev_t");
  mem "count" t_uint].

Definition typedef_wait_queue_func_t : decl := Typedef "wait_queue_func_t" func_ptr.

Definition struct_wait_queue_entry : decl := Struct "wait_queue_entry" [
  mem "flags" t_uint;
  mem "private" (ptr TVoid);
  mem "func" (name_ "wait_queue_func_t");
  mem "entry" (struct_ "list_head")].

Definition typedef_wait_queue_entry_t : decl := Typedef "wait_queue_entry_t" (struct_ "wait_queue_entry").

Definition struct_wait_page_queue : decl := Struct "wait_page_queue" [
  mem "folio" (ptr (struct_ "folio"));
  mem "bit_nr" t_int;
  mem "wait" (name_ "wait_queue_entry_t")].

Definition typedef_uint64_t : decl := Typedef "uint64_t" (name_ "u64").

Definition typedef___kernel_sa_family_t : decl := Typedef "__kernel_sa_family_t" t_ushort.

Definition struct_fsnotify_mark_connector : decl := Struct "fsnotify_mark_connector" [
  mem "lock" (name_ "spinlock_t");
  mem "type" t_uchar;
  mem "prio" t_uchar;
  mem "flags" t_ushort;
  anon (union_body [
    mem "obj" (ptr TVoid);
    mem "destroy_next" (ptr (struct_ "fsnotify_mark_connector"))]);
  mem "list" (struct_ "hlist_head")].

Definition struct_fsnotify_sb_info : decl := Struct "fsnotify_sb_info" [
  mem "sb_marks" (ptr (struct_ "fsnotify_mark_connector"));
  mem "watched_objects" (arr (name_ "atomic_long_t") 3)].

Definition struct___kernel_sockaddr_storage : decl := Struct "__kernel_sockaddr_storage" [
  anon (union_body [
    anon (struct_body [
      mem "ss_family" (name_ "__kernel_sa_family_t");
      mem "__data" (arr t_char 126)]);
    mem "__align" (ptr TVoid)])].

Definition typedef_netns_tracker : decl := Typedef "netns_tracker" (struct_body []).

Definition struct_pipe_inode_info : decl := Struct "pipe_inode_info" [
  mem "mutex" (struct_ "mutex");
  mem "rd_wait" (name_ "wait_queue_head_t");
  mem "wr_wait" (name_ "wait_queue_head_t");
  mem "head" t_uint;
  mem "tail" t_uint;
  mem "max_usage" t_uint;
  mem "ring_size" t_uint;
  mem "nr_accounted" t_uint;
  mem "readers" t_uint;
  mem "writers" t_uint;
  mem "files" t_uint;
  mem "r_counter" t_uint;
  mem "w_counter" t_uint;
  mem "poll_usage" t_bool;
  mem "note_loss" t_bool;
  mem "tmp_page" (ptr (struct_ "page"));
  mem "fasync_readers" (ptr (struct_ "fasync_struct"));
  mem "fasync_writers" (ptr (struct_ "fasync_struct"));
  mem "bufs" (ptr (struct_ "pipe_buffer"));
  mem "user" (ptr (struct_ "user_struct"));
  mem "watch_queue" (ptr (struct_ "watch_queue"))].

Definition struct_posix_acl_entry : decl := Struct "posix_acl_entry" [
  mem "e_tag" t_short;
  mem "e_perm" t_ushort;
  anon (union_body [mem "e_uid" (name_ "kuid_t"); mem "e_gid" (name_ "kgid_t")])].

Definition struct_posix_acl : decl := Struct "posix_acl" [
  mem "a_refcount" (name_ "refcount_t");
  mem "a_rcu" (struct_ "callback_head");
  mem "a_count" t_uint;
  mem "a_entries" (arr (struct_ "posix_acl_entry") 0)].

Definition struct_file_lock_context : decl := Struct "file_lock_context" [
  mem "flc_lock" (name_ "spinlock_t");
  mem "flc_flock" (struct_ "list_head");
  mem "flc_posix" (struct_ "list_head");
  mem "flc_lease" (struct_ "list_head")].

Definition struct_fscrypt_prepared_key : decl := Struct "fscrypt_prepared_key" [
  mem "tfm" (ptr (struct_ "crypto_skcipher"));
  mem "blk_key" (ptr (struct_ "blk_crypto_key"))].

Definition struct_fscrypt_policy_v1 : decl := Struct "fscrypt_policy_v1" [
  mem "version" (name_ "__u8");
  mem "contents_encryption_mode" (name_ "__u8");
  mem "filenames_encryption_mode" (name_ "__u8");
  mem "flags" (name_ "__u8");
  mem "master_key_descriptor" (arr (name_ "__u8") 8)].

Definition struct_fscrypt_policy_v2 : decl := Struct "fscrypt_policy_v2" [
  mem "version" (name_ "__u8");
  mem "contents_encryption_mode" (name_ "__u8");
  mem "filenames_encryption_mode" (name_ "__u8");
  mem "flags" (name_ "__u8");
  mem "log2_data_unit_size" (name_ "__u8");
  mem "__reserved" (arr (name_ "__u8") 3);
  mem "master_key_identifier" (arr (name_ "__u8") 16)].

Definition union_fscrypt_policy : decl := Union "fscrypt_policy" [
  mem "version" (name_ "u8");
  mem "v1" (struct_ "fscrypt_policy_v1");
  mem "v2" (struct_ "fscrypt_policy_v2")].

Definition struct_fscrypt_inode_info : decl := Struct "fscrypt_inode_info" [
  mem "ci_enc_key" (struct_ "fscrypt_prepared_key");
  bits "ci_owns_key" (name_ "u8") 1;
  bits "ci_inlinecrypt" (name_ "u8") 1;
  bits "ci_dirhash_key_initialized" (name_ "u8") 1;
  mem "ci_data_unit_bits" (name_ "u8");
  mem "ci_data_units_per_block_bits" (name_ "u8");
  mem "ci_hashed_ino" (name_ "u32");
  mem "ci_mode" (ptr (struct_ "fscrypt_mode"));
  mem "ci_inode" (ptr (struct_ "inode"));
  mem "ci_master_key" (ptr (struct_ "fscrypt_master_key"));
  mem "ci_master_key_link" (struct_ "list_head");
  mem "ci_direct_key" (ptr (struct_ "fscrypt_direct_key"));
  mem "ci_dirhash_key" (name_ "siphash_key_t");
  mem "ci_policy" (union_ "fscrypt_policy");
  mem "ci_nonce" (arr (name_ "u8") 16)].

Definition struct_bio_crypt_ctx : decl := Struct "bio_crypt_ctx" [
  mem "bc_key" (ptr (struct_ "blk_crypto_key"));
  mem "bc_dun" (arr (name_ "u64") 4)].

Definition struct_fscrypt_keyring : decl := Struct "fscrypt_keyring" [
  mem "lock" (name_ "spinlock_t");
  mem "key_hashtable" (arr (struct_ "hlist_head") 128)].

Definition struct_merkle_tree_params : decl := Struct "merkle_tree_params" [
  mem "hash_alg" (ptr (struct_ "fsverity_hash_alg"));
  mem "hashstate" (ptr (name_ "u8"));
  mem "digest_size" t_uint;
  mem "block_size" t_uint;
  mem "hashes_per_block" t_uint;
  mem "blocks_per_page" t_uint;
  mem "log_digestsize" (name_ "u8");
  mem "log_blocksize" (name_ "u8");
  mem "log_arity" (name_ "u8");
  mem "log_blocks_per_page" (name_ "u8");
  mem "num_levels" t_uint;
  mem "tree_size" (name_ "u64");
  mem "tree_pages" t_ulong;
  mem "level_start" (arr t_ulong 8)].

Definition struct_fsverity_info : decl := Struct "fsverity_info" [
  mem "tree_params" (struct_ "merkle_tree_params");
  mem "root_hash" (arr (name_ "u8") 64);
  mem "file_digest" (arr (name_ "u8") 64);
  mem "inode" (ptr (struct_ "inode"));
  mem "hash_block_verified" (ptr t_ulong)].

Definition struct_unicode_map : decl := Struct "unicode_map" [
  mem "version" t_uint;
  mem "ntab" (arr (ptr (struct_ "utf8data")) 2);
  mem "tables" (ptr (struct_ "utf8data_table"))].

Definition struct_sbitmap : decl := Struct "sbitmap" [
  mem "depth" t_uint;
  mem "shift" t_uint;
  mem "map_nr" t_uint;
  mem "round_robin" t_bool;
  mem "map" (ptr (struct_ "sbitmap_word"));
  mem "alloc_hint" (ptr t_uint)].

Definition typedef_req_flags_t : decl := Typedef "req_flags_t" (name_ "__u32").

Definition enum_mq_rq_state : decl := Enum "mq_rq_state" [("MQ_RQ_IDLE", 0); ("MQ_RQ_IN_FLIGHT", 1);
  ("MQ_RQ_COMPLETE", 2)].

Definition struct_request : decl := Struct "request" [
  mem "q" (ptr (struct_ "request_queue"));
  mem "mq_ctx" (ptr (struct_ "blk_mq_ctx"));
  mem "mq_hctx" (ptr (struct_ "blk_mq_hw_ctx"));
  mem "cmd_flags" (name_ "blk_opf_t");
  mem "rq_flags" (name_ "req_flags_t");
  mem "tag" t_int;
  mem "internal_tag" t_int;
  mem "timeout" t_uint;
  mem "__data_len" t_uint;
  mem "__sector" (name_ "sector_t");
  mem "bio" (ptr (struct_ "bio"));
  mem "biotail" (ptr (struct_ "bio"));
  anon (union_body [mem "queuelist" (struct_ "list_head"); mem "rq_next" (ptr (struct_ "request"))]);
  mem "part" (ptr (struct_ "block_device"));
  mem "alloc_time_ns" (name_ "u64");
  mem "start_time_ns" (name_ "u64");
  mem "io_start_time_ns" (name_ "u64");
  mem "wbt_flags" t_ushort;
  mem "stats_sectors" t_ushort;
  mem "nr_phys_segments" t_ushort;
  mem "nr_integrity_segments" t_ushort;
  mem "crypt_ctx" (ptr (struct_ "bio_crypt_ctx"));
  mem "crypt_keyslot" (ptr (struct_ "blk_crypto_keyslot"));
  mem "write_hint" (enum_ "rw_hint");
  mem "ioprio" t_ushort;
  mem "state" (enum_ "mq_rq_state");
  mem "ref" (name_ "atomic_t");
  mem "deadline" t_ulong;
  anon (union_body [mem "hash" (struct_ "hlist_node"); mem "ipi_list" (struct_ "llist_node")]);
  anon (union_body [mem "rb_node" (struct_ "rb_node"); mem "special_vec" (struct_ "bio_vec")]);
  mem "elv" (struct_body [mem "icq" (ptr (struct_ "io_cq")); mem "priv" (arr (ptr TVoid) 2)]);
  mem "flush" (struct_body [mem "seq" t_uint; mem "saved_end_io" (ptr (name_ "rq_end_io_fn"))]);
  mem "fifo_time" (name_ "u64");
  mem "end_io" (ptr (name_ "rq_end_io_fn"));
  mem "end_io_data" (ptr TVoid)].

Definition struct_blk_mq_hw_ctx : decl := Struct "blk_mq_hw_ctx" [
  anon (struct_body [
    mem "lock" (name_ "spinlock_t");
    mem "dispatch" (struct_ "list_head");
    mem "state" t_ulong;
    padbits t_long 64;
    padbits t_long 64;
    padbits t_long 64;
    padbits t_long 64]);
  mem "run_work" (struct_ "delayed_work");
  mem "cpumask" (name_ "cpumask_var_t");
  mem "next_cpu" t_int;
  mem "next_cpu_batch" t_int;
  mem "flags" t_ulong;
  mem "sched_data" (ptr TVoid);
  mem "queue" (ptr (struct_ "request_queue"));
  mem "fq" (ptr (struct_ "blk_flush_queue"));
  mem "driver_data" (ptr TVoid);
  mem "ctx_map" (struct_ "sbitmap");
  mem "dispatch_from" (ptr (struct_ "blk_mq_ctx"));
  mem "dispatch_busy" t_uint;
  mem "type" t_ushort;
  mem "nr_ctx" t_ushort;
  mem "ctxs" (ptr (ptr (struct_ "blk_mq_ctx")));
  mem "dispatch_wait_lock" (name_ "spinlock_t");
  mem "dispatch_wait" (name_ "wait_queue_entry_t");
  mem "wait_index" (name_ "atomic_t");
  mem "tags" (ptr (struct_ "blk_mq_tags"));
  mem "sched_tags" (ptr (struct_ "blk_mq_tags"));
  mem "numa_node" t_uint;
  mem "queue_num" t_uint;
  mem "nr_active" (name_ "atomic_t");
  mem "cpuhp_online" (struct_ "hlist_node");
  mem "cpuhp_dead" (struct_ "hlist_node");
  mem "kobj" (struct_ "kobject");
  mem "debugfs_dir" (ptr (struct_ "dentry"));
  mem "sched_debugfs_dir" (ptr (struct_ "dentry"));
  mem "hctx_list" (struct_ "list_head");
  padbits t_long 64;
  padbits t_long 64;
  padbits t_long 64;
  padbits t_long 64].

Definition struct_blk_mq_ctx : decl := Struct "blk_mq_ctx" [
  anon (struct_body [
    mem "lock" (name_ "spinlock_t");
    mem "rq_lists" (arr (struct_ "list_head") 3);
    padbits t_long 64]);
  mem "cpu" t_uint;
  mem "index_hw" (arr t_ushort 3);
  mem "hctxs" (arr (ptr (struct_ "blk_mq_hw_ctx")) 3);
  mem "queue" (ptr (struct_ "request_queue"));
  mem "ctxs" (ptr (struct_ "blk_mq_ctxs"));
  mem "kobj" (struct_ "kobject");
  padbits t_long 64].

Definition decls_VmlinuxFs : list decl := [
  struct_iovec; struct_kvec; struct_bio_vec; struct_folio_batch; struct_folio_queue;
  struct_iov_iter; struct_kiocb; struct_hlist_bl_head; struct_hlist_bl_node; struct_lockref;
  struct_qstr; struct_dentry; enum_rw_hint; struct_inode; struct_dentry_operations; typedef_qsize_t;
  struct_mem_dqinfo; struct_quota_info; struct_rcu_sync; struct_percpu_rw_semaphore;
  struct_sb_writers; typedef_uuid_t; struct_super_block; struct_vfsmount; struct_shrinker;
  struct_list_lru_one; struct_list_lru_node; struct_io_cq; typedef_blk_features_t;
  typedef_blk_flags_t; enum_blk_integrity_checksum; struct_blk_integrity; struct_queue_limits;
  struct_request_queue; struct_quota_format_type; struct_quota_format_ops; struct_dquot_operations;
  struct_quotactl_ops; struct_address_space_operations; struct_inode_operations;
  struct_fprop_local_percpu; enum_wb_reason; struct_bdi_writeback; struct_fown_struct;
  struct_super_operations; struct_export_operations; struct_xattr_handler;
  struct_fscrypt_operations; struct_fsverity_operations; struct_block_device;
  struct_backing_dev_info; typedef_blk_opf_t; typedef_blk_status_t; struct_bvec_iter;
  typedef_blk_qc_t; struct_bio_issue; struct_bio; struct_trace_entry; typedef___be32;
  typedef_siphash_key_t; struct_cdev; typedef_wait_queue_func_t; struct_wait_queue_entry;
  typedef_wait_queue_entry_t; struct_wait_page_queue; typedef_uint64_t;
  typedef___kernel_sa_family_t; struct_fsnotify_mark_connector; struct_fsnotify_sb_info;
  struct___kernel_sockaddr_storage; typedef_netns_tracker; struct_pipe_inode_info;
  struct_posix_acl_entry; struct_posix_acl; struct_file_lock_context; struct_fscrypt_prepared_key;
  struct_fscrypt_policy_v1; struct_fscrypt_policy_v2; union_fscrypt_policy;
  struct_fscrypt_inode_info; struct_bio_crypt_ctx; struct_fscrypt_keyring;
  struct_merkle_tree_params; struct_fsverity_info; struct_unicode_map; struct_sbitmap;
  typedef_req_flags_t; enum_mq_rq_state; struct_request; struct_blk_mq_hw_ctx; struct_blk_mq_ctx].
