(* ===== verification/VmlinuxNfs.v ===== *)
(** * Kernel types of vmlinux.h: SUNRPC and NFS client objects and the tracepoint records

    The declarations of [src/bpf/headers/vmlinux.h] in file order, one definition
    each, member by member.  See [KernelTypes.v] for the selection. *)
From S2P Require Import Prelude CLayout.

Definition struct_workqueue_struct : decl := Struct "workqueue_struct" [
  mem "pwqs" (struct_ "list_head");
  mem "list" (struct_ "list_head");
  mem "mutex" (struct_ "mutex");
  mem "work_color" t_int;
  mem "flush_color" t_int;
  mem "nr_pwqs_to_flush" (name_ "atomic_t");
  mem "first_flusher" (ptr (struct_ "wq_flusher"));
  mem "flusher_queue" (struct_ "list_head");
  mem "flusher_overflow" (struct_ "list_head");
  mem "maydays" (struct_ "list_head");
  mem "rescuer" (ptr (struct_ "worker"));
  mem "nr_drainers" t_int;
  mem "max_active" t_int;
  mem "min_active" t_int;
  mem "saved_max_active" t_int;
  mem "saved_min_active" t_int;
  mem "unbound_attrs" (ptr (struct_ "workqueue_attrs"));
  mem "dfl_pwq" (ptr (struct_ "pool_workqueue"));
  mem "wq_dev" (ptr (struct_ "wq_device"));
  mem "name" (arr t_char 32);
  mem "rcu" (struct_ "callback_head");
  padbits t_long 64;
  padbits t_long 64;
  mem "flags" t_uint;
  mem "cpu_pwq" (ptr (ptr (struct_ "pool_workqueue")));
  mem "node_nr_active" (arr (ptr (struct_ "wq_node_nr_active")) 0);
  padbits t_long 64;
  padbits t_long 64;
  padbits t_long 64;
  padbits t_long 64;
  padbits t_long 64;
  padbits t_long 64].

Definition struct_mnt_idmap : decl := Struct "mnt_idmap" [
  mem "uid_map" (struct_ "uid_gid_map");
  mem "gid_map" (struct_ "uid_gid_map");
  mem "count" (name_ "refcount_t")].

Definition struct_xdr_buf : decl := Struct "xdr_buf" [
  mem "head" (arr (struct_ "kvec") 1);
  mem "tail" (arr (struct_ "kvec") 1);
  mem "bvec" (ptr (struct_ "bio_vec"));
  mem "pages" (ptr (ptr (struct_ "page")));
  mem "page_base" t_uint;
  mem "page_len" t_uint;
  mem "flags" t_uint;
  mem "buflen" t_uint;
  mem "len" t_uint].

Definition struct_lwq_node : decl := Struct "lwq_node" [
  mem "node" (struct_ "llist_node")].

Definition struct_rpc_rqst : decl := Struct "rpc_rqst" [
  mem "rq_xprt" (ptr (struct_ "rpc_xprt"));
  mem "rq_snd_buf" (struct_ "xdr_buf");
  mem "rq_rcv_buf" (struct_ "xdr_buf");
  mem "rq_task" (ptr (struct_ "rpc_task"));
  mem "rq_cred" (ptr (struct_ "rpc_cred"));
  mem "rq_xid" (name_ "__be32");
  mem "rq_cong" t_int;
  mem "rq_seqno" (name_ "u32");
  mem "rq_enc_pages_num" t_int;
  mem "rq_enc_pages" (ptr (ptr (struct_ "page")));
  mem "rq_release_snd_buf" func_ptr;
  anon (union_body [mem "rq_list" (struct_ "list_head"); mem "rq_recv" (struct_ "rb_node")]);
  mem "rq_xmit" (struct_ "list_head");
  mem "rq_xmit2" (struct_ "list_head");
  mem "rq_buffer" (ptr TVoid);
  mem "rq_callsize" (name_ "size_t");
  mem "rq_rbuffer" (ptr TVoid);
  mem "rq_rcvsize" (name_ "size_t");
  mem "rq_xmit_bytes_sent" (name_ "size_t");
  mem "rq_reply_bytes_recvd" (name_ "size_t");
  mem "rq_private_buf" (struct_ "xdr_buf");
  mem "rq_majortimeo" t_ulong;
  mem "rq_minortimeo" t_ulong;
  mem "rq_timeout" t_ulong;
  mem "rq_rtt" (name_ "ktime_t");
  mem "rq_retries" t_uint;
  mem "rq_connect_cookie" t_uint;
  mem "rq_pin" (name_ "atomic_t");
  mem "rq_bytes_sent" (name_ "u32");
  mem "rq_xtime" (name_ "ktime_t");
  mem "rq_ntrans" t_int;
  mem "rq_bc_list" (struct_ "lwq_node");
  mem "rq_bc_pa_state" t_ulong;
  mem "rq_bc_pa_list" (struct_ "list_head")].

Definition typedef_kxdreproc_t : decl := Typedef "kxdreproc_t" func_ptr.

Definition typedef_kxdrdproc_t : decl := Typedef "kxdrdproc_t" func_ptr.

Definition struct_rpc_message : decl := Struct "rpc_message" [
  mem "rpc_proc" (ptr (struct_ "rpc_procinfo"));
  mem "rpc_argp" (ptr TVoid);
  mem "rpc_resp" (ptr TVoid);
  mem "rpc_cred" (ptr (struct_ "cred"))].

Definition struct_rpc_procinfo : decl := Struct "rpc_procinfo" [
  mem "p_proc" (name_ "u32");
  mem "p_encode" (name_ "kxdreproc_t");
  mem "p_decode" (name_ "kxdrdproc_t");
  mem "p_arglen" t_uint;
  mem "p_replen" t_uint;
  mem "p_timer" t_uint;
  mem "p_statidx" (name_ "u32");
  mem "p_name" (ptr t_char)].

Definition struct_rpc_wait : decl := Struct "rpc_wait" [
  mem "list" (struct_ "list_head");
  mem "links" (struct_ "list_head");
  mem "timer_list" (struct_ "list_head")].

Definition struct_rpc_timeout : decl := Struct "rpc_timeout" [
  mem "to_initval" t_ulong;
  mem "to_maxval" t_ulong;
  mem "to_increment" t_ulong;
  mem "to_retries" t_uint;
  mem "to_exponential" t_uchar].

Definition struct_rpc_task : decl := Struct "rpc_task" [
  mem "tk_count" (name_ "atomic_t");
  mem "tk_status" t_int;
  mem "tk_task" (struct_ "list_head");
  mem "tk_callback" func_ptr;
  mem "tk_action" func_ptr;
  mem "tk_timeout" t_ulong;
  mem "tk_runstate" t_ulong;
  mem "tk_waitqueue" (ptr (struct_ "rpc_wait_queue"));
  mem "u" (union_body [mem "tk_work" (struct_ "work_struct"); mem "tk_wait" (struct_ "rpc_wait")]);
  mem "tk_msg" (struct_ "rpc_message");
  mem "tk_calldata" (ptr TVoid);
  mem "tk_ops" (ptr (struct_ "rpc_call_ops"));
  mem "tk_client" (ptr (struct_ "rpc_clnt"));
  mem "tk_xprt" (ptr (struct_ "rpc_xprt"));
  mem "tk_op_cred" (ptr (struct_ "rpc_cred"));
  mem "tk_rqstp" (ptr (struct_ "rpc_rqst"));
  mem "tk_workqueue" (ptr (struct_ "workqueue_struct"));
  mem "tk_start" (name_ "ktime_t");
  mem "tk_owner" (name_ "pid_t");
  mem "tk_rpc_status" t_int;
  mem "tk_flags" t_ushort;
  mem "tk_timeouts" t_ushort;
  mem "tk_pid" t_ushort;
  bits "tk_priority" t_uchar 2;
  bits "tk_garb_retry" t_uchar 2;
  bits "tk_cred_retry" t_uchar 2].

Definition struct_rpc_timer : decl := Struct "rpc_timer" [
  mem "list" (struct_ "list_head");
  mem "expires" t_ulong;
  mem "dwork" (struct_ "delayed_work")].

Definition struct_rpc_wait_queue : decl := Struct "rpc_wait_queue" [
  mem "lock" (name_ "spinlock_t");
  mem "tasks" (arr (struct_ "list_head") 4);
  mem "maxpriority" t_uchar;
  mem "priority" t_uchar;
  mem "nr" t_uchar;
  mem "qlen" t_uint;
  mem "timer_list" (struct_ "rpc_timer");
  mem "name" (ptr t_char)].

Definition struct_rpc_call_ops : decl := Struct "rpc_call_ops" [
  mem "rpc_call_prepare" func_ptr;
  mem "rpc_call_done" func_ptr;
  mem "rpc_count_stats" func_ptr;
  mem "rpc_release" func_ptr].

Definition enum_xprtsec_policies : decl := Enum "xprtsec_policies" [("RPC_XPRTSEC_NONE", 0);
  ("RPC_XPRTSEC_TLS_ANON", 1); ("RPC_XPRTSEC_TLS_X509", 2)].

Definition struct_xprtsec_parms : decl := Struct "xprtsec_parms" [
  mem "policy" (enum_ "xprtsec_policies");
  mem "cert_serial" (name_ "key_serial_t");
  mem "privkey_serial" (name_ "key_serial_t")].

Definition struct_rpc_pipe_dir_head : decl := Struct "rpc_pipe_dir_head" [
  mem "pdh_entries" (struct_ "list_head");
  mem "pdh_dentry" (ptr (struct_ "dentry"))].

Definition struct_rpc_rtt : decl := Struct "rpc_rtt" [
  mem "timeo" t_ulong;
  mem "srtt" (arr t_ulong 5);
  mem "sdrtt" (arr t_ulong 5);
  mem "ntimeouts" (arr t_int 5)].

Definition struct_rpc_xprt_iter : decl := Struct "rpc_xprt_iter" [
  mem "xpi_xpswitch" (ptr (struct_ "rpc_xprt_switch"));
  mem "xpi_cursor" (ptr (struct_ "rpc_xprt"));
  mem "xpi_ops" (ptr (struct_ "rpc_xprt_iter_ops"))].

Definition struct_rpc_clnt : decl := Struct "rpc_clnt" [
  mem "cl_count" (name_ "refcount_t");
  mem "cl_clid" t_uint;
  mem "cl_clients" (struct_ "list_head");
  mem "cl_tasks" (struct_ "list_head");
  mem "cl_pid" (name_ "atomic_t");
  mem "cl_lock" (name_ "spinlock_t");
  mem "cl_xprt" (ptr (struct_ "rpc_xprt"));
  mem "cl_procinfo" (ptr (struct_ "rpc_procinfo"));
  mem "cl_prog" (name_ "u32");
  mem "cl_vers" (name_ "u32");
  mem "cl_maxproc" (name_ "u32");
  mem "cl_auth" (ptr (struct_ "rpc_auth"));
  mem "cl_stats" (ptr (struct_ "rpc_stat"));
  mem "cl_metrics" (ptr (struct_ "rpc_iostats"));
  bits "cl_softrtry" t_uint 1;
  bits "cl_softerr" t_uint 1;
  bits "cl_discrtry" t_uint 1;
  bits "cl_noretranstimeo" t_uint 1;
  bits "cl_autobind" t_uint 1;
  bits "cl_chatty" t_uint 1;
  bits "cl_shutdown" t_uint 1;
  mem "cl_xprtsec" (struct_ "xprtsec_parms");
  mem "cl_rtt" (ptr (struct_ "rpc_rtt"));
  mem "cl_timeout" (ptr (struct_ "rpc_timeout"));
  mem "cl_swapper" (name_ "atomic_t");
  mem "cl_nodelen" t_int;
  mem "cl_nodename" (arr t_char 65);
  mem "cl_pipedir_objects" (struct_ "rpc_pipe_dir_head");
  mem "cl_parent" (ptr (struct_ "rpc_clnt"));
  mem "cl_rtt_default" (struct_ "rpc_rtt");
  mem "cl_timeout_default" (struct_ "rpc_timeout");
  mem "cl_program" (ptr (struct_ "rpc_program"));
  mem "cl_principal" (ptr t_char);
  mem "cl_debugfs" (ptr (struct_ "dentry"));
  mem "cl_sysfs" (ptr (struct_ "rpc_sysfs_client"));
  anon (union_body [mem "cl_xpi" (struct_ "rpc_xprt_iter"); mem "cl_work" (struct_ "work_struct")]);
  mem "cl_cred" (ptr (struct_ "cred"));
  mem "cl_max_connect" t_uint;
  mem "pipefs_sb" (ptr (struct_ "super_block"))].

Definition struct_rpc_xprt : decl := Struct "rpc_xprt" [
  mem "kref" (struct_ "kref");
  mem "ops" (ptr (struct_ "rpc_xprt_ops"));
  mem "id" t_uint;
  mem "timeout" (ptr (struct_ "rpc_timeout"));
  mem "addr" (struct_ "__kernel_sockaddr_storage");
  mem "addrlen" (name_ "size_t");
  mem "prot" t_int;
  mem "cong" t_ulong;
  mem "cwnd" t_ulong;
  mem "max_payload" (name_ "size_t");
  mem "binding" (struct_ "rpc_wait_queue");
  mem "sending" (struct_ "rpc_wait_queue");
  mem "pending" (struct_ "rpc_wait_queue");
  mem "backlog" (struct_ "rpc_wait_queue");
  mem "free" (struct_ "list_head");
  mem "max_reqs" t_uint;
  mem "min_reqs" t_uint;
  mem "num_reqs" t_uint;
  mem "state" t_ulong;
  bits "resvport" t_uchar 1;
  bits "reuseport" t_uchar 1;
  mem "swapper" (name_ "atomic_t");
  mem "bind_index" t_uint;
  mem "xprt_switch" (struct_ "list_head");
  mem "bind_timeout" t_ulong;
  mem "reestablish_timeout" t_ulong;
  mem "xprtsec" (struct_ "xprtsec_parms");
  mem "connect_cookie" t_uint;
  mem "task_cleanup" (struct_ "work_struct");
  mem "timer" (struct_ "timer_list");
  mem "last_used" t_ulong;
  mem "idle_timeout" t_ulong;
  mem "connect_timeout" t_ulong;
  mem "max_reconnect_timeout" t_ulong;
  mem "queuelen" (name_ "atomic_long_t");
  mem "transport_lock" (name_ "spinlock_t");
  mem "reserve_lock" (name_ "spinlock_t");
  mem "queue_lock" (name_ "spinlock_t");
  mem "xid" (name_ "u32");
  mem "snd_task" (ptr (struct_ "rpc_task"));
  mem "xmit_queue" (struct_ "list_head");
  mem "xmit_queuelen" (name_ "atomic_long_t");
  mem "bc_xprt" (ptr (struct_ "svc_xprt"));
  mem "bc_serv" (ptr (struct_ "svc_serv"));
  mem "bc_alloc_max" t_uint;
  mem "bc_alloc_count" t_uint;
  mem "bc_slot_count" (name_ "atomic_t");
  mem "bc_pa_lock" (name_ "spinlock_t");
  mem "bc_pa_list" (struct_ "list_head");
  mem "recv_queue" (struct_ "rb_root");
  mem "stat" (struct_body [
    mem "bind_count" t_ulong;
    mem "connect_count" t_ulong;
    mem "connect_start" t_ulong;
    mem "connect_time" t_ulong;
    mem "sends" t_ulong;
    mem "recvs" t_ulong;
    mem "bad_xids" t_ulong;
    mem "max_slots" t_ulong;
    mem "req_u" t_ullong;
    mem "bklog_u" t_ullong;
    mem "sending_u" t_ullong;
    mem "pending_u" t_ullong]);
  mem "xprt_net" (ptr (struct_ "net"));
  mem "ns_tracker" (name_ "netns_tracker");
  mem "servername" (ptr t_char);
  mem "address_strings" (arr (ptr t_char) 6);
  mem "debugfs" (ptr (struct_ "dentry"));
  mem "rcu" (struct_ "callback_head");
  mem "xprt_class" (ptr (struct_ "xprt_class"));
  mem "xprt_sysfs" (ptr (struct_ "rpc_sysfs_xprt"));
  mem "main" t_bool].

Definition struct_rpc_cred : decl := Struct "rpc_cred" [
  mem "cr_hash" (struct_ "hlist_node");
  mem "cr_lru" (struct_ "list_head");
  mem "cr_rcu" (struct_ "callback_head");
  mem "cr_auth" (ptr (struct_ "rpc_auth"));
  mem "cr_ops" (ptr (struct_ "rpc_credops"));
  mem "cr_expire" t_ulong;
  mem "cr_flags" t_ulong;
  mem "cr_count" (name_ "refcount_t");
  mem "cr_cred" (ptr (struct_ "cred"))].

Definition typedef_rpc_authflavor_t : decl := Typedef "rpc_authflavor_t" (name_ "u32").

Definition struct_nfs_fh : decl := Struct "nfs_fh" [
  mem "size" t_ushort;
  mem "data" (arr t_uchar 128)].

Definition enum_nfs3_stable_how : decl := Enum "nfs3_stable_how" [("NFS_UNSTABLE", 0); ("NFS_DATA_SYNC", 1);
  ("NFS_FILE_SYNC", 2); ("NFS_INVALID_STABLE_HOW", -1)].

Definition struct_nfs4_label : decl := Struct "nfs4_label" [
  mem "lfs" (name_ "uint32_t");
  mem "pi" (name_ "uint32_t");
  mem "len" (name_ "u32");
  mem "label" (ptr t_char)].

Definition typedef_nfs4_verifier : decl := Typedef "nfs4_verifier" (struct_body [mem "data" (arr t_char
  8)]).

Definition struct_nfs4_stateid_struct : decl := Struct "nfs4_stateid_struct" [
  anon (union_body [
    mem "data" (arr t_char 16);
    anon (struct_body [mem "seqid" (name_ "__be32"); mem "other" (arr t_char 12)])]);
  mem "type" (TEnum [("NFS4_INVALID_STATEID_TYPE", 0); ("NFS4_SPECIAL_STATEID_TYPE", 1);
    ("NFS4_OPEN_STATEID_TYPE", 2); ("NFS4_LOCK_STATEID_TYPE", 3); ("NFS4_DELEGATION_STATEID_TYPE", 4);
    ("NFS4_LAYOUT_STATEID_TYPE", 5); ("NFS4_PNFS_DS_STATEID_TYPE", 6); ("NFS4_REVOKED_STATEID_TYPE", 7)])].

Definition typedef_nfs4_stateid : decl := Typedef "nfs4_stateid" (struct_ "nfs4_stateid_struct").

Definition enum_nfs4_change_attr_type : decl := Enum "nfs4_change_attr_type"
  [("NFS4_CHANGE_TYPE_IS_MONOTONIC_INCR", 0); ("NFS4_CHANGE_TYPE_IS_VERSION_COUNTER", 1);
  ("NFS4_CHANGE_TYPE_IS_VERSION_COUNTER_NOPNFS", 2); ("NFS4_CHANGE_TYPE_IS_TIME_METADATA", 3);
  ("NFS4_CHANGE_TYPE_IS_UNDEFINED", 4)].

Definition struct_nfs4_string : decl := Struct "nfs4_string" [
  mem "len" t_uint;
  mem "data" (ptr t_char)].

Definition struct_nfs_fsid : decl := Struct "nfs_fsid" [
  mem "major" (name_ "uint64_t");
  mem "minor" (name_ "uint64_t")].

Definition struct_nfs4_threshold : decl := Struct "nfs4_threshold" [
  mem "bm" (name_ "__u32");
  mem "l_type" (name_ "__u32");
  mem "rd_sz" (name_ "__u64");
  mem "wr_sz" (name_ "__u64");
  mem "rd_io_sz" (name_ "__u64");
  mem "wr_io_sz" (name_ "__u64")].

Definition struct_nfs_fattr : decl := Struct "nfs_fattr" [
  mem "valid" t_uint;
  mem "mode" (name_ "umode_t");
  mem "nlink" (name_ "__u32");
  mem "uid" (name_ "kuid_t");
  mem "gid" (name_ "kgid_t");
  mem "rdev" (name_ "dev_t");
  mem "size" (name_ "__u64");
  mem "du" (union_body [
    mem "nfs2" (struct_body [mem "blocksize" (name_ "__u32"); mem "blocks" (name_ "__u32")]);
    mem "nfs3" (struct_body [mem "used" (name_ "__u64")])]);
  mem "fsid" (struct_ "nfs_fsid");
  mem "fileid" (name_ "__u64");
  mem "mounted_on_fileid" (name_ "__u64");
  mem "atime" (struct_ "timespec64");
  mem "mtime" (struct_ "timespec64");
  mem "ctime" (struct_ "timespec64");
  mem "change_attr" (name_ "__u64");
  mem "pre_change_attr" (name_ "__u64");
  mem "pre_size" (name_ "__u64");
  mem "pre_mtime" (struct_ "timespec64");
  mem "pre_ctime" (struct_ "timespec64");
  mem "time_start" t_ulong;
  mem "gencount" t_ulong;
  mem "owner_name" (ptr (struct_ "nfs4_string"));
  mem "group_name" (ptr (struct_ "nfs4_string"));
  mem "mdsthreshold" (ptr (struct_ "nfs4_threshold"));
  mem "label" (ptr (struct_ "nfs4_label"))].

Definition struct_nfs4_sequence_args : decl := Struct "nfs4_sequence_args" [
  mem "sa_slot" (ptr (struct_ "nfs4_slot"));
  bits "sa_cache_this" (name_ "u8") 1;
  bits "sa_privileged" (name_ "u8") 1].

Definition struct_nfs4_sequence_res : decl := Struct "nfs4_sequence_res" [
  mem "sr_slot" (ptr (struct_ "nfs4_slot"));
  mem "sr_timestamp" t_ulong;
  mem "sr_status" t_int;
  mem "sr_status_flags" (name_ "u32");
  mem "sr_highest_slotid" (name_ "u32");
  mem "sr_target_highest_slotid" (name_ "u32")].

Definition struct_nfs_lock_context : decl := Struct "nfs_lock_context" [
  mem "count" (name_ "refcount_t");
  mem "list" (struct_ "list_head");
  mem "open_context" (ptr (struct_ "nfs_open_context"));
  mem "lockowner" (name_ "fl_owner_t");
  mem "io_count" (name_ "atomic_t");
  mem "callback_head" (struct_ "callback_head")].

Definition struct_nfs_open_context : decl := Struct "nfs_open_context" [
  mem "lock_context" (struct_ "nfs_lock_context");
  mem "flock_owner" (name_ "fl_owner_t");
  mem "dentry" (ptr (struct_ "dentry"));
  mem "cred" (ptr (struct_ "cred"));
  mem "ll_cred" (ptr (struct_ "rpc_cred"));
  mem "state" (ptr (struct_ "nfs4_state"));
  mem "mode" (name_ "fmode_t");
  mem "flags" t_ulong;
  mem "error" t_int;
  mem "list" (struct_ "list_head");
  mem "mdsthreshold" (ptr (struct_ "nfs4_threshold"));
  mem "callback_head" (struct_ "callback_head")].

Definition struct_nfs_auth_info : decl := Struct "nfs_auth_info" [
  mem "flavor_len" t_uint;
  mem "flavors" (arr (name_ "rpc_authflavor_t") 12)].

Definition struct_nfs_server : decl := Struct "nfs_server" [
  mem "nfs_client" (ptr (struct_ "nfs_client"));
  mem "client_link" (struct_ "list_head");
  mem "master_link" (struct_ "list_head");
  mem "client" (ptr (struct_ "rpc_clnt"));
  mem "client_acl" (ptr (struct_ "rpc_clnt"));
  mem "nlm_host" (ptr (struct_ "nlm_host"));
  mem "io_stats" (ptr (struct_ "nfs_iostats"));
  mem "write_congestion_wait" (name_ "wait_queue_head_t");
  mem "writeback" (name_ "atomic_long_t");
  mem "write_congested" t_uint;
  mem "flags" t_uint;
  mem "fattr_valid" t_uint;
  mem "caps" t_uint;
  mem "rsize" t_uint;
  mem "rpages" t_uint;
  mem "wsize" t_uint;
  mem "wpages" t_uint;
  mem "wtmult" t_uint;
  mem "dtsize" t_uint;
  mem "port" t_ushort;
  mem "bsize" t_uint;
  mem "gxasize" t_uint;
  mem "sxasize" t_uint;
  mem "lxasize" t_uint;
  mem "acregmin" t_uint;
  mem "acregmax" t_uint;
  mem "acdirmin" t_uint;
  mem "acdirmax" t_uint;
  mem "namelen" t_uint;
  mem "options" t_uint;
  mem "clone_blksize" t_uint;
  mem "change_attr_type" (enum_ "nfs4_change_attr_type");
  mem "fsid" (struct_ "nfs_fsid");
  mem "s_sysfs_id" t_int;
  mem "maxfilesize" (name_ "__u64");
  mem "time_delta" (struct_ "timespec64");
  mem "mount_time" t_ulong;
  mem "super" (ptr (struct_ "super_block"));
  mem "s_dev" (name_ "dev_t");
  mem "auth_info" (struct_ "nfs_auth_info");
  mem "fscache" (ptr (struct_ "fscache_volume"));
  mem "fscache_uniq" (ptr t_char);
  mem "pnfs_blksize" (name_ "u32");
  mem "attr_bitmask" (arr (name_ "u32") 3);
  mem "attr_bitmask_nl" (arr (name_ "u32") 3);
  mem "exclcreat_bitmask" (arr (name_ "u32") 3);
  mem "cache_consistency_bitmask" (arr (name_ "u32") 3);
  mem "acl_bitmask" (name_ "u32");
  mem "fh_expire_type" (name_ "u32");
  mem "pnfs_curr_ld" (ptr (struct_ "pnfs_layoutdriver_type"));
  mem "roc_rpcwaitq" (struct_ "rpc_wait_queue");
  mem "pnfs_ld_data" (ptr TVoid);
  mem "state_owners" (struct_ "rb_root");
  mem "owner_ctr" (name_ "atomic64_t");
  mem "state_owners_lru" (struct_ "list_head");
  mem "layouts" (struct_ "list_head");
  mem "delegations" (struct_ "list_head");
  mem "ss_copies" (struct_ "list_head");
  mem "ss_src_copies" (struct_ "list_head");
  mem "delegation_gen" t_ulong;
  mem "mig_gen" t_ulong;
  mem "mig_status" t_ulong;
  mem "destroy" func_ptr;
  mem "active" (name_ "atomic_t");
  mem "mountd_address" (struct_ "__kernel_sockaddr_storage");
  mem "mountd_addrlen" (name_ "size_t");
  mem "mountd_version" (name_ "u32");
  mem "mountd_port" t_ushort;
  mem "mountd_protocol" t_ushort;
  mem "uoc_rpcwaitq" (struct_ "rpc_wait_queue");
  mem "read_hdrsize" t_uint;
  mem "cred" (ptr (struct_ "cred"));
  mem "has_sec_mnt_opts" t_bool;
  mem "kobj" (struct_ "kobject");
  mem "rcu" (struct_ "callback_head")].

Definition struct_nfs_client : decl := Struct "nfs_client" [
  mem "cl_count" (name_ "refcount_t");
  mem "cl_mds_count" (name_ "atomic_t");
  mem "cl_cons_state" t_int;
  mem "cl_res_state" t_ulong;
  mem "cl_flags" t_ulong;
  mem "cl_addr" (struct_ "__kernel_sockaddr_storage");
  mem "cl_addrlen" (name_ "size_t");
  mem "cl_hostname" (ptr t_char);
  mem "cl_acceptor" (ptr t_char);
  mem "cl_share_link" (struct_ "list_head");
  mem "cl_superblocks" (struct_ "list_head");
  mem "cl_rpcclient" (ptr (struct_ "rpc_clnt"));
  mem "rpc_ops" (ptr (struct_ "nfs_rpc_ops"));
  mem "cl_proto" t_int;
  mem "cl_nfs_mod" (ptr (struct_ "nfs_subversion"));
  mem "cl_minorversion" (name_ "u32");
  mem "cl_nconnect" t_uint;
  mem "cl_max_connect" t_uint;
  mem "cl_principal" (ptr t_char);
  mem "cl_xprtsec" (struct_ "xprtsec_parms");
  mem "cl_ds_clients" (struct_ "list_head");
  mem "cl_clientid" (name_ "u64");
  mem "cl_confirm" (name_ "nfs4_verifier");
  mem "cl_state" t_ulong;
  mem "cl_lock" (name_ "spinlock_t");
  mem "cl_lease_time" t_ulong;
  mem "cl_last_renewal" t_ulong;
  mem "cl_renewd" (struct_ "delayed_work");
  mem "cl_rpcwaitq" (struct_ "rpc_wait_queue");
  mem "cl_idmap" (ptr (struct_ "idmap"));
  mem "cl_owner_id" (ptr t_char);
  mem "cl_cb_ident" (name_ "u32");
  mem "cl_mvops" (ptr (struct_ "nfs4_minor_version_ops"));
  mem "cl_mig_gen" t_ulong;
  mem "cl_slot_tbl" (ptr (struct_ "nfs4_slot_table"));
  mem "cl_seqid" (name_ "u32");
  mem "cl_exchange_flags" (name_ "u32");
  mem "cl_session" (ptr (struct_ "nfs4_session"));
  mem "cl_preserve_clid" t_bool;
  mem "cl_serverowner" (ptr (struct_ "nfs41_server_owner"));
  mem "cl_serverscope" (ptr (struct_ "nfs41_server_scope"));
  mem "cl_implid" (ptr (struct_ "nfs41_impl_id"));
  mem "cl_sp4_flags" t_ulong;
  mem "cl_lock_waitq" (name_ "wait_queue_head_t");
  mem "cl_ipaddr" (arr t_char 48);
  mem "cl_net" (ptr (struct_ "net"));
  mem "pending_cb_stateids" (struct_ "list_head");
  mem "rcu" (struct_ "callback_head")].

Definition struct_nfs_write_verifier : decl := Struct "nfs_write_verifier" [
  mem "data" (arr t_char 8)].

Definition struct_nfs_writeverf : decl := Struct "nfs_writeverf" [
  mem "verifier" (struct_ "nfs_write_verifier");
  mem "committed" (enum_ "nfs3_stable_how")].

Definition struct_nfs_pgio_args : decl := Struct "nfs_pgio_args" [
  mem "seq_args" (struct_ "nfs4_sequence_args");
  mem "fh" (ptr (struct_ "nfs_fh"));
  mem "context" (ptr (struct_ "nfs_open_context"));
  mem "lock_context" (ptr (struct_ "nfs_lock_context"));
  mem "stateid" (name_ "nfs4_stateid");
  mem "offset" (name_ "__u64");
  mem "count" (name_ "__u32");
  mem "pgbase" t_uint;
  mem "pages" (ptr (ptr (struct_ "page")));
  anon (union_body [
    mem "replen" t_uint;
    anon (struct_body [
      mem "bitmask" (ptr (name_ "u32"));
      mem "bitmask_store" (arr (name_ "u32") 3);
      mem "stable" (enum_ "nfs3_stable_how")])])].

Definition struct_nfs_pgio_res : decl := Struct "nfs_pgio_res" [
  mem "seq_res" (struct_ "nfs4_sequence_res");
  mem "fattr" (ptr (struct_ "nfs_fattr"));
  mem "count" (name_ "__u64");
  mem "op_status" (name_ "__u32");
  anon (union_body [
    anon (struct_body [mem "replen" t_uint; mem "eof" t_int; mem "scratch" (ptr TVoid)]);
    anon (struct_body [
      mem "verf" (ptr (struct_ "nfs_writeverf"));
      mem "server" (ptr (struct_ "nfs_server"))])])].

Definition struct_nfs_page_array : decl := Struct "nfs_page_array" [
  mem "pagevec" (ptr (ptr (struct_ "page")));
  mem "npages" t_uint;
  mem "page_array" (arr (ptr (struct_ "page")) 8)].

Definition struct_nfs_pgio_header : decl := Struct "nfs_pgio_header" [
  mem "inode" (ptr (struct_ "inode"));
  mem "cred" (ptr (struct_ "cred"));
  mem "pages" (struct_ "list_head");
  mem "req" (ptr (struct_ "nfs_page"));
  mem "verf" (struct_ "nfs_writeverf");
  mem "rw_mode" (name_ "fmode_t");
  mem "lseg" (ptr (struct_ "pnfs_layout_segment"));
  mem "io_start" (name_ "loff_t");
  mem "mds_ops" (ptr (struct_ "rpc_call_ops"));
  mem "release" func_ptr;
  mem "completion_ops" (ptr (struct_ "nfs_pgio_completion_ops"));
  mem "rw_ops" (ptr (struct_ "nfs_rw_ops"));
  mem "io_completion" (ptr (struct_ "nfs_io_completion"));
  mem "dreq" (ptr (struct_ "nfs_direct_req"));
  mem "netfs" (ptr TVoid);
  mem "pnfs_error" t_int;
  mem "error" t_int;
  mem "good_bytes" t_uint;
  mem "flags" t_ulong;
  mem "task" (struct_ "rpc_task");
  mem "fattr" (struct_ "nfs_fattr");
  mem "args" (struct_ "nfs_pgio_args");
  mem "res" (struct_ "nfs_pgio_res");
  mem "timestamp" t_ulong;
  mem "pgio_done_cb" func_ptr;
  mem "mds_offset" (name_ "__u64");
  mem "page_array" (struct_ "nfs_page_array");
  mem "ds_clp" (ptr (struct_ "nfs_client"));
  mem "ds_commit_idx" (name_ "u32");
  mem "pgio_mirror_idx" (name_ "u32")].

Definition struct_nfs_pgio_completion_ops : decl := Struct "nfs_pgio_completion_ops" [
  mem "error_cleanup" func_ptr;
  mem "init_hdr" func_ptr;
  mem "completion" func_ptr;
  mem "reschedule_io" func_ptr].

Definition struct_trace_event_raw_block_rq_completion : decl := Struct "trace_event_raw_block_rq_completion" [
  mem "ent" (struct_ "trace_entry");
  mem "dev" (name_ "dev_t");
  mem "sector" (name_ "sector_t");
  mem "nr_sector" t_uint;
  mem "error" t_int;
  mem "ioprio" t_ushort;
  mem "rwbs" (arr t_char 8);
  mem "__data_loc_cmd" (name_ "u32");
  mem "__data" (arr t_char 0)].

Definition struct_trace_event_raw_block_rq : decl := Struct "trace_event_raw_block_rq" [
  mem "ent" (struct_ "trace_entry");
  mem "dev" (name_ "dev_t");
  mem "sector" (name_ "sector_t");
  mem "nr_sector" t_uint;
  mem "bytes" t_uint;
  mem "ioprio" t_ushort;
  mem "rwbs" (arr t_char 8);
  mem "comm" (arr t_char 16);
  mem "__data_loc_cmd" (name_ "u32");
  mem "__data" (arr t_char 0)].

Definition struct_bpf_raw_tracepoint_args : decl := Struct "bpf_raw_tracepoint_args" [
  mem "args" (arr (name_ "__u64") 0)].

Definition struct_blk_crypto_keyslot : decl := Struct "blk_crypto_keyslot" [
  mem "slot_refs" (name_ "atomic_t");
  mem "idle_slot_node" (struct_ "list_head");
  mem "hash_node" (struct_ "hlist_node");
  mem "key" (ptr (struct_ "blk_crypto_key"));
  mem "profile" (ptr (struct_ "blk_crypto_profile"))].

Definition decls_VmlinuxNfs : list decl := [
  struct_workqueue_struct; struct_mnt_idmap; struct_xdr_buf; struct_lwq_node; struct_rpc_rqst;
  typedef_kxdreproc_t; typedef_kxdrdproc_t; struct_rpc_message; struct_rpc_procinfo;
  struct_rpc_wait; struct_rpc_timeout; struct_rpc_task; struct_rpc_timer; struct_rpc_wait_queue;
  struct_rpc_call_ops; enum_xprtsec_policies; struct_xprtsec_parms; struct_rpc_pipe_dir_head;
  struct_rpc_rtt; struct_rpc_xprt_iter; struct_rpc_clnt; struct_rpc_xprt; struct_rpc_cred;
  typedef_rpc_authflavor_t; struct_nfs_fh; enum_nfs3_stable_how; struct_nfs4_label;
  typedef_nfs4_verifier; struct_nfs4_stateid_struct; typedef_nfs4_stateid;
  enum_nfs4_change_attr_type; struct_nfs4_string; struct_nfs_fsid; struct_nfs4_threshold;
  struct_nfs_fattr; struct_nfs4_sequence_args; struct_nfs4_sequence_res; struct_nfs_lock_context;
  struct_nfs_open_context; struct_nfs_auth_info; struct_nfs_server; struct_nfs_client;
  struct_nfs_write_verifier; struct_nfs_writeverf; struct_nfs_pgio_args; struct_nfs_pgio_res;
  struct_nfs_page_array; struct_nfs_pgio_header; struct_nfs_pgio_completion_ops;
  struct_trace_event_raw_block_rq_completion; struct_trace_event_raw_block_rq;
  struct_bpf_raw_tracepoint_args; struct_blk_crypto_keyslot].
