(* ===== verification/KernelTypes.v ===== *)
(** * The kernel type environment of the BPF programs

    [vmlinux] collects the declarations of vmlinux.h the programs depend on: the
    types they traverse (the tracepoint records, [nfs_pgio_header], [inode],
    [super_block], [kiocb], [file], [path], [dentry], [pt_regs],
    [bpf_raw_tracepoint_args]), the further argument types of the traced
    functions ([iov_iter], [kstat]) and the [request] the block tracepoints are
    about, every type those hold by value, and every type one pointer away from
    these, again with what it holds by value.  Types that occur only behind
    further pointers stay undeclared and function types are left out, as they
    have no layout; pointers to either have one, as with forward declarations
    in C. *)
From S2P Require Import Prelude CLayout VmlinuxCore VmlinuxMm VmlinuxFs VmlinuxNfs.

Definition vmlinux_decls : list decl :=
  decls_VmlinuxCore ++ decls_VmlinuxMm ++ decls_VmlinuxFs ++ decls_VmlinuxNfs.

Definition vmlinux : tenv := list_to_map vmlinux_decls.

(** Nesting bound for [layout] on [vmlinux]: the deepest type needs fewer than
    30 unfoldings ([vmlinux_layout] shows 64 suffice for every declaration). *)
Definition vmfuel : nat := 64.

Lemma vmlinux_nodup : NoDup (fst <$> vmlinux_decls).
Proof.
  apply (bool_decide_eq_true_1 (NoDup (fst <$> vmlinux_decls))).
  vm_compute. reflexivity.
Qed.

Lemma vmlinux_lookup k t : vmlinux !! k = Some t ↔ (k, t) ∈ vmlinux_decls.
Proof. symmetry. apply elem_of_list_to_map. exact vmlinux_nodup. Qed.

Lemma vmlinux_wf : wf_env vmlinux.
Proof.
  intros k t H%vmlinux_lookup.
  assert (Hall : Forall (λ d : decl, wf_ctype d.2 = true) vmlinux_decls).
  { apply Forall_forall. intros d Hd. apply list_elem_of_In in Hd. revert d Hd.
    apply forallb_forall. vm_compute. reflexivity. }
  rewrite Forall_forall in Hall. by apply (Hall (k, t)).
Qed.

Lemma vmlinux_layout k t :
  vmlinux !! k = Some t → ∃ s a, layout vmfuel vmlinux t = Some (s, a) ∧ 0 <= s ∧ 0 < a.
Proof.
  intros H. pose proof H as Hin%vmlinux_lookup.
  assert (Hall : Forall (λ d : decl, is_Some (layout vmfuel vmlinux d.2)) vmlinux_decls).
  { apply Forall_forall. intros d Hd. apply list_elem_of_In in Hd.
    apply (bool_decide_eq_true_1 (is_Some (layout vmfuel vmlinux d.2))). revert d Hd.
    apply forallb_forall. vm_compute. reflexivity. }
  rewrite Forall_forall in Hall. destruct (Hall (k, t) Hin) as [[s a] HL]. exists s, a.
  split; [done|]. eapply layout_pos; [apply vmlinux_wf|by eapply vmlinux_wf|exact HL].
Qed.

(** Every declaration of the environment denotes a complete object type: no
    member is of a type left undeclared and no type contains itself, so that its
    size and alignment are defined.  And every access to a member, through
    anonymous structs and unions too, stays inside the object: the member has a
    complete type whose extent lies between the object's first and last byte. *)
Lemma vmlinux_layouts_sound k t :
  vmlinux !! k = Some t →
  ∃ s a, layout vmfuel vmlinux t = Some (s, a) ∧ 0 <= s ∧ 0 < a ∧
  ∀ f o t', find_member vmfuel vmlinux t f = Some (o, t') →
    ∃ fuel' s' a', layout fuel' vmlinux t' = Some (s', a') ∧ 0 <= o ∧ o + s' <= s.
Proof.
  intros Hk. destruct (vmlinux_layout k t Hk) as (s & a & HL & Hs & Ha). exists s, a. split_and!; [done..|].
  intros f o t' HF. apply (find_member_bounds vmfuel vmlinux t f o t' s a vmlinux_wf (vmlinux_wf _ _ Hk) HL HF).
Qed.

(** ** The members the programs access *)

Definition offset_of (S : string) (fs : list string) : option (Z * ctype) :=
  find_path vmfuel vmlinux (struct_ S) fs.

Lemma off_hdr_inode : offset_of "nfs_pgio_header" ["inode"] = Some (0, ptr (struct_ "inode")).
Proof. vm_compute. reflexivity. Qed.
Lemma off_hdr_offset : offset_of "nfs_pgio_header" ["args"; "offset"] = Some (664, name_ "__u64").
Proof. vm_compute. reflexivity. Qed.
Lemma off_hdr_count : offset_of "nfs_pgio_header" ["args"; "count"] = Some (672, name_ "__u32").
Proof. vm_compute. reflexivity. Qed.
Lemma off_inode_sb : offset_of "inode" ["i_sb"] = Some (40, ptr (struct_ "super_block")).
Proof. vm_compute. reflexivity. Qed.
Lemma off_sb_dev : offset_of "super_block" ["s_dev"] = Some (16, name_ "dev_t").
Proof. vm_compute. reflexivity. Qed.
Lemma off_kiocb_filp : offset_of "kiocb" ["ki_filp"] = Some (0, ptr (struct_ "file")).
Proof. vm_compute. reflexivity. Qed.
Lemma off_file_inode : offset_of "file" ["f_inode"] = Some (40, ptr (struct_ "inode")).
Proof. vm_compute. reflexivity. Qed.
Lemma off_path_dentry : offset_of "path" ["dentry"] = Some (8, ptr (struct_ "dentry")).
Proof. vm_compute. reflexivity. Qed.
Lemma off_dentry_inode : offset_of "dentry" ["d_inode"] = Some (48, ptr (struct_ "inode")).
Proof. vm_compute. reflexivity. Qed.

Lemma layout_dev_t : layout vmfuel vmlinux (name_ "dev_t") = Some (4, 4).
Proof. vm_compute. reflexivity. Qed.
Lemma layout_u32 : layout vmfuel vmlinux (name_ "__u32") = Some (4, 4).
Proof. vm_compute. reflexivity. Qed.
Lemma layout_u64 : layout vmfuel vmlinux (name_ "__u64") = Some (8, 8).
Proof. vm_compute. reflexivity. Qed.
Lemma layout_sector_t : layout vmfuel vmlinux (name_ "sector_t") = Some (8, 8).
Proof. vm_compute. reflexivity. Qed.
Lemma layout_char8 : layout vmfuel vmlinux (arr t_char 8) = Some (8, 1).
Proof. vm_compute. reflexivity. Qed.
Lemma resolve_ptr t : resolve vmfuel vmlinux (ptr t) = Some (TPtr t).
Proof. reflexivity. Qed.

(** Keeps unification from unfolding the nesting bound; [vm_compute] still evaluates it. *)
#[global] Opaque vmfuel.
