(* ===== verification/CoreRead.v ===== *)
(** * Reading kernel objects

    [BPF_CORE_READ (p, a, b.c, d)] follows pointers through kernel memory, one
    [bpf_probe_read_kernel] per arrow.  Member offsets come from the type
    information of the running kernel (CO-RE relocation), an environment [E]
    here; vmlinux.h supplies the names and types the programs were compiled
    against. *)
From S2P Require Import Prelude CLayout KernelTypes.

(** Kernel memory: the byte at an address, or nothing where none is mapped. *)
Abbreviation kmem := (Z → option Z).

(** [bytes_at m a bs]: the bytes [bs] lie at address [a]. *)
Definition bytes_at (m : kmem) (a : Z) (bs : list Z) : Prop :=
  ∀ i b, bs !! i = Some b → m (a + Z.of_nat i) = Some b.

(** The helper [bpf_probe_read_kernel (dst, n, a)] as the bytes it leaves in
    [dst].  Its documentation: it copies [n] bytes, and zeroes [dst] when the
    source cannot be read. *)
Class ProbeReadKernel := {
  probe_read : kmem → Z → nat → list Z;
  probe_read_ok m a bs : bytes_at m a bs → probe_read m a (length bs) = bs;
  probe_read_fault m a n i :
    (i < n)%nat → m (a + Z.of_nat i) = None → probe_read m a n = replicate n 0;
}.

(** A direct implementation, which shows the laws satisfiable. *)
Definition copy_bytes (m : kmem) (a : Z) (n : nat) : option (list Z) :=
  mapM (λ i, m (a + Z.of_nat i)) (seq 0 n).

Definition copy_or_zero (m : kmem) (a : Z) (n : nat) : list Z :=
  default (replicate n 0) (copy_bytes m a n).

Lemma copy_bytes_ok m a bs : bytes_at m a bs → copy_bytes m a (length bs) = Some bs.
Proof.
  intros Hbs. apply mapM_Some_2. apply Forall2_same_length_lookup_2; [by rewrite length_seq|].
  intros i x y [-> ?]%lookup_seq Hy. by apply Hbs.
Qed.

Lemma copy_bytes_fault m a n i : (i < n)%nat → m (a + Z.of_nat i) = None → copy_bytes m a n = None.
Proof.
  intros Hi Hm. apply mapM_None_2, Exists_exists. exists i. split; [|done]. apply elem_of_seq. lia.
Qed.

Lemma bytes_at_copy m a bs : copy_bytes m a (length bs) = Some bs → bytes_at m a bs.
Proof.
  intros Hc%mapM_Some_1 i b Hb. destruct (Forall2_lookup_r _ _ _ _ _ Hc Hb) as (j & [-> _]%lookup_seq & Hm).
  exact Hm.
Qed.

(** Memory made of segments, for examples. *)
Definition seg_mem (segs : list (Z * list Z)) : kmem := λ a,
  foldr (λ sg r, if (sg.1 <=? a) && (a <? sg.1 + Z.of_nat (length sg.2)) then sg.2 !! Z.to_nat (a - sg.1) else r) None segs.

(** Bytes of an example memory, by evaluation. *)
Lemma bytes_at_eval (m : kmem) a n v : copy_bytes m a n = Some (le_bytes n v) → bytes_at m a (le_bytes n v).
Proof. intros Hc. apply bytes_at_copy. by rewrite length_le_bytes. Qed.

Ltac mem_eval := first [apply bytes_at_eval; vm_compute; reflexivity | unfold is_u64, is_u32; lia | lia].

#[export] Instance copy_probe_read : ProbeReadKernel.
Proof.
  refine {| probe_read := copy_or_zero |}; intros; unfold copy_or_zero.
  - by rewrite copy_bytes_ok.
  - by erewrite copy_bytes_fault.
Defined.

Section CoreRead.
Context `{!ProbeReadKernel} (E : tenv).

(** The accessors of [BPF_CORE_READ]: [arrows] are those a pointer is loaded
    through, [last] the one whose value is returned, each a dotted member
    designator.  [None] when an accessor does not resolve in [E]; the loader
    then refuses the program. *)
Fixpoint core_read (m : kmem) (t : ctype) (base : Z) (arrows : list (list string)) (last : list string) : option Z :=
  match arrows with
  | [] =>
      '(o, t') ← find_path vmfuel E t last;
      '(s, _) ← layout vmfuel E t';
      Some (le_val (probe_read m (base + o) (Z.to_nat s)))
  | fs :: arrows' =>
      '(o, t') ← find_path vmfuel E t fs;
      t'' ← resolve vmfuel E t';
      match t'' with
      | TPtr u => core_read m u (le_val (probe_read m (base + o) 8)) arrows' last
      | _ => None
      end
  end.

(** [chain m t base arrows last v]: following the accessors from the object of
    type [t] at [base], every pointer and the final value [v] are in memory. *)
Inductive chain (m : kmem) (last : list string) (v : Z) : ctype → Z → list (list string) → Prop :=
  | chain_last t base o t' s a :
      find_path vmfuel E t last = Some (o, t') → layout vmfuel E t' = Some (s, a) → 0 <= s →
      bytes_at m (base + o) (le_bytes (Z.to_nat s) v) → 0 <= v < 256 ^ s →
      chain m last v t base []
  | chain_arrow t base fs arrows o t' u p :
      find_path vmfuel E t fs = Some (o, t') → resolve vmfuel E t' = Some (TPtr u) → is_u64 p →
      bytes_at m (base + o) (le_bytes 8 p) →
      chain m last v u p arrows → chain m last v t base (fs :: arrows).

Lemma probe_read_le m a n v : bytes_at m a (le_bytes n v) → probe_read m a n = le_bytes n v.
Proof. intros Hb. by rewrite <- (length_le_bytes n v) at 1; apply probe_read_ok. Qed.

(** The equations of [core_read], stated with the bind so that conversion
    never looks inside the layout functions. *)
Lemma core_read_last m t base last o t' s a :
  find_path vmfuel E t last = Some (o, t') → layout vmfuel E t' = Some (s, a) →
  core_read m t base [] last = Some (le_val (probe_read m (base + o) (Z.to_nat s))).
Proof.
  intros HF HL.
  change (core_read m t base [] last) with
    ('(o, t') ← find_path vmfuel E t last; '(s, _) ← layout vmfuel E t';
     Some (le_val (probe_read m (base + o) (Z.to_nat s)))).
  rewrite HF, bind_Some_l. cbv beta iota. by rewrite HL, bind_Some_l.
Qed.

Lemma core_read_arrow m t base fs arrows last o t' u :
  find_path vmfuel E t fs = Some (o, t') → resolve vmfuel E t' = Some (TPtr u) →
  core_read m t base (fs :: arrows) last = core_read m u (le_val (probe_read m (base + o) 8)) arrows last.
Proof.
  intros HF HR.
  change (core_read m t base (fs :: arrows) last) with
    ('(o, t') ← find_path vmfuel E t fs; t'' ← resolve vmfuel E t';
     match t'' with
     | TPtr u => core_read m u (le_val (probe_read m (base + o) 8)) arrows last
     | _ => None
     end).
  rewrite HF, bind_Some_l. cbv beta iota. by rewrite HR, bind_Some_l.
Qed.

Lemma core_read_chain m t base arrows last v :
  chain m last v t base arrows → core_read m t base arrows last = Some v.
Proof.
  induction 1 as [t base o t' s a HF HL Hs Hb Hv|t base fs arrows o t' u p HF HR Hp Hb Hc IH].
  - erewrite core_read_last by done. rewrite (probe_read_le _ _ _ v) by done.
    rewrite le_val_bytes; [done|]. by rewrite Z2Nat.id.
  - erewrite core_read_arrow by done.
    rewrite (probe_read_le _ _ 8 p) by done. rewrite le_val_bytes by apply Hp. exact IH.
Qed.
End CoreRead.

(** ** Fields of a tracepoint record, loaded directly *)

Definition load_field (E : tenv) (m : kmem) (t : ctype) (base : Z) (f : string) : option (list Z) :=
  '(o, t') ← find_member vmfuel E t f;
  '(s, _) ← layout vmfuel E t';
  copy_bytes m (base + o) (Z.to_nat s).

(** ** What the accesses read in the kernel the programs were compiled against *)

Section Vmlinux.
Context `{!ProbeReadKernel} (m : kmem).

(** The little-endian word of [n] bytes at an address. *)
Definition word_at (n : nat) (a : Z) : Z := le_val (probe_read m a n).
Definition ptr_at (a : Z) : Z := word_at 8 a.

Lemma read_word t base last o t' s a :
  find_path vmfuel vmlinux t last = Some (o, t') → layout vmfuel vmlinux t' = Some (s, a) →
  core_read vmlinux m t base [] last = Some (word_at (Z.to_nat s) (base + o)).
Proof. apply core_read_last. Qed.

Lemma read_arrow t base fs arrows last o u :
  find_path vmfuel vmlinux t fs = Some (o, ptr u) →
  core_read vmlinux m t base (fs :: arrows) last = core_read vmlinux m u (ptr_at (base + o)) arrows last.
Proof. intros HF. by rewrite (core_read_arrow vmlinux m t base fs arrows last o (ptr u) u HF (resolve_ptr u)). Qed.

Lemma read_inode_dev p : core_read vmlinux m (struct_ "inode") p [["i_sb"]] ["s_dev"] = Some (word_at 4 (ptr_at (p + 40) + 16)).
Proof. rewrite (read_arrow _ _ _ _ _ _ _ off_inode_sb). by rewrite (read_word _ _ _ _ _ _ _ off_sb_dev layout_dev_t). Qed.

Lemma load_at S p f o t s a :
  find_member vmfuel vmlinux (struct_ S) f = Some (o, t) → layout vmfuel vmlinux t = Some (s, a) →
  load_field vmlinux m (struct_ S) p f = copy_bytes m (p + o) (Z.to_nat s).
Proof. intros HF HL. unfold load_field. rewrite HF, bind_Some_l. cbv beta iota. by rewrite HL, bind_Some_l. Qed.

(** C38.  The memory the programs read on a kernel with the types of vmlinux.h, byte
    for byte: each chain of members in nfs_latency.c and nfs_kprobe_latency.c loads
    its pointers, eight bytes each, and its value, as wide as the member, at the
    offsets of the declared structs, and so do the members of the two block
    tracepoint records.  The sizes of the structs passed through are those of the
    whole declarations; and every declaration has a size, and its members lie
    inside it. *)
Theorem vmlinux_reads_exact p :
  core_read vmlinux m (struct_ "nfs_pgio_header") p [["inode"]; ["i_sb"]] ["s_dev"] = Some (word_at 4 (ptr_at (ptr_at p + 40) + 16)) ∧
  core_read vmlinux m (struct_ "nfs_pgio_header") p [] ["args"; "offset"] = Some (word_at 8 (p + 664)) ∧
  core_read vmlinux m (struct_ "nfs_pgio_header") p [] ["args"; "count"] = Some (word_at 4 (p + 672)) ∧
  core_read vmlinux m (struct_ "kiocb") p [["ki_filp"]; ["f_inode"]; ["i_sb"]] ["s_dev"] = Some (word_at 4 (ptr_at (ptr_at (ptr_at p + 40) + 40) + 16)) ∧
  core_read vmlinux m (struct_ "inode") p [["i_sb"]] ["s_dev"] = Some (word_at 4 (ptr_at (p + 40) + 16)) ∧
  core_read vmlinux m (struct_ "path") p [["dentry"]; ["d_inode"]; ["i_sb"]] ["s_dev"] = Some (word_at 4 (ptr_at (ptr_at (ptr_at (p + 8) + 48) + 40) + 16)) ∧
  Forall (λ S,
    load_field vmlinux m (struct_ S) p "dev" = copy_bytes m (p + 8) 4 ∧
    load_field vmlinux m (struct_ S) p "sector" = copy_bytes m (p + 16) 8 ∧
    load_field vmlinux m (struct_ S) p "rwbs" = copy_bytes m (p + 34) 8)
    ["trace_event_raw_block_rq"; "trace_event_raw_block_rq_completion"] ∧
  Forall (λ '(name, s), layout vmfuel vmlinux (struct_ name) = Some (s, 8))
    [("nfs_pgio_header", 904); ("inode", 632); ("super_block", 1408); ("kiocb", 48); ("file", 184); ("path", 16); ("dentry", 192);
     ("trace_event_raw_block_rq", 64); ("trace_event_raw_block_rq_completion", 48)] ∧
  ∀ k t, vmlinux !! k = Some t → ∃ s a, layout vmfuel vmlinux t = Some (s, a) ∧ 0 <= s ∧ 0 < a ∧
    ∀ f o t', find_member vmfuel vmlinux t f = Some (o, t') → ∃ fuel' s' a', layout fuel' vmlinux t' = Some (s', a') ∧ 0 <= o ∧ o + s' <= s.
Proof.
  split; [rewrite (read_arrow _ _ _ _ _ _ _ off_hdr_inode), Z.add_0_r; apply read_inode_dev|].
  split; [by rewrite (read_word _ _ _ _ _ _ _ off_hdr_offset layout_u64)|].
  split; [by rewrite (read_word _ _ _ _ _ _ _ off_hdr_count layout_u32)|].
  split; [rewrite (read_arrow _ _ _ _ _ _ _ off_kiocb_filp), Z.add_0_r, (read_arrow _ _ _ _ _ _ _ off_file_inode); apply read_inode_dev|].
  split; [apply read_inode_dev|].
  split; [rewrite (read_arrow _ _ _ _ _ _ _ off_path_dentry), (read_arrow _ _ _ _ _ _ _ off_dentry_inode); apply read_inode_dev|].
  split; [|split; [repeat constructor; vm_compute; reflexivity|exact vmlinux_layouts_sound]].
  repeat constructor; (eapply load_at; [vm_compute; reflexivity|first [exact layout_dev_t|exact layout_sector_t|exact layout_char8]]).
Qed.
End Vmlinux.

(** An open file on device 0:7. *)
Lemma vmlinux_reads_exact_witness :
  let m := seg_mem [(0x1000, le_bytes 8 0x2000); (0x2028, le_bytes 8 0x3000); (0x3028, le_bytes 8 0x4000); (0x4010, le_bytes 4 7)] in
  core_read vmlinux m (struct_ "kiocb") 0x1000 [["ki_filp"]; ["f_inode"]; ["i_sb"]] ["s_dev"] = Some 7.
Proof.
  cbv zeta. set (m := seg_mem _). destruct (vmlinux_reads_exact m 0x1000) as (_ & _ & _ & -> & _). vm_compute. reflexivity.
Defined.
