(* ===== verification/Bits.v ===== *)
(** * Integer logarithms of bits.bpf.h

    [log2] finds the highest set bit of a 32-bit word by binary search over the
    bit positions; [log2l] does so for 64 bits. *)
From S2P Require Import Prelude.

Definition b2z (b : bool) : Z := if b then 1 else 0.

(** [log2], with the C variables [v], [r] and [shift] as successive bindings. *)
Definition log2 (v : Z) : Z :=
  let r := Z.shiftl (b2z (0xFFFF <? v)) 4 in
  let v := Z.shiftr v r in
  let shift := Z.shiftl (b2z (0xFF <? v)) 3 in
  let v := Z.shiftr v shift in
  let r := Z.lor r shift in
  let shift := Z.shiftl (b2z (0xF <? v)) 2 in
  let v := Z.shiftr v shift in
  let r := Z.lor r shift in
  let shift := Z.shiftl (b2z (0x3 <? v)) 1 in
  let v := Z.shiftr v shift in
  let r := Z.lor r shift in
  Z.lor r (Z.shiftr v 1).

Definition log2l (v : Z) : Z :=
  let hi := u32 (Z.shiftr v 32) in
  if negb (hi =? 0) then log2 hi + 32 else log2 (u32 v).

(** One round of the search: shifting by [k] when [v] has [k] or more further
    bits keeps the logarithm, up to the shift. *)
Lemma log2_round c k v : c = 2 ^ k - 1 → 0 <= k → 0 < v →
  let sh := if c <? v then k else 0 in
  0 < Z.shiftr v sh ∧ Z.log2 v = sh + Z.log2 (Z.shiftr v sh) ∧
  (v < 2 ^ (2 * k) → Z.shiftr v sh < 2 ^ k).
Proof.
  intros -> Hk Hv sh. subst sh. destruct (Z.ltb_spec (2 ^ k - 1) v) as [H|H].
  - assert (Hlog : k <= Z.log2 v) by (apply Z.log2_le_pow2; lia).
    rewrite Z.shiftr_div_pow2 by lia.
    assert (0 < v / 2 ^ k) by (apply Z.div_str_pos; lia).
    split_and!; [done| |].
    + rewrite <- Z.shiftr_div_pow2, Z.log2_shiftr by lia. lia.
    + intros Hlt. apply Z.div_lt_upper_bound; [lia|].
      by rewrite <- Z.pow_add_r, Z.add_diag by lia.
  - rewrite Z.shiftr_0_r. split_and!; [done|lia|lia].
Qed.

(** The same search with the shift amounts as conditionals. *)
Lemma log2_rounds v :
  log2 v =
    let s1 := if 0xFFFF <? v then 16 else 0 in let v1 := Z.shiftr v s1 in
    let s2 := if 0xFF <? v1 then 8 else 0 in let v2 := Z.shiftr v1 s2 in
    let s3 := if 0xF <? v2 then 4 else 0 in let v3 := Z.shiftr v2 s3 in
    let s4 := if 0x3 <? v3 then 2 else 0 in let v4 := Z.shiftr v3 s4 in
    Z.lor (Z.lor (Z.lor (Z.lor s1 s2) s3) s4) (Z.shiftr v4 1).
Proof.
  assert (Hs : ∀ b k, Z.shiftl (b2z b) k = if b then Z.shiftl 1 k else 0).
  { intros [] k; [done|apply Z.shiftl_0_l]. }
  unfold log2. rewrite !Hs. reflexivity.
Qed.

Lemma log2_last v : 0 < v < 2 ^ 2 → Z.log2 v = Z.shiftr v 1 ∧ 0 <= Z.shiftr v 1 <= 1.
Proof. intros H. assert (v = 1 ∨ v = 2 ∨ v = 3) as [->|[->| ->]] by lia; by vm_compute. Qed.

(** The shift amounts are distinct powers of two, so that [lor] adds them up. *)
Lemma lor_shifts (b1 b2 b3 b4 : bool) x : 0 <= x <= 1 →
  Z.lor (Z.lor (Z.lor (Z.lor (if b1 then 16 else 0) (if b2 then 8 else 0)) (if b3 then 4 else 0)) (if b4 then 2 else 0)) x
  = (if b1 then 16 else 0) + ((if b2 then 8 else 0) + ((if b3 then 4 else 0) + ((if b4 then 2 else 0) + x))).
Proof. intros Hx. assert (x = 0 ∨ x = 1) as [->| ->] by lia; by destruct b1, b2, b3, b4. Qed.

(** [log2] is the floor of the binary logarithm on every non-zero 32-bit word:
    the four rounds and the last bit find the highest set bit. *)
Lemma log2_floor v : 0 < v < 2 ^ 32 → log2 v = Z.log2 v.
Proof.
  intros [Hv Hmax]. rewrite log2_rounds. cbv zeta.
  destruct (log2_round 0xFFFF 16 v) as (H1 & -> & B1); [lia..|]. specialize (B1 Hmax).
  set (v1 := Z.shiftr v _) in *.
  destruct (log2_round 0xFF 8 v1) as (H2 & -> & B2); [lia..|]. specialize (B2 B1).
  set (v2 := Z.shiftr v1 _) in *.
  destruct (log2_round 0xF 4 v2) as (H3 & -> & B3); [lia..|]. specialize (B3 B2).
  set (v3 := Z.shiftr v2 _) in *.
  destruct (log2_round 0x3 2 v3) as (H4 & -> & B4); [lia..|]. specialize (B4 B3).
  set (v4 := Z.shiftr v3 _) in *.
  destruct (log2_last v4) as [-> Hx]; [lia|]. by apply lor_shifts.
Qed.

(** [log2l] likewise on 64 bits, whichever half holds the highest set bit. *)
Lemma log2l_floor v : 0 < v < 2 ^ 64 → log2l v = Z.log2 v.
Proof.
  intros [Hv Hmax]. unfold log2l, u32. rewrite Z.shiftr_div_pow2 by lia.
  assert (v / 2 ^ 32 < 2 ^ 32) by (apply Z.div_lt_upper_bound; lia).
  assert (0 <= v / 2 ^ 32) by (apply Z.div_pos; lia).
  rewrite (Z.mod_small (v / 2 ^ 32)) by lia.
  destruct (Z.eqb_spec (v / 2 ^ 32) 0) as [E|E]; simpl.
  - assert (v < 2 ^ 32) by (apply Z.div_small_iff in E; lia).
    rewrite Z.mod_small by lia. apply log2_floor. lia.
  - rewrite log2_floor by lia. rewrite <- Z.shiftr_div_pow2, Z.log2_shiftr by lia.
    assert (32 <= Z.log2 v); [|lia].
    apply Z.log2_le_pow2; [lia|]. destruct (Z.lt_ge_cases v (2 ^ 32)); [|done].
    exfalso. apply E, Z.div_small. lia.
Qed.

(** C5.  The branch-free logarithm brackets every 64-bit word: the word lies
    between the power of two it reports and the next one, and zero reports 0. *)
Theorem log2l_brackets v :
  is_u64 v → if v =? 0 then log2l v = 0 else 2 ^ log2l v <= v < 2 ^ (log2l v + 1).
Proof.
  intros [Hv Hmax]. destruct (Z.eqb_spec v 0) as [->|Hne]; [done|].
  rewrite log2l_floor by lia. rewrite Z.add_1_r. apply Z.log2_spec. lia.
Qed.

Lemma log2l_brackets_witness : 2 ^ log2l (2 ^ 40 + 7) <= 2 ^ 40 + 7 < 2 ^ (log2l (2 ^ 40 + 7) + 1).
Proof. apply (log2l_brackets (2 ^ 40 + 7)). unfold is_u64. lia. Defined.
