(* ===== verification/Common.v ===== *)
(** * Data shared by the BPF programs (common.h)

    The histogram and the histogram keys, with the bytes they occupy in a map. *)
From S2P Require Import Prelude CLayout VmlinuxCore Bits.

Definition MAX_SLOTS : Z := 26.
Definition MAX_BLOCK_ENTRIES : nat := Z.to_nat 10240.
Definition MAX_NFS_ENTRIES : nat := Z.to_nat 10240.
Definition MAX_NFS_KPROBE_ENTRIES : nat := Z.to_nat 10240.
Definition MAX_HIST_ENTRIES : nat := Z.to_nat 1024.

Record block_hist_key := BlockHistKey { bhk_dev : Z; bhk_op : Z; bhk_pad : list Z }.
Record nfs_hist_key := NfsHistKey { nhk_dev : Z; nhk_op : Z; nhk_pad : list Z }.
Record hist := Hist { slots : list Z }.

#[export] Instance block_hist_key_eq_dec : EqDecision block_hist_key.
Proof. solve_decision. Defined.
#[export] Instance block_hist_key_countable : Countable block_hist_key.
Proof.
  refine (inj_countable' (λ k, (bhk_dev k, bhk_op k, bhk_pad k)) (λ '(d, o, p), BlockHistKey d o p) _).
  by intros [].
Defined.
#[export] Instance nfs_hist_key_eq_dec : EqDecision nfs_hist_key.
Proof. solve_decision. Defined.
#[export] Instance nfs_hist_key_countable : Countable nfs_hist_key.
Proof.
  refine (inj_countable' (λ k, (nhk_dev k, nhk_op k, nhk_pad k)) (λ '(d, o, p), NfsHistKey d o p) _).
  by intros [].
Defined.
#[export] Instance hist_eq_dec : EqDecision hist.
Proof. solve_decision. Defined.

(** [static struct hist zero_hist;] *)
Definition zero_hist : hist := Hist (replicate (Z.to_nat MAX_SLOTS) 0).

#[export] Instance hist_zeroed : Zeroed hist := zero_hist.

(** [__sync_fetch_and_add (&histp->slots[slot], 1)] on the histogram's memory. *)
Definition hist_incr (slot : Z) (h : hist) : hist :=
  Hist (alter (λ x, u64 (x + 1)) (Z.to_nat slot) (slots h)).

(** A histogram value: 26 counters of 64 bits. *)
Definition hist_wf (h : hist) : Prop := length (slots h) = Z.to_nat MAX_SLOTS ∧ Forall is_u64 (slots h).

Lemma zero_hist_wf : hist_wf zero_hist.
Proof. split; [done|]. apply Forall_replicate. unfold is_u64. lia. Qed.

Lemma hist_incr_wf slot h : hist_wf h → hist_wf (hist_incr slot h).
Proof.
  intros [Hlen Hall]. split; simpl; [by rewrite length_alter|].
  apply Forall_alter; [done|]. intros. apply u64_range.
Qed.

(** The count in one slot. *)
Definition hist_slot (h : hist) (s : Z) : Z := default 0 (slots h !! Z.to_nat s).

Lemma hist_slot_u64 h s : hist_wf h → is_u64 (hist_slot h s).
Proof.
  intros [_ Hall]. unfold hist_slot. destruct (slots h !! Z.to_nat s) as [x|] eqn:E; simpl.
  - rewrite Forall_lookup in Hall. by eapply Hall.
  - unfold is_u64. lia.
Qed.

Lemma hist_slot_zero s : hist_slot zero_hist s = 0.
Proof.
  unfold hist_slot. change (slots zero_hist) with (replicate (Z.to_nat MAX_SLOTS) 0).
  destruct (_ !! _) eqn:E; [|done]. by apply lookup_replicate in E as [-> _].
Qed.

Lemma hist_incr_slot slot s h : hist_wf h → 0 <= slot < MAX_SLOTS → 0 <= s →
  hist_slot (hist_incr slot h) s = if slot =? s then u64 (hist_slot h s + 1) else hist_slot h s.
Proof.
  intros [Hlen _] Hs Hs'. unfold hist_slot, hist_incr. simpl.
  destruct (Z.eqb_spec slot s) as [->|Hne].
  - rewrite list_lookup_alter_eq.
    destruct (lookup_lt_is_Some_2 (slots h) (Z.to_nat s)) as [x ->]; [|done].
    rewrite Hlen. unfold MAX_SLOTS in *. lia.
  - rewrite list_lookup_alter_ne; [done|lia].
Qed.

(** ** Latency slots: the tail of every recording function

    [delta] is the elapsed time in nanoseconds, signed.  A negative one is
    dropped; otherwise it is cut to whole microseconds, at least one, and put in
    the slot of its binary logarithm, the last slot taking everything larger. *)
Definition delta_us (delta : Z) : Z :=
  let delta := Z.quot delta 1000 in
  if delta =? 0 then 1 else delta.

Definition us_slot (us : Z) : Z :=
  let slot := log2l (u64 us) in
  if MAX_SLOTS <=? slot then MAX_SLOTS - 1 else slot.

Lemma delta_us_pos delta : 0 <= delta → 1 <= delta_us delta.
Proof.
  intros Hd. unfold delta_us. rewrite Z.quot_div_nonneg by lia.
  pose proof (Z.div_pos delta 1000). zcase; lia.
Qed.

Lemma delta_us_floor delta : 0 <= delta → delta_us delta = Z.max 1 (delta / 1000).
Proof.
  intros Hd. unfold delta_us. rewrite Z.quot_div_nonneg by lia.
  pose proof (Z.div_pos delta 1000). zcase; lia.
Qed.

Lemma delta_us_max delta : 0 <= delta < 2 ^ 63 → delta_us delta < 2 ^ 63.
Proof.
  intros Hd. rewrite delta_us_floor by lia.
  assert (delta / 1000 <= delta) by (apply Z.div_le_upper_bound; lia). lia.
Qed.

Lemma us_slot_log us : 1 <= us < 2 ^ 64 → us_slot us = Z.min (Z.log2 us) 25.
Proof.
  intros Hus. unfold us_slot. rewrite u64_id by (unfold is_u64; lia).
  rewrite log2l_floor by lia. unfold MAX_SLOTS. zcase; lia.
Qed.

Lemma us_slot_range us : 1 <= us < 2 ^ 64 → 0 <= us_slot us < MAX_SLOTS.
Proof.
  intros Hus. rewrite us_slot_log by done. pose proof (Z.log2_nonneg us). unfold MAX_SLOTS. lia.
Qed.
