(* ===== verification/BpfMap.v ===== *)
(** * BPF hash maps with least-recently-used eviction

    The maps of the programs are [BPF_MAP_TYPE_LRU_HASH]: a fixed pool of
    [max_entries] preallocated elements, an index from keys to elements, and
    helpers that hand out pointers into the pool.  The kernel's choices (which
    entries an update evicts, which free element it takes, whether it fails) are
    an argument of every update, so that what is proved holds for all of them. *)
From S2P Require Import Prelude.

Section BpfMap.
Context {K V : Type} `{Countable K} `{!Zeroed V}.

(** An element pointer is an index into the pool. *)
Record bmap := BMap { bm_max : nat; bm_idx : gmap K nat; bm_mem : gmap nat V }.

(** What the kernel decides during one [bpf_map_update_elem]. *)
Record choice := Choice { ch_ok : bool; ch_evict : list K; ch_elem : nat }.

Definition bm_empty (n : nat) : bmap := BMap n ∅ ∅.

Definition evict (ks : list K) (idx : gmap K nat) : gmap K nat := foldr delete idx ks.

(** The element is in the pool and not the value of a live entry. *)
Definition elem_free (m : bmap) (idx : gmap K nat) (p : nat) : bool :=
  bool_decide (p < bm_max m)%nat && bool_decide (p ∉ (map_to_list idx).*2).

(** [bpf_map_lookup_elem]: a pointer to the element, or null. *)
Definition bm_lookup (m : bmap) (k : K) : option nat := bm_idx m !! k.

(** A load through an element pointer; the pool is preallocated, zeroed memory. *)
Definition bm_load (m : bmap) (p : nat) : V := default zeroed (bm_mem m !! p).

(** [bpf_map_update_elem (m, k, v, BPF_ANY)]: a new element takes the key's place. *)
Definition bm_update (c : choice) (k : K) (v : V) (m : bmap) : bmap :=
  let idx := evict (ch_evict c) (bm_idx m) in
  if ch_ok c && elem_free m idx (ch_elem c)
  then BMap (bm_max m) (<[k := ch_elem c]> idx) (<[ch_elem c := v]> (bm_mem m))
  else BMap (bm_max m) idx (bm_mem m).

(** [bpf_map_delete_elem]. *)
Definition bm_delete (k : K) (m : bmap) : bmap := BMap (bm_max m) (delete k (bm_idx m)) (bm_mem m).

(** A read-modify-write through an element pointer. *)
Definition bm_modify (f : V → V) (p : nat) (m : bmap) : bmap :=
  BMap (bm_max m) (bm_idx m) (<[p := f (bm_load m p)]> (bm_mem m)).

(** ** Contents: what a reader of the map finds under each key *)

Definition bm_get (m : bmap) (k : K) : option V := bm_load m <$> bm_lookup m k.

(** ** Invariant: entries own distinct elements of the pool *)

Record bm_wf (m : bmap) : Prop := {
  wf_pool : ∀ k p, bm_idx m !! k = Some p → (p < bm_max m)%nat;
  wf_inj : ∀ k k' p, bm_idx m !! k = Some p → bm_idx m !! k' = Some p → k = k';
}.

Lemma evict_lookup ks idx k : evict ks idx !! k = if decide (k ∈ ks) then None else idx !! k.
Proof.
  induction ks as [|k' ks IH]; cbn [evict foldr]; [done|].
  fold (evict ks idx). rewrite lookup_delete, IH. repeat case_decide; set_solver.
Qed.

Lemma evict_Some ks idx k p : evict ks idx !! k = Some p → idx !! k = Some p.
Proof. rewrite evict_lookup. by case_decide. Qed.

Lemma elem_free_spec m idx p :
  elem_free m idx p = true ↔ (p < bm_max m)%nat ∧ ∀ k, idx !! k ≠ Some p.
Proof.
  unfold elem_free. rewrite andb_true_iff, !bool_decide_eq_true. f_equiv.
  rewrite list_elem_of_fmap. split.
  - intros Hn k Hk. apply Hn. exists (k, p). split; [done|]. by apply elem_of_map_to_list.
  - intros Hn ([k q] & -> & Hk%elem_of_map_to_list). by apply (Hn k).
Qed.

Lemma bm_wf_empty n : bm_wf (bm_empty n).
Proof. by split; simpl; intros *; rewrite lookup_empty. Qed.

Lemma bm_wf_delete k m : bm_wf m → bm_wf (bm_delete k m).
Proof.
  intros [Hp Hi]. split; simpl.
  - intros k' p [_ ?]%lookup_delete_Some. by eapply Hp.
  - intros k1 k2 p [_ ?]%lookup_delete_Some [_ ?]%lookup_delete_Some. by eapply Hi.
Qed.

Lemma bm_wf_modify f p m : bm_wf m → bm_wf (bm_modify f p m).
Proof. intros [Hp Hi]. by split. Qed.

Lemma bm_wf_update c k v m : bm_wf m → bm_wf (bm_update c k v m).
Proof.
  intros [Hp Hi]. unfold bm_update. cbv zeta.
  set (idx := evict _ _). assert (Hsub : ∀ k p, idx !! k = Some p → bm_idx m !! k = Some p) by (intros; by eapply evict_Some).
  destruct (ch_ok c && elem_free m idx (ch_elem c)) eqn:E.
  - apply andb_true_iff in E as [_ [Hlt Hfree]%elem_free_spec]. split; simpl.
    + intros k' p. rewrite lookup_insert. case_decide; [intros; by simplify_eq|]. intros ?%Hsub. by eapply Hp.
    + intros k1 k2 p. rewrite !lookup_insert. repeat case_decide; intros; simplify_eq; try done.
      * by destruct (Hfree k2).
      * by destruct (Hfree k1).
      * by eapply Hi; apply Hsub.
  - split; simpl.
    + intros k' p ?%Hsub. by eapply Hp.
    + intros k1 k2 p ?%Hsub ?%Hsub. by eapply Hi.
Qed.

(** A well-formed map never holds more than [max_entries] entries. *)
Lemma bm_wf_size m : bm_wf m → (size (bm_idx m) ≤ bm_max m)%nat.
Proof.
  intros [Hp Hi].
  assert (Hnd : NoDup (map_to_list (bm_idx m)).*2).
  { apply NoDup_fmap_2_strong; [|apply NoDup_map_to_list].
    intros [k1 p1] [k2 p2] H1%elem_of_map_to_list H2%elem_of_map_to_list ?. simpl in *. simplify_eq.
    by rewrite (Hi _ _ _ H1 H2). }
  assert (Hincl : (map_to_list (bm_idx m)).*2 ⊆ seq 0 (bm_max m)).
  { intros p ([k q] & -> & Hk%elem_of_map_to_list)%list_elem_of_fmap. apply elem_of_seq. split; [simpl; lia|]. simpl. by eapply Hp. }
  apply NoDup_submseteq in Hincl; [|done]. apply submseteq_length in Hincl.
  by rewrite length_seq, length_fmap, length_map_to_list in Hincl.
Qed.

(** ** Contents after each operation *)

Lemma bm_get_delete k k' m : bm_get (bm_delete k m) k' = if decide (k = k') then None else bm_get m k'.
Proof. unfold bm_get, bm_lookup, bm_load. simpl. rewrite lookup_delete. by case_decide. Qed.

(** The update succeeded. *)
Definition ch_succeeds (c : choice) (m : bmap) : bool :=
  ch_ok c && elem_free m (evict (ch_evict c) (bm_idx m)) (ch_elem c).

Lemma bm_get_update c k v m k' :
  bm_get (bm_update c k v m) k' =
    if ch_succeeds c m
    then if decide (k = k') then Some v else if decide (k' ∈ ch_evict c) then None else bm_get m k'
    else if decide (k' ∈ ch_evict c) then None else bm_get m k'.
Proof.
  unfold bm_get, bm_lookup, bm_update, ch_succeeds, bm_load. cbv zeta.
  destruct (ch_ok c && _) eqn:E; simpl; rewrite ?lookup_insert, evict_lookup.
  - case_decide.
    + simpl. by rewrite lookup_insert_eq.
    + case_decide; [done|]. destruct (bm_idx m !! k') as [p|] eqn:Hk; [|done]. simpl.
      rewrite lookup_insert_ne; [done|]. intros <-.
      apply andb_true_iff in E as [_ [_ Hf]%elem_free_spec]. apply (Hf k').
      rewrite evict_lookup. by case_decide.
  - by case_decide.
Qed.

Lemma bm_get_modify f p m k :
  bm_wf m → bm_get (bm_modify f p m) k =
    if decide (bm_lookup m k = Some p) then f <$> bm_get m k else bm_get m k.
Proof.
  intros [_ Hi]. unfold bm_get, bm_lookup, bm_load. simpl.
  destruct (bm_idx m !! k) as [q|] eqn:Hk; simpl; [|by try case_decide].
  rewrite lookup_insert. repeat case_decide; simplify_eq; try done.
Qed.
End BpfMap.

Arguments bmap K V {_ _}.
Arguments choice K : clear implicits.
#[export] Hint Resolve bm_wf_empty bm_wf_delete bm_wf_modify bm_wf_update : bpf.
