(* ===== verification/BpfProg.v ===== *)
(** * BPF programs as sequences of helper calls

    A program is a tree of the helper calls it makes, in order, with what it
    does next as a function of each result.  The same tree runs alone ([run])
    and interleaved with other programs on other CPUs ([exec]): each helper call
    is one atomic step on the two maps, and what the kernel decides in that step
    (clock, task id, eviction) is its input. *)
From S2P Require Import Prelude BpfMap Common.

Section Prog.
(** Keys and values of the map of start times, keys of the map of histograms. *)
Context {SK SV HK : Type} `{Countable SK} `{!Zeroed SV} `{Countable HK}.

Inductive prog : Type :=
  | Ret
  | KtimeGetNs (k : Z → prog)
  | GetCurrentPidTgid (k : Z → prog)
  | StartLookup (key : SK) (k : option nat → prog)
  | StartLoad (p : nat) (k : SV → prog)
  | StartUpdate (key : SK) (v : SV) (k : prog)
  | StartDelete (key : SK) (k : prog)
  | HistLookup (key : HK) (k : option nat → prog)
  | HistUpdate (key : HK) (v : hist) (k : prog)
  | HistFetchAdd (p : nat) (slot : Z) (k : prog).

Record state := State { st_start : bmap SK SV; st_hists : bmap HK hist }.

(** What the kernel supplies to one step: the clock (a 64-bit nanosecond
    count), the current task, and its choices in a map update. *)
Record input := Input { in_ns : Z; in_pid_tgid : Z; in_start : choice SK; in_hist : choice HK }.

(** One helper call. *)
Definition step (i : input) (st : state) (p : prog) : state * prog :=
  match p with
  | Ret => (st, Ret)
  | KtimeGetNs k => (st, k (u64 (in_ns i)))
  | GetCurrentPidTgid k => (st, k (u64 (in_pid_tgid i)))
  | StartLookup key k => (st, k (bm_lookup (st_start st) key))
  | StartLoad q k => (st, k (bm_load (st_start st) q))
  | StartUpdate key v k => (State (bm_update (in_start i) key v (st_start st)) (st_hists st), k)
  | StartDelete key k => (State (bm_delete key (st_start st)) (st_hists st), k)
  | HistLookup key k => (st, k (bm_lookup (st_hists st) key))
  | HistUpdate key v k => (State (st_start st) (bm_update (in_hist i) key v (st_hists st)), k)
  | HistFetchAdd q slot k => (State (st_start st) (bm_modify (hist_incr slot) q (st_hists st)), k)
  end.

(** A program run to its end with no other program in between.  None of the
    programs calls the clock or updates a map twice, so one input serves. *)
Fixpoint run (i : input) (st : state) (p : prog) : state :=
  match p with
  | Ret => st
  | KtimeGetNs k => run i st (k (u64 (in_ns i)))
  | GetCurrentPidTgid k => run i st (k (u64 (in_pid_tgid i)))
  | StartLookup key k => run i st (k (bm_lookup (st_start st) key))
  | StartLoad q k => run i st (k (bm_load (st_start st) q))
  | StartUpdate key v k => run i (State (bm_update (in_start i) key v (st_start st)) (st_hists st)) k
  | StartDelete key k => run i (State (bm_delete key (st_start st)) (st_hists st)) k
  | HistLookup key k => run i st (k (bm_lookup (st_hists st) key))
  | HistUpdate key v k => run i (State (st_start st) (bm_update (in_hist i) key v (st_hists st))) k
  | HistFetchAdd q slot k => run i (State (st_start st) (bm_modify (hist_incr slot) q (st_hists st))) k
  end.

Definition state_wf (st : state) : Prop := bm_wf (st_start st) ∧ bm_wf (st_hists st).

Lemma step_wf i st p : state_wf st → state_wf (step i st p).1.
Proof. intros [? ?]. destruct p; simpl; split; simpl; eauto with bpf. Qed.

Lemma run_step i st p : run i (step i st p).1 (step i st p).2 = run i st p.
Proof. by destruct p. Qed.

Lemma run_wf i st p : state_wf st → state_wf (run i st p).
Proof.
  revert st. induction p as [|k IH|k IH|key k IH|q k IH|key v k IH|key k IH|key k IH|key v k IH|q s k IH];
    intros st Hst; simpl; try done; try (by apply IH); apply IH; destruct Hst; split; simpl; eauto with bpf.
Qed.

(** ** Interleaving *)

(** Programs in flight, one per CPU, and the maps they share. *)
Abbreviation config := (state * list prog)%type.

(** CPU [c] makes its next helper call. *)
Definition sched (c : nat) (i : input) (cf : config) : config :=
  match cf.2 !! c with
  | Some p => let '(st', p') := step i cf.1 p in (st', <[c := p']> cf.2)
  | None => cf
  end.

(** A schedule lists which CPU moves and with what input. *)
Definition exec (s : list (nat * input)) (cf : config) : config :=
  foldl (λ cf x, sched x.1 x.2 cf) cf s.

Inductive cstep : config → config → Prop :=
  | CStep st ps c p i :
      ps !! c = Some p → cstep (st, ps) ((step i st p).1, <[c := (step i st p).2]> ps).

Lemma exec_app s1 s2 cf : exec (s1 ++ s2) cf = exec s2 (exec s1 cf).
Proof. apply foldl_app. Qed.

(** Executable schedules are exactly the runs of the step relation. *)
Lemma sched_cstep c i cf p : cf.2 !! c = Some p → cstep cf (sched c i cf).
Proof.
  destruct cf as [st ps]. simpl. intros Hp. unfold sched. simpl. rewrite Hp.
  rewrite (surjective_pairing (step i st p)). by constructor.
Qed.

Lemma cstep_wf cf cf' : state_wf cf.1 → cstep cf cf' → state_wf cf'.1.
Proof. intros Hwf Hs. destruct Hs. apply step_wf, Hwf. Qed.

Lemma exec_wf s cf : state_wf cf.1 → state_wf (exec s cf).1.
Proof.
  revert cf. induction s as [|[c i] s IH]; intros cf Hwf; [done|]. simpl. apply IH.
  unfold sched. simpl. destruct (cf.2 !! c) as [p|]; [|done].
  pose proof (step_wf i cf.1 p Hwf). by destruct (step i cf.1 p).
Qed.

(** The pools keep their size. *)
Lemma bm_max_update {K V : Type} `{Countable K} `{!Zeroed V} c (k : K) v (m : bmap K V) : bm_max (bm_update c k v m) = bm_max m.
Proof. unfold bm_update. cbv zeta. by destruct (ch_ok c && _). Qed.

Lemma cstep_maxes cf cf' :
  cstep cf cf' → bm_max (st_start cf'.1) = bm_max (st_start cf.1) ∧ bm_max (st_hists cf'.1) = bm_max (st_hists cf.1).
Proof. intros Hs. destruct Hs as [st ps c p i _]. destruct p; simpl; by rewrite ?bm_max_update. Qed.

Lemma rtc_maxes cf cf' : rtc cstep cf cf' →
  bm_max (st_start cf'.1) = bm_max (st_start cf.1) ∧ bm_max (st_hists cf'.1) = bm_max (st_hists cf.1).
Proof. induction 1 as [|x y z Hs _ [-> ->]]; [done|]. by apply cstep_maxes. Qed.

(** One CPU scheduled alone to the end computes [run]. *)
Lemma exec_alone i st ps c p n :
  ps !! c = Some p → Nat.iter n (λ x, step i x.1 x.2) (st, p) = (run i st p, Ret) →
  exec (replicate n (c, i)) (st, ps) = (run i st p, <[c := Ret]> ps).
Proof.
  revert st ps p. induction n as [|n IH]; intros st ps p Hp Hn.
  - simpl in Hn. injection Hn as _ ->. simpl. by rewrite list_insert_id.
  - rewrite Nat.iter_succ_r in Hn. change (replicate (S n) (c, i)) with ((c, i) :: replicate n (c, i)).
    change (exec ((c, i) :: ?s) ?cf) with (exec s (sched c i cf)).
    assert (Hs : sched c i (st, ps) = ((step i st p).1, <[c := (step i st p).2]> ps)).
    { unfold sched. simpl. rewrite Hp. by destruct (step i st p). }
    rewrite Hs, (IH _ _ (step i st p).2), run_step, list_insert_insert_eq; [done| |by rewrite run_step, <- surjective_pairing].
    apply list_lookup_insert_eq. by eapply lookup_lt_Some.
Qed.

(** ** Memory safety of a program tree *)

(** Every counter increment the program can make, whatever the helpers return,
    addresses one of the [MAX_SLOTS] counters; the only histogram it writes is
    the zero one.  [Sok] says which values the start map may hold. *)
Fixpoint prog_safe (Sok : SV → Prop) (p : prog) : Prop :=
  match p with
  | Ret => True
  | KtimeGetNs k | GetCurrentPidTgid k => ∀ x, is_u64 x → prog_safe Sok (k x)
  | StartLookup _ k | HistLookup _ k => ∀ x, prog_safe Sok (k x)
  | StartLoad _ k => ∀ v, Sok v → prog_safe Sok (k v)
  | StartUpdate _ v k => Sok v ∧ prog_safe Sok k
  | StartDelete _ k => prog_safe Sok k
  | HistUpdate _ h k => h = zero_hist ∧ prog_safe Sok k
  | HistFetchAdd _ slot k => 0 <= slot < MAX_SLOTS ∧ prog_safe Sok k
  end.

Definition mem_ok (Sok : SV → Prop) (st : state) : Prop :=
  (∀ q, Sok (bm_load (st_start st) q)) ∧ (∀ q, hist_wf (bm_load (st_hists st) q)).

Definition config_safe (Sok : SV → Prop) (cf : config) : Prop :=
  state_wf cf.1 ∧ mem_ok Sok cf.1 ∧ Forall (prog_safe Sok) cf.2.

Lemma bm_load_update_ok {K V : Type} `{Countable K} `{!Zeroed V} (P : V → Prop) c (k : K) v (m : bmap K V) q :
  P v → (∀ q, P (bm_load m q)) → P (bm_load (bm_update c k v m) q).
Proof.
  intros Hv Hm. unfold bm_update. cbv zeta. destruct (ch_ok c && _); [|apply Hm].
  unfold bm_load. simpl. rewrite lookup_insert. case_decide; [done|apply Hm].
Qed.

Lemma bm_load_modify_ok {K V : Type} `{Countable K} `{!Zeroed V} (P : V → Prop) f p (m : bmap K V) q :
  (∀ v, P v → P (f v)) → (∀ q, P (bm_load m q)) → P (bm_load (bm_modify f p m) q).
Proof.
  intros Hf Hm. unfold bm_modify, bm_load. simpl. rewrite lookup_insert.
  case_decide; [apply Hf|]; apply Hm.
Qed.

Lemma step_safe Sok i st p :
  mem_ok Sok st → prog_safe Sok p → mem_ok Sok (step i st p).1 ∧ prog_safe Sok (step i st p).2.
Proof.
  intros [Hs Hh] Hp. destruct p; simpl in *; try (split; [by split|by auto with word]).
  - destruct Hp. split; [|done]. split; simpl; [|done]. intros q. by apply bm_load_update_ok.
  - destruct Hp as [-> ?]. split; [|done]. split; simpl; [done|]. intros q.
    apply bm_load_update_ok; [apply zero_hist_wf|done].
  - destruct Hp. split; [|done]. split; simpl; [done|]. intros q.
    apply bm_load_modify_ok; [|done]. intros. by apply hist_incr_wf.
Qed.

Lemma run_mem Sok i st p :
  mem_ok Sok st → prog_safe Sok p → mem_ok Sok (run i st p).
Proof.
  revert st. induction p as [|k IH|k IH|key k IH|q k IH|key v k IH|key k IH|key k IH|key v k IH|q s k IH];
    intros st Hst Hp; [done|..];
    match goal with |- mem_ok _ (run _ _ ?p) => destruct (step_safe Sok i st p Hst Hp) as [H1 H2] end;
    simpl in *; by apply IH.
Qed.

Lemma config_safe_step Sok cf cf' : config_safe Sok cf → cstep cf cf' → config_safe Sok cf'.
Proof.
  intros (Hwf & Hm & Hps) Hst. pose proof (cstep_wf _ _ Hwf Hst) as Hwf'.
  inversion Hst as [st ps c p i Hp]; subst. simpl in *.
  destruct (step_safe Sok i st p Hm) as [Hm' Hp'].
  { rewrite Forall_lookup in Hps. by eapply Hps. }
  split_and!; [done..|]. simpl. by apply Forall_insert.
Qed.

Lemma config_safe_star Sok cf cf' : config_safe Sok cf → rtc cstep cf cf' → config_safe Sok cf'.
Proof. intros Hs Hr. induction Hr; [done|]. eauto using config_safe_step. Qed.

(** From empty maps, safe programs keep every reachable state in bounds. *)
Lemma reachable_safe Sok n m ps cf :
  Sok zeroed → Forall (prog_safe Sok) ps →
  rtc cstep (State (bm_empty n) (bm_empty m), ps) cf →
  (size (bm_idx (st_start cf.1)) ≤ n)%nat ∧ (size (bm_idx (st_hists cf.1)) ≤ m)%nat ∧
  state_wf cf.1 ∧ mem_ok Sok cf.1 ∧ Forall (prog_safe Sok) cf.2.
Proof.
  intros Hz Hps Hr. destruct (rtc_maxes _ _ Hr) as [Hn Hm]. simpl in Hn, Hm. revert Hn Hm.
  apply (config_safe_star Sok) in Hr as ([Hs Hh] & Hmem & Hps').
  - intros <- <-. split_and!; try done; by apply bm_wf_size.
  - split_and!; [split; apply bm_wf_empty| |done]. split; intros q; [done|apply zero_hist_wf].
Qed.

Lemma exec_rtc s cf : rtc cstep cf (exec s cf).
Proof.
  revert cf. induction s as [|[c i] s IH]; intros cf; [constructor|]. simpl. etrans; [|apply IH].
  destruct (cf.2 !! c) as [p|] eqn:Hp; [eapply rtc_once, sched_cstep, Hp|].
  unfold sched. rewrite Hp. constructor.
Qed.

(** ** Counting increments over an interleaving *)

(** Whether the step CPU [c] makes next increments slot [s]. *)
Definition adds_slot (s : Z) (c : nat) (ps : list prog) : nat :=
  match ps !! c with Some (HistFetchAdd _ slot _) => if slot =? s then 1 else 0 | _ => 0 end.

(** How many steps of a schedule increment slot [s]. *)
Fixpoint adds (s : Z) (sc : list (nat * input)) (cf : config) : nat :=
  match sc with
  | [] => 0
  | (c, i) :: sc' => adds_slot s c cf.2 + adds s sc' (sched c i cf)
  end.

Lemma sched_safe Sok c i cf : config_safe Sok cf → config_safe Sok (sched c i cf).
Proof.
  intros Hs. destruct (cf.2 !! c) as [p|] eqn:Hp.
  - by eapply config_safe_step, sched_cstep.
  - unfold sched. by rewrite Hp.
Qed.

Lemma exec_safe Sok sc cf : config_safe Sok cf → config_safe Sok (exec sc cf).
Proof. intros Hs. by eapply config_safe_star, exec_rtc. Qed.

(** One step raises a counter of slot [s], wherever it lies, by at most the
    increment it makes; creating a histogram only lowers counters. *)
Lemma sched_slot_le Sok c i cf s q B :
  config_safe Sok cf → 0 <= s → 0 <= B → (∀ q, hist_slot (bm_load (st_hists cf.1) q) s <= B) →
  hist_slot (bm_load (st_hists (sched c i cf).1) q) s <= B + Z.of_nat (adds_slot s c cf.2).
Proof.
  intros (_ & [_ Hm] & Hps) Hs HB Hle. unfold sched, adds_slot.
  destruct (cf.2 !! c) as [p|] eqn:Hp; [|simpl; specialize (Hle q); lia].
  rewrite Forall_lookup in Hps. specialize (Hps _ _ Hp).
  destruct p as [|k|k|key k|r k|key v k|key k|key k|key v k|r sl k]; simpl; try (specialize (Hle q); lia).
  - destruct Hps as [-> _]. rewrite Z.add_0_r.
    apply (bm_load_update_ok (λ h, hist_slot h s <= B)); [|done]. by rewrite hist_slot_zero.
  - destruct Hps as [Hsl _]. unfold bm_load at 1. simpl. rewrite lookup_insert. case_decide; simpl.
    + rewrite hist_incr_slot by auto. specialize (Hle r).
      destruct (sl =? s); [|cbn; lia]. etrans; [|apply Zplus_le_compat_r, Hle].
      unfold u64. apply Z.mod_le; [|lia].
      destruct (hist_slot_u64 _ s (Hm r)). lia.
    + specialize (Hle q). unfold bm_load in Hle. lia.
Qed.

Lemma exec_slot_le Sok sc cf s q B :
  config_safe Sok cf → 0 <= s → 0 <= B → (∀ q, hist_slot (bm_load (st_hists cf.1) q) s <= B) →
  hist_slot (bm_load (st_hists (exec sc cf).1) q) s <= B + Z.of_nat (adds s sc cf).
Proof.
  revert cf B. induction sc as [|[c i] sc IH]; intros cf B Hsafe Hs HB Hle.
  - simpl. specialize (Hle q). lia.
  - cbn [adds]. rewrite Nat2Z.inj_add, Z.add_assoc.
    change (exec ((c, i) :: sc) cf) with (exec sc (sched c i cf)).
    apply IH; [by apply sched_safe|done|lia|]. intros q'. by eapply sched_slot_le.
Qed.
End Prog.

Arguments prog SK SV HK : clear implicits.
Arguments state SK SV HK {_ _ _ _}.
Arguments input SK HK : clear implicits.
