(* ===== verification/BpfRecord.v ===== *)
(** * Recording one latency sample

    The tail the three programs share in shape: find the histogram of a key,
    create it if absent, and count the sample.  [record_hist] states it once
    over an arbitrary key type; each program's own code is shown equal to it. *)
From S2P Require Import Prelude BpfMap Common BpfProg.

Section Record.
Context {SK SV HK : Type} `{Countable SK} `{!Zeroed SV} `{Countable HK}.

Definition record_hist (hk : HK) (us : Z) : prog SK SV HK :=
  HistLookup hk (λ histp,
    match histp with
    | Some histp => HistFetchAdd histp (us_slot us) Ret
    | None =>
        HistUpdate hk zero_hist
          (HistLookup hk (λ histp,
            match histp with
            | Some histp => HistFetchAdd histp (us_slot us) Ret
            | None => Ret
            end))
    end).

(** Count in slot [s] of the histogram of [hk]; an absent histogram counts 0. *)
Definition count_at (st : state SK SV HK) (hk : HK) (s : Z) : Z :=
  match bm_get (st_hists st) hk with Some h => hist_slot h s | None => 0 end.

(** The kernel evicts nothing and the update of the histogram map succeeds. *)
Definition hist_quiet (i : input SK HK) (st : state SK SV HK) : Prop :=
  ch_evict (in_hist i) = [] ∧ ch_succeeds (in_hist i) (st_hists st) = true.
Definition start_quiet (i : input SK HK) (st : state SK SV HK) : Prop :=
  ch_evict (in_start i) = [] ∧ ch_succeeds (in_start i) (st_start st) = true.

(** Incrementing through the pointer a lookup returned changes that key's
    counter and no other. *)
Lemma count_at_incr (st : state SK SV HK) hk p slot hk' s :
  bm_wf (st_hists st) → (∀ q, hist_wf (bm_load (st_hists st) q)) →
  bm_lookup (st_hists st) hk = Some p → 0 <= slot < MAX_SLOTS → 0 <= s →
  count_at (State (st_start st) (bm_modify (hist_incr slot) p (st_hists st))) hk' s =
    if decide (hk' = hk ∧ slot = s) then u64 (count_at st hk' s + 1) else count_at st hk' s.
Proof.
  intros Hwf Hm Hlk Hs Hs'. unfold count_at. simpl. rewrite bm_get_modify by done.
  unfold bm_get. case_decide as Hd.
  - assert (hk' = hk) as -> by (by eapply wf_inj). rewrite Hlk. simpl.
    rewrite hist_incr_slot by auto. destruct (Z.eqb_spec slot s); case_decide; naive_solver.
  - rewrite decide_False; [done|]. intros [-> _]. done.
Qed.

(** Recording alone, with an unobtrusive kernel, adds exactly one to the
    sample's counter and changes nothing else. *)
Lemma run_record i (st : state SK SV HK) hk us :
  state_wf st → (∀ q, hist_wf (bm_load (st_hists st) q)) → hist_quiet i st → 1 <= us < 2 ^ 64 →
  let st' := run i st (record_hist hk us) in
  st_start st' = st_start st ∧
  ∀ hk' s, 0 <= s →
    count_at st' hk' s =
      if decide (hk' = hk ∧ us_slot us = s) then u64 (count_at st hk' s + 1) else count_at st hk' s.
Proof.
  intros [_ Hwf] Hm [Hev Hok] Hus. pose proof (us_slot_range us Hus) as Hsl. simpl.
  destruct (bm_lookup (st_hists st) hk) as [p|] eqn:Hlk; simpl.
  - split; [done|]. intros hk' s Hs. by apply count_at_incr.
  - set (h1 := bm_update (in_hist i) hk zero_hist (st_hists st)).
    assert (Hg : ∀ k, bm_get h1 k = if decide (hk = k) then Some zero_hist else bm_get (st_hists st) k).
    { intros k. unfold h1. rewrite bm_get_update, Hok, Hev. repeat case_decide; set_solver. }
    destruct (bm_lookup h1 hk) as [p|] eqn:Hlk1; simpl.
    + split; [done|]. intros hk' s Hs.
      rewrite (count_at_incr (State (st_start st) h1) hk); simpl; [|by apply bm_wf_update| |done..].
      * assert (Hc : count_at (State (st_start st) h1) hk' s = count_at st hk' s); [|by rewrite Hc].
        unfold count_at. simpl. rewrite Hg. case_decide as Hd; [|done]. subst.
        unfold bm_get. rewrite Hlk. simpl. apply hist_slot_zero.
      * intros q. apply bm_load_update_ok; [apply zero_hist_wf|done].
    + specialize (Hg hk). unfold bm_get in Hg. rewrite Hlk1, decide_True in Hg by done. done.
Qed.

(** Whatever the helpers return, recording addresses a counter of the
    histogram and writes no histogram but the zero one. *)
Lemma record_safe (Sok : SV → Prop) hk us : 1 <= us < 2 ^ 64 → prog_safe Sok (record_hist hk us).
Proof.
  intros Hus. pose proof (us_slot_range us Hus).
  cbn. intros [p|]; [done|]. split; [done|]. by intros [p|].
Qed.
End Record.
