(* ===== verification/BpfTracer.v ===== *)
(** * Start/finish tracers refine a ledger

    The three programs have one shape: an event stores a start record under a
    key, a later event takes it out again and counts the time in between.  This
    file states that shape over arbitrary key, record and histogram-key types
    and proves that, run one event at a time, it implements a ledger of what is
    in flight and of the latencies observed. *)
From S2P Require Import Prelude BpfMap Common BpfProg BpfRecord.

Section Tracer.
Context {SK SV HK : Type} `{Countable SK} `{!Zeroed SV} `{Countable HK}.
(** The start time kept in a start record. *)
Context (ts_of : SV → Z).

Abbreviation tprog := (prog SK SV HK).
Abbreviation tstate := (state SK SV HK).

(** An event stores a record built from the current time, takes one out and
    counts it under the key [f] gives (if any), or does nothing. *)
Inductive tevent :=
  | TBegin (k : SK) (v : Z → SV)
  | TEnd (k : SK) (f : SV → option HK)
  | TSkip.

Definition tracer (ev : tevent) : tprog :=
  match ev with
  | TBegin k v => KtimeGetNs (λ ts, StartUpdate k (v ts) Ret)
  | TEnd k f =>
      StartLookup k (λ p,
      match p with
      | None => Ret
      | Some p =>
          KtimeGetNs (λ now, StartLoad p (λ v,
          let delta := s64 (u64 (now - ts_of v)) in
          StartDelete k (
          if delta <? 0 then Ret
          else match f v with Some hk => record_hist hk (delta_us delta) | None => Ret end)))
      end)
  | TSkip => Ret
  end.

(** ** The ledger *)

(** Start records in flight, and the completed latencies in whole microseconds
    with the key each is counted under, latest first. *)
Record ledger := Ledger { inflight : gmap SK SV; samples : list (HK * Z) }.

Definition ledger_step (now : Z) (ev : tevent) (L : ledger) : ledger :=
  match ev with
  | TBegin k v => Ledger (<[k := v now]> (inflight L)) (samples L)
  | TEnd k f =>
      match inflight L !! k with
      | None => L
      | Some v =>
          Ledger (delete k (inflight L))
            (if decide (ts_of v <= now)
             then match f v with
                  | Some hk => (hk, Z.max 1 ((now - ts_of v) / 1000)) :: samples L
                  | None => samples L
                  end
             else samples L)
      end
  | TSkip => L
  end.

(** Samples of [hk] with binary logarithm [s], 25 standing for 25 and above. *)
Definition tally (L : ledger) (hk : HK) (s : Z) : Z :=
  Z.of_nat (length (filter (λ x, x.1 = hk ∧ Z.min (Z.log2 x.2) 25 = s) (samples L))).

(** The clock stays below 2^63 ns (292 years) and the kernel neither evicts
    entries nor fails updates. *)
Definition quiet_input (i : input SK HK) (st : tstate) : Prop :=
  0 <= in_ns i < 2 ^ 63 ∧ start_quiet i st ∧ hist_quiet i st.

(** The maps agree with the ledger; [Sok] holds of every start record. *)
Record agrees (Sok : SV → Prop) (st : tstate) (L : ledger) : Prop := {
  ag_wf : state_wf st;
  ag_mem : mem_ok Sok st;
  ag_start : ∀ k, bm_get (st_start st) k = inflight L !! k;
  ag_time : ∀ k v, inflight L !! k = Some v → 0 <= ts_of v < 2 ^ 63;
  ag_count : ∀ hk s, 0 <= s → count_at st hk s = u64 (tally L hk s);
}.

(** An event's records carry the time they were built at. *)
Definition tevent_ok (Sok : SV → Prop) (ev : tevent) : Prop :=
  match ev with TBegin k v => ∀ t, is_u64 t → ts_of (v t) = t ∧ Sok (v t) | _ => True end.

Lemma s64_delta_us x : 0 <= s64 x → 1 <= delta_us (s64 x) < 2 ^ 64.
Proof.
  intros Hx. pose proof (s64_range x). pose proof (delta_us_pos _ Hx). pose proof (delta_us_max (s64 x)). lia.
Qed.

Lemma tracer_safe Sok ev : tevent_ok Sok ev → prog_safe Sok (tracer ev).
Proof.
  destruct ev as [k v|k f|]; intros Hok; [| |exact I].
  - cbn. intros ts Hts. split; [|exact I]. by apply Hok.
  - cbn -[record_hist u64 s64]. intros [p|]; [|exact I]. intros now _ v _. cbn [prog_safe].
    destruct (Z.ltb_spec (s64 (u64 (now - ts_of v))) 0); [exact I|]. destruct (f v) as [hk|]; [|exact I].
    apply record_safe, s64_delta_us. lia.
Qed.

Lemma bm_get_quiet (m : bmap SK SV) c k v k' :
  ch_evict c = [] → ch_succeeds c m = true →
  bm_get (bm_update c k v m) k' = if decide (k = k') then Some v else bm_get m k'.
Proof. intros He Hs. rewrite bm_get_update, Hs, He. repeat case_decide; set_solver. Qed.

Lemma tally_cons f l hk us hk' s :
  tally (Ledger f ((hk, us) :: l)) hk' s =
    if decide (hk' = hk ∧ Z.min (Z.log2 us) 25 = s) then tally (Ledger f l) hk' s + 1 else tally (Ledger f l) hk' s.
Proof.
  unfold tally. cbn [samples]. rewrite filter_cons. simpl.
  case_decide as Hd; case_decide as Hd'; simpl length; try lia; naive_solver.
Qed.

Lemma agrees_begin Sok i st L k v :
  tevent_ok Sok (TBegin k v) → agrees Sok st L → quiet_input i st →
  agrees Sok (run i st (tracer (TBegin k v))) (ledger_step (in_ns i) (TBegin k v) L).
Proof.
  intros Hok [Hwf Hm Hst Ht Hc] (Hns & [Hev Hs] & _).
  assert (Hwf' := run_wf i st (tracer (TBegin k v)) Hwf).
  assert (Hm' := run_mem Sok i st _ Hm (tracer_safe Sok _ Hok)).
  cbn [tracer ledger_step run] in *. rewrite u64_id in * by (unfold is_u64; lia).
  split; [done|done| | |done]; cbn [st_start inflight].
  - intros k'. rewrite bm_get_quiet by done. rewrite lookup_insert. by rewrite Hst.
  - intros k' v'. rewrite lookup_insert. case_decide; [|apply Ht]. intros; simplify_eq.
    destruct (Hok (in_ns i)) as [-> _]; [unfold is_u64; lia|done].
Qed.

(** Taking the record out, whatever is then done with it. *)
Lemma agrees_take Sok st L k :
  agrees Sok st L →
  agrees Sok (State (bm_delete k (st_start st)) (st_hists st)) (Ledger (delete k (inflight L)) (samples L)).
Proof.
  intros [Hwf Hm Hst Ht Hc]. split; cbn [st_start st_hists inflight].
  - split; [apply bm_wf_delete|]; apply Hwf.
  - exact Hm.
  - intros k'. rewrite bm_get_delete, lookup_delete. by rewrite Hst.
  - intros k' v' [_ ?]%lookup_delete_Some. by eapply Ht.
  - intros hk s Hs. by apply Hc.
Qed.

(** Counting one sample. *)
Lemma agrees_record Sok i st L hk us :
  agrees Sok st L → hist_quiet i st → 1 <= us < 2 ^ 63 →
  agrees Sok (run i st (record_hist hk us)) (Ledger (inflight L) ((hk, us) :: samples L)).
Proof.
  intros [Hwf Hm Hst Ht Hc] Hq Hus.
  assert (Hwf' := run_wf i st (record_hist hk us) Hwf).
  assert (Hm' : mem_ok Sok (run i st (record_hist hk us))) by (apply run_mem; [done|apply record_safe; lia]).
  destruct (run_record i st hk us) as [Hs1 Hcnt]; [done|apply Hm|done|lia|].
  split; [done|done| |exact Ht|].
  - intros k'. rewrite Hs1. apply Hst.
  - intros hk' s Hs. rewrite Hcnt, us_slot_log, Hc, tally_cons by (done || lia).
    destruct L as [fl sm]. case_decide; [|done]. unfold u64. by rewrite Zplus_mod_idemp_l.
Qed.

Lemma agrees_end Sok i st L k f :
  agrees Sok st L → quiet_input i st →
  agrees Sok (run i st (tracer (TEnd k f))) (ledger_step (in_ns i) (TEnd k f) L).
Proof.
  intros Hag (Hns & _ & Hq). pose proof (ag_start _ _ _ Hag k) as Hk. unfold bm_get in Hk.
  cbn [tracer ledger_step run]. destruct (bm_lookup (st_start st) k) as [p|]; simpl in Hk; rewrite <- Hk; [|exact Hag].
  symmetry in Hk. pose proof (ag_time _ _ _ Hag _ _ Hk) as Ht. pose proof (agrees_take _ _ _ k Hag) as Hag1.
  cbv zeta. cbn [run]. rewrite (u64_id (in_ns i)) by (unfold is_u64; lia).
  set (v := bm_load (st_start st) p) in *. rewrite s64_sub_u64 by lia.
  destruct (Z.ltb_spec (in_ns i - ts_of v) 0); [rewrite decide_False by lia; exact Hag1|].
  rewrite decide_True by lia. destruct (f v) as [hk|]; [|exact Hag1].
  rewrite delta_us_floor by lia.
  assert ((in_ns i - ts_of v) / 1000 <= in_ns i - ts_of v) by (apply Z.div_le_upper_bound; lia).
  apply (agrees_record Sok i _ _ hk (Z.max 1 ((in_ns i - ts_of v) / 1000)) Hag1 Hq). lia.
Qed.

Lemma agrees_step Sok i st L ev :
  tevent_ok Sok ev → agrees Sok st L → quiet_input i st →
  agrees Sok (run i st (tracer ev)) (ledger_step (in_ns i) ev L).
Proof.
  intros Hok Hag Hq. destruct ev as [k v|k f|]; [by apply agrees_begin|by apply agrees_end|exact Hag].
Qed.

Lemma agrees_empty Sok n m :
  Sok zeroed → agrees Sok (State (bm_empty n) (bm_empty m)) (Ledger ∅ []).
Proof.
  intros Hz. split; simpl.
  - split; apply bm_wf_empty.
  - split; intros q; [done|apply zero_hist_wf].
  - intros k. by rewrite lookup_empty.
  - intros k t. by rewrite lookup_empty.
  - done.
Qed.
End Tracer.

Arguments ledger SK SV HK {_ _}.
Arguments tevent SK SV HK : clear implicits.

(** ** Traces of a program family *)

Section Trace.
Context {SK SV HK Ev : Type} `{Countable SK} `{!Zeroed SV} `{Countable HK}.
Context (ts_of : SV → Z).
(** [program ev] is what runs on event [ev]; [abstract ev i] is the tracer event
    it amounts to with kernel input [i]. *)
Context (program : Ev → prog SK SV HK) (abstract : Ev → input SK HK → tevent SK SV HK).

Definition run_trace (st : state SK SV HK) (tr : list (Ev * input SK HK)) : state SK SV HK :=
  foldl (λ st x, run x.2 st (program x.1)) st tr.

Definition ledger_trace (L : ledger SK SV HK) (tr : list (Ev * input SK HK)) : ledger SK SV HK :=
  foldl (λ L x, ledger_step ts_of (in_ns x.2) (abstract x.1 x.2) L) L tr.

(** The kernel is quiet at every event of the trace. *)
Fixpoint quiet (st : state SK SV HK) (tr : list (Ev * input SK HK)) : Prop :=
  match tr with
  | [] => True
  | (ev, i) :: tr' => quiet_input i st ∧ quiet (run i st (program ev)) tr'
  end.

Lemma agrees_trace Sok st L tr :
  (∀ ev i, tevent_ok ts_of Sok (abstract ev i)) →
  (∀ ev i st, run i st (program ev) = run i st (tracer ts_of (abstract ev i))) →
  agrees ts_of Sok st L → quiet st tr → agrees ts_of Sok (run_trace st tr) (ledger_trace L tr).
Proof.
  intros Hok Habs. revert st L. induction tr as [|[ev i] tr IH]; intros st L Hag Hq; [done|].
  destruct Hq as [Hi Hq]. apply IH; [|exact Hq]. simpl. rewrite Habs. by apply agrees_step.
Qed.
End Trace.
