(* ===== verification/BpfWarm.v ===== *)
(** * Interleavings on an existing histogram

    Once the histogram of a key exists and is not evicted, programs on any
    number of CPUs count into it without losing or duplicating a sample: each
    event that finishes an operation of that key adds one to the counter of its
    latency, however the programs interleave. *)
From S2P Require Import Prelude BpfMap Common BpfProg BpfRecord BpfTracer.

(** ** What an event observes *)

Section Observe.
Context {SK SV HK : Type} `{Countable SK} `{!Zeroed SV} `{Countable HK}.
Context (ts_of : SV → Z).

(** What an event that finishes an operation has learnt of it so far: nothing,
    that there is no start record, where the record is, when it is now, and
    the record it found there. *)
Inductive observation :=
  | Begin
  | Missing
  | Has (p : nat)
  | At (p : nat) (now : Z)
  | Timed (now : Z) (v : SV).

(** What the turn of its CPU adds, by the start map and the clock of that turn. *)
Definition learn (ev : tevent SK SV HK) (i : input SK HK) (st : state SK SV HK) (o : observation) : observation :=
  match ev with
  | TEnd k _ =>
      match o with
      | Begin => match bm_lookup (st_start st) k with Some p => Has p | None => Missing end
      | Has p => At p (u64 (in_ns i))
      | At p now => Timed now (bm_load (st_start st) p)
      | _ => o
      end
  | _ => o
  end.

(** The sample this amounts to: the key it is counted under and the latency in
    whole microseconds, at least one. *)
Definition sample (ev : tevent SK SV HK) (o : observation) : option (HK * Z) :=
  match ev, o with
  | TEnd _ f, Timed now v =>
      let d := s64 (u64 (now - ts_of v)) in
      if d <? 0 then None else hk ← f v; Some (hk, Z.max 1 (d / 1000))
  | _, _ => None
  end.

(** The observations of all CPUs over a schedule. *)
Fixpoint watch (evs : list (tevent SK SV HK)) (sc : list (nat * input SK HK)) (cf : state SK SV HK * list (prog SK SV HK))
    (os : list observation) : list observation :=
  match sc with
  | [] => os
  | (c, i) :: sc' =>
      watch evs sc' (sched c i cf)
        match evs !! c, os !! c with Some ev, Some o => <[c := learn ev i cf.1 o]> os | _, _ => os end
  end.

(** Whether a program has ended and its sample belongs to slot [s] of [hk]. *)
Definition counted (hk : HK) (s : Z) (ev : tevent SK SV HK) (o : observation) (p : prog SK SV HK) : nat :=
  match p, sample ev o with
  | Ret, Some (hk', us) => if decide (hk' = hk ∧ Z.min (Z.log2 us) 25 = s) then 1 else 0
  | _, _ => 0
  end.

(** How many have. *)
Fixpoint completions (hk : HK) (s : Z) (evs : list (tevent SK SV HK)) (os : list observation) (ps : list (prog SK SV HK)) : nat :=
  match evs, os, ps with
  | ev :: evs', o :: os', p :: ps' => counted hk s ev o p + completions hk s evs' os' ps'
  | _, _, _ => 0
  end.

Lemma completions_insert hk s evs os ps c ev o p o' p' :
  evs !! c = Some ev → os !! c = Some o → ps !! c = Some p →
  (completions hk s evs (<[c := o']> os) (<[c := p']> ps) + counted hk s ev o p =
   completions hk s evs os ps + counted hk s ev o' p')%nat.
Proof.
  revert evs os ps. induction c as [|c IH]; intros [|ev0 evs] [|o0 os] [|p0 ps] He Ho Hp; try done; cbn in He, Ho, Hp; cbn [insert list_insert completions].
  - simplify_eq. lia.
  - rewrite <- !Nat.add_assoc. apply (f_equal (Nat.add _)). exact (IH evs os ps He Ho Hp).
Qed.
End Observe.
Arguments observation SV : clear implicits.

Section Warm.
Context {SK SV HK : Type} `{Countable SK} `{!Zeroed SV} `{Countable HK}.
Context (ts_of : SV → Z) (hk : HK) (e : nat).

(** The key [hk] owns element [e], all histograms being in bounds. *)
Record warm (st : state SK SV HK) : Prop := {
  wm_wf : state_wf st;
  wm_mem : ∀ q, hist_wf (bm_load (st_hists st) q);
  wm_elem : bm_lookup (st_hists st) hk = Some e;
}.

(** ** How far a program is *)

(** What is left to do once the record is loaded and deleted. *)
Definition rest (f : SV → option HK) (now : Z) (v : SV) : prog SK SV HK :=
  let delta := s64 (u64 (now - ts_of v)) in
  if delta <? 0 then Ret else match f v with Some hk => record_hist hk (delta_us delta) | None => Ret end.

(** The second look-up, after a histogram was created. *)
Definition again (hk' : HK) (us : Z) : prog SK SV HK :=
  HistLookup hk' (λ histp, match histp with Some histp => HistFetchAdd histp (us_slot us) Ret | None => Ret end).

Lemma rest_sample (k : SK) f now v :
  rest f now v = match sample ts_of (TEnd k f) (Timed now v) with Some (hk', us) => record_hist hk' us | None => Ret end.
Proof.
  unfold rest, sample. cbv zeta. destruct (Z.ltb_spec (s64 (u64 (now - ts_of v))) 0); [done|]. destruct (f v) as [hk'|]; [|done]. cbn [mbind option_bind].
  by rewrite delta_us_floor by lia.
Qed.

Lemma sample_range (ev : tevent SK SV HK) o hk' us : sample ts_of ev o = Some (hk', us) → 1 <= us < 2 ^ 64.
Proof.
  unfold sample. destruct ev as [|k f|]; [done| |done]. destruct o as [| | | |now v]; try done. cbv zeta.
  destruct (Z.ltb_spec (s64 (u64 (now - ts_of v))) 0) as [|Hd]; [done|]. destruct (f v); [|done]. cbn [mbind option_bind]. intros [= <- <-].
  rewrite <- delta_us_floor by lia. by apply s64_delta_us.
Qed.

(** The program of an event after some turns, and what it has observed by then.
    The element of [hk] is only reached through [hk]. *)
Inductive tracked : tevent SK SV HK → observation SV → prog SK SV HK → Prop :=
  | tr_start ev : tracked ev Begin (tracer ts_of ev)
  | tr_store k v ts : tracked (TBegin k v) Begin (StartUpdate k (v ts) Ret)
  | tr_stored k v : tracked (TBegin k v) Begin Ret
  | tr_missing k f : tracked (TEnd k f) Missing Ret
  | tr_has k f p : tracked (TEnd k f) (Has p) (KtimeGetNs (λ now, StartLoad p (λ v, StartDelete k (rest f now v))))
  | tr_at k f p now : tracked (TEnd k f) (At p now) (StartLoad p (λ v, StartDelete k (rest f now v)))
  | tr_timed k f now v : tracked (TEnd k f) (Timed now v) (StartDelete k (rest f now v))
  | tr_none k f now v : sample ts_of (TEnd k f) (Timed now v) = None → tracked (TEnd k f) (Timed now v) Ret
  | tr_record k f now v hk' us :
      sample ts_of (TEnd k f) (Timed now v) = Some (hk', us) → tracked (TEnd k f) (Timed now v) (record_hist hk' us)
  | tr_found k f now v hk' us q :
      sample ts_of (TEnd k f) (Timed now v) = Some (hk', us) → (hk' = hk ↔ q = e) →
      tracked (TEnd k f) (Timed now v) (HistFetchAdd q (us_slot us) Ret)
  | tr_create k f now v hk' us :
      sample ts_of (TEnd k f) (Timed now v) = Some (hk', us) → hk' ≠ hk →
      tracked (TEnd k f) (Timed now v) (HistUpdate hk' zero_hist (again hk' us))
  | tr_again k f now v hk' us :
      sample ts_of (TEnd k f) (Timed now v) = Some (hk', us) → hk' ≠ hk → tracked (TEnd k f) (Timed now v) (again hk' us)
  | tr_done k f now v hk' us :
      sample ts_of (TEnd k f) (Timed now v) = Some (hk', us) → tracked (TEnd k f) (Timed now v) Ret.

Lemma tracked_rest k f now v : tracked (TEnd k f) (Timed now v) (rest f now v).
Proof. rewrite (rest_sample k). destruct (sample _ _ _) as [[hk' us]|] eqn:E; [by apply tr_record|by apply tr_none]. Qed.

Lemma counted_rest s k f now v : counted ts_of hk s (TEnd k f) (Timed now v) (rest f now v) = 0%nat.
Proof. unfold counted. rewrite (rest_sample k). by destruct (sample _ _ _) as [[hk' us]|]. Qed.

Lemma bm_update_other {K V : Type} `{Countable K} `{!Zeroed V} c (k k' : K) v (m : bmap K V) q :
  k ≠ k' → k' ∉ ch_evict c → bm_lookup m k' = Some q →
  bm_lookup (bm_update c k v m) k' = Some q ∧ bm_load (bm_update c k v m) q = bm_load m q.
Proof.
  intros Hne Hev Hlk. unfold bm_update. cbv zeta.
  destruct (ch_ok c && _) eqn:E; unfold bm_lookup, bm_load in *; simpl.
  - rewrite lookup_insert_ne, evict_lookup, decide_False by done. split; [done|].
    rewrite lookup_insert_ne; [done|]. intros Heq.
    apply andb_true_iff in E as [_ [_ Hf]%elem_free_spec]. apply (Hf k').
    by rewrite evict_lookup, decide_False, Heq.
  - by rewrite evict_lookup, decide_False.
Qed.

(** A look-up of another key finds another element. *)
Lemma warm_lookup st hk' q : warm st → bm_lookup (st_hists st) hk' = Some q → (hk' = hk ↔ q = e).
Proof.
  intros [[_ Hwf] _ He] Hq. split; [intros ->; congruence|]. intros ->. by eapply (wf_inj _ Hwf).
Qed.

(** ** One turn *)

(** The counter of slot [s] in the histogram of [hk]. *)
Definition slot_of (s : Z) (st : state SK SV HK) : Z := hist_slot (bm_load (st_hists st) e) s.

(** What a turn does: it adds [d] to the counter, and a program has ended with a
    sample for it after the turn, where it had not before, exactly if [d] is one. *)
Definition turn_ok (s : Z) ev (o o' : observation SV) p (st : state SK SV HK) (r : state SK SV HK * prog SK SV HK) : Prop :=
  warm r.1 ∧ tracked ev o' r.2 ∧ ∃ d : nat,
    counted ts_of hk s ev o' r.2 = (counted ts_of hk s ev o p + d)%nat ∧ slot_of s r.1 = u64 (slot_of s st + Z.of_nat d).

Lemma warm_start st m : warm st → bm_wf m → warm (State m (st_hists st)).
Proof. intros [[_ Hh] Hm He] Hw. by split. Qed.

(** A turn that leaves the histograms alone and adds no finished sample. *)
Lemma turn_keeps s ev o o' p st m p' :
  warm st → bm_wf m → tracked ev o' p' → counted ts_of hk s ev o' p' = counted ts_of hk s ev o p →
  turn_ok s ev o o' p st (State m (st_hists st), p').
Proof.
  intros Hw Hm Ht Hc. split_and!; [by apply warm_start|done|]. exists 0%nat. rewrite Nat.add_0_r, Z.add_0_r. split; [done|].
  symmetry. apply u64_id, hist_slot_u64, Hw.
Qed.

Lemma turn_create s ev o p st c hk' p' :
  warm st → hk' ≠ hk → hk ∉ ch_evict c → tracked ev o p' → counted ts_of hk s ev o p' = counted ts_of hk s ev o p →
  turn_ok s ev o o p st (State (st_start st) (bm_update c hk' zero_hist (st_hists st)), p').
Proof.
  intros [[Hs Hh] Hm He] Hne Hev Ht Hc. destruct (bm_update_other c hk' hk zero_hist (st_hists st) e Hne Hev He) as [Hl Hld].
  split_and!; [|done|].
  - split; [split; [done|by apply bm_wf_update]| |done]. intros q. cbn [fst st_hists]. apply bm_load_update_ok; [apply zero_hist_wf|done].
  - exists 0%nat. rewrite Nat.add_0_r, Z.add_0_r. split; [done|]. unfold slot_of. cbn [st_hists fst]. rewrite Hld. symmetry. apply u64_id, hist_slot_u64, Hm.
Qed.

Lemma turn_add s ev o p st hk' us q :
  warm st → 0 <= s → sample ts_of ev o = Some (hk', us) → (hk' = hk ↔ q = e) → tracked ev o Ret → counted ts_of hk s ev o p = 0%nat →
  turn_ok s ev o o p st (State (st_start st) (bm_modify (hist_incr (us_slot us)) q (st_hists st)), Ret).
Proof.
  intros [[Hs Hh] Hm He] Hs0 Hsam Hq Ht Hc. pose proof (sample_range _ _ _ _ Hsam) as Hus. pose proof (us_slot_range us Hus) as Hsl.
  split_and!; [|done|].
  - split; [split; [done|by apply bm_wf_modify]| |done]. intros r. cbn [fst st_hists]. apply bm_load_modify_ok; [|done]. intros. by apply hist_incr_wf.
  - unfold counted at 1. rewrite Hsam, Hc, <- us_slot_log by done. eexists. split; [done|]. unfold slot_of. unfold bm_load at 1. simpl. rewrite lookup_insert.
    assert (Hid : hist_slot (bm_load (st_hists st) e) s = u64 (hist_slot (bm_load (st_hists st) e) s + 0))
      by (rewrite Z.add_0_r; symmetry; apply u64_id, hist_slot_u64, Hm).
    case_decide as Hqe; simpl.
    + subst q. rewrite hist_incr_slot by auto. destruct (Z.eqb_spec (us_slot us) s); [by rewrite decide_True by tauto|].
      rewrite decide_False by tauto. exact Hid.
    + rewrite decide_False by tauto. exact Hid.
Qed.

Lemma tracked_turn s ev o p st i :
  warm st → tracked ev o p → hk ∉ ch_evict (in_hist i) → 0 <= s → turn_ok s ev o (learn ev i st o) p st (step i st p).
Proof.
  intros Hw Ht Hev Hs. destruct st as [m h]. assert (Hm : bm_wf m) by apply Hw.
  destruct Ht as [ev|k v ts|k v|k f|k f p|k f p now|k f now v|k f now v Hn|k f now v hk' us Hsam|k f now v hk' us q Hsam Hq|k f now v hk' us Hsam Hne|k f now v hk' us Hsam Hne|k f now v hk' us Hsam];
    cbn [learn step].
  - destruct ev as [k v|k f|]; cbn [tracer step learn st_start].
    + apply turn_keeps; [done..|apply tr_store|done].
    + destruct (bm_lookup m k) as [p|]; apply turn_keeps; [done|done|exact (tr_has k f p)|done|done|done|apply tr_missing|done].
    + apply turn_keeps; [done..|exact (tr_start TSkip)|done].
  - apply turn_keeps; [done|by apply bm_wf_update|apply tr_stored|done].
  - apply turn_keeps; [done..|apply tr_stored|done].
  - apply turn_keeps; [done..|apply tr_missing|done].
  - apply turn_keeps; [done..|apply tr_at|done].
  - apply turn_keeps; [done..|apply tr_timed|done].
  - apply turn_keeps; [done|by apply bm_wf_delete|apply tracked_rest|apply counted_rest].
  - apply turn_keeps; [done..|by apply tr_none|done].
  - cbn [record_hist step st_hists]. destruct (bm_lookup h hk') as [q|] eqn:Hq.
    + apply turn_keeps; [done..| |done]. apply (tr_found _ _ _ _ hk'); [done|]. by apply (warm_lookup (State m h)).
    + apply turn_keeps; [done..| |done]. apply (tr_create _ _ _ _ hk'); [done|]. intros ->. pose proof (wm_elem _ Hw) as He. cbn in He. congruence.
  - apply (turn_add s _ _ _ (State m h) hk'); [done..|by eapply tr_done|done].
  - apply (turn_create s _ _ _ (State m h)); [done..|by apply (tr_again _ _ _ _ hk')|done].
  - cbn [again step st_hists]. destruct (bm_lookup h hk') as [q|] eqn:Hq; apply turn_keeps; [done|done| |done|done|done|by eapply tr_done|].
    + apply (tr_found _ _ _ _ hk'); [done|]. by apply (warm_lookup (State m h)).
    + unfold counted. rewrite Hsam. by rewrite decide_False by tauto.
  - apply turn_keeps; [done..|by eapply tr_done|done].
Qed.

(** ** A schedule *)

Record watched (evs : list (tevent SK SV HK)) (os : list (observation SV)) (cf : state SK SV HK * list (prog SK SV HK)) : Prop := {
  wd_warm : warm cf.1;
  wd_evs : length evs = length cf.2;
  wd_progs : ∀ c p, cf.2 !! c = Some p → ∃ ev o, evs !! c = Some ev ∧ os !! c = Some o ∧ tracked ev o p;
}.

Lemma watched_sched evs os cf c i s :
  watched evs os cf → hk ∉ ch_evict (in_hist i) → 0 <= s →
  let cf' := sched c i cf in
  let os' := match evs !! c, os !! c with Some ev, Some o => <[c := learn ev i cf.1 o]> os | _, _ => os end in
  watched evs os' cf' ∧ ∃ d : nat,
    completions ts_of hk s evs os' cf'.2 = (completions ts_of hk s evs os cf.2 + d)%nat ∧ slot_of s cf'.1 = u64 (slot_of s cf.1 + Z.of_nat d).
Proof.
  intros Hwd Hev Hs. assert (Hwd' := Hwd). destruct Hwd as [Hw Hl Hp]. unfold sched. destruct (cf.2 !! c) as [p|] eqn:Ec.
  - destruct (Hp c p Ec) as (ev & o & He & Ho & Ht). rewrite He, Ho. cbv zeta.
    pose proof (tracked_turn s ev o p cf.1 i Hw Ht Hev Hs) as Hok. destruct (step i cf.1 p) as [st' p']. destruct Hok as (Hw' & Ht' & d & Hc & Hd). cbn [fst snd] in *.
    split; [split; cbn [fst snd]; [done|by rewrite length_insert|]|].
    + intros c' q Hq. destruct (decide (c' = c)) as [->|Hne].
      * rewrite list_lookup_insert_eq in Hq by (by eapply lookup_lt_Some). simplify_eq. exists ev. eexists.
        rewrite list_lookup_insert_eq by (by eapply lookup_lt_Some). done.
      * rewrite list_lookup_insert_ne in Hq by done. rewrite list_lookup_insert_ne by done. by apply Hp.
    + exists d. split; [|done]. pose proof (completions_insert ts_of hk s evs os cf.2 c ev o p (learn ev i cf.1 o) p' He Ho Ec). lia.
  - assert (evs !! c = None) as -> by (apply lookup_ge_None; rewrite Hl; by apply lookup_ge_None). cbv zeta.
    split; [done|]. exists 0%nat. rewrite Nat.add_0_r, Z.add_0_r. split; [done|]. symmetry. apply u64_id, hist_slot_u64, Hw.
Qed.

Lemma watched_exec evs sc os cf s :
  watched evs os cf → Forall (λ x, hk ∉ ch_evict (in_hist x.2)) sc → 0 <= s →
  watched evs (watch evs sc cf os) (exec sc cf) ∧ ∃ d : nat,
    completions ts_of hk s evs (watch evs sc cf os) (exec sc cf).2 = (completions ts_of hk s evs os cf.2 + d)%nat ∧
    slot_of s (exec sc cf).1 = u64 (slot_of s cf.1 + Z.of_nat d).
Proof.
  intros Hwd Hsc Hs. revert os cf Hwd. induction Hsc as [|[c i] sc Hev _ IH]; intros os cf Hwd.
  - split; [done|]. exists 0%nat. rewrite Nat.add_0_r, Z.add_0_r. split; [done|]. symmetry. apply u64_id, hist_slot_u64, Hwd.
  - destruct (watched_sched evs os cf c i s Hwd Hev Hs) as (Hwd1 & d1 & Hc1 & Hs1). cbn [watch].
    change (exec ((c, i) :: sc) cf) with (exec sc (sched c i cf)). destruct (IH _ _ Hwd1) as (Hwd2 & d2 & Hc2 & Hs2). split; [done|].
    exists (d1 + d2)%nat. split; [rewrite Hc2, Hc1; lia|]. rewrite Hs2, Hs1. unfold u64. rewrite Zplus_mod_idemp_l. f_equal. lia.
Qed.

(** At the beginning nothing has been observed. *)
Lemma watched_start (evs : list (tevent SK SV HK)) st : warm st → watched evs (replicate (length evs) Begin) (st, tracer ts_of <$> evs).
Proof.
  intros Hw. split; cbn [fst snd]; [done|by rewrite length_fmap|]. intros c p (ev & -> & He)%list_lookup_fmap_Some_1.
  exists ev, Begin. split; [done|]. split; [|apply tr_start]. apply lookup_replicate_2. by eapply lookup_lt_Some.
Qed.

Lemma completions_start (evs : list (tevent SK SV HK)) s : completions ts_of hk s evs (replicate (length evs) Begin) (tracer ts_of <$> evs) = 0%nat.
Proof.
  induction evs as [|ev evs IH]; [done|]. rewrite fmap_cons. cbn [length replicate completions]. rewrite IH. unfold counted, sample.
  by destruct ev; destruct (tracer _ _).
Qed.

(** The counters in terms of the map's contents. *)
Lemma warm_count st s : warm st → count_at st hk s = slot_of s st.
Proof. intros Hw. unfold count_at, bm_get. by rewrite (wm_elem _ Hw). Qed.

(** Every completed event of [hk] is counted once, and nothing else is. *)
Lemma exec_counts_completions (evs : list (tevent SK SV HK)) sc st s :
  warm st → Forall (λ x, hk ∉ ch_evict (in_hist x.2)) sc → 0 <= s →
  let cf := exec sc (st, tracer ts_of <$> evs) in
  let os := watch evs sc (st, tracer ts_of <$> evs) (replicate (length evs) Begin) in
  count_at cf.1 hk s = u64 (count_at st hk s + Z.of_nat (completions ts_of hk s evs os cf.2)).
Proof.
  intros Hw Hsc Hs. cbv zeta. destruct (watched_exec evs sc _ _ s (watched_start evs st Hw) Hsc Hs) as (Hwd & d & Hc & Hd).
  cbn [snd fst] in *. rewrite completions_start in Hc. rewrite Hc, (warm_count _ _ (wd_warm _ _ _ Hwd)), (warm_count _ _ Hw). exact Hd.
Qed.
End Warm.
