(* ===== verification/BlockLatency.v ===== *)
(** * Block I/O latency (block_latency.c)

    Two tracepoint programs: one remembers when a request was issued to a
    device, the other, on completion, counts the elapsed time in the histogram
    of the device and the operation. *)
From S2P Require Import Prelude CLayout KernelTypes CoreRead Bits BpfMap Common BpfProg BpfRecord BpfTracer.

Record req_key := ReqKey { rk_dev : Z; rk_sector : Z }.

#[export] Instance req_key_eq_dec : EqDecision req_key.
Proof. solve_decision. Defined.
#[export] Instance req_key_countable : Countable req_key.
Proof. refine (inj_countable' (λ k, (rk_dev k, rk_sector k)) (λ '(d, s), ReqKey d s) _). by intros []. Defined.

Abbreviation block_prog := (prog req_key Z block_hist_key).
Abbreviation block_state := (state req_key Z block_hist_key).
Abbreviation block_input := (input req_key block_hist_key).

(** The maps [block_start] and [block_hists] at load time. *)
Definition block_start : bmap req_key Z := bm_empty MAX_BLOCK_ENTRIES.
Definition block_hists : bmap block_hist_key hist := bm_empty MAX_HIST_ENTRIES.
Definition block_init : block_state := State block_start block_hists.

(** [classify_op]: the first character of the request flags. *)
Definition classify_op (rwbs : list Z) : Z :=
  match rwbs !! 0%nat with
  | Some 82 => 0   (* 'R' *)
  | Some 87 => 1   (* 'W' *)
  | Some 68 => 2   (* 'D' *)
  | Some 70 => 3   (* 'F' *)
  | _ => 0xff
  end.

(** The fields the programs read of the tracepoint record [ctx]. *)
Record block_rq := BlockRq { rq_dev : Z; rq_sector : Z; rq_rwbs : list Z }.

Definition load_block_rq (E : tenv) (m : kmem) (t : ctype) (ctx : Z) : option block_rq :=
  dev ← load_field E m t ctx "dev";
  sector ← load_field E m t ctx "sector";
  rwbs ← load_field E m t ctx "rwbs";
  Some (BlockRq (le_val dev) (le_val sector) rwbs).

Definition tracepoint__block__block_rq_issue (ctx : block_rq) : block_prog :=
  if classify_op (rq_rwbs ctx) =? 0xff then Ret
  else
    let rk := ReqKey (rq_dev ctx) (rq_sector ctx) in
    KtimeGetNs (λ ts,
    StartUpdate rk ts Ret).

Definition tracepoint__block__block_rq_complete (ctx : block_rq) : block_prog :=
  let rk := ReqKey (rq_dev ctx) (rq_sector ctx) in
  StartLookup rk (λ tsp,
  match tsp with
  | None => Ret
  | Some tsp =>
      KtimeGetNs (λ now,
      StartLoad tsp (λ ts,
      let delta := s64 (u64 (now - ts)) in
      StartDelete rk (
      if delta <? 0 then Ret
      else
        let us := delta_us delta in
        let hk := BlockHistKey (rq_dev ctx) (classify_op (rq_rwbs ctx)) [0; 0; 0] in
        if bhk_op hk =? 0xff then Ret
        else
          HistLookup hk (λ histp,
          match histp with
          | None =>
              HistUpdate hk zero_hist (
              HistLookup hk (λ histp,
              match histp with
              | None => Ret
              | Some histp => HistFetchAdd histp (us_slot us) Ret
              end))
          | Some histp => HistFetchAdd histp (us_slot us) Ret
          end))))
  end).

(** The programs the exporter attaches. *)
Inductive block_event := Issue (ctx : block_rq) | Complete (ctx : block_rq).

Definition block_program (ev : block_event) : block_prog :=
  match ev with
  | Issue ctx => tracepoint__block__block_rq_issue ctx
  | Complete ctx => tracepoint__block__block_rq_complete ctx
  end.

(** ** The tracepoint records *)

(** A mapped range of memory holds bytes. *)
Definition mapped (m : kmem) (a size : Z) : Prop := ∀ i, 0 <= i < size → ∃ b, m (a + i) = Some b ∧ is_u8 b.

Lemma copy_mapped m a size o n :
  mapped m a size → 0 <= o → o + Z.of_nat n <= size →
  ∃ bs, copy_bytes m (a + o) n = Some bs ∧ length bs = n ∧ Forall is_u8 bs.
Proof.
  intros Hm Ho Hn. unfold copy_bytes.
  assert (Hin : Forall (λ i, ∃ b, m (a + o + Z.of_nat i) = Some b ∧ is_u8 b) (seq 0 n)).
  { apply Forall_forall. intros i ?%elem_of_seq. rewrite <- Z.add_assoc. apply Hm. lia. }
  assert (∃ bs, mapM (λ i, m (a + o + Z.of_nat i)) (seq 0 n) = Some bs) as [bs Hbs].
  { apply mapM_is_Some_2. eapply Forall_impl; [exact Hin|]. intros i (b & Hb & _). by exists b. }
  exists bs. split; [done|]. apply mapM_Some_1 in Hbs. split.
  - by rewrite <- (Forall2_length _ _ _ Hbs), length_seq.
  - eapply Forall2_Forall_r; [exact Hbs|]. eapply Forall_impl; [exact Hin|].
    intros i (b & Hb & Hu) b' Hb'. congruence.
Qed.

(** The members of the two records, at the offsets of vmlinux.h. *)
Definition rq_types : list (string * Z) := [("trace_event_raw_block_rq", 64); ("trace_event_raw_block_rq_completion", 48)].

Lemma rq_members t size : (t, size) ∈ rq_types →
  layout vmfuel vmlinux (struct_ t) = Some (size, 8) ∧
  find_member vmfuel vmlinux (struct_ t) "dev" = Some (8, name_ "dev_t") ∧
  find_member vmfuel vmlinux (struct_ t) "sector" = Some (16, name_ "sector_t") ∧
  find_member vmfuel vmlinux (struct_ t) "rwbs" = Some (34, arr t_char 8).
Proof.
  unfold rq_types. rewrite !elem_of_cons, elem_of_nil. intros [[= -> ->]|[[= -> ->]|[]]]; vm_compute; done.
Qed.

(** Wherever the kernel places a tracepoint record, the programs' accesses
    to it stay inside the record and yield a 32-bit device, a 64-bit sector and
    the 8 characters of the request flags, at the offsets vmlinux.h gives them
    in each of the two record types; in particular [rwbs[0]] exists. *)
Theorem block_ctx_loads t size m ctx :
  (t, size) ∈ rq_types → mapped m ctx size →
  ∃ rq, load_block_rq vmlinux m (struct_ t) ctx = Some rq ∧
    is_u32 (rq_dev rq) ∧ is_u64 (rq_sector rq) ∧ length (rq_rwbs rq) = 8%nat ∧
    copy_bytes m (ctx + 34) 8 = Some (rq_rwbs rq).
Proof.
  intros Ht Hm. destruct (rq_members t size Ht) as (HL & Hd & Hs & Hr).
  assert (42 <= size) by (revert Ht; unfold rq_types; rewrite !elem_of_cons, elem_of_nil; intros [[= -> ->]|[[= -> ->]|[]]]; lia).
  destruct (copy_mapped m ctx size 8 4) as (bd & Cd & Ld & Fd); [done|lia..|].
  destruct (copy_mapped m ctx size 16 8) as (bs & Cs & Ls & Fs); [done|lia..|].
  destruct (copy_mapped m ctx size 34 8) as (br & Cr & Lr & Fr); [done|lia..|].
  exists (BlockRq (le_val bd) (le_val bs) br). split_and!; [|..|done|done]; cbn [rq_dev rq_sector].
  - unfold load_block_rq, load_field. rewrite Hd, bind_Some_l. cbv beta iota. rewrite layout_dev_t, bind_Some_l.
    cbv beta iota. change (Z.to_nat 4) with 4%nat. rewrite Cd, bind_Some_l.
    rewrite Hs, bind_Some_l. cbv beta iota. rewrite layout_sector_t, bind_Some_l.
    cbv beta iota. change (Z.to_nat 8) with 8%nat. rewrite Cs, bind_Some_l.
    rewrite Hr, bind_Some_l. cbv beta iota. rewrite layout_char8, bind_Some_l.
    cbv beta iota. change (Z.to_nat 8) with 8%nat. by rewrite Cr, bind_Some_l.
  - apply le_val_range in Fd. by rewrite Ld in Fd.
  - apply le_val_range in Fs. by rewrite Ls in Fs.
Qed.

Lemma block_ctx_loads_witness :
  ∃ rq, load_block_rq vmlinux (λ _, Some 87) (struct_ "trace_event_raw_block_rq") 4096 = Some rq ∧ is_u32 (rq_dev rq).
Proof.
  destruct (block_ctx_loads "trace_event_raw_block_rq" 64 (λ _, Some 87) 4096) as (rq & H1 & H2 & _).
  - apply list_elem_of_here.
  - intros i _. exists 87. split; [done|unfold is_u8; lia].
  - exact (ex_intro _ rq (conj H1 H2)).
Defined.

Lemma block_complete_record ctx :
  tracepoint__block__block_rq_complete ctx =
    let rk := ReqKey (rq_dev ctx) (rq_sector ctx) in
    let op := classify_op (rq_rwbs ctx) in
    StartLookup rk (λ tsp, match tsp with None => Ret | Some tsp =>
      KtimeGetNs (λ now, StartLoad tsp (λ ts, StartDelete rk (
        if s64 (u64 (now - ts)) <? 0 then Ret
        else if op =? 0xff then Ret
        else record_hist (BlockHistKey (rq_dev ctx) op [0; 0; 0]) (delta_us (s64 (u64 (now - ts))))))) end).
Proof. reflexivity. Qed.

(** ** Safety under interleaving *)

Lemma block_program_safe ev : prog_safe is_u64 (block_program ev).
Proof.
  destruct ev as [ctx|ctx]; unfold block_program.
  - unfold tracepoint__block__block_rq_issue. destruct (_ =? _); cbn; auto.
  - rewrite block_complete_record. cbn -[record_hist u64 s64].
    intros [tsp|]; [|exact I]. intros now Hnow ts Hts. cbn [prog_safe].
    destruct (Z.ltb_spec (s64 (u64 (now - ts))) 0); [exact I|]. destruct (_ =? _); [exact I|].
    apply record_safe, s64_delta_us. lia.
Qed.

Lemma block_init_safe evs : config_safe is_u64 (block_init, block_program <$> evs).
Proof.
  split_and!; simpl.
  - split; apply bm_wf_empty.
  - split; intros q; [|apply zero_hist_wf]. by split.
  - apply Forall_fmap, Forall_true. apply block_program_safe.
Qed.

(** C11.  Whatever requests are issued and completed, on however many CPUs their
    tracepoint programs interleave, and whatever entries the kernel evicts: in
    every reachable state the maps hold no more entries than declared, distinct
    keys own distinct elements, every histogram consists of 26 counters of 64
    bits, and no program in flight can address a counter outside of them. *)
Theorem block_interleaving_safe evs cf :
  rtc cstep (block_init, block_program <$> evs) cf →
  (size (bm_idx (st_start cf.1)) ≤ MAX_BLOCK_ENTRIES)%nat ∧
  (size (bm_idx (st_hists cf.1)) ≤ MAX_HIST_ENTRIES)%nat ∧
  state_wf cf.1 ∧ (∀ q, hist_wf (bm_load (st_hists cf.1) q)) ∧ Forall (prog_safe is_u64) cf.2.
Proof.
  intros Hr. apply (reachable_safe is_u64) in Hr as (? & ? & ? & [_ ?] & ?); [done|by split|].
  apply Forall_fmap, Forall_true, block_program_safe.
Qed.

Lemma block_interleaving_safe_witness :
  let rq := BlockRq 8 64 [82] in
  let i := Input 5000 1 (Choice true [] 3) (Choice true [] 0) in
  let cf := exec [(0%nat, i); (1%nat, i); (0%nat, i)] (block_init, block_program <$> [Issue rq; Complete rq]) in
  (size (bm_idx (st_start cf.1)) ≤ MAX_BLOCK_ENTRIES)%nat ∧ Forall (prog_safe is_u64) cf.2.
Proof.
  destruct (block_interleaving_safe [Issue (BlockRq 8 64 [82]); Complete (BlockRq 8 64 [82])] _
    (exec_rtc [(0%nat, Input 5000 1 (Choice true [] 3) (Choice true [] 0));
               (1%nat, Input 5000 1 (Choice true [] 3) (Choice true [] 0));
               (0%nat, Input 5000 1 (Choice true [] 3) (Choice true [] 0))] _)) as (H & _ & _ & _ & H').
  exact (conj H H').
Defined.

(** ** What the programs count: refinement of a ledger of requests *)

Definition known_op (rwbs : list Z) : Prop := rwbs !! 0%nat ∈ [Some 82; Some 87; Some 68; Some 70].
#[export] Instance known_op_dec rwbs : Decision (known_op rwbs).
Proof. unfold known_op. apply _. Defined.

(** What each event means for the ledger: an issue of a known kind of request
    starts it, a completion ends it and counts it if its kind is known. *)
Definition block_abstract (ev : block_event) (_ : block_input) : tevent req_key Z block_hist_key :=
  match ev with
  | Issue rq =>
      if decide (known_op (rq_rwbs rq)) then TBegin (ReqKey (rq_dev rq) (rq_sector rq)) (λ t, t) else TSkip
  | Complete rq =>
      TEnd (ReqKey (rq_dev rq) (rq_sector rq)) (λ _,
        if decide (known_op (rq_rwbs rq))
        then Some (BlockHistKey (rq_dev rq) (classify_op (rq_rwbs rq)) [0; 0; 0]) else None)
  end.

Lemma classify_known rwbs : classify_op rwbs ≠ 0xff ↔ known_op rwbs.
Proof.
  unfold classify_op, known_op. split.
  - intros Hc. destruct (rwbs !! 0%nat) as [c|]; [|done].
    destruct (decide (c ∈ [82; 87; 68; 70])) as [Hin|Hni]; [set_solver|].
    exfalso. apply Hc. repeat (case_match; try done); set_solver.
  - rewrite !elem_of_cons, elem_of_nil. by intros [->|[->|[->|[->|[]]]]].
Qed.

(** The two programs are tracers. *)
Lemma block_program_tracer ev i : block_program ev = tracer (λ t, t) (block_abstract ev i).
Proof.
  destruct ev as [rq|rq]; cbn [block_program block_abstract]; pose proof (classify_known (rq_rwbs rq)) as Hk.
  - unfold tracepoint__block__block_rq_issue.
    destruct (Z.eqb_spec (classify_op (rq_rwbs rq)) 0xff); [rewrite decide_False by tauto; reflexivity|].
    rewrite decide_True by tauto. reflexivity.
  - rewrite block_complete_record. cbv zeta.
    destruct (Z.eqb_spec (classify_op (rq_rwbs rq)) 0xff); [rewrite decide_False by tauto; reflexivity|].
    rewrite decide_True by tauto. reflexivity.
Qed.

Lemma block_abstract_ok ev i : tevent_ok (λ t, t) is_u64 (block_abstract ev i).
Proof. destruct ev; cbn; [|done]. by case_decide. Qed.

Lemma block_agrees tr :
  quiet block_program block_init tr →
  agrees (λ t, t) is_u64 (run_trace block_program block_init tr)
    (ledger_trace (λ t, t) block_abstract (Ledger ∅ []) tr).
Proof.
  apply agrees_trace.
  - apply block_abstract_ok.
  - intros ev i st. by rewrite (block_program_tracer ev i).
  - apply agrees_empty. by split.
Qed.

(** C1.  Run one at a time, the two tracepoint programs implement the ledger:
    after any trace of issues and completions in which the kernel evicts nothing,
    the start map holds exactly the issue times of the requests in flight, and
    slot [s] of the histogram of a device and operation counts, modulo 2^64, the
    completed requests of that device and operation whose latency in whole
    microseconds (at least one) lies in [2^s, 2^(s+1)), the last slot taking
    everything from 2^25 on.  Requests of unknown kind, completions without an
    issue and clocks that ran backwards leave no sample. *)
Theorem block_refines_ledger tr :
  quiet block_program block_init tr →
  let st := run_trace block_program block_init tr in
  let L := ledger_trace (λ t, t) block_abstract (Ledger ∅ []) tr in
  (∀ k, bm_get (st_start st) k = inflight L !! k) ∧
  (∀ hk s, 0 <= s → count_at st hk s = u64 (tally L hk s)).
Proof.
  intros Hq. by destruct (block_agrees tr Hq).
Qed.

(** A write issued at 1 ms and completed at 4.5 ms falls in slot 11, [2048, 4096) us. *)
Lemma block_refines_ledger_witness :
  let rq := BlockRq 8388624 2048 [87; 83] in
  let i t := Input t 1 (Choice true [] (Z.to_nat (t / 1000000))) (Choice true [] 2) in
  let tr := [(Issue rq, i 1000000); (Complete rq, i 4500000)] in
  count_at (run_trace block_program block_init tr) (BlockHistKey 8388624 1 [0; 0; 0]) 11 =
    u64 (tally (ledger_trace (λ t, t) block_abstract (Ledger ∅ []) tr) (BlockHistKey 8388624 1 [0; 0; 0]) 11) ∧
  tally (ledger_trace (λ t, t) block_abstract (Ledger ∅ []) tr) (BlockHistKey 8388624 1 [0; 0; 0]) 11 = 1.
Proof.
  split; [|vm_compute; reflexivity].
  apply (block_refines_ledger
    [(Issue (BlockRq 8388624 2048 [87; 83]), Input 1000000 1 (Choice true [] 1) (Choice true [] 2));
     (Complete (BlockRq 8388624 2048 [87; 83]), Input 4500000 1 (Choice true [] 4) (Choice true [] 2))]); [|lia].
  cbn [quiet]. unfold quiet_input, start_quiet, hist_quiet. split_and!; try (vm_compute; reflexivity); try (cbn [in_ns]; lia).
Defined.
