(* ===== verification/BlockConcurrency.v ===== *)
(** * Block I/O latency on several CPUs

    How the completions of block_latency.c count when their helper calls
    interleave: never too much, exactly once the histogram exists, and possibly
    too little when two CPUs create it at the same time. *)
From S2P Require Import Prelude BpfMap Common BpfProg BpfRecord BpfTracer BpfWarm BlockLatency.

(** No interleaving invents a sample: after any schedule of tracepoint
    programs on any number of CPUs, with any evictions, a counter of slot [s],
    whichever element of the histogram map it lies in, is at most the number of
    increments of that slot the schedule performed. *)
Theorem block_never_overcounts evs sc s q :
  0 <= s →
  hist_slot (bm_load (st_hists (exec sc (block_init, block_program <$> evs)).1) q) s
    <= Z.of_nat (adds s sc (block_init, block_program <$> evs)).
Proof.
  intros Hs.
  pose proof (exec_slot_le is_u64 sc (block_init, block_program <$> evs) s q 0 (block_init_safe evs) Hs) as H.
  rewrite Z.add_0_l in H. apply H; [done|]. intros q'. unfold bm_load. simpl. rewrite lookup_empty.
  simpl. by rewrite hist_slot_zero.
Qed.

Lemma block_never_overcounts_witness :
  hist_slot (bm_load (st_hists (exec [(0%nat, Input 7 1 (Choice true [] 0) (Choice true [] 0))]
    (block_init, block_program <$> [Issue (BlockRq 8 64 [82])])).1) 0) 3 <= 0.
Proof.
  apply (block_never_overcounts [Issue (BlockRq 8 64 [82])] [(0%nat, Input 7 1 (Choice true [] 0) (Choice true [] 0))] 3 0).
  lia.
Defined.

(** What an event means, which does not depend on the kernel's choices. *)
Definition block_meaning (ev : block_event) : tevent req_key Z block_hist_key :=
  block_abstract ev (Input 0 0 (Choice true [] 0) (Choice true [] 0)).

Lemma block_programs_tracers (evs : list block_event) : block_program <$> evs = tracer (λ t, t) <$> (block_meaning <$> evs).
Proof. rewrite <- list_fmap_compose. apply list_fmap_ext. intros _ ev _. apply block_program_tracer. Qed.

(** What the completions of a schedule have observed: whether there was an issue,
    when it was and when they read the clock. *)
Definition block_observed (sc : list (nat * block_input)) (st : block_state) (evs : list block_event) : list (observation Z) :=
  watch (block_meaning <$> evs) sc (st, block_program <$> evs) (replicate (length evs) Begin).

(** C10.  Once the histogram of a device and operation exists, no interleaving
    loses or repeats a sample: take any well-formed state in which the key [hk] has
    its histogram, any events on any number of CPUs and any schedule of their helper
    calls that does not evict [hk].  Each counter of [hk] grows, modulo 2^64, by
    exactly the number of completions of that device and operation that have run to
    their end and whose latency, from the issue time they found to the time they
    read, lies in the slot: a completion that has ended counts once, one that has
    not does not count yet, and issues, completions without an issue, of an unknown
    kind or of other keys, and clocks that ran backwards do not count at all. *)
Theorem block_existing_histogram_exact st (evs : list block_event) sc hk e s :
  state_wf st → (∀ q, hist_wf (bm_load (st_hists st) q)) → bm_lookup (st_hists st) hk = Some e →
  Forall (λ x, hk ∉ ch_evict (in_hist x.2)) sc → 0 <= s →
  let cf := exec sc (st, block_program <$> evs) in
  count_at cf.1 hk s =
    u64 (count_at st hk s + Z.of_nat (completions (λ t, t) hk s (block_meaning <$> evs) (block_observed sc st evs) cf.2)).
Proof.
  intros Hwf Hm Hlk Hsc Hs. unfold block_observed. rewrite block_programs_tracers, <- (length_fmap block_meaning).
  apply (exec_counts_completions (λ t, t) hk e); [by split|done|done].
Qed.

(** The histogram of reads of device 8388608 in element 0; one of two reads, issued
    at 1 us and at 2 us, completes at 9 us, the other is interrupted before it is
    counted. *)
Definition two_reads : list block_event := [Complete (BlockRq 8388608 0 [82]); Complete (BlockRq 8388608 8 [82])].
Definition reads_key : block_hist_key := BlockHistKey 8388608 0 [0; 0; 0].
Definition reads_state : block_state :=
  State (bm_update (Choice true [] 1) (ReqKey 8388608 8) 2000 (bm_update (Choice true [] 0) (ReqKey 8388608 0) 1000 block_start))
        (bm_update (Choice true [] 0) reads_key zero_hist block_hists).
Definition reads_schedule : list (nat * block_input) :=
  let i := Input 9000 0 (Choice true [] 5) (Choice true [] 5) in
  replicate 3 (0%nat, i) ++ replicate 5 (1%nat, i) ++ replicate 3 (0%nat, i).

Lemma block_existing_histogram_exact_witness :
  count_at (exec reads_schedule (reads_state, block_program <$> two_reads)).1 reads_key 3 = 1 ∧
  count_at (exec reads_schedule (reads_state, block_program <$> two_reads)).1 reads_key 2 = 0 ∧
  completions (λ t, t) reads_key 2 (block_meaning <$> two_reads) (block_observed reads_schedule reads_state two_reads) [Ret; Ret] = 1%nat.
Proof.
  assert (Hwf : state_wf reads_state) by (split; repeat apply bm_wf_update; apply bm_wf_empty).
  assert (Hm : ∀ q, hist_wf (bm_load (st_hists reads_state) q))
    by (intros q; cbn [st_hists reads_state]; apply bm_load_update_ok; [apply zero_hist_wf|]; intros; apply zero_hist_wf).
  assert (Hsc : Forall (λ x, reads_key ∉ ch_evict (in_hist x.2)) reads_schedule)
    by (unfold reads_schedule; repeat apply Forall_app_2; apply Forall_replicate, not_elem_of_nil).
  rewrite (block_existing_histogram_exact reads_state two_reads reads_schedule reads_key 0%nat 3 Hwf Hm ltac:(vm_compute; reflexivity) Hsc ltac:(lia)).
  rewrite (block_existing_histogram_exact reads_state two_reads reads_schedule reads_key 0%nat 2 Hwf Hm ltac:(vm_compute; reflexivity) Hsc ltac:(lia)).
  split; [|split]; vm_compute; reflexivity.
Defined.

(** ** A lost sample *)

(** Two reads of one device complete on two CPUs before any read of it has
    completed: both find no histogram. *)
Definition race_rq (sector : Z) : block_rq := BlockRq 8388608 sector [82].
Definition race_key : block_hist_key := BlockHistKey 8388608 0 [0; 0; 0].
Definition race_input (e : nat) (ns : Z) : block_input := Input ns 0 (Choice true [] e) (Choice true [] e).

Definition race_issued : block_state :=
  run_trace block_program block_init [(Issue (race_rq 0), race_input 0 1000); (Issue (race_rq 8), race_input 1 2000)].

Definition race_config : block_state * list block_prog :=
  (race_issued, [block_program (Complete (race_rq 0)); block_program (Complete (race_rq 8))]).

(** CPU 1 creates the histogram again (and takes element 1) after CPU 0 has
    created it and looked it up in element 0. *)
Definition race_schedule : list (nat * block_input) :=
  replicate 5 (0%nat, race_input 0 100000) ++ replicate 5 (1%nat, race_input 1 100000) ++
  replicate 2 (0%nat, race_input 0 100000) ++ replicate 3 (1%nat, race_input 1 100000) ++
  replicate 1 (0%nat, race_input 0 100000).

(** The histogram is created with [BPF_ANY], which replaces an entry another
    CPU created in the meantime: there is a schedule without eviction or failure
    in which both completions run to their end and both increment a counter,
    yet the histogram of the device counts one sample. *)
Theorem block_creation_race_loses_sample :
  Forall (λ x, ch_evict (in_hist x.2) = [] ∧ ch_ok (in_hist x.2) = true) race_schedule ∧
  (exec race_schedule race_config).2 = [Ret; Ret] ∧
  adds 6 race_schedule race_config = 2%nat ∧
  (∀ s, 0 <= s < MAX_SLOTS → count_at (exec race_schedule race_config).1 race_key s = if s =? 6 then 1 else 0).
Proof.
  split_and!; [|vm_compute; reflexivity..|].
  - unfold race_schedule. repeat apply Forall_app_2; by apply Forall_replicate.
  - assert (Hall : forallb (λ s, count_at (exec race_schedule race_config).1 race_key s =? (if s =? 6 then 1 else 0))
      (seqZ 0 MAX_SLOTS) = true) by (vm_compute; reflexivity).
    intros s Hs. rewrite forallb_forall in Hall. apply Z.eqb_eq, Hall, list_elem_of_In, elem_of_seqZ. lia.
Qed.
