(* ===== verification/NfsLatency.v ===== *)
(** * NFS I/O latency (nfs_latency.c)

    Four raw tracepoints: the start of an NFS read or write stores the time under
    a key read from the request header in kernel memory, its end takes it out
    and counts the latency under the device and operation. *)
From S2P Require Import Prelude CLayout KernelTypes CoreRead BpfMap Common BpfProg BpfRecord BpfTracer.

Record nfs_req_key := NfsReqKey { nk_dev : Z; nk_count : Z; nk_offset : Z; nk_op : Z; nk_pad : list Z }.

#[export] Instance nfs_req_key_eq_dec : EqDecision nfs_req_key.
Proof. solve_decision. Defined.
#[export] Instance nfs_req_key_countable : Countable nfs_req_key.
Proof.
  refine (inj_countable' (λ k, (nk_dev k, nk_count k, nk_offset k, nk_op k, nk_pad k))
    (λ '(d, c, o, p, q), NfsReqKey d c o p q) _). by intros [].
Defined.

Abbreviation nfs_prog := (prog nfs_req_key Z nfs_hist_key).
Abbreviation nfs_state := (state nfs_req_key Z nfs_hist_key).
Abbreviation nfs_input := (input nfs_req_key nfs_hist_key).

Definition nfs_start : bmap nfs_req_key Z := bm_empty MAX_NFS_ENTRIES.
Definition nfs_hists : bmap nfs_hist_key hist := bm_empty (Z.to_nat 256).
Definition nfs_init : nfs_state := State nfs_start nfs_hists.

Definition pad7 : list Z := replicate 7 0.
Definition pad3 : list Z := replicate 3 0.

Section Programs.
(** The kernel's probe-read helper and type information. *)
Context `{!ProbeReadKernel} (E : tenv).

(** [nfs_fill_key (hdr, &nk, op)] on a zero-initialised [nk]. *)
Definition nfs_fill_key (m : kmem) (hdr : Z) (op : Z) : option nfs_req_key :=
  dev ← core_read E m (struct_ "nfs_pgio_header") hdr [["inode"]; ["i_sb"]] ["s_dev"];
  offset ← core_read E m (struct_ "nfs_pgio_header") hdr [] ["args"; "offset"];
  count ← core_read E m (struct_ "nfs_pgio_header") hdr [] ["args"; "count"];
  Some (NfsReqKey (u32 dev) (u32 count) (u64 offset) (u8 op) pad7).

Definition nfs_record_latency (nk : nfs_req_key) (hk : nfs_hist_key) : nfs_prog :=
  StartLookup nk (λ tsp,
  match tsp with
  | None => Ret
  | Some tsp =>
      KtimeGetNs (λ now,
      StartLoad tsp (λ ts,
      let delta := s64 (u64 (now - ts)) in
      StartDelete nk (
      if delta <? 0 then Ret
      else
        let us := delta_us delta in
        HistLookup hk (λ histp,
        match histp with
        | None =>
            HistUpdate hk zero_hist (
            HistLookup hk (λ histp,
            match histp with
            | None => Ret
            | Some histp => HistFetchAdd histp (us_slot us) Ret
            end))
        | Some histp => HistFetchAdd histp (us_slot us) Ret
        end))))
  end).

(** The raw tracepoints; [args] are the arguments of the traced kernel event,
    [m] the kernel memory they point into.  [None] when the kernel lacks a
    member the program accesses, in which case it is refused at load.  The reads
    of memory and of the clock in the start programs do not depend on each
    other; the first is a computation on [m], the second a helper call. *)
Definition raw_tp_nfs_initiate_read (m : kmem) (args : list Z) : option nfs_prog :=
  hdr ← args !! 0%nat;
  nk ← nfs_fill_key m hdr 0;
  Some (KtimeGetNs (λ ts, StartUpdate nk ts Ret)).

Definition raw_tp_nfs_initiate_write (m : kmem) (args : list Z) : option nfs_prog :=
  hdr ← args !! 0%nat;
  nk ← nfs_fill_key m hdr 1;
  Some (KtimeGetNs (λ ts, StartUpdate nk ts Ret)).

Definition raw_tp_nfs_readpage_done (m : kmem) (args : list Z) : option nfs_prog :=
  hdr ← args !! 1%nat;
  nk ← nfs_fill_key m hdr 0;
  let hk := NfsHistKey (nk_dev nk) 0 pad3 in
  Some (nfs_record_latency nk hk).

Definition raw_tp_nfs_writeback_done (m : kmem) (args : list Z) : option nfs_prog :=
  hdr ← args !! 1%nat;
  nk ← nfs_fill_key m hdr 1;
  let hk := NfsHistKey (nk_dev nk) 1 pad3 in
  Some (nfs_record_latency nk hk).

Inductive nfs_event :=
  | InitiateRead (m : kmem) (args : list Z)
  | InitiateWrite (m : kmem) (args : list Z)
  | ReadpageDone (m : kmem) (args : list Z)
  | WritebackDone (m : kmem) (args : list Z).

Definition nfs_program (ev : nfs_event) : option nfs_prog :=
  match ev with
  | InitiateRead m args => raw_tp_nfs_initiate_read m args
  | InitiateWrite m args => raw_tp_nfs_initiate_write m args
  | ReadpageDone m args => raw_tp_nfs_readpage_done m args
  | WritebackDone m args => raw_tp_nfs_writeback_done m args
  end.

(** ** The key of a request *)

(** An NFS request header at [hdr] in memory [m]: its inode's superblock is on
    device [dev], and it covers [count] bytes at [offset]. *)
Record nfs_header_at (m : kmem) (hdr dev offset count : Z) : Prop := {
  nh_dev : chain E m ["s_dev"] dev (struct_ "nfs_pgio_header") hdr [["inode"]; ["i_sb"]];
  nh_offset : chain E m ["args"; "offset"] offset (struct_ "nfs_pgio_header") hdr [];
  nh_count : chain E m ["args"; "count"] count (struct_ "nfs_pgio_header") hdr [];
  nh_dev_range : is_u32 dev;
  nh_offset_range : is_u64 offset;
  nh_count_range : is_u32 count;
}.

Lemma nfs_fill_key_ok m hdr dev offset count op :
  nfs_header_at m hdr dev offset count → is_u8 op →
  nfs_fill_key m hdr op = Some (NfsReqKey dev count offset op pad7).
Proof.
  intros [Hd Ho Hc Rd Ro Rc] Hop. unfold nfs_fill_key.
  rewrite (core_read_chain _ _ _ _ _ _ _ Hd), bind_Some_l.
  rewrite (core_read_chain _ _ _ _ _ _ _ Ho), bind_Some_l.
  rewrite (core_read_chain _ _ _ _ _ _ _ Hc), bind_Some_l.
  by rewrite !u32_id, u64_id, u8_id.
Qed.

(** C23.  On any kernel whose type information resolves the members they access,
    wherever those lie in its structures, the start and the end of a read (or of
    a write) of one request header use the same key: the device of the inode's
    superblock, the offset and the count of the request and the operation.  The
    start program stores the current time under it and the end program takes it
    out again, counting under the device and the operation. *)
Theorem nfs_start_done_same_key m hdr dev offset count task rest :
  nfs_header_at m hdr dev offset count →
  raw_tp_nfs_initiate_read m (hdr :: rest) =
    Some (tracer (λ t, t) (TBegin (NfsReqKey dev count offset 0 pad7) (λ t, t))) ∧
  raw_tp_nfs_initiate_write m (hdr :: rest) =
    Some (tracer (λ t, t) (TBegin (NfsReqKey dev count offset 1 pad7) (λ t, t))) ∧
  raw_tp_nfs_readpage_done m (task :: hdr :: rest) =
    Some (tracer (λ t, t) (TEnd (NfsReqKey dev count offset 0 pad7) (λ _, Some (NfsHistKey dev 0 pad3)))) ∧
  raw_tp_nfs_writeback_done m (task :: hdr :: rest) =
    Some (tracer (λ t, t) (TEnd (NfsReqKey dev count offset 1 pad7) (λ _, Some (NfsHistKey dev 1 pad3)))).
Proof.
  intros Hh.
  assert (H0 := nfs_fill_key_ok _ _ _ _ _ 0 Hh ltac:(unfold is_u8; lia)).
  assert (H1 := nfs_fill_key_ok _ _ _ _ _ 1 Hh ltac:(unfold is_u8; lia)).
  unfold raw_tp_nfs_initiate_read, raw_tp_nfs_initiate_write, raw_tp_nfs_readpage_done, raw_tp_nfs_writeback_done.
  cbn [lookup list_lookup]. rewrite !bind_Some_l, H0, H1, !bind_Some_l. split_and!; reflexivity.
Qed.
End Programs.

(** ** A request in memory laid out as in vmlinux.h *)

(** The header at [h] of a request of [count] bytes at [offset], for the inode at
    [ino], whose superblock at [sb] is on device [dev]. *)
Definition example_segs (h ino sb dev offset count : Z) : list (Z * list Z) :=
  [(h, le_bytes 8 ino); (h + 664, le_bytes 8 offset); (h + 672, le_bytes 4 count);
   (ino + 40, le_bytes 8 sb); (sb + 16, le_bytes 4 dev)].

Definition example_mem : kmem :=
  seg_mem (example_segs 0x1000 0x20000 0x30000 45 4096 65536 ++ example_segs 0x5000 0x24000 0x30000 45 4096 65536).

Lemma example_header_at h ino :
  h = 0x1000 ∧ ino = 0x20000 ∨ h = 0x5000 ∧ ino = 0x24000 →
  nfs_header_at vmlinux example_mem h 45 4096 65536.
Proof.
  intros Hc.
  split; [|eapply chain_last; [exact off_hdr_offset|exact layout_u64|..]
          |eapply chain_last; [exact off_hdr_count|exact layout_u32|..]|..]; cycle 1;
    try (destruct Hc as [[-> ->]|[-> ->]]; mem_eval).
  apply (chain_arrow _ _ _ _ _ _ _ _ _ _ _ ino off_hdr_inode (resolve_ptr _));
    [destruct Hc as [[-> ->]|[-> ->]]; mem_eval..|].
  apply (chain_arrow _ _ _ _ _ _ _ _ _ _ _ 0x30000 off_inode_sb (resolve_ptr _));
    [destruct Hc as [[-> ->]|[-> ->]]; mem_eval..|].
  eapply chain_last; [exact off_sb_dev|exact layout_dev_t|..]; mem_eval.
Qed.

Lemma nfs_start_done_same_key_witness :
  raw_tp_nfs_initiate_read vmlinux example_mem [0x1000] =
    Some (tracer (λ t, t) (TBegin (NfsReqKey 45 65536 4096 0 pad7) (λ t, t))).
Proof.
  refine (proj1 (nfs_start_done_same_key vmlinux example_mem 0x1000 45 4096 65536 0 [] _)).
  apply (example_header_at _ 0x20000). by left.
Defined.

(** ** Refinement of the ledger *)

Section Ledger.
Context `{!ProbeReadKernel} (E : tenv).

(** The key an event uses. *)
Definition nfs_event_key (ev : nfs_event) : option nfs_req_key :=
  match ev with
  | InitiateRead m args => hdr ← args !! 0%nat; nfs_fill_key E m hdr 0
  | InitiateWrite m args => hdr ← args !! 0%nat; nfs_fill_key E m hdr 1
  | ReadpageDone m args => hdr ← args !! 1%nat; nfs_fill_key E m hdr 0
  | WritebackDone m args => hdr ← args !! 1%nat; nfs_fill_key E m hdr 1
  end.

Definition nfs_abstract (ev : nfs_event) (_ : nfs_input) : tevent nfs_req_key Z nfs_hist_key :=
  match nfs_event_key ev with
  | None => TSkip
  | Some nk =>
      match ev with
      | InitiateRead _ _ | InitiateWrite _ _ => TBegin nk (λ t, t)
      | ReadpageDone _ _ => TEnd nk (λ _, Some (NfsHistKey (nk_dev nk) 0 pad3))
      | WritebackDone _ _ => TEnd nk (λ _, Some (NfsHistKey (nk_dev nk) 1 pad3))
      end
  end.

(** A program the loader refused does not run. *)
Definition nfs_attached (ev : nfs_event) : nfs_prog := default Ret (nfs_program E ev).

Lemma nfs_attached_abstract ev i : nfs_attached ev = tracer (λ t, t) (nfs_abstract ev i).
Proof.
  unfold nfs_attached, nfs_abstract, nfs_event_key, nfs_program.
  destruct ev as [m args|m args|m args|m args];
    unfold raw_tp_nfs_initiate_read, raw_tp_nfs_initiate_write, raw_tp_nfs_readpage_done, raw_tp_nfs_writeback_done;
    (destruct (args !! _) as [hdr|]; [|done]); rewrite !bind_Some_l;
    (destruct (nfs_fill_key E m hdr _) as [nk|]; [|done]); reflexivity.
Qed.

Lemma nfs_abstract_ok ev i : tevent_ok (λ t, t) is_u64 (nfs_abstract ev i).
Proof. unfold nfs_abstract. destruct (nfs_event_key ev) as [nk|]; [|done]. by destruct ev. Qed.

Lemma nfs_agrees tr :
  quiet nfs_attached nfs_init tr →
  agrees (λ t, t) is_u64 (run_trace nfs_attached nfs_init tr) (ledger_trace (λ t, t) nfs_abstract (Ledger ∅ []) tr).
Proof.
  apply agrees_trace.
  - apply nfs_abstract_ok.
  - intros. by rewrite (nfs_attached_abstract ev i).
  - apply agrees_empty. by split.
Qed.

(** C3.  Run one at a time, the four NFS tracepoint programs implement the
    ledger: after any trace in which the kernel evicts nothing, the start map
    holds the start times of the requests in flight under their keys, and slot
    [s] of the histogram of a device and operation counts, modulo 2^64, the
    finished requests whose latency in whole microseconds has logarithm [s]. *)
Theorem nfs_refines_ledger tr :
  quiet nfs_attached nfs_init tr →
  let st := run_trace nfs_attached nfs_init tr in
  let L := ledger_trace (λ t, t) nfs_abstract (Ledger ∅ []) tr in
  (∀ k, bm_get (st_start st) k = inflight L !! k) ∧
  (∀ hk s, 0 <= s → count_at st hk s = u64 (tally L hk s)).
Proof.
  intros Hq. by destruct (nfs_agrees tr Hq).
Qed.

(** However the NFS programs interleave on several CPUs, on whatever
    requests and memory contents, and whatever the kernel evicts: the maps stay
    within their declared sizes, distinct keys own distinct elements, every
    histogram consists of 26 counters of 64 bits, and no program in flight can
    address a counter outside of them. *)
Theorem nfs_interleaving_safe evs cf :
  rtc cstep (nfs_init, nfs_attached <$> evs) cf →
  (size (bm_idx (st_start cf.1)) ≤ MAX_NFS_ENTRIES)%nat ∧ (size (bm_idx (st_hists cf.1)) ≤ 256)%nat ∧
  state_wf cf.1 ∧ (∀ q, hist_wf (bm_load (st_hists cf.1) q)) ∧ Forall (prog_safe is_u64) cf.2.
Proof.
  intros Hr. apply (reachable_safe is_u64) in Hr as (? & ? & ? & [_ ?] & ?); [done|by split|].
  apply Forall_fmap, Forall_true. intros ev. cbn.
  rewrite (nfs_attached_abstract ev (Input 0 0 (Choice true [] 0) (Choice true [] 0))).
  by apply (tracer_safe (λ t, t)), nfs_abstract_ok.
Qed.

(** ** Requests that share a key *)

(** The trace in which the reads of headers [h1] and [h2] are both started and
    then both finished. *)
Definition two_reads (m : kmem) (h1 h2 task : Z) (i1 i2 i3 i4 : nfs_input) : list (nfs_event * nfs_input) :=
  [(InitiateRead m [h1], i1); (InitiateRead m [h2], i2);
   (ReadpageDone m [task; h1], i3); (ReadpageDone m [task; h2], i4)].

(** The key of a request names the device, the extent and the operation but
    not the file: when reads of the same extent of two files on one device
    overlap, the second start replaces the first, the first end counts the time
    since the second start, and the second end counts nothing.  One of the two
    samples is lost and the other is too short. *)
Theorem nfs_same_extent_loses_sample m h1 h2 task dev offset count i1 i2 i3 i4 :
  nfs_header_at E m h1 dev offset count → nfs_header_at E m h2 dev offset count →
  quiet nfs_attached nfs_init (two_reads m h1 h2 task i1 i2 i3 i4) →
  in_ns i2 <= in_ns i3 →
  ∀ hk s, 0 <= s →
    count_at (run_trace nfs_attached nfs_init (two_reads m h1 h2 task i1 i2 i3 i4)) hk s =
      if decide (NfsHistKey dev 0 pad3 = hk ∧ Z.min (Z.log2 (Z.max 1 ((in_ns i3 - in_ns i2) / 1000))) 25 = s)
      then 1 else 0.
Proof.
  intros H1 H2 Hq Hle hk s Hs. destruct (nfs_agrees _ Hq) as [_ _ _ _ Hc]. rewrite Hc by done. clear Hc.
  unfold two_reads, ledger_trace. cbn [foldl fst snd].
  unfold nfs_abstract, nfs_event_key. cbn [lookup list_lookup]. rewrite !bind_Some_l.
  rewrite !(nfs_fill_key_ok E m _ dev offset count 0) by (done || (unfold is_u8; lia)).
  cbn [ledger_step inflight samples nk_dev]. rewrite lookup_insert_eq.
  cbn [inflight samples]. rewrite lookup_delete_eq. rewrite decide_True by done. cbn [samples].
  unfold tally. cbn [samples filter list_filter].
  case_decide; by repeat case_decide.
Qed.
End Ledger.

Definition example_input (ns : Z) (e : nat) : nfs_input := Input ns 0 (Choice true [] e) (Choice true [] e).

Definition collision_trace : list (nfs_event * nfs_input) :=
  two_reads example_mem 0x1000 0x5000 0
    (example_input 1000000 0) (example_input 5000000 1) (example_input 9000000 2) (example_input 9500000 3).

Lemma collision_quiet : quiet (nfs_attached vmlinux) nfs_init collision_trace.
Proof.
  unfold collision_trace, two_reads. cbn [quiet]. unfold quiet_input, start_quiet, hist_quiet.
  split_and!; try (vm_compute; reflexivity); try (cbn [in_ns example_input]; lia).
Qed.

(** Reads of 8 ms and 4.5 ms, of files at inodes 0x20000 and 0x24000: one sample
    of 4 ms is counted. *)
Lemma nfs_same_extent_loses_sample_witness :
  count_at (run_trace (nfs_attached vmlinux) nfs_init collision_trace) (NfsHistKey 45 0 pad3) 11 =
    if decide (NfsHistKey 45 0 pad3 = NfsHistKey 45 0 pad3 ∧ 11 = 11) then 1 else 0.
Proof.
  refine (nfs_same_extent_loses_sample vmlinux example_mem 0x1000 0x5000 0 45 4096 65536 _ _ _ _ _ _ collision_quiet _
    (NfsHistKey 45 0 pad3) 11 _).
  - apply (example_header_at _ 0x20000). by left.
  - apply (example_header_at _ 0x24000). by right.
  - cbn. lia.
  - lia.
Defined.

Lemma nfs_refines_ledger_witness :
  count_at (run_trace (nfs_attached vmlinux) nfs_init collision_trace) (NfsHistKey 45 0 pad3) 11 =
    u64 (tally (ledger_trace (λ t, t) (nfs_abstract vmlinux) (Ledger ∅ []) collision_trace) (NfsHistKey 45 0 pad3) 11).
Proof. refine (proj2 (nfs_refines_ledger vmlinux collision_trace collision_quiet) _ _ _). lia. Defined.

Lemma nfs_interleaving_safe_witness :
  Forall (prog_safe is_u64) (exec [(0%nat, example_input 5 0)] (nfs_init, nfs_attached vmlinux <$> [InitiateRead example_mem [0x1000]])).2.
Proof.
  destruct (nfs_interleaving_safe vmlinux [InitiateRead example_mem [0x1000]] _ (exec_rtc [(0%nat, example_input 5 0)] _))
    as (_ & _ & _ & _ & H).
  exact H.
Defined.
