(* ===== verification/NfsKprobeLatency.v ===== *)
(** * NFS latency by kprobes (nfs_kprobe_latency.c)

    The fallback for kernels without NFS tracepoints: entry probes on the NFS
    file operations store the time, device and operation under the calling task,
    one return probe shared by all of them takes the record out and counts it. *)
From S2P Require Import Prelude CLayout KernelTypes CoreRead BpfMap Common BpfProg BpfRecord BpfTracer.

Record nfs_kprobe_start_val := KprobeStart { ks_ts : Z; ks_dev : Z; ks_op : Z; ks_pad : list Z }.

#[export] Instance kprobe_start_zeroed : Zeroed nfs_kprobe_start_val := KprobeStart 0 0 0 [0; 0; 0].

Abbreviation kprobe_prog := (prog Z nfs_kprobe_start_val nfs_hist_key).
Abbreviation kprobe_state := (state Z nfs_kprobe_start_val nfs_hist_key).
Abbreviation kprobe_input := (input Z nfs_hist_key).

Definition nfs_kprobe_start : bmap Z nfs_kprobe_start_val := bm_empty MAX_NFS_KPROBE_ENTRIES.
Definition nfs_kprobe_hists : bmap nfs_hist_key hist := bm_empty MAX_HIST_ENTRIES.
Definition kprobe_init : kprobe_state := State nfs_kprobe_start nfs_kprobe_hists.

Definition record_start (dev op : Z) : kprobe_prog :=
  GetCurrentPidTgid (λ pid_tgid,
  KtimeGetNs (λ ts,
  let start := KprobeStart ts (u32 dev) (u8 op) [0; 0; 0] in
  StartUpdate pid_tgid start Ret)).

(** The return probe loads the three fields of the record one by one. *)
Definition kretprobe_nfs_vfs : kprobe_prog :=
  GetCurrentPidTgid (λ pid_tgid,
  StartLookup pid_tgid (λ start,
  match start with
  | None => Ret
  | Some start =>
      KtimeGetNs (λ now,
      StartLoad start (λ v0,
      let delta := s64 (u64 (now - ks_ts v0)) in
      StartLoad start (λ v1,
      StartLoad start (λ v2,
      let hk := NfsHistKey (ks_dev v1) (ks_op v2) [0; 0; 0] in
      StartDelete pid_tgid (
      if delta <? 0 then Ret
      else
        let us := delta_us delta in
        HistLookup hk (λ histp,
        match histp with
        | None =>
            HistUpdate hk zero_hist (
            HistLookup hk (λ histp,
            match histp with
            | None => Ret
            | Some histp => HistFetchAdd histp (us_slot us) Ret
            end))
        | Some histp => HistFetchAdd histp (us_slot us) Ret
        end))))))
  end)).

Section Probes.
Context `{!ProbeReadKernel} (E : tenv).

(** The entry probes; [args] are the arguments of the probed function. *)
Definition kprobe_nfs_file_read (m : kmem) (args : list Z) : option kprobe_prog :=
  iocb ← args !! 0%nat;
  dev ← core_read E m (struct_ "kiocb") iocb [["ki_filp"]; ["f_inode"]; ["i_sb"]] ["s_dev"];
  Some (record_start dev 0).

Definition kprobe_nfs_file_write (m : kmem) (args : list Z) : option kprobe_prog :=
  iocb ← args !! 0%nat;
  dev ← core_read E m (struct_ "kiocb") iocb [["ki_filp"]; ["f_inode"]; ["i_sb"]] ["s_dev"];
  Some (record_start dev 1).

Definition kprobe_nfs_file_open (m : kmem) (args : list Z) : option kprobe_prog :=
  inode ← args !! 0%nat;
  dev ← core_read E m (struct_ "inode") inode [["i_sb"]] ["s_dev"];
  Some (record_start dev 2).

Definition kprobe_nfs4_file_open (m : kmem) (args : list Z) : option kprobe_prog :=
  inode ← args !! 0%nat;
  dev ← core_read E m (struct_ "inode") inode [["i_sb"]] ["s_dev"];
  Some (record_start dev 2).

Definition kprobe_nfs_getattr (m : kmem) (args : list Z) : option kprobe_prog :=
  path ← args !! 1%nat;
  dev ← core_read E m (struct_ "path") path [["dentry"]; ["d_inode"]; ["i_sb"]] ["s_dev"];
  Some (record_start dev 3).

Inductive kprobe_event :=
  | FileRead (m : kmem) (args : list Z)
  | FileWrite (m : kmem) (args : list Z)
  | FileOpen (m : kmem) (args : list Z)
  | File4Open (m : kmem) (args : list Z)
  | Getattr (m : kmem) (args : list Z)
  | Return.

Definition kprobe_program (ev : kprobe_event) : option kprobe_prog :=
  match ev with
  | FileRead m args => kprobe_nfs_file_read m args
  | FileWrite m args => kprobe_nfs_file_write m args
  | FileOpen m args => kprobe_nfs_file_open m args
  | File4Open m args => kprobe_nfs4_file_open m args
  | Getattr m args => kprobe_nfs_getattr m args
  | Return => Some kretprobe_nfs_vfs
  end.

(** A program the loader refused does not run. *)
Definition kprobe_attached (ev : kprobe_event) : kprobe_prog := default Ret (kprobe_program ev).

(** ** What the entry probes record *)

(** [inode] is an inode whose superblock is on device [dev]. *)
Definition inode_on (m : kmem) (inode dev : Z) : Prop :=
  chain E m ["s_dev"] dev (struct_ "inode") inode [["i_sb"]] ∧ is_u32 dev.

Definition file_on (m : kmem) (iocb dev : Z) : Prop :=
  chain E m ["s_dev"] dev (struct_ "kiocb") iocb [["ki_filp"]; ["f_inode"]; ["i_sb"]] ∧ is_u32 dev.

Definition path_on (m : kmem) (path dev : Z) : Prop :=
  chain E m ["s_dev"] dev (struct_ "path") path [["dentry"]; ["d_inode"]; ["i_sb"]] ∧ is_u32 dev.

(** C34.  On any kernel whose type information resolves the members they access,
    each entry probe records the device of the file its function was called on,
    found through the right argument, with the code of its operation. *)
Theorem kprobes_record_device m iocb inode path dev x rest :
  file_on m iocb dev → inode_on m inode dev → path_on m path dev →
  kprobe_nfs_file_read m (iocb :: rest) = Some (record_start dev 0) ∧
  kprobe_nfs_file_write m (iocb :: rest) = Some (record_start dev 1) ∧
  kprobe_nfs_file_open m (inode :: rest) = Some (record_start dev 2) ∧
  kprobe_nfs4_file_open m (inode :: rest) = Some (record_start dev 2) ∧
  kprobe_nfs_getattr m (x :: path :: rest) = Some (record_start dev 3).
Proof.
  intros [Hf _] [Hi _] [Hp _].
  unfold kprobe_nfs_file_read, kprobe_nfs_file_write, kprobe_nfs_file_open, kprobe_nfs4_file_open, kprobe_nfs_getattr.
  cbn [lookup list_lookup]. rewrite !bind_Some_l.
  rewrite (core_read_chain _ _ _ _ _ _ _ Hf), (core_read_chain _ _ _ _ _ _ _ Hi), (core_read_chain _ _ _ _ _ _ _ Hp).
  rewrite !bind_Some_l. done.
Qed.

(** ** Refinement of the ledger *)

(** The device and operation an entry probe records. *)
Definition kprobe_entry (ev : kprobe_event) : option (Z * Z) :=
  match ev with
  | FileRead m args => iocb ← args !! 0%nat; dev ← core_read E m (struct_ "kiocb") iocb [["ki_filp"]; ["f_inode"]; ["i_sb"]] ["s_dev"]; Some (u32 dev, 0)
  | FileWrite m args => iocb ← args !! 0%nat; dev ← core_read E m (struct_ "kiocb") iocb [["ki_filp"]; ["f_inode"]; ["i_sb"]] ["s_dev"]; Some (u32 dev, 1)
  | FileOpen m args | File4Open m args => inode ← args !! 0%nat; dev ← core_read E m (struct_ "inode") inode [["i_sb"]] ["s_dev"]; Some (u32 dev, 2)
  | Getattr m args => path ← args !! 1%nat; dev ← core_read E m (struct_ "path") path [["dentry"]; ["d_inode"]; ["i_sb"]] ["s_dev"]; Some (u32 dev, 3)
  | Return => None
  end.

(** The ledger keeps one record per task: its current call. *)
Definition kprobe_abstract (ev : kprobe_event) (i : kprobe_input) : tevent Z nfs_kprobe_start_val nfs_hist_key :=
  let task := u64 (in_pid_tgid i) in
  match ev with
  | Return => TEnd task (λ v, Some (NfsHistKey (ks_dev v) (ks_op v) [0; 0; 0]))
  | _ => match kprobe_entry ev with
         | Some (dev, op) => TBegin task (λ t, KprobeStart t dev op [0; 0; 0])
         | None => TSkip
         end
  end.

Lemma kretprobe_abstract i st :
  run i st kretprobe_nfs_vfs = run i st (tracer ks_ts (kprobe_abstract Return i)).
Proof.
  unfold kretprobe_nfs_vfs, kprobe_abstract. cbv zeta. cbn [tracer run].
  by destruct (bm_lookup (st_start st) (u64 (in_pid_tgid i))).
Qed.

Lemma kprobe_attached_abstract ev i st :
  run i st (kprobe_attached ev) = run i st (tracer ks_ts (kprobe_abstract ev i)).
Proof.
  unfold kprobe_attached, kprobe_abstract, kprobe_entry, kprobe_program.
  destruct ev as [m args|m args|m args|m args|m args|];
    [..|apply kretprobe_abstract];
    unfold kprobe_nfs_file_read, kprobe_nfs_file_write, kprobe_nfs_file_open, kprobe_nfs4_file_open, kprobe_nfs_getattr;
    (destruct (args !! _) as [p|]; [|done]); rewrite !bind_Some_l;
    (destruct (core_read E m _ p _ _) as [dev|]; [|done]); reflexivity.
Qed.

Definition start_ok (v : nfs_kprobe_start_val) : Prop := is_u64 (ks_ts v).

Lemma kprobe_abstract_ok ev i : tevent_ok ks_ts start_ok (kprobe_abstract ev i).
Proof.
  unfold kprobe_abstract. cbv zeta. destruct (kprobe_entry ev) as [[dev op]|]; destruct ev; done.
Qed.

Lemma kprobe_agrees tr :
  quiet kprobe_attached kprobe_init tr →
  agrees ks_ts start_ok (run_trace kprobe_attached kprobe_init tr)
    (ledger_trace ks_ts kprobe_abstract (Ledger ∅ []) tr).
Proof.
  apply agrees_trace.
  - apply kprobe_abstract_ok.
  - intros. apply kprobe_attached_abstract.
  - apply agrees_empty. by split.
Qed.

(** C4.  Run one at a time, the six probes implement a ledger with one open call
    per task: after any trace in which the kernel evicts nothing, the start map
    holds each task's latest unfinished call with its time, device and
    operation, and slot [s] of the histogram of a device and operation counts,
    modulo 2^64, the finished calls whose latency in whole microseconds has
    logarithm [s]. *)
Theorem kprobe_refines_ledger tr :
  quiet kprobe_attached kprobe_init tr →
  let st := run_trace kprobe_attached kprobe_init tr in
  let L := ledger_trace ks_ts kprobe_abstract (Ledger ∅ []) tr in
  (∀ task, bm_get (st_start st) task = inflight L !! task) ∧
  (∀ hk s, 0 <= s → count_at st hk s = u64 (tally L hk s)).
Proof. intros Hq. by destruct (kprobe_agrees tr Hq). Qed.

(** ** Safety under interleaving *)

Lemma kretprobe_safe : prog_safe start_ok kretprobe_nfs_vfs.
Proof.
  cbn -[record_hist u64 s64 delta_us us_slot]. intros pid _ [start|]; [|exact I]. intros now _ v0 _ v1 _ v2 _.
  destruct (Z.ltb_spec (s64 (u64 (now - ks_ts v0))) 0); [exact I|].
  exact (record_safe start_ok (NfsHistKey (ks_dev v1) (ks_op v2) [0; 0; 0]) _ (s64_delta_us _ ltac:(eassumption))).
Qed.

Lemma record_start_safe dev op : prog_safe start_ok (record_start dev op).
Proof. cbn. intros pid _ ts Hts. by split. Qed.

Lemma kprobe_attached_safe ev : prog_safe start_ok (kprobe_attached ev).
Proof.
  unfold kprobe_attached, kprobe_program.
  destruct ev as [m args|m args|m args|m args|m args|]; [..|exact kretprobe_safe];
    unfold kprobe_nfs_file_read, kprobe_nfs_file_write, kprobe_nfs_file_open, kprobe_nfs4_file_open, kprobe_nfs_getattr;
    (destruct (args !! _) as [p|]; [|exact I]); rewrite bind_Some_l;
    (destruct (core_read E m _ p _ _) as [dev|]; [|exact I]); apply record_start_safe.
Qed.

(** However the probes interleave, even between the three loads of the
    return probe and with records evicted and reused under it: the maps stay
    within their declared sizes, distinct keys own distinct elements, every
    histogram consists of 26 counters of 64 bits, and no probe in flight can
    address a counter outside of them. *)
Theorem kprobe_interleaving_safe evs cf :
  rtc cstep (kprobe_init, kprobe_attached <$> evs) cf →
  (size (bm_idx (st_start cf.1)) ≤ MAX_NFS_KPROBE_ENTRIES)%nat ∧
  (size (bm_idx (st_hists cf.1)) ≤ MAX_HIST_ENTRIES)%nat ∧
  state_wf cf.1 ∧ (∀ q, hist_wf (bm_load (st_hists cf.1) q)) ∧ Forall (prog_safe start_ok) cf.2.
Proof.
  intros Hr. apply (reachable_safe start_ok) in Hr as (? & ? & ? & [_ ?] & ?); [done|by split|].
  apply Forall_fmap, Forall_true, kprobe_attached_safe.
Qed.

(** A probed function that calls another one: the inner entry replaces the
    record of the outer one, the inner return counts the inner call, and the
    outer return finds nothing, so that only the inner call is counted. *)
Theorem kprobe_nested_counts_inner outer inner dev op dev' op' i1 i2 i3 i4 :
  kprobe_entry outer = Some (dev, op) → kprobe_entry inner = Some (dev', op') →
  (∀ i, i ∈ [i2; i3; i4] → in_pid_tgid i = in_pid_tgid i1) →
  quiet kprobe_attached kprobe_init [(outer, i1); (inner, i2); (Return, i3); (Return, i4)] →
  in_ns i2 <= in_ns i3 →
  ∀ hk s, 0 <= s →
    count_at (run_trace kprobe_attached kprobe_init [(outer, i1); (inner, i2); (Return, i3); (Return, i4)]) hk s =
      if decide (NfsHistKey dev' op' [0; 0; 0] = hk ∧ Z.min (Z.log2 (Z.max 1 ((in_ns i3 - in_ns i2) / 1000))) 25 = s)
      then 1 else 0.
Proof.
  intros Ho Hi Hpid Hq Hle hk s Hs. destruct (kprobe_agrees _ Hq) as [_ _ _ _ ->]; [|done].
  assert (Ha : ∀ ev i d o, kprobe_entry ev = Some (d, o) →
    kprobe_abstract ev i = TBegin (u64 (in_pid_tgid i)) (λ t, KprobeStart t d o [0; 0; 0])).
  { intros ev i d o He. unfold kprobe_abstract. rewrite He. by destruct ev. }
  unfold ledger_trace. cbn [foldl fst snd]. rewrite (Ha _ _ _ _ Ho), (Ha _ _ _ _ Hi).
  unfold kprobe_abstract. rewrite !(Hpid i2), !(Hpid i3), !(Hpid i4) by set_solver.
  cbn [ledger_step inflight samples]. rewrite lookup_insert_eq.
  cbn [inflight samples ks_ts ks_dev ks_op]. rewrite lookup_delete_eq. rewrite decide_True by done. cbn [samples].
  unfold tally. cbn [samples filter list_filter].
  case_decide; by repeat case_decide.
Qed.
End Probes.

(** ** A file, an inode and a path in memory laid out as in vmlinux.h *)

Definition kprobe_mem : kmem :=
  seg_mem [(0x1000, le_bytes 8 0x2000); (0x2000 + 40, le_bytes 8 0x20000); (0x20000 + 40, le_bytes 8 0x30000);
    (0x30000 + 16, le_bytes 4 45); (0x4000 + 8, le_bytes 8 0x6000); (0x6000 + 48, le_bytes 8 0x20000)].

Lemma example_inode_on : inode_on vmlinux kprobe_mem 0x20000 45.
Proof.
  split; [|mem_eval].
  apply (chain_arrow _ _ _ _ _ _ _ _ _ _ _ 0x30000 off_inode_sb (resolve_ptr _)); [mem_eval..|].
  eapply chain_last; [exact off_sb_dev|exact layout_dev_t|..]; mem_eval.
Qed.

Lemma example_file_on : file_on vmlinux kprobe_mem 0x1000 45.
Proof.
  split; [|mem_eval].
  apply (chain_arrow _ _ _ _ _ _ _ _ _ _ _ 0x2000 off_kiocb_filp (resolve_ptr _)); [mem_eval..|].
  apply (chain_arrow _ _ _ _ _ _ _ _ _ _ _ 0x20000 off_file_inode (resolve_ptr _)); [mem_eval..|].
  apply example_inode_on.
Qed.

Lemma example_path_on : path_on vmlinux kprobe_mem 0x4000 45.
Proof.
  split; [|mem_eval].
  apply (chain_arrow _ _ _ _ _ _ _ _ _ _ _ 0x6000 off_path_dentry (resolve_ptr _)); [mem_eval..|].
  apply (chain_arrow _ _ _ _ _ _ _ _ _ _ _ 0x20000 off_dentry_inode (resolve_ptr _)); [mem_eval..|].
  apply example_inode_on.
Qed.

Lemma kprobes_record_device_witness :
  kprobe_nfs_file_read vmlinux kprobe_mem [0x1000] = Some (record_start 45 0).
Proof.
  exact (proj1 (kprobes_record_device vmlinux kprobe_mem 0x1000 0x20000 0x4000 45 0 []
    example_file_on example_inode_on example_path_on)).
Defined.

Definition kprobe_example_input (ns : Z) (e : nat) : kprobe_input := Input ns 77 (Choice true [] e) (Choice true [] e).

(** A write that looks up attributes on its way. *)
Definition nested_trace : list (kprobe_event * kprobe_input) :=
  [(FileWrite kprobe_mem [0x1000], kprobe_example_input 1000000 0);
   (Getattr kprobe_mem [0; 0x4000], kprobe_example_input 2000000 1);
   (Return, kprobe_example_input 2500000 2); (Return, kprobe_example_input 9000000 3)].

Lemma nested_quiet : quiet (kprobe_attached vmlinux) kprobe_init nested_trace.
Proof.
  unfold nested_trace. cbn [quiet]. unfold quiet_input, start_quiet, hist_quiet.
  split_and!; try (vm_compute; reflexivity); try (cbn [in_ns kprobe_example_input]; lia).
Qed.

(** The look-up's 500 us are counted, the write's 8 ms (slot 12) are not. *)
Lemma kprobe_nested_counts_inner_witness :
  count_at (run_trace (kprobe_attached vmlinux) kprobe_init nested_trace) (NfsHistKey 45 1 [0; 0; 0]) 12 =
    if decide (NfsHistKey 45 3 [0; 0; 0] = NfsHistKey 45 1 [0; 0; 0] ∧ 8 = 12) then 1 else 0.
Proof.
  refine (kprobe_nested_counts_inner vmlinux (FileWrite kprobe_mem [0x1000]) (Getattr kprobe_mem [0; 0x4000]) 45 1 45 3
    _ _ _ _ _ _ _ nested_quiet _ (NfsHistKey 45 1 [0; 0; 0]) 12 _); [vm_compute; reflexivity..| |cbn; lia|lia].
  intros i. rewrite !elem_of_cons, elem_of_nil. by intros [->|[->|[->|[]]]].
Defined.

Lemma kprobe_refines_ledger_witness :
  count_at (run_trace (kprobe_attached vmlinux) kprobe_init nested_trace) (NfsHistKey 45 3 [0; 0; 0]) 8 =
    u64 (tally (ledger_trace ks_ts (kprobe_abstract vmlinux) (Ledger ∅ []) nested_trace) (NfsHistKey 45 3 [0; 0; 0]) 8).
Proof. refine (proj2 (kprobe_refines_ledger vmlinux nested_trace nested_quiet) _ _ _). lia. Defined.

Lemma kprobe_interleaving_safe_witness :
  Forall (prog_safe start_ok)
    (exec [(0%nat, kprobe_example_input 5 0)] (kprobe_init, kprobe_attached vmlinux <$> [Return])).2.
Proof.
  destruct (kprobe_interleaving_safe vmlinux [Return] _ (exec_rtc [(0%nat, kprobe_example_input 5 0)] _))
    as (_ & _ & _ & _ & H).
  exact H.
Defined.
