(* ===== verification/MapBytes.v ===== *)
(** * Keys and values of the maps as bytes

    The kernel compares map keys byte by byte and the exporter reads keys and
    histograms back as bytes.  This file gives the memory image of each key and
    value type, ties it to the layout of its C declaration, and shows that
    comparing images is comparing records and that reading an image back yields
    the record. *)
From S2P Require Import Prelude CLayout VmlinuxCore KernelTypes CoreRead Common BpfMap BlockLatency NfsLatency NfsKprobeLatency.

(** ** The declarations *)

Definition req_key_decl : decl := Struct "req_key"
  [mem "dev" (name_ "__u32"); mem "sector" (name_ "__u64")].
Definition nfs_req_key_decl : decl := Struct "nfs_req_key"
  [mem "dev" (name_ "__u32"); mem "count" (name_ "__u32"); mem "offset" (name_ "__u64");
   mem "op" (name_ "__u8"); mem "pad" (arr (name_ "__u8") 7)].
Definition nfs_kprobe_start_val_decl : decl := Struct "nfs_kprobe_start_val"
  [mem "ts" (name_ "__u64"); mem "dev" (name_ "__u32"); mem "op" (name_ "__u8"); mem "pad" (arr (name_ "__u8") 3)].
Definition block_hist_key_decl : decl := Struct "block_hist_key"
  [mem "dev" (name_ "__u32"); mem "op" (name_ "__u8"); mem "pad" (arr (name_ "__u8") 3)].
Definition nfs_hist_key_decl : decl := Struct "nfs_hist_key"
  [mem "dev" (name_ "__u32"); mem "op" (name_ "__u8"); mem "pad" (arr (name_ "__u8") 3)].
Definition hist_decl : decl := Struct "hist" [mem "slots" (arr (name_ "__u64") MAX_SLOTS)].

Definition map_types : list decl :=
  [req_key_decl; nfs_req_key_decl; nfs_kprobe_start_val_decl; block_hist_key_decl; nfs_hist_key_decl; hist_decl].

(** ** Memory images *)

(** An object as the bytes of its members with their offsets; what no member
    covers is zero, since every key is initialised with [= {}]. *)
Definition image (size : nat) (ms : list (nat * list Z)) : list Z :=
  foldr (λ m bs, list_inserts m.1 m.2 bs) (replicate size 0) ms.

Definition req_key_bytes (k : req_key) : list Z :=
  image 16 [(0%nat, le_bytes 4 (rk_dev k)); (8%nat, le_bytes 8 (rk_sector k))].
Definition nfs_req_key_bytes (k : nfs_req_key) : list Z :=
  image 24 [(0%nat, le_bytes 4 (nk_dev k)); (4%nat, le_bytes 4 (nk_count k)); (8%nat, le_bytes 8 (nk_offset k));
            (16%nat, le_bytes 1 (nk_op k)); (17%nat, nk_pad k)].
Definition block_hist_key_bytes (k : block_hist_key) : list Z :=
  image 8 [(0%nat, le_bytes 4 (bhk_dev k)); (4%nat, le_bytes 1 (bhk_op k)); (5%nat, bhk_pad k)].
Definition nfs_hist_key_bytes (k : nfs_hist_key) : list Z :=
  image 8 [(0%nat, le_bytes 4 (nhk_dev k)); (4%nat, le_bytes 1 (nhk_op k)); (5%nat, nhk_pad k)].

(** ** Reading an image back, member by member *)

Definition member_bytes (off n : nat) (bs : list Z) : list Z := take n (drop off bs).

Definition parse_req_key (bs : list Z) : req_key :=
  ReqKey (le_val (member_bytes 0 4 bs)) (le_val (member_bytes 8 8 bs)).
Definition parse_nfs_req_key (bs : list Z) : nfs_req_key :=
  NfsReqKey (le_val (member_bytes 0 4 bs)) (le_val (member_bytes 4 4 bs)) (le_val (member_bytes 8 8 bs))
    (le_val (member_bytes 16 1 bs)) (member_bytes 17 7 bs).
Definition parse_block_hist_key (bs : list Z) : block_hist_key :=
  BlockHistKey (le_val (member_bytes 0 4 bs)) (le_val (member_bytes 4 1 bs)) (member_bytes 5 3 bs).
Definition parse_nfs_hist_key (bs : list Z) : nfs_hist_key :=
  NfsHistKey (le_val (member_bytes 0 4 bs)) (le_val (member_bytes 4 1 bs)) (member_bytes 5 3 bs).

(** Fields within the width of their members. *)
Definition req_key_wf (k : req_key) : Prop := is_u32 (rk_dev k) ∧ is_u64 (rk_sector k).
Definition nfs_req_key_wf (k : nfs_req_key) : Prop :=
  is_u32 (nk_dev k) ∧ is_u32 (nk_count k) ∧ is_u64 (nk_offset k) ∧ is_u8 (nk_op k) ∧ length (nk_pad k) = 7%nat.
Definition block_hist_key_wf (k : block_hist_key) : Prop :=
  is_u32 (bhk_dev k) ∧ is_u8 (bhk_op k) ∧ length (bhk_pad k) = 3%nat.
Definition nfs_hist_key_wf (k : nfs_hist_key) : Prop :=
  is_u32 (nhk_dev k) ∧ is_u8 (nhk_op k) ∧ length (nhk_pad k) = 3%nat.

(** The bytes of one value as a list of the right number of variables. *)
Lemma le_val_4 x : is_u32 x → le_val (le_bytes 4 x) = x.
Proof. intros. by apply le_val_bytes. Qed.
Lemma le_val_8 x : is_u64 x → le_val (le_bytes 8 x) = x.
Proof. intros. by apply le_val_bytes. Qed.
Lemma le_val_1 x : is_u8 x → le_val (le_bytes 1 x) = x.
Proof. intros. by apply le_val_bytes. Qed.

Lemma parse_req_key_bytes k : req_key_wf k → parse_req_key (req_key_bytes k) = k.
Proof.
  destruct k as [d s]. intros [Hd Hs]. simpl in *.
  change (ReqKey (le_val (le_bytes 4 d)) (le_val (le_bytes 8 s)) = ReqKey d s). by rewrite le_val_4, le_val_8.
Qed.

Lemma parse_nfs_req_key_bytes k : nfs_req_key_wf k → parse_nfs_req_key (nfs_req_key_bytes k) = k.
Proof.
  destruct k as [d c o p q]. intros (Hd & Hc & Ho & Hp & Hq). simpl in *.
  do 8 (destruct q as [|? q]; try done).
  lazymatch goal with |- _ = NfsReqKey _ _ _ _ ?q =>
    change (NfsReqKey (le_val (le_bytes 4 d)) (le_val (le_bytes 4 c)) (le_val (le_bytes 8 o)) (le_val (le_bytes 1 p)) q =
            NfsReqKey d c o p q)
  end.
  by rewrite !le_val_4, le_val_8, le_val_1.
Qed.

Lemma parse_block_hist_key_bytes k : block_hist_key_wf k → parse_block_hist_key (block_hist_key_bytes k) = k.
Proof.
  destruct k as [d p q]. intros (Hd & Hp & Hq). simpl in *.
  do 4 (destruct q as [|? q]; try done).
  lazymatch goal with |- _ = BlockHistKey _ _ ?q =>
    change (BlockHistKey (le_val (le_bytes 4 d)) (le_val (le_bytes 1 p)) q = BlockHistKey d p q)
  end.
  by rewrite le_val_4, le_val_1.
Qed.

Lemma parse_nfs_hist_key_bytes k : nfs_hist_key_wf k → parse_nfs_hist_key (nfs_hist_key_bytes k) = k.
Proof.
  destruct k as [d p q]. intros (Hd & Hp & Hq). simpl in *.
  do 4 (destruct q as [|? q]; try done).
  lazymatch goal with |- _ = NfsHistKey _ _ ?q =>
    change (NfsHistKey (le_val (le_bytes 4 d)) (le_val (le_bytes 1 p)) q = NfsHistKey d p q)
  end.
  by rewrite le_val_4, le_val_1.
Qed.

(** ** Histograms *)

Definition hist_bytes (h : hist) : list Z := mjoin (le_bytes 8 <$> slots h).

Fixpoint words64 (n : nat) (bs : list Z) : list Z :=
  match n with
  | O => []
  | S n' => le_val (take 8 bs) :: words64 n' (drop 8 bs)
  end.

Definition parse_hist (bs : list Z) : hist := Hist (words64 (Z.to_nat MAX_SLOTS) bs).

Lemma words64_bytes xs : Forall is_u64 xs → words64 (length xs) (mjoin (le_bytes 8 <$> xs)) = xs.
Proof.
  induction 1 as [|x xs Hx _ IH]; [done|]. cbn [length words64 fmap list_fmap mjoin list_join].
  rewrite take_app_length', drop_app_length' by (by rewrite length_le_bytes). f_equal; [by apply le_val_8|exact IH].
Qed.

Lemma parse_hist_bytes h : hist_wf h → parse_hist (hist_bytes h) = h.
Proof. destruct h as [sl]. intros [Hl Hf]. unfold parse_hist. rewrite <- Hl. f_equal. by apply words64_bytes. Qed.

(** A function with a left inverse on [P] is injective there. *)
Lemma image_inj {A} (f : A → list Z) (g : list Z → A) (P : A → Prop) :
  (∀ x, P x → g (f x) = x) → ∀ x y, P x → P y → f x = f y ↔ x = y.
Proof. intros Hg x y Hx Hy. split; [|by intros ->]. intros E. by rewrite <- (Hg x Hx), <- (Hg y Hy), E. Qed.

(** Maps over records are faithful to maps over bytes.  The kernel compares
    keys as bytes, padding included: two keys the programs build have equal
    images exactly when their fields are equal, for each of the four key types.
    And what the exporter reads back is what the programs wrote: parsing the
    image of a histogram key or of a histogram yields the same record. *)
Lemma map_images_faithful :
  (∀ k k', req_key_wf k → req_key_wf k' → req_key_bytes k = req_key_bytes k' ↔ k = k') ∧
  (∀ k k', nfs_req_key_wf k → nfs_req_key_wf k' → nfs_req_key_bytes k = nfs_req_key_bytes k' ↔ k = k') ∧
  (∀ k k', block_hist_key_wf k → block_hist_key_wf k' → block_hist_key_bytes k = block_hist_key_bytes k' ↔ k = k') ∧
  (∀ k k', nfs_hist_key_wf k → nfs_hist_key_wf k' → nfs_hist_key_bytes k = nfs_hist_key_bytes k' ↔ k = k') ∧
  (∀ k, block_hist_key_wf k → parse_block_hist_key (block_hist_key_bytes k) = k) ∧
  (∀ k, nfs_hist_key_wf k → parse_nfs_hist_key (nfs_hist_key_bytes k) = k) ∧
  (∀ h, hist_wf h → parse_hist (hist_bytes h) = h).
Proof.
  split_and!.
  - apply (image_inj _ _ _ parse_req_key_bytes).
  - apply (image_inj _ _ _ parse_nfs_req_key_bytes).
  - apply (image_inj _ _ _ parse_block_hist_key_bytes).
  - apply (image_inj _ _ _ parse_nfs_hist_key_bytes).
  - apply parse_block_hist_key_bytes.
  - apply parse_nfs_hist_key_bytes.
  - apply parse_hist_bytes.
Qed.

(** ** The images follow the layout of the declarations *)

(** Each member of a declaration with its offset and size in bytes. *)
Definition member_table (d : decl) : list (string * Z * Z) :=
  match d.2 with
  | TComp _ _ fs =>
      omap (λ f : field, n ← f.1.1; '(o, t) ← find_member vmfuel vmlinux d.2 n; '(s, _) ← layout vmfuel vmlinux t;
                         Some (n, o, s)) fs
  | _ => []
  end.

(** Under the layout rules of C the keys and values of the maps have their
    members at the offsets their images use and are as long as these.  Only
    [req_key] has padding between its members, four bytes after [dev]; the types
    the exporter reads back have none. *)
Lemma map_type_layouts :
  (λ d : decl, (d.1.2, fst <$> layout vmfuel vmlinux d.2, member_table d)) <$> map_types =
  [("req_key", Some 16, [("dev", 0, 4); ("sector", 8, 8)]);
   ("nfs_req_key", Some 24, [("dev", 0, 4); ("count", 4, 4); ("offset", 8, 8); ("op", 16, 1); ("pad", 17, 7)]);
   ("nfs_kprobe_start_val", Some 16, [("ts", 0, 8); ("dev", 8, 4); ("op", 12, 1); ("pad", 13, 3)]);
   ("block_hist_key", Some 8, [("dev", 0, 4); ("op", 4, 1); ("pad", 5, 3)]);
   ("nfs_hist_key", Some 8, [("dev", 0, 4); ("op", 4, 1); ("pad", 5, 3)]);
   ("hist", Some 208, [("slots", 0, 208)])].
Proof. vm_compute. reflexivity. Qed.

(** An object with the members of a declaration, given as bytes in their order. *)
Definition image_of (d : decl) (members : list (list Z)) : list Z :=
  image (Z.to_nat (default 0 (fst <$> layout vmfuel vmlinux d.2))) (zip_with (λ m bs, (Z.to_nat m.1.2, bs)) (member_table d) members).

Lemma image_of_layout d s table members :
  fst <$> layout vmfuel vmlinux d.2 = Some s → member_table d = table →
  image_of d members = image (Z.to_nat s) (zip_with (λ m bs, (Z.to_nat m.1.2, bs)) table members).
Proof. intros Hs Ht. unfold image_of. by rewrite Hs, Ht. Qed.

(** The images are those the declarations give. *)
Lemma images_follow_layout :
  (∀ k, req_key_bytes k = image_of req_key_decl [le_bytes 4 (rk_dev k); le_bytes 8 (rk_sector k)]) ∧
  (∀ k, nfs_req_key_bytes k =
     image_of nfs_req_key_decl [le_bytes 4 (nk_dev k); le_bytes 4 (nk_count k); le_bytes 8 (nk_offset k); le_bytes 1 (nk_op k); nk_pad k]) ∧
  (∀ k, block_hist_key_bytes k = image_of block_hist_key_decl [le_bytes 4 (bhk_dev k); le_bytes 1 (bhk_op k); bhk_pad k]) ∧
  (∀ k, nfs_hist_key_bytes k = image_of nfs_hist_key_decl [le_bytes 4 (nhk_dev k); le_bytes 1 (nhk_op k); nhk_pad k]).
Proof. split_and!; intros k; (erewrite image_of_layout; [|vm_compute; reflexivity|vm_compute; reflexivity]); reflexivity. Qed.
