(* ===== verification/GoFloat.v ===== *)
(** * Go's float64

    IEEE 754 binary64 arithmetic, rounding to nearest even, as the Go compiler
    emits it without fused multiply-add, computed by the Standard Library's
    specification of floating-point numbers. *)
From Stdlib Require Export SpecFloat.
From S2P Require Import Prelude.

Abbreviation float64 := spec_float.

#[export] Instance float64_eq_dec : EqDecision float64.
Proof. solve_decision. Defined.

(** The conversion [float64 (n)] of an integer, and the operations. *)
Definition f64_of_Z (n : Z) : float64 := binary_normalize 53 1024 n 0 false.
Definition f64_add : float64 → float64 → float64 := SFadd 53 1024.
Definition f64_mul : float64 → float64 → float64 := SFmul 53 1024.
Definition f64_div : float64 → float64 → float64 := SFdiv 53 1024.
Definition f64_sub : float64 → float64 → float64 := SFsub 53 1024.
Definition f64_le : float64 → float64 → bool := SFleb.
Definition f64_lt : float64 → float64 → bool := SFltb.
Definition f64_eq : float64 → float64 → bool := SFeqb.

(** The constant [p / q] for integers of at most 53 bits, rounded once. *)
Definition f64_ratio (p q : Z) : float64 := f64_div (f64_of_Z p) (f64_of_Z q).

(** [math.Sqrt2] as a float64. *)
Definition f64_sqrt2 : float64 := S754_finite false 6369051672525773 (-52).

(** ** Order *)

Definition is_nan (x : float64) : bool := match x with S754_nan => true | _ => false end.

(** A total preorder on the numbers: sign, then exponent and mantissa. *)
Definition f64_key (x : float64) : Z * Z * Z :=
  match x with
  | S754_infinity true => (-2, 0, 0)
  | S754_finite true m e => (-1, - e, - Zpos m)
  | S754_zero _ => (0, 0, 0)
  | S754_finite false m e => (1, e, Zpos m)
  | S754_infinity false => (2, 0, 0)
  | S754_nan => (0, 0, 0)
  end.

Definition key_le (a b : Z * Z * Z) : Prop :=
  let '(a1, a2, a3) := a in let '(b1, b2, b3) := b in
  a1 < b1 ∨ a1 = b1 ∧ (a2 < b2 ∨ a2 = b2 ∧ a3 <= b3).

Lemma key_le_trans a b c : key_le a b → key_le b c → key_le a c.
Proof. destruct a as [[]], b as [[]], c as [[]]. simpl. lia. Qed.

Lemma key_le_total a b : key_le a b ∨ key_le b a.
Proof. destruct a as [[]], b as [[]]. simpl. lia. Qed.

Lemma f64_le_key x y :
  f64_le x y = true ↔ is_nan x = false ∧ is_nan y = false ∧ key_le (f64_key x) (f64_key y).
Proof.
  unfold f64_le, SFleb, SFcompare.
  destruct x as [[]|[]| |[] m e], y as [[]|[]| |[] m' e']; simpl;
    try (split; [intros; split_and!; try done; lia | intros (?&?&?); try done; lia]).
  - destruct (Z.compare_spec e e'); simpl; [|split; [try done|]..]; try (intros; split_and!; done || lia); try (intros (?&?&?); done || lia).
    subst. change (Pos.compare_cont Eq m m') with (Pos.compare m m').
    destruct (Pos.compare_spec m m'); simpl; (split; [intros; split_and!; try done; lia | intros (?&?&?); try done; lia]).
  - destruct (Z.compare_spec e e'); simpl; [|split; [try done|]..]; try (intros; split_and!; done || lia); try (intros (?&?&?); done || lia).
    subst. change (Pos.compare_cont Eq m m') with (Pos.compare m m').
    destruct (Pos.compare_spec m m'); simpl; (split; [intros; split_and!; try done; lia | intros (?&?&?); try done; lia]).
Qed.

Lemma f64_le_trans x y z : f64_le x y = true → f64_le y z = true → f64_le x z = true.
Proof. rewrite !f64_le_key. intros (? & _ & ?) (_ & ? & ?). split_and!; [done..|]. by eapply key_le_trans. Qed.

Lemma f64_le_total x y : is_nan x = false → is_nan y = false → f64_le x y = true ∨ f64_le y x = true.
Proof. intros Hx Hy. rewrite !f64_le_key. destruct (key_le_total (f64_key x) (f64_key y)); auto. Qed.

Lemma f64_eq_le x y : f64_eq x y = true → f64_le x y = true ∧ f64_le y x = true.
Proof.
  unfold f64_eq, SFeqb, f64_le, SFleb. unfold SFcompare.
  destruct x as [[]|[]| |[] m e], y as [[]|[]| |[] m' e']; try done;
    (rewrite (Z.compare_antisym e e'); destruct (e ?= e')%Z; try done; simpl;
     change (Pos.compare_cont Eq m m') with (Pos.compare m m'); change (Pos.compare_cont Eq m' m) with (Pos.compare m' m);
     rewrite (Pos.compare_antisym m m'); by destruct (m ?= m')%positive).
Qed.

Lemma f64_eq_refl x : is_nan x = false → f64_eq x x = true.
Proof.
  unfold f64_eq, SFeqb, SFcompare. destruct x as [[]|[]| |[] m e]; try done; intros _;
    rewrite Z.compare_refl; simpl; change (Pos.compare_cont Eq m m) with (Pos.compare m m); by rewrite Pos.compare_refl.
Qed.

Lemma key_le_antisym a b : key_le a b → key_le b a → a = b.
Proof. destruct a as [[a1 a2] a3], b as [[b1 b2] b3]. cbn. intros. assert (a1 = b1 ∧ a2 = b2 ∧ a3 = b3) as (-> & -> & ->) by lia. done. Qed.

(** Equality of numbers, as Go compares them. *)
Lemma f64_eq_key x y : f64_eq x y = true ↔ is_nan x = false ∧ is_nan y = false ∧ f64_key x = f64_key y.
Proof.
  split.
  - intros [H1 H2]%f64_eq_le. apply f64_le_key in H1 as (? & ? & H1). apply f64_le_key in H2 as (_ & _ & H2).
    split_and!; [done..|]. by apply key_le_antisym.
  - intros (Hx & Hy & E).
    destruct x as [[]|[]| |[] m e], y as [[]|[]| |[] m' e']; cbn in E; try done;
      injection E as Ee Em; assert (e = e' ∧ m = m') as [-> ->] by lia; by apply f64_eq_refl.
Qed.

Lemma f64_eq_sym x y : f64_eq x y = f64_eq y x.
Proof. apply eq_true_iff_eq. rewrite !f64_eq_key. intuition congruence. Qed.

Lemma f64_eq_trans x y z : f64_eq x y = true → f64_eq y z = f64_eq x z.
Proof. intros H%f64_eq_key. apply eq_true_iff_eq. rewrite !f64_eq_key. intuition congruence. Qed.

(** ** Integers of 64 bits are finite *)

Lemma digits2_log2 p : Zpos (digits2_pos p) = Z.log2 (Zpos p) + 1.
Proof.
  induction p as [p IH|p IH|]; cbn [digits2_pos]; [..|done]; rewrite Pos2Z.inj_succ, IH.
  - rewrite (Pos2Z.inj_xI p), Z.log2_succ_double by lia. lia.
  - rewrite (Pos2Z.inj_xO p), Z.log2_double by lia. lia.
Qed.

Lemma Zdigits2_le m k : 0 <= m < 2 ^ k → 0 <= k → Zdigits2 m <= k.
Proof.
  intros Hm Hk. destruct m as [|p|p]; [done| |lia]. cbn [Zdigits2]. rewrite digits2_log2.
  assert (Z.log2 (Zpos p) < k); [|lia]. apply Z.log2_lt_pow2; lia.
Qed.

Lemma shr_1_le r : 0 <= shr_m r → 0 <= shr_m (shr_1 r) <= shr_m r.
Proof. destruct r as [[|[p|p|]|p] b s]; cbn; lia. Qed.

Lemma iter_shr_le p r : 0 <= shr_m r → 0 <= shr_m (SpecFloat.iter_pos shr_1 p r) <= shr_m r.
Proof.
  revert r. induction p as [p IH|p IH|]; intros r Hr; cbn [SpecFloat.iter_pos].
  - pose proof (shr_1_le r Hr). pose proof (IH (shr_1 r) ltac:(lia)). pose proof (IH (SpecFloat.iter_pos shr_1 p (shr_1 r)) ltac:(lia)). lia.
  - pose proof (IH r Hr). pose proof (IH (SpecFloat.iter_pos shr_1 p r) ltac:(lia)). lia.
  - by apply shr_1_le.
Qed.

Lemma shr_fexp_le m e l : 0 <= m →
  0 <= shr_m (shr_fexp 53 1024 m e l).1 <= m ∧ (shr_fexp 53 1024 m e l).2 = Z.max e (fexp 53 1024 (Zdigits2 m + e)).
Proof.
  intros Hm. unfold shr_fexp. set (x := fexp 53 1024 (Zdigits2 m + e)). assert (Hr : shr_m (shr_record_of_loc m l) = m) by by destruct l as [|[]].
  destruct (x - e) eqn:Hd; cbn [shr fst snd]; [rewrite Hr; lia| |rewrite Hr; lia].
  pose proof (iter_shr_le p (shr_record_of_loc m l)) as Hle. rewrite Hr in Hle. lia.
Qed.

Lemma binary_round_aux_finite sx m e : 0 <= m < 2 ^ 64 → e <= 0 →
  match binary_round_aux 53 1024 sx m e loc_Exact with S754_infinity _ => False | _ => True end.
Proof.
  intros Hm He. unfold binary_round_aux. destruct (shr_fexp_le m e loc_Exact) as [H1 H2]; [lia|].
  destruct (shr_fexp 53 1024 m e loc_Exact) as [mrs e1]. cbn [fst snd] in *.
  pose proof (Zdigits2_le m 64 ltac:(lia) ltac:(lia)) as Hdig. assert (Hr : 0 <= round_nearest_even (shr_m mrs) (loc_of_shr_record mrs) < 2 ^ 65).
  { unfold round_nearest_even. destruct (loc_of_shr_record mrs) as [|[]]; [lia| |lia|lia]. destruct (Z.even _); lia. }
  set (m' := round_nearest_even _ _) in *. destruct (shr_fexp_le m' e1 loc_Exact) as [H3 H4]; [lia|].
  pose proof (Zdigits2_le m' 65 ltac:(lia) ltac:(lia)) as Hdig'.
  destruct (shr_fexp 53 1024 m' e1 loc_Exact) as [mrs' e2]. cbn [fst snd] in *.
  destruct (shr_m mrs'); [done| |done]. destruct (Z.leb_spec e2 (1024 - 53)); [done|]. unfold fexp, emin in *. lia.
Qed.

Lemma iter_xO p d : Zpos (Pos.iter xO p d) = Zpos p * 2 ^ Zpos d.
Proof.
  induction d as [|d IH] using Pos.peano_ind; [cbn; lia|].
  rewrite Pos.iter_succ, (Pos2Z.inj_xO (Pos.iter xO p d)), IH, Pos2Z.inj_succ, Z.pow_succ_r by lia. lia.
Qed.

Lemma f64_of_Z_finite n : - 2 ^ 63 <= n < 2 ^ 64 → match f64_of_Z n with S754_infinity _ => False | _ => True end.
Proof.
  assert (Hround : ∀ sx p, Zpos p < 2 ^ 64 → match binary_round 53 1024 sx p 0 with S754_infinity _ => False | _ => True end).
  { intros sx p Hp. unfold binary_round. rewrite digits2_log2, Z.add_0_r. unfold shl_align. rewrite Z.sub_0_r.
    pose proof (Z.log2_nonneg (Zpos p)) as Hl0. pose proof (Z.log2_spec (Zpos p) ltac:(lia)) as [_ Hl].
    destruct (fexp 53 1024 (Z.log2 (Zpos p) + 1)) as [|q|q] eqn:Hf; [apply binary_round_aux_finite; lia..|].
    apply binary_round_aux_finite; [|lia]. rewrite iter_xO. split; [lia|]. unfold fexp, emin in Hf.
    apply Z.lt_le_trans with (2 ^ Z.succ (Z.log2 (Zpos p)) * 2 ^ Zpos q); [apply Z.mul_lt_mono_pos_r; lia|].
    rewrite <- Z.pow_add_r by lia. apply Z.pow_le_mono_r; lia. }
  intros Hn. unfold f64_of_Z. destruct n as [|p|p]; cbn [binary_normalize]; [done|apply Hround; lia..].
Qed.
