(* ===== verification/Histogram.v ===== *)
(** * From BPF slots to Prometheus histograms (histogram.go)

    [SlotsToConstHistogram] turns the 26 logarithmic slots of one BPF histogram
    into the cumulative counts of the configured bucket boundaries. *)
From S2P Require Import Prelude GoFloat.

Definition MaxSlots : nat := 26.

(** [slotCeiling], filled by the package's [init]. *)
Definition slotCeiling : list float64 :=
  (λ i, f64_div (f64_of_Z (u64 (Z.shiftl 1 (Z.of_nat i)))) (f64_of_Z 1000000)) <$> seq 0 MaxSlots.

Definition ceiling (i : nat) : float64 := default S754_nan (slotCeiling !! i).

(** A [map[float64]uint64] as an association list in insertion order; keys are
    compared as Go compares them, so that every NaN is a new key. *)
Fixpoint bucket_set (b : float64) (v : Z) (m : list (float64 * Z)) : list (float64 * Z) :=
  match m with
  | [] => [(b, v)]
  | (k, w) :: m' => if f64_eq k b then (k, v) :: m' else (k, w) :: bucket_set b v m'
  end.

Fixpoint bucket_get (m : list (float64 * Z)) (b : float64) : option Z :=
  match m with
  | [] => None
  | (k, w) :: m' => if f64_eq k b then Some w else bucket_get m' b
  end.

Definition midpointUS (i : nat) : float64 :=
  match i with
  | O => f64_ratio 1 2
  | S i' => f64_mul (f64_of_Z (u64 (Z.shiftl 1 (Z.of_nat i')))) f64_sqrt2
  end.

(** The variables of the first loop. *)
Record totals := Totals { cumulative : Z; count : Z; runningTotal : list Z; sum : float64 }.

Definition add_slot (slots : list Z) (t : totals) (i : nat) : totals :=
  let s := default 0 (slots !! i) in
  let c := u64 (cumulative t + s) in
  Totals c (u64 (count t + s)) (<[i := c]> (runningTotal t))
    (f64_add (sum t) (f64_mul (f64_of_Z s) (f64_div (midpointUS i) (f64_of_Z 1000000)))).

Definition totals_of (slots : list Z) : totals :=
  foldl (add_slot slots) (Totals 0 0 (replicate MaxSlots 0) (S754_zero false)) (seq 0 MaxSlots).

(** The search of the second loop: the last slot whose ceiling is within [b], or -1. *)
Definition last_slot (b : float64) : Z :=
  foldl (λ slot i, if f64_le (ceiling i) b then Z.of_nat i else slot) (-1) (seq 0 MaxSlots).

Definition bucket_value (t : totals) (b : float64) : Z :=
  let slot := last_slot b in
  if 0 <=? slot then default 0 (runningTotal t !! Z.to_nat slot) else 0.

Definition SlotsToConstHistogram (slots : list Z) (promBuckets : list float64) : Z * float64 * list (float64 * Z) :=
  let t := totals_of slots in
  (count t, sum t, foldl (λ m b, bucket_set b (bucket_value t b) m) [] promBuckets).

(** ** The running totals *)

Lemma add_slots_prefix slots n :
  (n ≤ MaxSlots)%nat →
  let t := foldl (add_slot slots) (Totals 0 0 (replicate MaxSlots 0) (S754_zero false)) (seq 0 n) in
  cumulative t = u64 (zsum ((λ i, default 0 (slots !! i)) <$> seq 0 n)) ∧
  count t = cumulative t ∧ length (runningTotal t) = MaxSlots ∧
  ∀ i, (i < n)%nat → runningTotal t !! i = Some (u64 (zsum ((λ i, default 0 (slots !! i)) <$> seq 0 (S i)))).
Proof.
  induction n as [|n IH]; intros Hn.
  - simpl. split_and!; [done|done|by rewrite ?length_replicate|lia].
  - destruct IH as (Hc & Hct & Hl & Hr); [lia|].
    rewrite seq_S, foldl_app. cbn zeta. cbn [foldl Nat.add].
    set (t := foldl _ _ (seq 0 n)) in *.
    assert (Hsum : u64 (cumulative t + default 0 (slots !! n)) =
      u64 (zsum ((λ i, default 0 (slots !! i)) <$> (seq 0 n ++ [n])))).
    { rewrite fmap_app, zsum_app, Hc. cbn. rewrite Z.add_0_r. unfold u64. by rewrite Zplus_mod_idemp_l. }
    cbn [add_slot cumulative count runningTotal]. split_and!.
    + exact Hsum.
    + by rewrite Hct.
    + by rewrite length_insert.
    + intros i Hi. destruct (decide (i = n)) as [->|Hne].
      * rewrite list_lookup_insert_eq by lia. by rewrite Hsum, seq_S.
      * rewrite list_lookup_insert_ne by done. apply Hr. lia.
Qed.

(** ** The slot search *)

(** The last index satisfying a downward-closed predicate. *)
Lemma last_of_prefix (P : nat → bool) n :
  (∀ i, (S i < n)%nat → P (S i) = true → P i = true) →
  ∃ c, (c ≤ n)%nat ∧ foldl (λ s i, if P i then Z.of_nat i else s) (-1) (seq 0 n) = Z.of_nat c - 1 ∧
    (∀ i, (i < n)%nat → P i = true ↔ (i < c)%nat).
Proof.
  induction n as [|n IH]; intros Hdown.
  - exists 0%nat. split_and!; [lia|done|lia].
  - destruct IH as (c & Hc & Hf & HP); [intros; apply Hdown; [lia|done]|].
    rewrite seq_S, foldl_app. cbn [foldl Nat.add]. destruct (P n) eqn:Hn.
    + exists (S n). split_and!; [lia|lia|]. intros i Hi. split; [lia|intros _].
      assert (Hall : ∀ k, (k ≤ n)%nat → P (n - k)%nat = true).
      { induction k as [|k IHk]; intros Hk; [by rewrite Nat.sub_0_r|].
        apply Hdown; [lia|]. replace (S (n - S k)) with (n - k)%nat by lia. apply IHk. lia. }
      replace i with (n - (n - i))%nat by lia. apply Hall. lia.
    + exists c. split_and!; [lia|done|]. intros i Hi. destruct (decide (i = n)) as [->|Hne].
      * rewrite Hn. split; [done|lia].
      * apply HP. lia.
Qed.

Lemma ceilings_sorted i : (S i < MaxSlots)%nat → f64_le (ceiling i) (ceiling (S i)) = true.
Proof.
  intros Hi. assert (Hall : forallb (λ i, f64_le (ceiling i) (ceiling (S i))) (seq 0 25) = true) by (vm_compute; reflexivity).
  rewrite forallb_forall in Hall. apply Hall. apply in_seq. unfold MaxSlots in Hi. lia.
Qed.

(** The number of slots whose ceiling is within [b]: a prefix of the slots. *)
Lemma last_slot_spec b :
  ∃ c, (c ≤ MaxSlots)%nat ∧ last_slot b = Z.of_nat c - 1 ∧
    (∀ i, (i < MaxSlots)%nat → f64_le (ceiling i) b = true ↔ (i < c)%nat).
Proof.
  apply (last_of_prefix (λ i, f64_le (ceiling i) b)).
  intros i Hi Hle. eapply f64_le_trans; [by apply ceilings_sorted|done].
Qed.

(** What one bucket should hold: the samples of the slots within the boundary. *)
Definition slots_within (slots : list Z) (b : float64) : Z :=
  zsum ((λ i, default 0 (slots !! i)) <$> filter (λ i, f64_le (ceiling i) b = true) (seq 0 MaxSlots)).

Lemma filter_prefix (P : nat → Prop) `{∀ i, Decision (P i)} n c :
  (c ≤ n)%nat → (∀ i, (i < n)%nat → P i ↔ (i < c)%nat) → filter P (seq 0 n) = seq 0 c.
Proof.
  revert c. induction n as [|n IH]; intros c Hc HP.
  - by replace c with 0%nat by lia.
  - rewrite seq_S, filter_app. cbn [Nat.add]. destruct (decide (c = S n)) as [->|Hne].
    + rewrite (IH n), (seq_S n 0); [|lia|intros i Hi; rewrite HP; lia].
      f_equal. rewrite filter_cons_True; [done|]. apply HP; lia.
    + rewrite (IH c); [|lia|intros i Hi; apply HP; lia].
      rewrite filter_cons_False, filter_nil, app_nil_r; [done|]. rewrite HP by lia. lia.
Qed.

Lemma bucket_value_within slots b : bucket_value (totals_of slots) b = u64 (slots_within slots b).
Proof.
  destruct (add_slots_prefix slots MaxSlots ltac:(done)) as (_ & _ & _ & Hr).
  destruct (last_slot_spec b) as (c & Hc & Hl & HP). unfold bucket_value, slots_within, totals_of.
  rewrite (filter_prefix _ _ c Hc HP), Hl. cbv zeta. destruct c as [|c]; [done|].
  destruct (Z.leb_spec 0 (Z.of_nat (S c) - 1)); [|lia].
  replace (Z.to_nat (Z.of_nat (S c) - 1)) with c by lia. rewrite Hr by lia. done.
Qed.

(** ** The bucket map *)

Lemma f64_le_eq_r x b b' : f64_eq b b' = true → f64_le x b = f64_le x b'.
Proof.
  intros [H1 H2]%f64_eq_le. apply eq_true_iff_eq. split; intros H; by eapply f64_le_trans.
Qed.

Lemma bucket_value_eq t b b' : f64_eq b b' = true → bucket_value t b = bucket_value t b'.
Proof.
  intros He. assert (Hs : last_slot b = last_slot b'); [|unfold bucket_value; by rewrite Hs].
  unfold last_slot. generalize (-1). induction (seq 0 MaxSlots) as [|i l IH]; intros s; [done|].
  cbn [foldl]. rewrite (f64_le_eq_r _ _ _ He). apply IH.
Qed.

(** A map whose entries follow [v] yields [v] at every key it has. *)
Lemma bucket_get_all (v : float64 → Z) m b :
  (∀ x y, f64_eq x y = true → v x = v y) → Forall (λ e, e.2 = v e.1) m →
  Exists (λ e, f64_eq e.1 b = true) m → bucket_get m b = Some (v b).
Proof.
  intros Hv. induction 1 as [|[k w] m Hw _ IH]; intros He; [by apply Exists_nil in He|].
  simpl in *. destruct (f64_eq k b) eqn:E.
  - by rewrite Hw, (Hv _ _ E).
  - apply Exists_cons in He as [He|He]; [simpl in He; congruence|by apply IH].
Qed.

Lemma bucket_set_all (v : float64 → Z) m b :
  (∀ x y, f64_eq x y = true → v x = v y) → Forall (λ e, e.2 = v e.1) m →
  Forall (λ e, e.2 = v e.1) (bucket_set b (v b) m) ∧
  (f64_eq b b = true → Exists (λ e, f64_eq e.1 b = true) (bucket_set b (v b) m)) ∧
  ∀ k, Exists (λ e, f64_eq e.1 k = true) m → Exists (λ e, f64_eq e.1 k = true) (bucket_set b (v b) m).
Proof.
  intros Hv. induction 1 as [|[k w] m Hw Hm (IH1 & IH2 & IH3)]; cbn [bucket_set].
  - split_and!; [by repeat constructor|by constructor|]. intros k He. by apply Exists_nil in He.
  - destruct (f64_eq k b) eqn:E.
    + split_and!.
      * constructor; [|done]. simpl. symmetry. by apply Hv.
      * by constructor.
      * intros k' [He|He]%Exists_cons; [by left|by right].
    + split_and!; [by constructor|by intros; right; auto|].
      intros k' [He|He]%Exists_cons; [by left|by right; auto].
Qed.

Lemma bucket_fold_all (v : float64 → Z) bs m :
  (∀ x y, f64_eq x y = true → v x = v y) → Forall (λ e, e.2 = v e.1) m →
  let m' := foldl (λ m b, bucket_set b (v b) m) m bs in
  Forall (λ e, e.2 = v e.1) m' ∧
  (∀ k, Exists (λ e, f64_eq e.1 k = true) m → Exists (λ e, f64_eq e.1 k = true) m') ∧
  ∀ b, b ∈ bs → f64_eq b b = true → Exists (λ e, f64_eq e.1 b = true) m'.
Proof.
  intros Hv. revert m. induction bs as [|b bs IH]; intros m Hm; cbn [foldl]; cbv zeta.
  - split_and!; [done|done|]. intros b Hb. by apply elem_of_nil in Hb.
  - destruct (bucket_set_all v m b Hv Hm) as (H1 & H2 & H3).
    destruct (IH _ H1) as (G1 & G2 & G3). split_and!; [done|by auto|].
    intros b' [->|Hb]%elem_of_cons Hr; auto.
Qed.

Lemma bucket_get_set b v m k :
  bucket_get (bucket_set b v m) k = if f64_eq b k then Some v else bucket_get m k.
Proof.
  induction m as [|[k' w] m IH]; cbn [bucket_set bucket_get]; [done|]. destruct (f64_eq k' b) eqn:E; cbn [bucket_get].
  - rewrite (f64_eq_trans _ _ k E). by destruct (f64_eq k' k).
  - rewrite IH. destruct (f64_eq k' k) eqn:E'; [|done]. destruct (f64_eq b k) eqn:Eb; [|done].
    rewrite f64_eq_sym, (f64_eq_trans _ _ _ E') in Eb. congruence.
Qed.

Lemma histogram_parts slots promBuckets cnt sm m :
  SlotsToConstHistogram slots promBuckets = (cnt, sm, m) →
  cnt = u64 (zsum ((λ i, default 0 (slots !! i)) <$> seq 0 MaxSlots)) ∧
  ∀ b, b ∈ promBuckets → is_nan b = false → bucket_get m b = Some (u64 (slots_within slots b)).
Proof.
  unfold SlotsToConstHistogram. cbv zeta. rewrite !pair_eq. intros [[<- <-] <-]. split.
  - destruct (add_slots_prefix slots MaxSlots ltac:(done)) as (Hc & Hct & _). unfold totals_of. by rewrite Hct.
  - intros b Hb Hn. rewrite <- bucket_value_within.
    destruct (bucket_fold_all (bucket_value (totals_of slots)) promBuckets []) as (H1 & _ & H3).
    { intros x y He. by apply bucket_value_eq. }
    { constructor. }
    apply (bucket_get_all (bucket_value (totals_of slots))); [|done|].
    + intros x y He. by apply bucket_value_eq.
    + apply H3; [done|by apply f64_eq_refl].
Qed.

(** C15.  For any 26 slots and any list of boundaries, the histogram handed to
    Prometheus has as count the sum of the slots modulo 2^64, and for every
    boundary that is a number, the sum modulo 2^64 of exactly those slots whose
    ceiling is within the boundary, whatever the order of the boundaries and
    however often they are repeated. *)
Theorem histogram_counts slots promBuckets cnt sm m :
  SlotsToConstHistogram slots promBuckets = (cnt, sm, m) →
  cnt = u64 (zsum ((λ i, default 0 (slots !! i)) <$> seq 0 MaxSlots)) ∧
  ∀ b, b ∈ promBuckets → is_nan b = false → bucket_get m b = Some (u64 (slots_within slots b)).
Proof. apply histogram_parts. Qed.

(** The boundaries 10 ms, 100 ms and 1 s of the default configuration. *)
Definition default_boundaries : list float64 := [f64_ratio 1 100; f64_ratio 1 10; f64_of_Z 1].

Lemma boundary_10ms : f64_ratio 1 100 ∈ default_boundaries.
Proof. apply list_elem_of_here. Qed.
Lemma boundary_100ms : f64_ratio 1 10 ∈ default_boundaries.
Proof. apply list_elem_of_further, list_elem_of_here. Qed.

(** Ten samples in slot 5, twenty in slot 15 and thirty in slot 19. *)
Definition example_slots : list Z := <[19%nat := 30]> (<[15%nat := 20]> (<[5%nat := 10]> (replicate 26 0))).

Lemma histogram_counts_witness :
  let '(cnt, sm, m) := SlotsToConstHistogram example_slots default_boundaries in
  cnt = 60 ∧ bucket_get m (f64_ratio 1 10) = Some 30.
Proof.
  destruct (SlotsToConstHistogram example_slots default_boundaries) as [[cnt sm] m] eqn:E.
  destruct (histogram_counts _ _ _ _ _ E) as [-> Hb]. split; [vm_compute; reflexivity|].
  rewrite (Hb _ boundary_100ms); vm_compute; reflexivity.
Defined.

(** As long as the samples number fewer than 2^64, the buckets form a
    cumulative histogram: a larger boundary never has a smaller count, and no
    bucket exceeds the total count. *)
Theorem histogram_cumulative slots promBuckets cnt sm m b b' x x' :
  SlotsToConstHistogram slots promBuckets = (cnt, sm, m) →
  Forall is_u64 slots → zsum ((λ i, default 0 (slots !! i)) <$> seq 0 MaxSlots) < 2 ^ 64 →
  b ∈ promBuckets → b' ∈ promBuckets → f64_le b b' = true →
  bucket_get m b = Some x → bucket_get m b' = Some x' → 0 <= x <= x' ∧ x' <= cnt.
Proof.
  intros E Hs Hlt Hb Hb' Hle Hx Hx'. apply histogram_parts in E as [-> Hget].
  pose proof Hle as (Hn & Hn' & _)%f64_le_key.
  rewrite Hget in Hx by done. rewrite Hget in Hx' by done. simplify_eq.
  assert (Hf : ∀ i, 0 <= default 0 (slots !! i)).
  { intros i. destruct (slots !! i) as [s|] eqn:Ei; simpl; [|done]. rewrite Forall_lookup in Hs.
    destruct (Hs _ _ Ei). lia. }
  unfold slots_within.
  pose proof (zsum_filter_le _ (λ i, f64_le (ceiling i) b = true) (seq 0 MaxSlots) Hf) as H1.
  pose proof (zsum_filter_le _ (λ i, f64_le (ceiling i) b' = true) (seq 0 MaxSlots) Hf) as H2.
  assert (Htr : ∀ i, f64_le (ceiling i) b = true → f64_le (ceiling i) b' = true) by (intros i Hi; exact (f64_le_trans _ _ _ Hi Hle)).
  pose proof (zsum_filter_mono _ (λ i, f64_le (ceiling i) b = true) (λ i, f64_le (ceiling i) b' = true)
    (seq 0 MaxSlots) Hf Htr) as H3.
  rewrite !u64_id by (unfold is_u64; lia). lia.
Qed.

Lemma histogram_cumulative_witness :
  let '(cnt, sm, m) := SlotsToConstHistogram example_slots default_boundaries in
  ∃ x x', bucket_get m (f64_ratio 1 100) = Some x ∧ bucket_get m (f64_ratio 1 10) = Some x' ∧ 0 <= x <= x' ∧ x' <= cnt.
Proof.
  destruct (SlotsToConstHistogram example_slots default_boundaries) as [[cnt sm] m] eqn:E.
  exists 10, 30.
  assert (Hm : bucket_get m (f64_ratio 1 100) = Some 10 ∧ bucket_get m (f64_ratio 1 10) = Some 30).
  { apply (f_equal snd) in E. cbn [snd] in E. rewrite <- E. vm_compute. done. }
  destruct Hm as [H1 H2]. split; [exact H1|split; [exact H2|]].
  refine (histogram_cumulative _ _ _ _ _ _ _ _ _ E _ _ boundary_10ms boundary_100ms _ H1 H2);
    [|vm_compute; reflexivity..].
  apply (bool_decide_eq_true_1 (Forall (λ x, 0 <= x < 2 ^ 64) example_slots)). vm_compute. reflexivity.
Defined.
