(* ===== verification/EndToEnd.v ===== *)
(** * From kernel events to Prometheus buckets

    Puts the BPF programs and [SlotsToConstHistogram] together: which completed
    requests a bucket of the exported histogram counts. *)
From S2P Require Import Prelude CLayout KernelTypes CoreRead BpfMap Bits Common BpfProg BpfRecord BpfTracer BlockLatency NfsLatency NfsKprobeLatency GoFloat Histogram.

(** The slot a latency in microseconds is put in. *)
Definition class (us : Z) : nat := Z.to_nat (Z.min (Z.log2 us) 25).

Lemma class_lt us : (class us < MaxSlots)%nat.
Proof. unfold class, MaxSlots. lia. Qed.

Section Ledger.
Context {SK SV HK : Type} `{Countable SK} `{!Zeroed SV} `{Countable HK} (ts_of : SV → Z).

(** The latencies the ledger has for a histogram key. *)
Definition latencies (L : ledger SK SV HK) (hk : HK) : list Z := (filter (λ x, x.1 = hk) (samples L)).*2.

Lemma tally_class (L : ledger SK SV HK) hk i :
  tally L hk (Z.of_nat i) = zcount (λ us, bool_decide (class us = i)) (latencies L hk).
Proof.
  unfold tally, latencies. induction (samples L) as [|[hk' us] xs IH]; [done|].
  rewrite !filter_cons. cbn [fst snd].
  destruct (decide (hk' = hk)) as [->|Hne].
  - cbn [fmap list_fmap]. rewrite zcount_cons, <- IH. cbn [snd].
    unfold class. pose proof (Z.log2_nonneg us).
    case_decide; case_bool_decide; cbn [length]; try lia; exfalso; naive_solver lia.
  - rewrite decide_False by naive_solver. exact IH.
Qed.

(** Which latencies a bucket counts: those whose slot has its ceiling within
    the boundary. *)
Definition counted_within (b : float64) (us : Z) : bool := f64_le (ceiling (class us)) b.

(** Summing slots is counting the latencies of their classes. *)
Lemma slots_ledger Sok st (L : ledger SK SV HK) hk h cl :
  agrees ts_of Sok st L → bm_get (st_hists st) hk = Some h → NoDup cl →
  u64 (zsum ((λ i, default 0 (slots h !! i)) <$> cl)) =
    u64 (zcount (λ us, bool_decide (class us ∈ cl)) (latencies L hk)).
Proof.
  intros Hag Hh Hnd.
  assert (Hs : ∀ i, default 0 (slots h !! i) = u64 (zcount (λ us, bool_decide (class us = i)) (latencies L hk))).
  { intros i. rewrite <- tally_class, <- (ag_count _ _ _ _ Hag) by lia. unfold count_at, hist_slot. rewrite Hh.
    by rewrite Nat2Z.id. }
  rewrite <- zsum_classes, <- (u64_zsum (λ i, zcount (λ us, bool_decide (class us = i)) (latencies L hk))) by done.
  do 2 f_equal. apply list_fmap_ext. intros ? i _. apply Hs.
Qed.

Lemma within_ledger Sok st (L : ledger SK SV HK) hk h b :
  agrees ts_of Sok st L → bm_get (st_hists st) hk = Some h →
  u64 (slots_within (slots h) b) = u64 (zcount (counted_within b) (latencies L hk)).
Proof.
  intros Hag Hh. unfold slots_within. rewrite (slots_ledger _ _ _ _ _ _ Hag Hh) by apply NoDup_filter, NoDup_seq.
  f_equal. apply zcount_ext. intros us. unfold counted_within.
  apply bool_decide_iff_true. rewrite list_elem_of_filter, elem_of_seq. pose proof (class_lt us). naive_solver lia.
Qed.

Lemma total_ledger Sok st (L : ledger SK SV HK) hk h :
  agrees ts_of Sok st L → bm_get (st_hists st) hk = Some h →
  u64 (zsum ((λ i, default 0 (slots h !! i)) <$> seq 0 MaxSlots)) = u64 (Z.of_nat (length (latencies L hk))).
Proof.
  intros Hag Hh. rewrite (slots_ledger _ _ _ _ _ _ Hag Hh) by apply NoDup_seq. f_equal.
  apply zcount_all. intros us. apply bool_decide_eq_true_2, elem_of_seq. pose proof (class_lt us). lia.
Qed.
End Ledger.

(** ** What the exported histograms count *)

(** The exported histogram of [h] has the count of all latencies and, at every
    boundary, that of the latencies counted within it. *)
Definition exports (promBuckets : list float64) (h : hist) (us : list Z) : Prop :=
  ∀ cnt sm m, SlotsToConstHistogram (slots h) promBuckets = (cnt, sm, m) →
  cnt = u64 (Z.of_nat (length us)) ∧
  ∀ b, b ∈ promBuckets → is_nan b = false → bucket_get m b = Some (u64 (zcount (counted_within b) us)).

Lemma ledger_exports {SK SV HK : Type} `{Countable SK} `{!Zeroed SV} `{Countable HK} (ts_of : SV → Z)
    Sok (st : state SK SV HK) (L : ledger SK SV HK) hk h promBuckets :
  agrees ts_of Sok st L → bm_get (st_hists st) hk = Some h → exports promBuckets h (latencies L hk).
Proof.
  intros Hag Hh cnt sm m [-> Hb]%histogram_parts. split; [by eapply total_ledger|].
  intros b Hin Hn. rewrite Hb by done. f_equal. by eapply within_ledger.
Qed.

(** End to end for block devices: after any trace of issues and completions
    without evictions, the histogram exported for a device and operation counts
    every completed request of theirs once, modulo 2^64, and at each boundary
    those whose latency falls in a slot with a ceiling within the boundary. *)
Theorem block_metric_counts tr hk h promBuckets :
  quiet block_program block_init tr →
  bm_get (st_hists (run_trace block_program block_init tr)) hk = Some h →
  exports promBuckets h (latencies (ledger_trace (λ t, t) block_abstract (Ledger ∅ []) tr) hk).
Proof.
  intros Hq Hh. eapply ledger_exports, Hh. by apply block_agrees.
Qed.

(** End to end for NFS, by tracepoints and by probes: the same for the
    requests of a device and operation, and for the calls. *)
Theorem nfs_metric_counts `{!ProbeReadKernel} E tr tr' hk h h' promBuckets :
  quiet (nfs_attached E) nfs_init tr → quiet (kprobe_attached E) kprobe_init tr' →
  bm_get (st_hists (run_trace (nfs_attached E) nfs_init tr)) hk = Some h →
  bm_get (st_hists (run_trace (kprobe_attached E) kprobe_init tr')) hk = Some h' →
  exports promBuckets h (latencies (ledger_trace (λ t, t) (nfs_abstract E) (Ledger ∅ []) tr) hk) ∧
  exports promBuckets h' (latencies (ledger_trace ks_ts (kprobe_abstract E) (Ledger ∅ []) tr') hk).
Proof.
  intros Hq Hq' Hh Hh'. split; [eapply ledger_exports, Hh; by apply nfs_agrees|].
  eapply ledger_exports, Hh'. by apply kprobe_agrees.
Qed.

(** ** The slots and their ceilings *)

Lemma us_slot_class us s : 0 <= s < 25 → 2 ^ s <= us < 2 ^ (s + 1) → us_slot us = s ∧ class us = Z.to_nat s.
Proof.
  intros Hs Hus. assert (Hl : Z.log2 us = s) by (apply Z.log2_unique; [lia|]; by rewrite <- Z.add_1_r).
  assert (2 ^ (s + 1) <= 2 ^ 25) by (apply Z.pow_le_mono_r; lia).
  assert (0 < 2 ^ s) by (apply Z.pow_pos_nonneg; lia).
  rewrite us_slot_log by lia. unfold class. rewrite Hl. split; [lia|]. f_equal. lia.
Qed.

(** The ceiling of slot [s] is 2^s microseconds (as a float64), but the BPF
    programs put the latencies from 2^s up to 2^(s+1) microseconds there: a
    histogram with a single latency of that slot counts it in the bucket of
    boundary 2^s microseconds, which it exceeds by up to a factor of two. *)
Theorem bucket_holds_slower_samples s us :
  0 <= s < 25 → 2 ^ s <= us < 2 ^ (s + 1) →
  ceiling (Z.to_nat s) = f64_ratio (2 ^ s) 1000000 ∧
  ∀ cnt sm m, SlotsToConstHistogram (slots (hist_incr (us_slot us) zero_hist)) [ceiling (Z.to_nat s)] = (cnt, sm, m) →
  bucket_get m (ceiling (Z.to_nat s)) = Some 1.
Proof.
  intros Hs Hus. destruct (us_slot_class us s Hs Hus) as [-> _]. clear us Hus.
  assert (Hall : bool_decide (Forall (λ i,
    ceiling i = f64_ratio (2 ^ Z.of_nat i) 1000000 ∧
    bucket_get (SlotsToConstHistogram (slots (hist_incr (Z.of_nat i) zero_hist)) [ceiling i]).2 (ceiling i) = Some 1)
    (seq 0 25)) = true) by (vm_compute; reflexivity).
  apply bool_decide_eq_true_1 in Hall. rewrite Forall_forall in Hall.
  destruct (Hall (Z.to_nat s)) as [Hc Hb]; [apply elem_of_seq; lia|]. rewrite Z2Nat.id in Hc, Hb by lia.
  split; [exact Hc|]. intros cnt sm m E. apply (f_equal snd) in E. cbn [snd] in E. rewrite <- E. exact Hb.
Qed.

(** A latency of 16.383 ms counts within 8.192 ms. *)
Lemma bucket_holds_slower_samples_witness :
  ceiling 13 = f64_ratio 8192 1000000 ∧
  ∀ cnt sm m, SlotsToConstHistogram (slots (hist_incr (us_slot 16383) zero_hist)) [ceiling 13] = (cnt, sm, m) →
  bucket_get m (ceiling 13) = Some 1.
Proof. apply (bucket_holds_slower_samples 13 16383); lia. Defined.

(** One write of 16.383 ms, and what is exported of it. *)
Definition slow_write_trace : list (block_event * block_input) :=
  let rq := BlockRq 8388624 2048 [87; 83] in
  [(Issue rq, Input 1000000 1 (Choice true [] 1) (Choice true [] 2));
   (Complete rq, Input 17383000 1 (Choice true [] 4) (Choice true [] 2))].

Lemma slow_write_quiet : quiet block_program block_init slow_write_trace.
Proof.
  unfold slow_write_trace. cbn [quiet]. unfold quiet_input, start_quiet, hist_quiet.
  split_and!; try (vm_compute; reflexivity); try (cbn [in_ns]; lia).
Qed.

(** It is reported within 10 ms. *)
Lemma block_metric_counts_witness :
  exports default_boundaries (hist_incr 13 zero_hist) [16383] ∧ counted_within (f64_ratio 1 100) 16383 = true.
Proof.
  split; [|vm_compute; reflexivity].
  refine (block_metric_counts slow_write_trace (BlockHistKey 8388624 1 [0; 0; 0]) _ _ slow_write_quiet _).
  vm_compute. reflexivity.
Defined.

Lemma nfs_metric_counts_witness :
  exports default_boundaries (hist_incr 11 zero_hist) [4000] ∧ counted_within (f64_ratio 1 100) 4000 = true.
Proof.
  split; [|vm_compute; reflexivity]. refine (proj1 (nfs_metric_counts vmlinux collision_trace
    [(FileRead kprobe_mem [0x1000], kprobe_example_input 1000000 0); (Return, kprobe_example_input 2500000 2)]
    (NfsHistKey 45 0 [0; 0; 0]) _ _ default_boundaries collision_quiet _ _ _)).
  - cbn [quiet]. unfold quiet_input, start_quiet, hist_quiet.
    split_and!; try (vm_compute; reflexivity); try (cbn [in_ns kprobe_example_input]; lia).
  - vm_compute. reflexivity.
  - vm_compute. reflexivity.
Defined.
