(* ===== verification/GoStrings.v ===== *)
(** * Go strings

    What the exporter uses of the packages strings, strconv and fmt, on strings
    of bytes. *)
From Stdlib Require Export Ascii.
From S2P Require Import Prelude.

(** Bytes as numbers. *)
Definition byte_of (c : ascii) : Z := Z.of_N (N_of_ascii c).
Definition chr (n : Z) : ascii := ascii_of_N (Z.to_N n).
Definition str1 (c : ascii) : string := String c EmptyString.

Lemma byte_of_range c : 0 <= byte_of c < 256.
Proof. unfold byte_of. pose proof (N_ascii_bounded c). lia. Qed.

Lemma chr_byte_of c : chr (byte_of c) = c.
Proof. unfold chr, byte_of. by rewrite N2Z.id, ascii_N_embedding. Qed.

Lemma byte_of_chr n : 0 <= n < 256 → byte_of (chr n) = n.
Proof. intros. unfold chr, byte_of. rewrite N_ascii_embedding by lia. lia. Qed.

Lemma byte_of_inj c d : byte_of c = byte_of d → c = d.
Proof. intros H. by rewrite <- (chr_byte_of c), <- (chr_byte_of d), H. Qed.

(** ** Decimal numbers *)

Definition digit (d : Z) : ascii := ascii_of_N (Z.to_N (48 + d)).

Definition digit_val (c : ascii) : option Z :=
  let n := Z.of_N (N_of_ascii c) in
  if (48 <=? n) && (n <=? 57) then Some (n - 48) else None.

(** The verb %d on a non-negative integer. *)
Fixpoint dec_aux (fuel : nat) (n : Z) (acc : string) : string :=
  match fuel with
  | O => acc
  | S fuel' =>
      let acc := String (digit (n mod 10)) acc in
      if n <? 10 then acc else dec_aux fuel' (n / 10) acc
  end.

(** A number of [k] bits has at most [k] decimal digits. *)
Definition dec (n : Z) : string := dec_aux (S (Z.to_nat (Z.log2 n))) n EmptyString.

(** The value of a string of digits, after the digits with value [v]. *)
Fixpoint digits_val (s : string) (v : Z) : option Z :=
  match s with
  | EmptyString => Some v
  | String c s' => d ← digit_val c; digits_val s' (10 * v + d)
  end.

(** [strconv.ParseUint (s, 10, w)]. *)
Definition ParseUint (s : string) (w : Z) : option Z :=
  match s with
  | EmptyString => None
  | _ => v ← digits_val s 0; if v <? 2 ^ w then Some v else None
  end.

(** [strconv.Atoi]: an optional sign, then digits, within 64 bits. *)
Definition Atoi (s : string) : option Z :=
  match s with
  | EmptyString => None
  | String c s' =>
      let signed := (c =? "-")%char || (c =? "+")%char in
      match (if signed then s' else s) with
      | EmptyString => None
      | body =>
          v ← digits_val body 0;
          let v := if (c =? "-")%char then - v else v in
          if (- 2 ^ 63 <=? v) && (v <? 2 ^ 63) then Some v else None
      end
  end.

Lemma digit_val_digit d : 0 <= d < 10 → digit_val (digit d) = Some d.
Proof.
  intros Hd. unfold digit_val, digit. rewrite N_ascii_embedding by lia. rewrite Z2N.id by lia.
  destruct (Z.leb_spec 48 (48 + d)); [|lia]. destruct (Z.leb_spec (48 + d) 57); [|lia]. cbn. f_equal. lia.
Qed.

Lemma digits_val_dec_aux fuel n acc :
  0 <= n < 2 ^ Z.of_nat fuel → (0 < fuel)%nat → digits_val (dec_aux fuel n acc) 0 = digits_val acc n.
Proof.
  revert n acc. induction fuel as [|fuel IH]; intros n acc Hn Hf; [lia|]. cbn [dec_aux].
  pose proof (Z.mod_pos_bound n 10 ltac:(lia)) as Hm. pose proof (Z.div_mod n 10 ltac:(lia)) as Hdm.
  destruct (Z.ltb_spec n 10).
  - cbn [digits_val]. rewrite digit_val_digit, bind_Some_l by done. f_equal.
    rewrite Z.mod_small by lia. lia.
  - rewrite Nat2Z.inj_succ, Z.pow_succ_r in Hn by lia. rewrite IH.
    + cbn [digits_val]. rewrite digit_val_digit, bind_Some_l by done. f_equal. lia.
    + split; [apply Z.div_pos; lia|]. apply Z.div_lt_upper_bound; lia.
    + destruct fuel; [|lia]. simpl in Hn. lia.
Qed.

Lemma digits_val_dec n : 0 <= n → digits_val (dec n) 0 = Some n.
Proof.
  intros Hn. unfold dec. rewrite digits_val_dec_aux; [done| |lia]. split; [lia|].
  rewrite Nat2Z.inj_succ, Z2Nat.id by apply Z.log2_nonneg.
  destruct (decide (n = 0)) as [->|Hz]; [done|]. apply Z.log2_spec. lia.
Qed.

Lemma dec_aux_nonempty fuel n acc : acc ≠ EmptyString → dec_aux fuel n acc ≠ EmptyString.
Proof.
  revert n acc. induction fuel as [|fuel IH]; intros n acc Hacc; cbn [dec_aux]; [done|].
  destruct (n <? 10); [done|]. by apply IH.
Qed.

Lemma dec_nonempty n : ∃ c s, dec n = String c s.
Proof.
  unfold dec. cbn [dec_aux]. destruct (n <? 10); [by eexists _, _|].
  destruct (dec_aux _ _ _) as [|c s] eqn:E; [|by eexists _, _].
  by apply dec_aux_nonempty in E.
Qed.

(** All bytes of a string. *)
Fixpoint all_bytes (P : ascii → bool) (s : string) : bool :=
  match s with
  | EmptyString => true
  | String c s' => P c && all_bytes P s'
  end.

Definition is_digit (c : ascii) : bool := match digit_val c with Some _ => true | None => false end.

Lemma dec_aux_digits fuel n acc : 0 <= n → all_bytes is_digit acc = true → all_bytes is_digit (dec_aux fuel n acc) = true.
Proof.
  revert n acc. induction fuel as [|fuel IH]; intros n acc Hn Hacc; cbn [dec_aux]; [done|].
  pose proof (Z.mod_pos_bound n 10 ltac:(lia)).
  assert (Hd : all_bytes is_digit (String (digit (n mod 10)) acc) = true).
  { cbn [all_bytes]. unfold is_digit at 1. by rewrite digit_val_digit. }
  destruct (n <? 10); [done|]. apply IH; [apply Z.div_pos; lia|done].
Qed.

Lemma dec_digits n : 0 <= n → all_bytes is_digit (dec n) = true.
Proof. intros. by apply dec_aux_digits. Qed.

(** Printing and parsing agree. *)
Lemma ParseUint_dec n w : 0 <= n < 2 ^ w → ParseUint (dec n) w = Some n.
Proof.
  intros Hn. destruct (dec_nonempty n) as (c & s & E). unfold ParseUint. rewrite E, <- E.
  rewrite digits_val_dec, bind_Some_l by lia. by destruct (Z.ltb_spec n (2 ^ w)); [|lia].
Qed.

Lemma digit_val_sign c v : digit_val c = Some v → (c =? "-")%char = false ∧ (c =? "+")%char = false.
Proof.
  intros H. split; apply Ascii.eqb_neq; intros ->; done.
Qed.

Lemma Atoi_dec n : 0 <= n < 2 ^ 63 → Atoi (dec n) = Some n.
Proof.
  intros Hn. destruct (dec_nonempty n) as (c & s & E). pose proof (dec_digits n ltac:(lia)) as Hd.
  rewrite E in Hd. cbn [all_bytes] in Hd. unfold is_digit at 1 in Hd. destruct (digit_val c) as [v|] eqn:Hc; [|done].
  destruct (digit_val_sign _ _ Hc) as [H1 H2]. unfold Atoi. rewrite E, H1, H2. cbn [orb]. rewrite <- E.
  rewrite digits_val_dec, bind_Some_l by lia. cbv zeta.
  destruct (Z.leb_spec (- 2 ^ 63) n); [|lia]. by destruct (Z.ltb_spec n (2 ^ 63)); [|lia].
Qed.

Lemma append_nil_l t : EmptyString +:+ t = t.
Proof. reflexivity. Qed.
Lemma append_cons c s t : String c s +:+ t = String c (s +:+ t).
Proof. reflexivity. Qed.
Lemma append_nil s : s +:+ EmptyString = s.
Proof. induction s as [|x s IH]; [done|]. by rewrite append_cons, IH. Qed.
Lemma append_assoc a b c : (a +:+ b) +:+ c = a +:+ (b +:+ c).
Proof. induction a as [|x a IH]; [done|]. by rewrite !append_cons, IH. Qed.
Lemma append_snoc s c t : (s +:+ String c EmptyString) +:+ t = s +:+ String c t.
Proof. induction s as [|x s IH]; [done|]. by rewrite !append_cons, IH. Qed.

Lemma length_append s t : String.length (s +:+ t) = (String.length s + String.length t)%nat.
Proof. induction s as [|x s IH]; [done|]. rewrite append_cons. cbn. by rewrite IH. Qed.

(** ** Hexadecimal numbers and prefixes *)

Definition hex_val (c : ascii) : option Z :=
  let n := Z.of_N (N_of_ascii c) in
  if (48 <=? n) && (n <=? 57) then Some (n - 48)
  else if (97 <=? n) && (n <=? 102) then Some (n - 87)
  else if (65 <=? n) && (n <=? 70) then Some (n - 55) else None.

Fixpoint hex_digits (s : string) (v : Z) : option Z :=
  match s with
  | EmptyString => Some v
  | String c s' => d ← hex_val c; hex_digits s' (16 * v + d)
  end.

(** [strconv.ParseInt (s, 16, 32)]: an optional sign, then digits, in 32 bits. *)
Definition ParseInt16 (s : string) : option Z :=
  match s with
  | EmptyString => None
  | String c s' =>
      let signed := (c =? "-")%char || (c =? "+")%char in
      match (if signed then s' else s) with
      | EmptyString => None
      | body =>
          v ← hex_digits body 0;
          let v := if (c =? "-")%char then - v else v in
          if (- 2 ^ 31 <=? v) && (v <? 2 ^ 31) then Some v else None
      end
  end.

(** [strings.TrimPrefix]. *)
Fixpoint strip (pre s : string) : option string :=
  match pre, s with
  | EmptyString, _ => Some s
  | String a pre', String b s' => if (a =? b)%char then strip pre' s' else None
  | String _ _, EmptyString => None
  end.

Definition TrimPrefix (s pre : string) : string := default s (strip pre s).

Lemma strip_Some pre s r : strip pre s = Some r ↔ s = pre +:+ r.
Proof.
  revert s. induction pre as [|a pre IH]; intros s; cbn [strip].
  - rewrite append_nil_l. naive_solver.
  - destruct s as [|b s]; [rewrite append_cons; done|]. rewrite append_cons.
    destruct (a =? b)%char eqn:Hab.
    + apply Ascii.eqb_eq in Hab as ->. rewrite IH. naive_solver.
    + apply Ascii.eqb_neq in Hab. naive_solver.
Qed.

(** ** Cutting at a separator byte *)

(** The text before and after the first [sep]. *)
Fixpoint cut (sep : ascii) (s : string) : option (string * string) :=
  match s with
  | EmptyString => None
  | String c s' =>
      if (c =? sep)%char then Some (EmptyString, s')
      else '(a, b) ← cut sep s'; Some (String c a, b)
  end.

(** [strings.SplitN (s, sep, 2)] for a one-byte separator. *)
Definition SplitN2 (sep : ascii) (s : string) : list string :=
  match cut sep s with Some (a, b) => [a; b] | None => [s] end.

Lemma cut_app sep a b :
  all_bytes (λ c, negb (c =? sep)%char) a = true → cut sep (a +:+ String sep b) = Some (a, b).
Proof.
  induction a as [|c a IH]; intros H.
  - rewrite append_nil_l. cbn [cut]. by rewrite Ascii.eqb_refl.
  - rewrite append_cons. cbn [cut all_bytes] in *. apply andb_true_iff in H as [Hc Ha]. apply negb_true_iff in Hc. rewrite Hc, IH, bind_Some_l by done. done.
Qed.

Lemma cut_inv sep s a b :
  cut sep s = Some (a, b) → s = a +:+ String sep b ∧ all_bytes (λ c, negb (c =? sep)%char) a = true.
Proof.
  revert a b. induction s as [|c s IH]; intros a b H; cbn [cut] in H; [done|].
  destruct (c =? sep)%char eqn:Hc.
  - simplify_eq. apply Ascii.eqb_eq in Hc. by subst.
  - inv_bind H. destruct x as [a' b']. simplify_eq. destruct (IH _ _ E) as [-> Ha].
    split; [done|]. cbn [all_bytes]. by rewrite Hc, Ha.
Qed.

Lemma all_bytes_impl (P Q : ascii → bool) s :
  (∀ c, P c = true → Q c = true) → all_bytes P s = true → all_bytes Q s = true.
Proof.
  intros HPQ. induction s as [|c s IH]; [done|]. cbn [all_bytes]. rewrite !andb_true_iff. naive_solver.
Qed.

Lemma digits_no_colon s : all_bytes is_digit s = true → all_bytes (λ c, negb (c =? ":")%char) s = true.
Proof. apply all_bytes_impl. intros c Hc. apply negb_true_iff, Ascii.eqb_neq. by intros ->. Qed.

(** [strings.Split (s, sep)] for a one-byte separator. *)
Fixpoint Split (sep : ascii) (s : string) : list string :=
  match s with
  | EmptyString => [EmptyString]
  | String c s' =>
      match Split sep s' with
      | [] => []
      | x :: xs => if (c =? sep)%char then EmptyString :: x :: xs else String c x :: xs
      end
  end.

(** ** White space *)

(** The width in bytes of the white-space character at the start of [s], 0 if
    there is none: ASCII white space, and the UTF-8 encodings of U+0085, U+00A0,
    U+1680, U+2000-200A, U+2028, U+2029, U+202F, U+205F and U+3000.  None of
    their first bytes occurs inside the encoding of another character, so that
    scanning bytes finds what decoding characters would find. *)
Definition space_width (s : string) : nat :=
  let b := λ c, Z.of_N (N_of_ascii c) in
  match s with
  | EmptyString => 0%nat
  | String c s' =>
      if ((9 <=? b c) && (b c <=? 13)) || (b c =? 32) then 1%nat
      else match s' with
      | EmptyString => 0%nat
      | String d s'' =>
          if (b c =? 0xC2) && ((b d =? 0x85) || (b d =? 0xA0)) then 2%nat
          else match s'' with
          | EmptyString => 0%nat
          | String e _ =>
              if ((b c =? 0xE1) && (b d =? 0x9A) && (b e =? 0x80))
                 || ((b c =? 0xE2) && (b d =? 0x80) &&
                     (((0x80 <=? b e) && (b e <=? 0x8A)) || (b e =? 0xA8) || (b e =? 0xA9) || (b e =? 0xAF)))
                 || ((b c =? 0xE2) && (b d =? 0x81) && (b e =? 0x9F))
                 || ((b c =? 0xE3) && (b d =? 0x80) && (b e =? 0x80))
              then 3%nat else 0%nat
          end
      end
  end.

(** [strings.Fields]: [cur] is the field being read, [skip] the bytes left of a
    white-space character. *)
Definition flush (cur : string) (fs : list string) : list string :=
  match cur with EmptyString => fs | _ => cur :: fs end.

Fixpoint fields_aux (skip : nat) (s cur : string) : list string :=
  match s with
  | EmptyString => flush cur []
  | String c s' =>
      match skip with
      | S k => fields_aux k s' cur
      | O =>
          match space_width s with
          | O => fields_aux 0 s' (cur +:+ String c EmptyString)
          | S k => flush cur (fields_aux k s' EmptyString)
          end
      end
  end.

Definition Fields (s : string) : list string := fields_aux 0 s EmptyString.

(** [strings.TrimSpace]: white space is cut at both ends. *)
Fixpoint all_space (skip : nat) (s : string) : bool :=
  match s with
  | EmptyString => true
  | String c s' =>
      match skip with
      | S k => all_space k s'
      | O => match space_width s with O => false | S k => all_space k s' end
      end
  end.

Fixpoint trim_left (skip : nat) (s : string) : string :=
  match s with
  | EmptyString => EmptyString
  | String c s' =>
      match skip with
      | S k => trim_left k s'
      | O => match space_width s with O => s | S k => trim_left k s' end
      end
  end.

Fixpoint trim_right (s : string) : string :=
  match s with
  | EmptyString => EmptyString
  | String c s' => if all_space 0 s then EmptyString else String c (trim_right s')
  end.

Definition TrimSpace (s : string) : string := trim_right (trim_left 0 s).

(** A byte that starts no white space, whatever follows. *)
Definition plain (c : ascii) : bool :=
  let b := Z.of_N (N_of_ascii c) in
  negb (((9 <=? b) && (b <=? 13)) || (b =? 32) || (b =? 0xC2) || (b =? 0xE1) || (b =? 0xE2) || (b =? 0xE3)).

Lemma space_width_plain c s : plain c = true → space_width (String c s) = 0%nat.
Proof.
  unfold plain, space_width. intros H. apply negb_true_iff in H. rewrite !orb_false_iff in H.
  destruct H as (((((-> & ->) & ->) & ->) & ->) & ->). cbn [orb andb].
  destruct s as [|d s]; [done|]. by destruct s.
Qed.

Lemma fields_aux_plain f rest cur :
  all_bytes plain f = true → fields_aux 0 (f +:+ rest) cur = fields_aux 0 rest (cur +:+ f).
Proof.
  revert cur. induction f as [|c f IH]; intros cur Hf.
  - by rewrite append_nil.
  - cbn [all_bytes] in Hf. apply andb_true_iff in Hf as [Hc Hf]. rewrite append_cons. cbn [fields_aux].
    rewrite space_width_plain by done. rewrite IH by done. by rewrite append_snoc.
Qed.

(** Fields joined by single blanks. *)
Fixpoint join_blank (fs : list string) : string :=
  match fs with
  | [] => EmptyString
  | [f] => f
  | f :: fs' => f +:+ String " " (join_blank fs')
  end.

Definition is_field (f : string) : Prop := f ≠ EmptyString ∧ all_bytes plain f = true.

Lemma Fields_join fs : Forall is_field fs → Fields (join_blank fs) = fs.
Proof.
  unfold Fields. induction 1 as [|f fs [Hne Hf] Hfs IH]; [done|].
  assert (Hfl : ∀ r, flush f r = f :: r) by (intros; by destruct f).
  destruct fs as [|g fs].
  - cbn [join_blank]. rewrite <- (append_nil f) at 1. rewrite fields_aux_plain by done. cbn. by rewrite Hfl.
  - change (join_blank (f :: g :: fs)) with (f +:+ String " " (join_blank (g :: fs))).
    rewrite fields_aux_plain by done. rewrite append_nil_l. cbn [fields_aux]. change (space_width (String " " (join_blank (g :: fs)))) with 1%nat.
    cbv iota. rewrite IH. by rewrite Hfl.
Qed.

(** ** Trimming *)

(** The first [k] bytes of a string are beyond ASCII. *)
Fixpoint high (k : nat) (s : string) : bool :=
  match k, s with
  | O, _ => true
  | S k', String c s' => (0x80 <=? byte_of c) && high k' s'
  | S _, EmptyString => false
  end.

Lemma space_width_high c s k : space_width (String c s) = S k → high k s = true.
Proof.
  unfold space_width. fold (byte_of c). destruct (_ || _); [by intros [= <-]|].
  destruct s as [|d s]; [done|]. fold (byte_of d). destruct (_ && _) eqn:E2.
  { intros [= <-]. cbn [high]. apply andb_true_iff in E2 as [_ E2]. rewrite orb_true_iff, !Z.eqb_eq in E2.
    rewrite andb_true_r, Z.leb_le. lia. }
  destruct s as [|e s]; [done|]. fold (byte_of e).
  match goal with |- (if ?b then _ else _) = _ → _ => destruct b eqn:E3; [|done] end. intros [= <-]. cbn [high].
  rewrite andb_true_r, andb_true_iff, !Z.leb_le. rewrite !orb_true_iff, !andb_true_iff, !orb_true_iff, !andb_true_iff, !Z.eqb_eq, !Z.leb_le in E3.
  lia.
Qed.

(** A printable ASCII byte. *)
Definition visible (c : ascii) : bool := plain c && (byte_of c <? 0x80).

Lemma all_space_visible k s c t : visible c = true → high k (s +:+ String c t) = true → all_space k (s +:+ String c t) = false.
Proof.
  unfold visible. intros [Hp Hc%Z.ltb_lt]%andb_true_iff. revert k. induction s as [|a s IH]; intros k Hk.
  - rewrite append_nil_l in *. destruct k as [|k]; cbn [all_space].
    + by rewrite space_width_plain.
    + cbn [high] in Hk. apply andb_true_iff in Hk as [Hk%Z.leb_le _]. lia.
  - rewrite append_cons in *. destruct k as [|k]; cbn [all_space].
    + destruct (space_width _) as [|k] eqn:Hw; [done|]. apply IH. by eapply space_width_high.
    + cbn [high] in Hk. apply andb_true_iff in Hk as [_ Hk]. by apply IH.
Qed.

Lemma trim_right_visible s c w : visible c = true → all_space 0 w = true → trim_right (s +:+ String c w) = s +:+ str1 c.
Proof.
  intros Hc Hw. induction s as [|a s IH].
  - rewrite append_nil_l. cbn [trim_right]. rewrite <- (append_nil_l (String c w)), all_space_visible by done. rewrite append_nil_l.
    unfold str1. f_equal. destruct w as [|d w]; [done|]. cbn [trim_right]. by rewrite Hw.
  - rewrite !append_cons. cbn [trim_right]. rewrite <- append_cons, all_space_visible by done. by rewrite IH.
Qed.

Lemma trim_left_visible c s : visible c = true → trim_left 0 (String c s) = String c s.
Proof. unfold visible. intros [Hp _]%andb_true_iff. cbn [trim_left]. by rewrite space_width_plain. Qed.

(** Text between visible bytes, and white space behind it. *)
Lemma TrimSpace_visible c x s d w :
  visible c = true → visible d = true → all_space 0 w = true →
  String c x = s +:+ String d w → TrimSpace (String c x) = s +:+ str1 d.
Proof. intros Hc Hd Hw E. unfold TrimSpace. rewrite trim_left_visible by done. rewrite E. by apply trim_right_visible. Qed.

Lemma string_snoc s : s ≠ EmptyString → ∃ y d, s = y +:+ str1 d.
Proof.
  induction s as [|c s IH]; [done|]. intros _. destruct s as [|d s]; [by exists EmptyString, c|].
  destruct IH as (y & e & E); [done|]. exists (String c y), e. by rewrite E, append_cons.
Qed.

Lemma all_bytes_app P s t : all_bytes P (s +:+ t) = all_bytes P s && all_bytes P t.
Proof. induction s as [|c s IH]; [done|]. rewrite append_cons. cbn [all_bytes]. by rewrite IH, andb_assoc. Qed.

Lemma TrimSpace_all_visible s : all_bytes visible s = true → TrimSpace s = s.
Proof.
  destruct s as [|c s]; [done|]. intros H. destruct (string_snoc (String c s)) as (y & d & E); [done|].
  assert (Hd : visible d = true).
  { rewrite E, all_bytes_app in H. cbn [all_bytes str1] in H. rewrite !andb_true_iff in H. naive_solver. }
  cbn [all_bytes] in H. apply andb_true_iff in H as [Hc _]. rewrite E at 2. by apply (TrimSpace_visible c s y d EmptyString).
Qed.

Lemma digit_visible c : is_digit c = true → visible c = true.
Proof.
  unfold is_digit, digit_val, visible, plain. fold (byte_of c). destruct (_ && _) eqn:E; [|done]. intros _.
  apply andb_true_iff in E as [H1%Z.leb_le H2%Z.leb_le]. apply andb_true_iff. split; [|apply Z.ltb_lt; lia].
  apply negb_true_iff. rewrite !orb_false_iff, andb_false_iff, !Z.eqb_neq, !Z.leb_gt. lia.
Qed.

Lemma TrimSpace_dec n : 0 <= n → TrimSpace (dec n) = dec n.
Proof. intros Hn. apply TrimSpace_all_visible. eapply all_bytes_impl; [exact digit_visible|by apply dec_digits]. Qed.
