(* ===== verification/Device.v ===== *)
(** * Device numbers (resolver.go)

    The resolver and the BPF programs meet in device numbers: the programs read
    the kernel's [dev_t], the resolver computes one from the mount table or from
    a stat of the device file. *)
From S2P Require Import Prelude GoStrings.

Definition MkDev (major minor : Z) : Z := Z.lor (u32 (Z.shiftl major 20)) minor.

Definition DevToString (dev : Z) : string :=
  let major := Z.shiftr dev 20 in
  let minor := Z.land dev (2 ^ 20 - 1) in
  dec major +:+ String ":" (dec minor).

Definition S_IFBLK : Z := 0x6000.

(** [statBlockDevice], given what the stat system call yields for the path: the
    mode and rdev of the file, or an error. *)
Definition statBlockDevice (stat : option (Z * Z)) : option Z :=
  match stat with
  | None => None
  | Some (mode, rdev) =>
      if Z.land mode S_IFBLK =? 0 then None
      else
        let major := u32 (Z.land (Z.shiftr rdev 8) 0xfff) in
        let minor := u32 (Z.lor (Z.land rdev 0xff) (Z.land (Z.shiftr rdev 12) 0xfff00)) in
        Some (MkDev major minor)
  end.

(** A major and minor number as the kernel has them: 12 and 20 bits. *)
Definition dev_ok (major minor : Z) : Prop := 0 <= major < 2 ^ 12 ∧ 0 <= minor < 2 ^ 20.

Lemma MkDev_add major minor : dev_ok major minor → MkDev major minor = major * 2 ^ 20 + minor.
Proof.
  intros [HM Hm]. unfold MkDev. rewrite u32_id; [by apply lor_shiftl_add; lia|].
  rewrite Z.shiftl_mul_pow2 by lia. unfold is_u32. lia.
Qed.

Lemma MkDev_parts major minor : dev_ok major minor →
  Z.shiftr (MkDev major minor) 20 = major ∧ Z.land (MkDev major minor) (2 ^ 20 - 1) = minor.
Proof.
  intros Hok. rewrite MkDev_add by done. destruct Hok as [HM Hm].
  rewrite Z.shiftr_div_pow2, land_mask by lia. split.
  - rewrite Z.div_add_l by lia. rewrite Z.div_small by lia. lia.
  - rewrite Z.add_comm, Z.mod_add, Z.mod_small by lia. done.
Qed.

(** A device number determines and prints its major and minor number: for
    12-bit majors and 20-bit minors [MkDev] is the kernel's 32-bit [dev_t], two
    devices never share one, and [DevToString] writes "major:minor", which
    splits at the colon and parses back to the two numbers. *)
Theorem dev_roundtrip major minor major' minor' :
  dev_ok major minor → dev_ok major' minor' →
  MkDev major minor = major * 2 ^ 20 + minor ∧ is_u32 (MkDev major minor) ∧
  (MkDev major minor = MkDev major' minor' → major = major' ∧ minor = minor') ∧
  SplitN2 ":" (DevToString (MkDev major minor)) = [dec major; dec minor] ∧
  ParseUint (dec major) 32 = Some major ∧ ParseUint (dec minor) 32 = Some minor.
Proof.
  intros Hok Hok'. destruct (MkDev_parts major minor Hok) as [H1 H2]. destruct (MkDev_parts major' minor' Hok') as [H1' H2'].
  pose proof (MkDev_add _ _ Hok) as Ha. pose proof Hok as [HM Hm]. split_and!.
  - exact Ha.
  - unfold is_u32. lia.
  - intros E. rewrite E in H1, H2. split; congruence.
  - unfold DevToString, SplitN2. cbv zeta. rewrite H1, H2, cut_app; [done|]. apply digits_no_colon, dec_digits. lia.
  - apply ParseUint_dec. lia.
  - apply ParseUint_dec. lia.
Qed.

Lemma dev_roundtrip_witness :
  SplitN2 ":" (DevToString (MkDev 8 16)) = [dec 8; dec 16].
Proof. apply (dev_roundtrip 8 16 8 17); unfold dev_ok; lia. Defined.

Lemma dec_inj n m : 0 <= n → 0 <= m → dec n = dec m → n = m.
Proof. intros Hn Hm E. pose proof (digits_val_dec n Hn) as H1. rewrite E, digits_val_dec in H1 by done. congruence. Qed.

(** Device names identify devices. *)
Lemma DevToString_inj d d' : is_u32 d → is_u32 d' → DevToString d = DevToString d' → d = d'.
Proof.
  intros [Hd _] [Hd' _] E. unfold DevToString in E. cbv zeta in E.
  assert (Hs : ∀ x, 0 <= x → 0 <= Z.shiftr x 20 ∧ 0 <= Z.land x (2 ^ 20 - 1)).
  { intros x Hx. rewrite Z.shiftr_nonneg, Z.land_nonneg. auto. }
  destruct (Hs d Hd), (Hs d' Hd').
  apply (f_equal (cut ":")) in E. rewrite !cut_app in E by (by apply digits_no_colon, dec_digits).
  injection E as E1%dec_inj E2%dec_inj; [|done..]. rewrite Z.shiftr_div_pow2, Z.shiftr_div_pow2 in E1 by lia.
  rewrite !land_mask in E2 by lia. rewrite (Z.div_mod d (2 ^ 20)), (Z.div_mod d' (2 ^ 20)) by lia. congruence.
Qed.

(** The rdev a stat of a device file reports, as the comment in the source
    describes it: the low 8 bits of the minor, 12 bits of the major, and the
    high 12 bits of the minor. *)
Definition stat_rdev (major minor : Z) : Z :=
  minor mod 2 ^ 8 + major * 2 ^ 8 + minor / 2 ^ 8 * 2 ^ 20.

Lemma mode_is_block perm : 0 <= perm < 2 ^ 12 → Z.land (S_IFBLK + perm) S_IFBLK = S_IFBLK.
Proof.
  intros Hp. pose proof (land_shiftl_low 6 perm 12 ltac:(lia) Hp) as H0. change (Z.shiftl 6 12) with 0x6000 in H0.
  unfold S_IFBLK. replace (0x6000 + perm) with (Z.lor (Z.shiftl 6 12) perm) by (rewrite lor_shiftl_add; lia).
  change (Z.shiftl 6 12) with 0x6000. by rewrite Z.land_lor_distr_l, (Z.land_comm perm), H0.
Qed.

(** The major number, and the low and high part of the minor number, of an rdev. *)
Lemma rdev_major lo major hi : 0 <= lo < 2 ^ 8 → 0 <= major < 2 ^ 12 →
  Z.land (Z.shiftr (lo + major * 2 ^ 8 + hi * 2 ^ 20) 8) 0xfff = major.
Proof.
  intros Hlo HM. change 0xfff with (2 ^ 12 - 1). rewrite land_mask, Z.shiftr_div_pow2 by lia.
  replace (lo + major * 2 ^ 8 + hi * 2 ^ 20) with ((major + hi * 2 ^ 12) * 2 ^ 8 + lo) by lia.
  rewrite Z.div_add_l, (Z.div_small lo), Z.add_0_r by lia. by rewrite Z.mod_add, Z.mod_small by lia.
Qed.

Lemma rdev_minor_low lo major hi : 0 <= lo < 2 ^ 8 → Z.land (lo + major * 2 ^ 8 + hi * 2 ^ 20) 0xff = lo.
Proof.
  intros Hlo. change 0xff with (2 ^ 8 - 1). rewrite land_mask by lia.
  replace (lo + major * 2 ^ 8 + hi * 2 ^ 20) with (lo + (major + hi * 2 ^ 12) * 2 ^ 8) by lia.
  by rewrite Z.mod_add, Z.mod_small by lia.
Qed.

Lemma rdev_minor_high lo major hi : 0 <= lo < 2 ^ 8 → 0 <= major < 2 ^ 12 → 0 <= hi < 2 ^ 12 →
  Z.land (Z.shiftr (lo + major * 2 ^ 8 + hi * 2 ^ 20) 12) 0xfff00 = Z.shiftl hi 8.
Proof.
  intros Hlo HM Hhi. pose proof (Z.div_mod major (2 ^ 4) ltac:(lia)). pose proof (Z.mod_pos_bound major (2 ^ 4) ltac:(lia)).
  replace (lo + major * 2 ^ 8 + hi * 2 ^ 20) with ((hi * 2 ^ 8 + major / 2 ^ 4) * 2 ^ 12 + (major mod 2 ^ 4 * 2 ^ 8 + lo)) by lia.
  rewrite Z.shiftr_div_pow2, Z.div_add_l, (Z.div_small (major mod 2 ^ 4 * 2 ^ 8 + lo)), Z.add_0_r by lia.
  assert (0 <= major / 2 ^ 4 < 2 ^ 8) by (split; [apply Z.div_pos; lia|apply Z.div_lt_upper_bound; lia]).
  change 0xfff00 with (Z.shiftl (2 ^ 12 - 1) 8). rewrite <- lor_shiftl_add, Z.land_lor_distr_l, <- Z.shiftl_land by lia.
  rewrite land_mask, Z.mod_small by lia. by rewrite (Z.land_comm (major / 2 ^ 4)), land_shiftl_low, Z.lor_0_r by lia.
Qed.

(** For every device, a stat of its block device file yields the same key
    as its mount-table entry and as the kernel's [dev_t]: 12-bit major and
    20-bit minor are recovered from rdev, whatever the permission bits. *)
Theorem stat_block_device major minor perm :
  dev_ok major minor → 0 <= perm < 2 ^ 12 →
  statBlockDevice (Some (S_IFBLK + perm, stat_rdev major minor)) = Some (MkDev major minor).
Proof.
  intros [HM Hm] Hp. unfold statBlockDevice. rewrite mode_is_block by done. cbn [Z.eqb S_IFBLK]. f_equal.
  pose proof (Z.div_mod minor (2 ^ 8) ltac:(lia)). pose proof (Z.mod_pos_bound minor (2 ^ 8) ltac:(lia)).
  assert (0 <= minor / 2 ^ 8 < 2 ^ 12) by (split; [apply Z.div_pos; lia|apply Z.div_lt_upper_bound; lia]).
  unfold stat_rdev. rewrite rdev_major, rdev_minor_low, rdev_minor_high by lia.
  rewrite Z.lor_comm, lor_shiftl_add by lia. rewrite !u32_id by (unfold is_u32; lia). f_equal. lia.
Qed.

Lemma stat_block_device_witness : statBlockDevice (Some (S_IFBLK + 432, stat_rdev 253 300)) = Some (MkDev 253 300).
Proof. apply stat_block_device; unfold dev_ok; lia. Defined.

(** The test of the file type compares bits instead of the type field: it
    rejects regular files and pipes but accepts directories, character devices,
    links and sockets as block devices, whatever their permission bits. *)
Theorem stat_accepts_other_types rdev :
  statBlockDevice (Some (0x81a4, rdev)) = None ∧ statBlockDevice (Some (0x11a4, rdev)) = None ∧
  Forall (λ mode, is_Some (statBlockDevice (Some (mode, rdev)))) [0x41ed; 0x21b6; 0xa1ff; 0xc1ed].
Proof. split_and!; [done..|]. repeat constructor; by eexists. Qed.
