(* ===== verification/ProcMounts.v ===== *)
(** * The mount table (procmounts.go)

    Parsing /proc/1/mountinfo, one mount per line. *)
From S2P Require Import Prelude GoStrings Device.

Record MountEntry := Mount {
  MountID : Z; ParentID : Z; Major : Z; Minor : Z;
  Root : string; MountPoint : string; FSType : string; Source : string;
}.

(** The index of the first "-" at or after [i]. *)
Fixpoint find_sep (i : nat) (fields : list string) : option nat :=
  match fields with
  | [] => None
  | f :: fields' => if bool_decide (f = "-") then Some i else find_sep (S i) fields'
  end.

(** [parseMountInfoLine]; every error is [None], as its caller ignores which. *)
Definition parseMountInfoLine (line : string) : option MountEntry :=
  let fields := Fields line in
  if (length fields <? 7)%nat then None else
  mountID ← fields !! 0%nat ≫= Atoi;
  parentID ← fields !! 1%nat ≫= Atoi;
  field2 ← fields !! 2%nat;
  match SplitN2 ":" field2 with
  | [majorS; minorS] =>
      major ← ParseUint majorS 32;
      minor ← ParseUint minorS 32;
      sepIdx ← find_sep 6 (drop 6 fields);
      if (length fields <=? sepIdx + 2)%nat then None else
      root ← fields !! 3%nat;
      mountPoint ← fields !! 4%nat;
      fsType ← fields !! (sepIdx + 1)%nat;
      source ← fields !! (sepIdx + 2)%nat;
      Some (Mount mountID parentID (u32 major) (u32 minor) root mountPoint fsType source)
  | _ => None
  end.

(** ** Reading lines *)

(** [bufio.Scanner] with [ScanLines]: [cur] is the line being read and [n] its
    length.  A line of 65536 bytes or more ends the scan with an error; a
    trailing carriage return is dropped.  The result lists the lines and tells
    whether the scan ended without that error. *)
Definition MaxScanTokenSize : Z := 65536.

Fixpoint drop_cr (s : string) : string :=
  match s with
  | EmptyString => EmptyString
  | String c EmptyString => if (c =? "013")%char then EmptyString else s
  | String c s' => String c (drop_cr s')
  end.

Fixpoint scan_lines (s cur : string) (n : Z) : list string * bool :=
  match s with
  | EmptyString => (match cur with EmptyString => [] | _ => [drop_cr cur] end, true)
  | String c s' =>
      if (c =? "010")%char then
        let '(ls, ok) := scan_lines s' EmptyString 0 in (drop_cr cur :: ls, ok)
      else if MaxScanTokenSize <=? n + 1 then ([], false)
      else scan_lines s' (cur +:+ String c EmptyString) (n + 1)
  end.

(** What reading a file gives: nothing if it cannot be opened, else the bytes
    read and whether reading ended at the end of the file. *)
Abbreviation file_read := (option (string * bool)).

(** [ParseMountInfo]: the entries, or [None] for an error. *)
Definition ParseMountInfo (f : file_read) : option (list MountEntry) :=
  match f with
  | None => None
  | Some (bytes, eof) =>
      let '(ls, ok) := scan_lines bytes EmptyString 0 in
      if ok && eof then Some (omap parseMountInfoLine ls) else None
  end.

(** ** Parsing what the kernel prints *)

(** A line of mountinfo: the numbers, then root, mount point and options, any
    number of optional fields, a lone dash, and type, source and super options. *)
Definition mountinfo_line (e : MountEntry) (options : string) (optional : list string) (superopts : string) : string :=
  join_blank ([dec (MountID e); dec (ParentID e); dec (Major e) +:+ String ":" (dec (Minor e));
    Root e; MountPoint e; options] ++ optional ++ ["-"; FSType e; Source e; superopts]).

Record entry_wf (e : MountEntry) : Prop := {
  wf_id : 0 <= MountID e < 2 ^ 63;
  wf_parent : 0 <= ParentID e < 2 ^ 63;
  wf_major : is_u32 (Major e);
  wf_minor : is_u32 (Minor e);
  wf_fields : Forall is_field [Root e; MountPoint e; FSType e; Source e];
}.

Lemma digit_plain c : is_digit c = true → plain c = true.
Proof.
  unfold is_digit, digit_val, plain. cbv zeta.
  destruct (Z.leb_spec 48 (Z.of_N (N_of_ascii c))); [|done].
  destruct (Z.leb_spec (Z.of_N (N_of_ascii c)) 57); [|done]. intros _. cbn [andb].
  repeat match goal with |- context [?a =? ?b] => destruct (Z.eqb_spec a b); [lia|] end.
  destruct (Z.leb_spec (Z.of_N (N_of_ascii c)) 13); [lia|]. by rewrite andb_false_r.
Qed.

Lemma dec_field n : 0 <= n → is_field (dec n).
Proof.
  intros Hn. split; [by destruct (dec_nonempty n) as (c & s & ->)|].
  eapply all_bytes_impl, dec_digits; [apply digit_plain|done].
Qed.

Lemma find_sep_app optional rest i :
  Forall (λ f, f ≠ "-") optional → find_sep i (optional ++ "-" :: rest) = Some (i + length optional)%nat.
Proof.
  intros Ho. revert i. induction Ho as [|f fs Hf _ IH]; intros i; cbn [app find_sep length].
  - rewrite bool_decide_eq_true_2 by done. f_equal. lia.
  - rewrite bool_decide_eq_false_2 by done. rewrite IH. f_equal. lia.
Qed.

Lemma lookup_after {A} (a b c d e f : A) xs ys k :
  (a :: b :: c :: d :: e :: f :: xs ++ ys) !! (6 + length xs + k)%nat = ys !! k.
Proof.
  change ((xs ++ ys) !! (length xs + k)%nat = ys !! k). rewrite lookup_app_r by lia. f_equal. lia.
Qed.

(** C33.  Parsing inverts printing: a line of mountinfo, with any number of
    optional fields (none of them a lone dash), parses to its entry: the numbers
    and paths are those printed, and type and source are found wherever the
    separator stands. *)
Theorem mountinfo_roundtrip e options optional superopts :
  entry_wf e → is_field options → Forall is_field optional → Forall (λ f, f ≠ "-") optional → is_field superopts →
  parseMountInfoLine (mountinfo_line e options optional superopts) = Some e.
Proof.
  intros [Hid Hpa Hma Hmi Hfs] Hopts Hof Hon Hsup. unfold parseMountInfoLine, mountinfo_line.
  destruct e as [id pa ma mi root mp ty src]. cbn [MountID ParentID Major Minor Root MountPoint FSType Source] in *.
  unfold is_u32 in Hma, Hmi.
  rewrite Fields_join.
  2:{ rewrite !Forall_cons in Hfs. destruct Hfs as (? & ? & ? & ? & _).
      repeat (apply Forall_cons; split); try done; try (apply dec_field; lia).
      - split; [by destruct (dec_nonempty ma) as (c & s & ->)|]. rewrite all_bytes_app. cbn [all_bytes].
        by rewrite (proj2 (dec_field ma ltac:(lia))), (proj2 (dec_field mi ltac:(lia))).
      - apply Forall_app. split; [done|]. repeat (apply Forall_cons; split); done. }
  cbv zeta. rewrite length_app. cbn [length].
  destruct (Nat.ltb_spec (6 + length (optional ++ ["-"; ty; src; superopts])) 7) as [Hlt|_];
    [rewrite length_app in Hlt; cbn [length] in Hlt; lia|].
  cbn [app lookup list_lookup]. rewrite !bind_Some_l, !Atoi_dec, !bind_Some_l by done.
  unfold SplitN2. rewrite cut_app by (apply digits_no_colon, dec_digits; lia).
  rewrite !ParseUint_dec, !bind_Some_l by lia. cbn [drop].
  rewrite drop_0, find_sep_app, bind_Some_l by done. rewrite length_app. cbn [length].
  destruct (Nat.leb_spec (6 + (length optional + 4)) (6 + length optional + 2)); [lia|].
  rewrite !bind_Some_l, !lookup_after. cbn [lookup list_lookup]. rewrite !bind_Some_l.
  by rewrite !u32_id by done.
Qed.

Definition example_entry : MountEntry :=
  Mount 36 35 0 45 "/" "/var/lib/kubelet/pods/6a76960a-a927-4211-96e6-1f187b126e90/volumes/kubernetes.io~nfs/example" "nfs4" "server:/export".

Lemma mountinfo_roundtrip_witness :
  parseMountInfoLine (mountinfo_line example_entry "rw,relatime" ["shared:1"; "master:2"] "rw,vers=4.2") = Some example_entry.
Proof.
  apply mountinfo_roundtrip.
  - split; cbn; unfold is_u32; try lia. repeat constructor; done.
  - by split.
  - by repeat constructor.
  - by repeat constructor.
  - by split.
Defined.
