(* ===== verification/KubeletPaths.v ===== *)
(** * Kubelet volume paths (resolver.go)

    The two regular expressions that find the pod and the volume in a mount
    point.  Both end at the end of the path and contain fixed names between
    slashes, so that matching them is looking at the last path components. *)
From S2P Require Import Prelude GoStrings.

(** ** Path components *)

Definition no_slash (s : string) : Prop := all_bytes (λ c, negb (c =? "/")%char) s = true.

(** Components joined by slashes. *)
Fixpoint join_slash (cs : list string) : string :=
  match cs with
  | [] => EmptyString
  | [c] => c
  | c :: cs' => c +:+ String "/" (join_slash cs')
  end.

Lemma Split_cons sep s : ∃ x xs, Split sep s = x :: xs.
Proof.
  induction s as [|c s (x & xs & E)]; [by eexists _, _|]. cbn [Split]. rewrite E. destruct (_ =? _)%char; by eexists _, _.
Qed.

Lemma Split_app sep a b :
  all_bytes (λ c, negb (c =? sep)%char) a = true → Split sep (a +:+ String sep b) = a :: Split sep b.
Proof.
  induction a as [|c a IH]; intros Ha.
  - rewrite append_nil_l. cbn [Split]. destruct (Split_cons sep b) as (x & xs & ->). by rewrite Ascii.eqb_refl.
  - cbn [all_bytes] in Ha. apply andb_true_iff in Ha as [Hc%negb_true_iff Ha].
    rewrite append_cons. cbn [Split]. by rewrite IH, Hc.
Qed.

Lemma Split_single sep a : all_bytes (λ c, negb (c =? sep)%char) a = true → Split sep a = [a].
Proof.
  induction a as [|c a IH]; intros Ha; [done|]. cbn [all_bytes] in Ha. apply andb_true_iff in Ha as [Hc%negb_true_iff Ha].
  cbn [Split]. by rewrite IH, Hc.
Qed.

(** Splitting after any prefix. *)
Lemma Split_prefix sep pre b : Split sep (pre +:+ String sep b) = Split sep pre ++ Split sep b.
Proof.
  induction pre as [|c pre IH].
  - rewrite append_nil_l. cbn [Split]. destruct (Split_cons sep b) as (x & xs & ->). by rewrite Ascii.eqb_refl.
  - rewrite append_cons. cbn [Split]. rewrite IH. destruct (Split_cons sep pre) as (x & xs & ->).
    cbn [app]. by destruct (c =? sep)%char.
Qed.

Lemma Split_no_slash s : Forall no_slash (Split "/" s).
Proof.
  induction s as [|c s IH]; [by repeat constructor|]. cbn [Split]. destruct (Split "/" s) as [|x xs]; [done|].
  apply Forall_cons in IH as [Hx Hxs]. destruct (c =? "/")%char eqn:Hc; repeat constructor; try done.
  unfold no_slash. cbn [all_bytes]. by rewrite Hc, Hx.
Qed.

Lemma join_Split s : join_slash (Split "/" s) = s.
Proof.
  induction s as [|c s IH]; [done|]. cbn [Split]. destruct (Split_cons "/" s) as (x & xs & E). rewrite E in *.
  destruct (c =? "/")%char eqn:Hc.
  - apply Ascii.eqb_eq in Hc as ->.
    change (join_slash (EmptyString :: x :: xs)) with (EmptyString +:+ String "/" (join_slash (x :: xs))). by rewrite IH.
  - rewrite <- IH. by destruct xs.
Qed.

Lemma join_slash_app cs ds : cs ≠ [] → ds ≠ [] → join_slash (cs ++ ds) = join_slash cs +:+ String "/" (join_slash ds).
Proof.
  induction cs as [|c cs IH]; [done|]. intros _ Hds. destruct cs as [|c' cs].
  - destruct ds; done.
  - change (join_slash ((c :: c' :: cs) ++ ds)) with (c +:+ String "/" (join_slash ((c' :: cs) ++ ds))).
    rewrite IH by done. change (join_slash (c :: c' :: cs)) with (c +:+ String "/" (join_slash (c' :: cs))).
    by rewrite append_assoc, append_cons.
Qed.

(** ** Pod identifiers: [0-9a-f]{8}-[0-9a-f]{4}-[0-9a-f]{4}-[0-9a-f]{4}-[0-9a-f]{12} *)

Definition is_hex (c : ascii) : bool :=
  let n := Z.of_N (N_of_ascii c) in ((48 <=? n) && (n <=? 57)) || ((97 <=? n) && (n <=? 102)).

(** [n] hexadecimal digits at the start of [s], and what follows. *)
Fixpoint hex_run (n : nat) (s : string) : option string :=
  match n, s with
  | O, _ => Some s
  | S n', String c s' => if is_hex c then hex_run n' s' else None
  | S _, EmptyString => None
  end.

Definition dash (s : string) : option string :=
  match s with String c s' => if (c =? "-")%char then Some s' else None | EmptyString => None end.

Definition is_uuid (s : string) : bool :=
  match s1 ← hex_run 8 s; s2 ← dash s1; s3 ← hex_run 4 s2; s4 ← dash s3; s5 ← hex_run 4 s4; s6 ← dash s5;
        s7 ← hex_run 4 s6; s8 ← dash s7; hex_run 12 s8 with
  | Some EmptyString => true
  | _ => false
  end.

Lemma hex_run_no_slash n s r : hex_run n s = Some r → no_slash r → no_slash s.
Proof.
  revert s. induction n as [|n IH]; intros s H Hr; cbn [hex_run] in H; [by simplify_eq|].
  destruct s as [|c s]; [done|]. destruct (is_hex c) eqn:Hc; [|done].
  unfold no_slash. cbn [all_bytes]. rewrite (IH _ H Hr : all_bytes _ _ = true), andb_true_r.
  apply negb_true_iff, Ascii.eqb_neq. by intros ->.
Qed.

Lemma dash_no_slash s r : dash s = Some r → no_slash r → no_slash s.
Proof.
  destruct s as [|c s]; [done|]. cbn [dash]. destruct (c =? "-")%char eqn:Hc; [|done]. intros [= ->] Hr.
  apply Ascii.eqb_eq in Hc as ->. exact Hr.
Qed.

Lemma is_uuid_no_slash s : is_uuid s = true → no_slash s.
Proof.
  unfold is_uuid. intros H. case_match; [|done]. case_match; [|done]. subst.
  repeat match goal with E : _ ≫= _ = Some _ |- _ => inv_bind E end.
  repeat first [eapply hex_run_no_slash; [eassumption|] | eapply dash_no_slash; [eassumption|]]. done.
Qed.

(** ** The expressions *)

(** [.*/pods/(UUID)/volumes/[^/]+/([^/]+)(?:/mount)?$] *)
Definition volume_tail (rc : list string) : option (string * string) :=
  match rc with
  | pv :: plugin :: v :: uid :: p :: _ :: _ =>
      if bool_decide (v = "volumes" ∧ p = "pods" ∧ pv ≠ EmptyString ∧ plugin ≠ EmptyString) && is_uuid uid
      then Some (uid, pv) else None
  | _ => None
  end.

Definition parseKubeletVolumePath (mountPoint : string) : option (string * string) :=
  let rc := reverse (Split "/" mountPoint) in
  match rc with
  | m :: rc' =>
      match (if bool_decide (m = "mount") then volume_tail rc' else None) with
      | Some r => Some r
      | None => volume_tail rc
      end
  | [] => None
  end.

(** [.*/volumeDevices/publish/([^/]+)/(UUID)$]; the identifier comes second. *)
Definition parseKubeletBlockDevicePath (mountPoint : string) : option (string * string) :=
  match reverse (Split "/" mountPoint) with
  | uid :: pv :: p :: v :: _ :: _ =>
      if bool_decide (p = "publish" ∧ v = "volumeDevices" ∧ pv ≠ EmptyString) && is_uuid uid
      then Some (uid, pv) else None
  | _ => None
  end.

(** What the expressions say of a path. *)
Definition matches_volume (s uid pv : string) : Prop :=
  ∃ pre plugin suf,
    s = pre +:+ "/pods/" +:+ uid +:+ "/volumes/" +:+ plugin +:+ "/" +:+ pv +:+ suf ∧
    is_uuid uid = true ∧ no_slash plugin ∧ plugin ≠ EmptyString ∧ no_slash pv ∧ pv ≠ EmptyString ∧
    (suf = EmptyString ∨ suf = "/mount").

Definition matches_block (s uid pv : string) : Prop :=
  ∃ pre, s = pre +:+ "/volumeDevices/publish/" +:+ pv +:+ "/" +:+ uid ∧
    is_uuid uid = true ∧ no_slash pv ∧ pv ≠ EmptyString.

(** ** Matching by components *)

Lemma volume_tail_inv rc uid pv :
  volume_tail rc = Some (uid, pv) →
  ∃ plugin x rest, rc = pv :: plugin :: "volumes" :: uid :: "pods" :: x :: rest ∧
    is_uuid uid = true ∧ plugin ≠ EmptyString ∧ pv ≠ EmptyString.
Proof.
  unfold volume_tail. intros H. do 6 (destruct rc as [|? rc]; [done|]).
  destruct (bool_decide _) eqn:Hb; [|done]. apply bool_decide_eq_true in Hb as (-> & -> & ? & ?).
  cbn [andb] in H. destruct (is_uuid _) eqn:Hu; [|done]. simplify_eq. eauto 10.
Qed.

Lemma volume_tail_ok uid pv plugin x rest :
  is_uuid uid = true → plugin ≠ EmptyString → pv ≠ EmptyString →
  volume_tail (pv :: plugin :: "volumes" :: uid :: "pods" :: x :: rest) = Some (uid, pv).
Proof. intros Hu Hp Hv. cbn [volume_tail]. by rewrite bool_decide_eq_true_2, Hu by done. Qed.

(** A non-empty list of components before the fixed ones is a prefix. *)
Lemma path_of_components s cs ds :
  Split "/" s = cs ++ ds → cs ≠ [] → ds ≠ [] → s = join_slash cs +:+ String "/" (join_slash ds).
Proof. intros E Hc Hd. by rewrite <- join_slash_app, <- E, join_Split. Qed.

Lemma components_no_slash s cs ds : Split "/" s = cs ++ ds → Forall no_slash ds.
Proof. intros E. pose proof (Split_no_slash s) as H. rewrite E in H. by apply Forall_app in H as [_ H]. Qed.

Lemma volume_components pre uid plugin pv :
  no_slash uid → no_slash plugin → no_slash pv →
  Split "/" (pre +:+ "/pods/" +:+ uid +:+ "/volumes/" +:+ plugin +:+ "/" +:+ pv) =
    Split "/" pre ++ ["pods"; uid; "volumes"; plugin; pv].
Proof.
  intros Hu Hp Hv.
  change (pre +:+ "/pods/" +:+ ?r) with (pre +:+ String "/" ("pods" +:+ String "/" r)).
  rewrite Split_prefix. f_equal. rewrite Split_app by done. f_equal.
  change (uid +:+ "/volumes/" +:+ ?r) with (uid +:+ String "/" ("volumes" +:+ String "/" r)).
  rewrite !Split_app by done. f_equal. f_equal. change (plugin +:+ "/" +:+ pv) with (plugin +:+ String "/" pv).
  by rewrite Split_app, Split_single by done.
Qed.

(** One component too far to the right, an identifier is in the place of a name. *)
Lemma volume_tail_shift a b uid rest : is_uuid uid = true → volume_tail (a :: b :: uid :: rest) = None.
Proof.
  intros Hu. cbn [volume_tail]. do 3 (destruct rest as [|? rest]; [done|]).
  rewrite bool_decide_eq_false_2; [done|]. by intros (-> & _).
Qed.

(** The path whose last components are these. *)
Lemma volume_path_of s x rest suf uid plugin pv :
  Split "/" s = reverse rest ++ x :: "pods" :: uid :: "volumes" :: plugin :: pv :: suf →
  suf = [] ∨ suf = ["mount"] → is_uuid uid = true → plugin ≠ EmptyString → pv ≠ EmptyString → matches_volume s uid pv.
Proof.
  intros E Hs Hu Hp Hv. change (x :: ?l) with ([x] ++ l) in E. rewrite app_assoc in E.
  pose proof (components_no_slash _ _ _ E) as Hn. rewrite !Forall_cons in Hn. destruct Hn as (_ & _ & _ & ? & ? & _).
  apply path_of_components in E; [|by destruct (reverse rest)|done].
  destruct Hs as [->| ->]; [exists (join_slash (reverse rest ++ [x])), plugin, EmptyString
                           |exists (join_slash (reverse rest ++ [x])), plugin, "/mount"];
    (split_and!; [|done..|by auto]); [by rewrite append_nil|exact E].
Qed.

Lemma volume_path_matches s uid pv :
  parseKubeletVolumePath s = Some (uid, pv) ↔ matches_volume s uid pv.
Proof.
  unfold parseKubeletVolumePath. cbv zeta. split.
  - intros H. destruct (reverse (Split "/" s)) as [|m rc] eqn:E; [done|].
    apply (f_equal reverse) in E. rewrite reverse_involutive in E.
    assert (Hcase : (m = "mount" ∧ volume_tail rc = Some (uid, pv)) ∨ volume_tail (m :: rc) = Some (uid, pv)).
    { case_bool_decide; [|by right]. destruct (volume_tail rc); [left; by simplify_eq|by right]. }
    destruct Hcase as [[-> (plugin & x & rest & -> & Hu & Hp & Hv)%volume_tail_inv]
                      |(plugin & x & rest & Hrc & Hu & Hp & Hv)%volume_tail_inv]; [|rewrite Hrc in E];
      rewrite !reverse_cons, <- !app_assoc in E; cbn [app] in E.
    + by apply (volume_path_of s x rest ["mount"] uid plugin pv E); [right|..].
    + by apply (volume_path_of s x rest [] uid plugin pv E); [left|..].
  - intros (pre & plugin & suf & -> & Hu & Hps & Hp & Hvs & Hv & Hsuf). pose proof (is_uuid_no_slash _ Hu) as Hus.
    destruct (reverse (Split "/" pre)) as [|x rest] eqn:Hpre.
    { destruct (Split_cons "/" pre) as (y & ys & Hc). rewrite Hc, reverse_cons in Hpre. by destruct (reverse ys). }
    destruct Hsuf as [->| ->].
    + rewrite append_nil, volume_components by done. rewrite reverse_app, Hpre. cbn [reverse rev_append app].
      rewrite (volume_tail_shift plugin "volumes" uid) by done. rewrite volume_tail_ok by done. by destruct (bool_decide _).
    + change (pv +:+ "/mount") with (pv +:+ String "/" "mount"). rewrite <- !append_assoc, Split_prefix, !append_assoc.
      rewrite volume_components by done. change (Split "/" "mount") with ["mount"].
      rewrite !reverse_app, Hpre. cbn [reverse rev_append app].
      by rewrite bool_decide_eq_true_2, volume_tail_ok by done.
Qed.

Lemma block_path_matches s uid pv :
  parseKubeletBlockDevicePath s = Some (uid, pv) ↔ matches_block s uid pv.
Proof.
  unfold parseKubeletBlockDevicePath. split.
  - intros H. destruct (reverse (Split "/" s)) as [|u rc] eqn:E; [done|]. do 4 (destruct rc as [|? rc]; [done|]).
    destruct (bool_decide _) eqn:Hb; [|done]. apply bool_decide_eq_true in Hb as (-> & -> & Hv).
    cbn [andb] in H. destruct (is_uuid _) eqn:Hu; [|done]. simplify_eq.
    apply (f_equal reverse) in E. rewrite reverse_involutive, !reverse_cons, <- !app_assoc in E. cbn [app] in E.
    match type of E with _ = reverse ?r ++ ?x :: ?l => change (x :: l) with ([x] ++ l) in E; rewrite app_assoc in E end.
    pose proof (components_no_slash _ _ _ E) as Hn. rewrite !Forall_cons in Hn. destruct Hn as (_ & _ & ? & _).
    apply path_of_components in E; [|by destruct (reverse rc)|done]. eexists. split_and!; [exact E|done..].
  - intros (pre & -> & Hu & Hvs & Hv). pose proof (is_uuid_no_slash _ Hu) as Hus.
    change (pre +:+ "/volumeDevices/publish/" +:+ ?r) with
      (pre +:+ String "/" ("volumeDevices" +:+ String "/" ("publish" +:+ String "/" r))).
    change (pv +:+ "/" +:+ uid) with (pv +:+ String "/" uid).
    rewrite Split_prefix, (Split_app _ "volumeDevices"), (Split_app _ "publish"), (Split_app _ pv), (Split_single _ uid) by done.
    rewrite reverse_app. cbn [reverse rev_append app].
    destruct (reverse (Split "/" pre)) as [|x rest] eqn:Hpre.
    { destruct (Split_cons "/" pre) as (y & ys & Hc). rewrite Hc, reverse_cons in Hpre. by destruct (reverse ys). }
    by rewrite bool_decide_eq_true_2, Hu by done.
Qed.

(** C27.  The path parsers decide the regular expressions of the source,
    .*/pods/(UUID)/volumes/[^/]+/([^/]+)(?:/mount)?$ for filesystem volumes and
    .*/volumeDevices/publish/([^/]+)/(UUID)$ for block volumes, and return their
    groups: a pod identifier and a volume name are found exactly for the paths
    of that form, and the form determines both. *)
Theorem kubelet_paths_regexp s uid pv :
  (parseKubeletVolumePath s = Some (uid, pv) ↔ matches_volume s uid pv) ∧
  (parseKubeletBlockDevicePath s = Some (uid, pv) ↔ matches_block s uid pv).
Proof. split; [apply volume_path_matches|apply block_path_matches]. Qed.
