(* ===== verification/Resolver.v ===== *)
(** * Attributing devices to pods (resolver.go)

    A periodic scan of the host's mount table rebuilds the map from device
    numbers to the pod and claim that use them; the collectors look devices up
    in it.  Look-ups while a scan runs are in ScrapeConcurrency. *)
From S2P Require Import Prelude GoStrings Device ProcMounts KubeletPaths.

Record DeviceInfo := Info {
  PVCName : string; PodName : string; Namespace : string; NodeName : string;
  MountPath : string; DevPath : string; IsNFS : bool;
}.

(** Objects of the informer caches: pods, claims with the volume they are bound
    to, and anything else. *)
Inductive obj :=
  | Pod (uid name ns : string)
  | PersistentVolumeClaim (name ns volumeName : string)
  | OtherObj.

#[export] Instance obj_eq_dec : EqDecision obj.
Proof. solve_decision. Defined.

Definition PVCByPVIndexName : string := "byPV".

Definition PVCByPVIndexFunc (o : obj) : list string :=
  match o with
  | PersistentVolumeClaim _ _ volumeName => if bool_decide (volumeName = EmptyString) then [] else [volumeName]
  | _ => []
  end.

Record Resolver := MkResolver { devices : gmap Z DeviceInfo; nodeName : string; procPath : string }.

Definition NewResolver (nodeName procPath : string) : Resolver := MkResolver ∅ nodeName procPath.

Definition Resolver_Lookup (r : Resolver) (dev : Z) : option DeviceInfo := devices r !! dev.

(** What the world looks like to one scan: the files and the stat system call,
    and the informer caches ([None] for a nil store): the pods listed, and the
    look-up of the claim indexer by index name and value, which may fail. *)
Record world := World {
  read_file : string → file_read;
  stat : string → option (Z * Z);
  podStore : option (list obj);
  pvcIndexer : option (string → string → option (list obj));
}.

Record podMeta := PodMeta { pm_name : string; pm_ns : string }.

Definition podMetaMap (w : world) : gmap string podMeta :=
  match podStore w with
  | None => ∅
  | Some l =>
      foldl (λ result o,
        match o with
        | Pod uid name ns => <[uid := PodMeta name ns]> result
        | _ => result
        end) ∅ l
  end.

Definition resolvePVCName (w : world) (pvName : string) : string :=
  match pvcIndexer w with
  | None => pvName
  | Some byIndex =>
      match byIndex PVCByPVIndexName pvName with
      | Some (PersistentVolumeClaim name _ _ :: _) => name
      | _ => pvName
      end
  end.

(** The body of the loop over the mounts: the device and what is recorded for
    it, or [None] where it continues with the next mount. *)
Definition resolve_mount (r : Resolver) (w : world) (podMetas : gmap string podMeta) (m : MountEntry) : option (Z * DeviceInfo) :=
  '(podUID, pvcName, isBlock) ←
    match parseKubeletBlockDevicePath (MountPoint m) with
    | Some (podUID, pvcName) => Some (podUID, pvcName, true)
    | None =>
        match parseKubeletVolumePath (MountPoint m) with
        | Some (podUID, pvcName) => Some (podUID, pvcName, false)
        | None => None
        end
    end;
  dev ←
    (if isBlock : bool
     then statBlockDevice (stat w (procPath r +:+ "/1/root" +:+ MountPoint m))
     else Some (MkDev (Major m) (Minor m)));
  let pvcName := resolvePVCName w pvcName in
  meta ← podMetas !! podUID;
  Some (dev, Info pvcName (pm_name meta) (pm_ns meta) (nodeName r) (MountPoint m) (Source m)
    (bool_decide (FSType m = "nfs") || bool_decide (FSType m = "nfs4"))).

Definition scan (r : Resolver) (w : world) : Resolver :=
  match ParseMountInfo (read_file w (procPath r +:+ "/1/mountinfo")) with
  | None => r
  | Some mounts =>
      let podMetas := podMetaMap w in
      let devs := foldl (λ devs m,
        match resolve_mount r w podMetas m with
        | Some (dev, info) => <[dev := info]> devs
        | None => devs
        end) ∅ mounts in
      MkResolver devs (nodeName r) (procPath r)
  end.

(** [Run]: a scan at the start and one per tick. *)
Definition Run (r : Resolver) (ws : list world) : Resolver := foldl scan r ws.

(** ** The pods known to a scan *)

Lemma podMetaMap_in w uid meta :
  podMetaMap w !! uid = Some meta → ∃ l, podStore w = Some l ∧ Pod uid (pm_name meta) (pm_ns meta) ∈ l.
Proof.
  unfold podMetaMap. destruct (podStore w) as [l|]; [|by rewrite lookup_empty]. intros H. exists l. split; [done|].
  assert (Hgen : ∀ acc : gmap string podMeta, foldl (λ result o, match o with Pod uid name ns => <[uid := PodMeta name ns]> result | _ => result end) acc l !! uid
      = Some meta → acc !! uid = Some meta ∨ Pod uid (pm_name meta) (pm_ns meta) ∈ l).
  { clear H. induction l as [|o l IH]; intros acc H; [by left|]. cbn [foldl] in H.
    destruct (IH _ H) as [Hacc|Hin]; [|right; by apply list_elem_of_further].
    destruct o as [u n s| |]; [|by left..]. rewrite lookup_insert in Hacc. case_decide; [|by left].
    simplify_eq. right. apply list_elem_of_here. }
  destruct (Hgen ∅ H) as [Hemp|]; [by rewrite lookup_empty in Hemp|done].
Qed.

(** ** What a scan records *)

(** The last element wins. *)
Lemma foldl_insert_last {A B} (f : A → option (Z * B)) (l : list A) (acc : gmap Z B) d :
  foldl (λ m x, match f x with Some (k, v) => <[k := v]> m | None => m end) acc l !! d =
    match last (filter (λ kv, kv.1 = d) (omap f l)) with Some kv => Some kv.2 | None => acc !! d end.
Proof.
  revert acc. induction l as [|x l IH]; intros acc; [done|]. cbn [foldl omap list_omap]. rewrite IH.
  destruct (f x) as [[k v]|]; [|done]. rewrite filter_cons. cbn [fst].
  case_decide as Hk.
  - rewrite last_cons. destruct (last _); [done|]. rewrite Hk. cbn. by rewrite lookup_insert_eq.
  - destruct (last _); [done|]. by rewrite lookup_insert_ne.
Qed.

(** A scan that can read the mount table replaces the map: a device maps to
    what the last mount resolving to it yields, and every other device, also one
    of an earlier scan, to nothing.  A scan that cannot leaves the map alone. *)
Theorem scan_lookup r w dev :
  Resolver_Lookup (scan r w) dev =
    match ParseMountInfo (read_file w (procPath r +:+ "/1/mountinfo")) with
    | None => Resolver_Lookup r dev
    | Some mounts =>
        snd <$> last (filter (λ kv, kv.1 = dev) (omap (resolve_mount r w (podMetaMap w)) mounts))
    end.
Proof.
  unfold scan, Resolver_Lookup. destruct (ParseMountInfo _) as [mounts|]; [|done]. cbn [devices].
  rewrite foldl_insert_last. by destruct (last _).
Qed.

(** What attributes a device to a pod: a mount of the table whose path names the
    pod's identifier and a volume; the device is the mount's own, or that of the
    device file bound there. *)
Definition attributed (r : Resolver) (w : world) (mounts : list MountEntry) (dev : Z) (info : DeviceInfo) : Prop :=
  ∃ m uid pv l, m ∈ mounts ∧ podStore w = Some l ∧ Pod uid (PodName info) (Namespace info) ∈ l ∧
    PVCName info = resolvePVCName w pv ∧ NodeName info = nodeName r ∧ MountPath info = MountPoint m ∧
    (IsNFS info = true ↔ FSType m = "nfs" ∨ FSType m = "nfs4") ∧
    ((matches_block (MountPoint m) uid pv ∧
        statBlockDevice (stat w (procPath r +:+ "/1/root" +:+ MountPoint m)) = Some dev) ∨
     (matches_volume (MountPoint m) uid pv ∧ dev = MkDev (Major m) (Minor m))).

Lemma resolve_mount_attributed r w mounts m dev info :
  m ∈ mounts → resolve_mount r w (podMetaMap w) m = Some (dev, info) → attributed r w mounts dev info.
Proof.
  intros Hm H. unfold resolve_mount in H. inv_bind H. destruct x as [[uid pv] isBlock]. inv_bind H. inv_bind H. simplify_eq.
  destruct (podMetaMap_in _ _ _ E1) as (l & Hl & Hin). exists m, uid, pv, l. cbn [PodName Namespace PVCName NodeName MountPath IsNFS].
  split_and!; try done.
  - rewrite orb_true_iff, !bool_decide_eq_true. done.
  - destruct (parseKubeletBlockDevicePath (MountPoint m)) as [[u p]|] eqn:Hb; simplify_eq.
    + left. split; [|done]. by apply block_path_matches.
    + destruct (parseKubeletVolumePath (MountPoint m)) as [[u p]|] eqn:Hv; simplify_eq.
      right. split; [|done]. by apply volume_path_matches.
Qed.

(** C26.  Devices are attributed to the right pod: whatever a scan records for a
    device, the mount table has a mount of that device whose path contains the
    identifier of a pod of the store, and name and namespace are that pod's. *)
Theorem scan_attribution r w mounts dev info :
  ParseMountInfo (read_file w (procPath r +:+ "/1/mountinfo")) = Some mounts →
  Resolver_Lookup (scan r w) dev = Some info → attributed r w mounts dev info.
Proof.
  intros HP HL. unfold scan, Resolver_Lookup in HL. rewrite HP in HL. cbn [devices] in HL. rewrite foldl_insert_last in HL.
  destruct (last _) as [[d i]|] eqn:Hlast; [|by rewrite lookup_empty in HL]. simplify_eq. cbn [snd].
  apply last_Some_elem_of in Hlast. apply list_elem_of_filter in Hlast as [Hd Hin]. cbn in Hd. subst d.
  apply list_elem_of_omap in Hin as (m & Hm & Hr). by eapply resolve_mount_attributed.
Qed.

(** ** Claim names *)

(** The indexer of client-go over the claims [objs]: a look-up by index name
    returns exactly the objects whose index function yields the value. *)
Class Indexer (objs : list obj) (byIndex : string → string → option (list obj)) := {
  byIndex_items v : ∃ items, byIndex PVCByPVIndexName v = Some items ∧
    ∀ o, o ∈ items ↔ o ∈ objs ∧ v ∈ PVCByPVIndexFunc o;
}.

(** One that filters a list, which shows the law satisfiable. *)
Definition filter_index (objs : list obj) (name v : string) : option (list obj) :=
  if bool_decide (name = PVCByPVIndexName) then Some (filter (λ o, v ∈ PVCByPVIndexFunc o) objs) else None.

#[export] Instance filter_indexer objs : Indexer objs (filter_index objs).
Proof.
  constructor. intros v. unfold filter_index. rewrite bool_decide_eq_true_2 by done. eexists. split; [done|].
  intros o. rewrite list_elem_of_filter. tauto.
Qed.

Lemma PVCByPVIndexFunc_in o v :
  v ∈ PVCByPVIndexFunc o ↔ ∃ name ns, o = PersistentVolumeClaim name ns v ∧ v ≠ EmptyString.
Proof.
  unfold PVCByPVIndexFunc. destruct o as [| n s vol|]; [set_solver| |set_solver].
  case_bool_decide; set_solver.
Qed.

(** With an indexer over the claims, a volume name becomes the name of a
    claim bound to that volume, and stays as it is when no claim is. *)
Theorem resolve_pvc_name objs byIndex w pv :
  Indexer objs byIndex → pvcIndexer w = Some byIndex →
  (∃ ns, PersistentVolumeClaim (resolvePVCName w pv) ns pv ∈ objs ∧ pv ≠ EmptyString) ∨
  (resolvePVCName w pv = pv ∧ ∀ name ns, PersistentVolumeClaim name ns pv ∈ objs → pv = EmptyString).
Proof.
  intros HI Hw. unfold resolvePVCName. rewrite Hw.
  destruct (byIndex_items (Indexer := HI) pv) as (items & -> & Hit).
  assert (Hc : ∀ name ns, PersistentVolumeClaim name ns pv ∈ objs → pv ≠ EmptyString → PersistentVolumeClaim name ns pv ∈ items).
  { intros name ns Ho Hne. apply Hit. split; [done|]. apply PVCByPVIndexFunc_in. by eexists _, _. }
  destruct items as [|o items].
  - right. split; [done|]. intros name ns Ho. destruct (decide (pv = EmptyString)); [done|].
    by apply (Hc name ns), not_elem_of_nil in Ho.
  - destruct (proj1 (Hit o) (list_elem_of_here _ _)) as [Ho (name & ns & -> & Hne)%PVCByPVIndexFunc_in].
    left. by exists ns.
Qed.

(** ** An example host *)

Definition example_uid : string := "6a76960a-a927-4211-96e6-1f187b126e90".
Definition example_objs : list obj := [PersistentVolumeClaim "my-data-pvc" "default" "example"].

Definition example_world : world :=
  World (λ _, Some (mountinfo_line example_entry "rw,relatime" ["shared:1"] "rw,vers=4.2", true)) (λ _, None)
    (Some [Pod example_uid "virt-launcher-my-vm-abc" "default"]) (Some (filter_index example_objs)).

Lemma resolve_pvc_name_witness :
  (∃ ns, PersistentVolumeClaim (resolvePVCName example_world "example") ns "example" ∈ example_objs ∧ "example" ≠ EmptyString) ∨
  (resolvePVCName example_world "example" = "example" ∧
   ∀ name ns, PersistentVolumeClaim name ns "example" ∈ example_objs → "example" = EmptyString).
Proof. apply (resolve_pvc_name example_objs (filter_index example_objs)); [apply _|done]. Defined.

(** The NFS device 0:45 belongs to the claim of the pod that mounts it. *)
Lemma scan_attribution_witness :
  attributed (NewResolver "node-1" "/proc") example_world [example_entry] 45
    (Info "my-data-pvc" "virt-launcher-my-vm-abc" "default" "node-1" (MountPoint example_entry) "server:/export" true).
Proof. apply scan_attribution; vm_compute; reflexivity. Defined.
