(* ===== verification/EbpfCollector.v ===== *)
(** * Exporting the BPF histograms (pkg/ebpf/collector.go)

    On every scrape the collector walks the histogram maps, attributes each
    device to a claim with the resolver, and emits one Prometheus histogram per
    device and operation. *)
From S2P Require Import Prelude GoStrings GoFloat Common Histogram Device ProcMounts KubeletPaths Resolver.

(** Metric descriptions, with the names of their variable labels. *)
Inductive desc := podBlockDesc | systemBlockDesc | nfsDesc | nfsVfsDesc | subsystemDesc.

#[export] Instance desc_eq_dec : EqDecision desc.
Proof. solve_decision. Defined.

Definition variableLabels (d : desc) : list string :=
  match d with
  | podBlockDesc | nfsDesc | nfsVfsDesc => ["node"; "namespace"; "persistentvolumeclaim"; "pod"; "operation"]
  | systemBlockDesc => ["node"; "device"; "operation"]
  | subsystemDesc => ["subsystem"]
  end.

Definition opLabels : list string := ["read"; "write"; "discard"; "flush"].
Definition nfsVfsOpLabels : list string := ["read"; "write"; "open"; "getattr"].

Inductive metric :=
  | ConstHistogram (d : desc) (count : Z) (sum : float64) (buckets : list (float64 * Z)) (labels : list string)
  | Gauge (d : desc) (val : bool) (labels : list string).

Definition metric_id (m : metric) : desc * list string :=
  match m with ConstHistogram d _ _ _ ls | Gauge d _ ls => (d, ls) end.

(** A label value Prometheus accepts, at least when it is ASCII. *)
Definition ascii_label (s : string) : Prop := all_bytes (λ c, (N_of_ascii c <? 128)%N) s = true.

(** [prometheus.NewConstHistogram]: the metric with the given contents, or an
    error; there is none when the number of label values is that of the
    description's labels and the values are valid UTF-8. *)
Class ConstHistograms := {
  NewConstHistogram : desc → Z → float64 → list (float64 * Z) → list string → option metric;
  const_histogram_value d c s b ls m : NewConstHistogram d c s b ls = Some m → m = ConstHistogram d c s b ls;
  const_histogram_ok d c s b ls :
    length ls = length (variableLabels d) → Forall ascii_label ls → is_Some (NewConstHistogram d c s b ls);
}.

(** A construction that checks the number of labels, which shows the laws satisfiable. *)
#[export] Instance length_checked : ConstHistograms.
Proof.
  refine {| NewConstHistogram d c s b ls :=
    if bool_decide (length ls = length (variableLabels d)) then Some (ConstHistogram d c s b ls) else None |}.
  - intros d c s b ls m. case_bool_decide; [|done]. by intros [= <-].
  - intros d c s b ls Hl _. rewrite bool_decide_eq_true_2 by done. by eexists.
Defined.

(** The programs as the collector sees them: for each histogram map that is not
    nil, the entries its iterator yields, and which subsystems are active. *)
Record programs := Programs {
  BlockHists : option (list (block_hist_key * hist));
  NfsHists : option (list (nfs_hist_key * hist));
  NfsKprobeHists : option (list (nfs_hist_key * hist));
  BlockActive : bool; NFSActive : bool; NFSKprobeActive : bool;
}.

Record Collector := MkCollector {
  c_programs : programs; c_resolver : Resolver; c_nodeName : string; c_buckets : list float64; c_namespaces : gset string;
}.

Definition NewCollector (p : programs) (r : Resolver) (nodeName : string) (buckets : list float64) (namespaces : list string) : Collector :=
  MkCollector p r nodeName buckets (list_to_set namespaces).

Definition namespaceAllowed (c : Collector) (ns : string) : bool :=
  bool_decide (c_namespaces c = ∅) || bool_decide (ns ∈ c_namespaces c).

(** What one map entry leads to: a metric, nothing, an error in the log, or an
    index outside of the label array, which would panic. *)
Inductive outcome := Emit (m : metric) | Skip | LogError | Panic.

Section Collect.
Context `{!ConstHistograms}.

(** Constructing a metric, with [ol] the operation label if its index is in range. *)
Definition emit (d : desc) (count : Z) (sum : float64) (buckets : list (float64 * Z)) (ls : list string) (ol : option string) : outcome :=
  match ol with
  | None => Panic
  | Some op =>
      match NewConstHistogram d count sum buckets (ls ++ [op]) with
      | Some m => Emit m
      | None => LogError
      end
  end.

Definition collect_block_entry (c : Collector) (e : block_hist_key * hist) : outcome :=
  let '(key, val) := e in
  if 3 <? bhk_op key then Skip else
  let '(count, sum, buckets) := SlotsToConstHistogram (slots val) (c_buckets c) in
  if count =? 0 then Skip else
  match Resolver_Lookup (c_resolver c) (bhk_dev key) with
  | Some info =>
      if negb (namespaceAllowed c (Namespace info)) then Skip
      else emit podBlockDesc count sum buckets
        [c_nodeName c; Namespace info; PVCName info; PodName info] (opLabels !! Z.to_nat (bhk_op key))
  | None =>
      emit systemBlockDesc count sum buckets
        [c_nodeName c; DevToString (bhk_dev key)] (opLabels !! Z.to_nat (bhk_op key))
  end.

Definition collect_nfs_entry (c : Collector) (e : nfs_hist_key * hist) : outcome :=
  let '(key, val) := e in
  if 1 <? nhk_op key then Skip else
  let '(count, sum, buckets) := SlotsToConstHistogram (slots val) (c_buckets c) in
  if count =? 0 then Skip else
  match Resolver_Lookup (c_resolver c) (nhk_dev key) with
  | None => Skip
  | Some info =>
      if negb (namespaceAllowed c (Namespace info)) then Skip
      else emit nfsDesc count sum buckets
        [c_nodeName c; Namespace info; PVCName info; PodName info] (opLabels !! Z.to_nat (nhk_op key))
  end.

Definition collect_nfs_kprobe_entry (c : Collector) (e : nfs_hist_key * hist) : outcome :=
  let '(key, val) := e in
  if 3 <? nhk_op key then Skip else
  let '(count, sum, buckets) := SlotsToConstHistogram (slots val) (c_buckets c) in
  if count =? 0 then Skip else
  match Resolver_Lookup (c_resolver c) (nhk_dev key) with
  | None => Skip
  | Some info =>
      if negb (namespaceAllowed c (Namespace info)) then Skip
      else emit nfsVfsDesc count sum buckets
        [c_nodeName c; Namespace info; PVCName info; PodName info] (nfsVfsOpLabels !! Z.to_nat (nhk_op key))
  end.

Definition collectSubsystemGauge (c : Collector) : list outcome :=
  [Emit (Gauge subsystemDesc (BlockActive (c_programs c)) ["block"]);
   Emit (Gauge subsystemDesc (NFSActive (c_programs c)) ["nfs"]);
   Emit (Gauge subsystemDesc (NFSKprobeActive (c_programs c)) ["nfs_kprobe"])].

Definition collectBlock (c : Collector) (l : list (block_hist_key * hist)) : list outcome := collect_block_entry c <$> l.
Definition collectNFS (c : Collector) (l : list (nfs_hist_key * hist)) : list outcome := collect_nfs_entry c <$> l.
Definition collectNFSKprobe (c : Collector) (l : list (nfs_hist_key * hist)) : list outcome := collect_nfs_kprobe_entry c <$> l.

Definition Collect (c : Collector) : list outcome :=
  collectSubsystemGauge c ++
  match BlockHists (c_programs c) with Some l => collectBlock c l | None => [] end ++
  match NfsHists (c_programs c) with Some l => collectNFS c l | None => [] end ++
  match NfsKprobeHists (c_programs c) with Some l => collectNFSKprobe c l | None => [] end.

(** The metrics sent to the channel. *)
Definition emitted (os : list outcome) : list metric := omap (λ o, match o with Emit m => Some m | _ => None end) os.

(** ** No panic *)

(** Keeps conversion from evaluating histograms of unknown slots. *)
#[local] Opaque SlotsToConstHistogram DevToString.

Lemma op_label (labels : list string) op n :
  0 <= op → (n <? op) = false → Z.of_nat (length labels) = n + 1 → is_Some (labels !! Z.to_nat op).
Proof. intros Hop Hn Hl. apply Z.ltb_ge in Hn. apply lookup_lt_is_Some_2. lia. Qed.

Lemma op_label_ascii op : 0 <= op <= 3 → ∃ l, opLabels !! Z.to_nat op = Some l ∧ ascii_label l.
Proof.
  intros Hop. assert (Ho : op = 0 ∨ op = 1 ∨ op = 2 ∨ op = 3) by lia.
  destruct Ho as [->|[->|[->| ->]]]; by eexists.
Qed.

Lemma emit_no_panic d cnt sm b ls ol : is_Some ol → emit d cnt sm b ls ol ≠ Panic.
Proof. intros [op ->]. cbn. by destruct (NewConstHistogram _ _ _ _ _). Qed.

(** Map entries carry 8-bit operations. *)
Definition programs_wf (p : programs) : Prop :=
  (∀ l, BlockHists p = Some l → Forall (λ e, 0 <= bhk_op e.1) l) ∧
  (∀ l, NfsHists p = Some l → Forall (λ e, 0 <= nhk_op e.1) l) ∧
  (∀ l, NfsKprobeHists p = Some l → Forall (λ e, 0 <= nhk_op e.1) l).

Lemma block_entry_no_panic c e : 0 <= bhk_op e.1 → collect_block_entry c e ≠ Panic.
Proof.
  destruct e as [key val]. cbn [fst collect_block_entry]. intros Hop. destruct (3 <? bhk_op key) eqn:Hn; [done|].
  destruct (SlotsToConstHistogram _ _) as [[cnt sm] b]. destruct (cnt =? 0); [done|].
  pose proof (op_label opLabels _ 3 Hop Hn eq_refl) as Hl.
  destruct (Resolver_Lookup _ _); [destruct (negb _); [done|]|]; by apply emit_no_panic.
Qed.

Lemma nfs_entry_no_panic c e : 0 <= nhk_op e.1 → collect_nfs_entry c e ≠ Panic ∧ collect_nfs_kprobe_entry c e ≠ Panic.
Proof.
  destruct e as [key val]. cbn [fst collect_nfs_entry collect_nfs_kprobe_entry]. intros Hop.
  destruct (SlotsToConstHistogram _ _) as [[cnt sm] b]. split.
  - destruct (1 <? nhk_op key) eqn:Hn; [done|]. destruct (cnt =? 0); [done|].
    assert (Hl : is_Some (opLabels !! Z.to_nat (nhk_op key))).
    { apply Z.ltb_ge in Hn. apply lookup_lt_is_Some_2. cbn. lia. }
    destruct (Resolver_Lookup _ _); [|done]. destruct (negb _); [done|]. by apply emit_no_panic.
  - destruct (3 <? nhk_op key) eqn:Hn; [done|]. destruct (cnt =? 0); [done|].
    pose proof (op_label nfsVfsOpLabels _ 3 Hop Hn eq_refl) as Hl.
    destruct (Resolver_Lookup _ _); [|done]. destruct (negb _); [done|]. by apply emit_no_panic.
Qed.

(** No contents of the BPF maps, whatever keys and counters a program or
    another process left there, make a scrape index outside of the operation
    labels. *)
Theorem collect_never_panics c : programs_wf (c_programs c) → Panic ∉ Collect c.
Proof.
  intros (Hb & Hn & Hk). unfold Collect, collectBlock, collectNFS, collectNFSKprobe. rewrite !elem_of_app.
  intros [Hp|[Hp|[Hp|Hp]]].
  - revert Hp. unfold collectSubsystemGauge. rewrite !elem_of_cons, elem_of_nil. naive_solver.
  - destruct (BlockHists _) as [l|] eqn:El; [|by apply elem_of_nil in Hp].
    apply list_elem_of_fmap in Hp as (e & He & Hin). specialize (Hb _ eq_refl). rewrite Forall_forall in Hb.
    exact (block_entry_no_panic c e (Hb e Hin) (eq_sym He)).
  - destruct (NfsHists _) as [l|] eqn:El; [|by apply elem_of_nil in Hp].
    apply list_elem_of_fmap in Hp as (e & He & Hin). specialize (Hn _ eq_refl). rewrite Forall_forall in Hn.
    exact (proj1 (nfs_entry_no_panic c e (Hn e Hin)) (eq_sym He)).
  - destruct (NfsKprobeHists _) as [l|] eqn:El; [|by apply elem_of_nil in Hp].
    apply list_elem_of_fmap in Hp as (e & He & Hin). specialize (Hk _ eq_refl). rewrite Forall_forall in Hk.
    exact (proj2 (nfs_entry_no_panic c e (Hk e Hin)) (eq_sym He)).
Qed.

Lemma collect_block_entry_emit c key val m :
  collect_block_entry c (key, val) = Emit m →
  bhk_op key <= 3 ∧ ∃ cnt sm b op,
    SlotsToConstHistogram (slots val) (c_buckets c) = (cnt, sm, b) ∧ cnt ≠ 0 ∧ opLabels !! Z.to_nat (bhk_op key) = Some op ∧
    match Resolver_Lookup (c_resolver c) (bhk_dev key) with
    | Some info => namespaceAllowed c (Namespace info) = true ∧
        m = ConstHistogram podBlockDesc cnt sm b [c_nodeName c; Namespace info; PVCName info; PodName info; op]
    | None => m = ConstHistogram systemBlockDesc cnt sm b [c_nodeName c; DevToString (bhk_dev key); op]
    end.
Proof.
  unfold collect_block_entry. destruct (Z.ltb_spec 3 (bhk_op key)); [done|].
  destruct (SlotsToConstHistogram _ _) as [[cnt sm] b]. destruct (Z.eqb_spec cnt 0); [done|]. unfold emit.
  destruct (Resolver_Lookup _ _) as [info|]; [destruct (namespaceAllowed _ _) eqn:Hns; [|done]|];
    cbn [negb]; (destruct (opLabels !! _) as [op|]; [|done]);
    (destruct (NewConstHistogram _ _ _ _ _) eqn:Hm; [|done]); intros [= <-];
    apply const_histogram_value in Hm; eauto 12.
Qed.

(** What is exported of a block device: each metric of a scrape comes from
    one entry of the histogram map with a known operation and a count other than
    zero.  If the resolver knows the device, it carries the labels of the pod,
    and the pod's namespace is allowed; otherwise it is a system metric with
    "major:minor".  Conversely an entry is left out only for those reasons: an
    unknown operation, no samples, or a namespace that is filtered out. *)
Theorem block_metrics_exact c key val :
  0 <= bhk_op key → Forall ascii_label [c_nodeName c; DevToString (bhk_dev key)] →
  (∀ info, Resolver_Lookup (c_resolver c) (bhk_dev key) = Some info →
     Forall ascii_label [Namespace info; PVCName info; PodName info]) →
  let '(cnt, sm, b) := SlotsToConstHistogram (slots val) (c_buckets c) in
  collect_block_entry c (key, val) =
    if decide (bhk_op key <= 3 ∧ cnt ≠ 0) then
      let op := default EmptyString (opLabels !! Z.to_nat (bhk_op key)) in
      match Resolver_Lookup (c_resolver c) (bhk_dev key) with
      | Some info =>
          if namespaceAllowed c (Namespace info)
          then Emit (ConstHistogram podBlockDesc cnt sm b [c_nodeName c; Namespace info; PVCName info; PodName info; op])
          else Skip
      | None => Emit (ConstHistogram systemBlockDesc cnt sm b [c_nodeName c; DevToString (bhk_dev key); op])
      end
    else Skip.
Proof.
  intros Hop Hnode Hinfo. destruct (SlotsToConstHistogram _ _) as [[cnt sm] b] eqn:Es.
  unfold collect_block_entry. rewrite Es. destruct (Z.ltb_spec 3 (bhk_op key)); [by rewrite decide_False by lia|].
  destruct (Z.eqb_spec cnt 0) as [->|Hc]; [by rewrite decide_False by tauto|]. rewrite decide_True by lia. cbv zeta.
  destruct (op_label_ascii (bhk_op key)) as (op & -> & Hascii); [lia|]. cbn [default from_option id].
  rewrite !Forall_cons in Hnode. destruct Hnode as (Hn & Hd & _). unfold emit.
  destruct (Resolver_Lookup _ _) as [info|]; [specialize (Hinfo _ eq_refl); destruct (namespaceAllowed _ _); [|done]|]; cbn [negb];
    match goal with |- context [NewConstHistogram ?d ?c ?s ?b ?ls] =>
      destruct (const_histogram_ok d c s b ls) as [m Hm];
        [done|rewrite ?Forall_cons in *; cbn [app]; rewrite ?Forall_cons; naive_solver|rewrite Hm; apply const_histogram_value in Hm; by subst m]
    end.
Qed.

Lemma op_label_inj op op' l :
  0 <= op → 0 <= op' → opLabels !! Z.to_nat op = Some l → opLabels !! Z.to_nat op' = Some l → op = op'.
Proof.
  intros H1 H2 E E'. assert (Hnd : NoDup opLabels) by (apply (bool_decide_eq_true_1 _); vm_compute; reflexivity).
  pose proof (proj1 (NoDup_alt _) Hnd _ _ _ E E'). lia.
Qed.

(** A scrape never emits two block metrics with the same identity, which
    Prometheus would reject as a whole: when the map yields each device and
    operation once and the resolver attributes distinct devices to distinct
    volumes, the emitted metrics differ in their description or their labels. *)
Theorem block_metrics_distinct c l :
  NoDup ((λ e, (bhk_dev e.1, bhk_op e.1)) <$> l) → Forall (λ e, is_u32 (bhk_dev e.1) ∧ 0 <= bhk_op e.1) l →
  (∀ d d' i i', Resolver_Lookup (c_resolver c) d = Some i → Resolver_Lookup (c_resolver c) d' = Some i' →
     Namespace i = Namespace i' → PVCName i = PVCName i' → PodName i = PodName i' → d = d') →
  NoDup (metric_id <$> emitted (collectBlock c l)).
Proof.
  intros Hnd Hwf Hinj. unfold emitted, collectBlock. rewrite omap_fmap_compose.
  eapply NoDup_fmap_omap; [exact Hnd|]. rewrite Forall_forall in Hwf.
  intros [k v] [k' v'] m m' Hx Hy Hm Hm' Hid. cbn [fst].
  destruct (Hwf _ Hx) as [Hd Ho], (Hwf _ Hy) as [Hd' Ho']. cbn [fst] in *.
  destruct (collect_block_entry c (k, v)) as [m0| | |] eqn:E; simplify_eq.
  destruct (collect_block_entry c (k', v')) as [m0'| | |] eqn:E'; simplify_eq.
  apply collect_block_entry_emit in E as (_ & cnt & sm & b & op & _ & _ & Hop & E).
  apply collect_block_entry_emit in E' as (_ & cnt' & sm' & b' & op' & _ & _ & Hop' & E').
  destruct (Resolver_Lookup _ (bhk_dev k)) as [i|] eqn:Ei; [destruct E as [_ E]|];
    (destruct (Resolver_Lookup _ (bhk_dev k')) as [i'|] eqn:Ei'; [destruct E' as [_ E']|]);
    subst; cbn [metric_id] in Hid; try done; simplify_eq; f_equal; try (by eapply op_label_inj).
  - by eapply Hinj.
  - by apply DevToString_inj.
Qed.
End Collect.

(** ** An example scrape *)

Definition example_collector : Collector :=
  NewCollector (Programs (Some [(BlockHistKey 8388624 1 [0; 0; 0], hist_incr 13 zero_hist)]) None None true false false)
    (scan (NewResolver "node-1" "/proc") example_world) "node-1" default_boundaries [].

Lemma collect_never_panics_witness : Panic ∉ Collect example_collector.
Proof.
  apply collect_never_panics. split_and!; cbn; [|done..]. intros l [= <-]. repeat constructor; cbn; lia.
Defined.

Lemma block_metrics_distinct_witness :
  NoDup (metric_id <$> emitted (collectBlock example_collector
    [(BlockHistKey 8388624 1 [0; 0; 0], hist_incr 13 zero_hist); (BlockHistKey 8388624 0 [0; 0; 0], hist_incr 9 zero_hist)])).
Proof.
  apply block_metrics_distinct.
  - apply (bool_decide_eq_true_1 _). vm_compute. reflexivity.
  - repeat constructor; cbn; unfold is_u32; lia.
  - assert (Hd : devices (c_resolver example_collector) = {[45 :=
      Info "my-data-pvc" "virt-launcher-my-vm-abc" "default" "node-1" (MountPoint example_entry) "server:/export" true]})
      by (vm_compute; reflexivity).
    intros d d' i i'. unfold Resolver_Lookup. rewrite Hd. intros [<- _]%lookup_singleton_Some [<- _]%lookup_singleton_Some. done.
Defined.

Lemma block_metrics_exact_witness :
  let '(cnt, sm, b) := SlotsToConstHistogram (slots (hist_incr 13 zero_hist)) default_boundaries in
  collect_block_entry example_collector (BlockHistKey 8388624 1 [0; 0; 0], hist_incr 13 zero_hist) =
    Emit (ConstHistogram systemBlockDesc cnt sm b ["node-1"; "8:16"; "write"]).
Proof.
  pose proof (block_metrics_exact example_collector (BlockHistKey 8388624 1 [0; 0; 0]) (hist_incr 13 zero_hist)) as H.
  destruct (SlotsToConstHistogram (slots (hist_incr 13 zero_hist)) default_boundaries) as [[cnt sm] b] eqn:E.
  change (c_buckets example_collector) with default_boundaries in H. rewrite E in H.
  rewrite H; clear H.
  - rewrite decide_True; [vm_compute; reflexivity|]. split; [cbn; lia|]. apply (f_equal (fst ∘ fst)) in E.
    intros ->. revert E. vm_compute. done.
  - cbn. lia.
  - repeat constructor; vm_compute; reflexivity.
  - intros info. vm_compute. done.
Defined.
