(* ===== verification/ScrapePipeline.v ===== *)
(** * A whole scrape

    Puts the BPF programs, the maps they fill, the iterator through which Go
    reads them, the histogram conversion, the resolver and the collector
    together: what one call of Collect reports is a function of the ledgers of
    latencies that the three families of programs implement. *)
From S2P Require Import Prelude CLayout KernelTypes CoreRead BpfMap Bits Common BpfProg BpfRecord BpfTracer BlockLatency NfsLatency NfsKprobeLatency GoStrings GoFloat Histogram EndToEnd Device ProcMounts KubeletPaths Resolver EbpfCollector.

(** ** What should be reported *)

(** The exported histogram of a list of latencies in microseconds: their number,
    the midpoints of their slots added up, and for every boundary how many fall in
    a slot within it. *)
Definition latency_sum (us : list Z) : float64 :=
  foldl (λ s i, f64_add s (f64_mul (f64_of_Z (u64 (zcount (λ x, bool_decide (class x = i)) us))) (f64_div (midpointUS i) (f64_of_Z 1000000))))
    (S754_zero false) (seq 0 MaxSlots).
Definition latency_histogram (bs : list float64) (us : list Z) : Z * float64 * list (float64 * Z) :=
  (u64 (Z.of_nat (length us)), latency_sum us, foldl (λ m b, bucket_set b (u64 (zcount (counted_within b) us)) m) [] bs).

(** Which metric and labels stand for a device, unless its namespace is filtered out. *)
Definition pod_labels (c : Collector) (info : DeviceInfo) : list string := [c_nodeName c; Namespace info; PVCName info; PodName info].
Definition describe_block (c : Collector) (dev : Z) : option (desc * list string) :=
  match Resolver_Lookup (c_resolver c) dev with
  | Some info => if namespaceAllowed c (Namespace info) then Some (podBlockDesc, pod_labels c info) else None
  | None => Some (systemBlockDesc, [c_nodeName c; DevToString dev])
  end.
Definition describe_nfs (d : desc) (c : Collector) (dev : Z) : option (desc * list string) :=
  info ← Resolver_Lookup (c_resolver c) dev; if namespaceAllowed c (Namespace info) then Some (d, pod_labels c info) else None.

Section Report.
Context `{!ConstHistograms}.

(** The metric of a device and operation with a given histogram. *)
Definition report_metric (labels : list string) (describe : Z → option (desc * list string)) (dev op : Z)
    (h : Z * float64 * list (float64 * Z)) : option metric :=
  let '(n, s, b) := h in
  ol ← labels !! Z.to_nat op; '(d, ls) ← describe dev; if n =? 0 then None else NewConstHistogram d n s b (ls ++ [ol]).

(** The metrics of the entries of a map. *)
Definition entry_metrics {K} (dev op : K → Z) (labels : list string) (describe : Z → option (desc * list string)) (bs : list float64)
    (l : list (K * hist)) : list metric :=
  omap (λ e, report_metric labels describe (dev e.1) (op e.1) (SlotsToConstHistogram (slots e.2) bs)) l.

(** The report of a ledger: one metric for every device and operation of the ledger. *)
Definition report {SK SV HK : Type} `{Countable SK} `{!Zeroed SV} `{Countable HK} (dev op : HK → Z) (labels : list string)
    (describe : Z → option (desc * list string)) (bs : list float64) (L : ledger SK SV HK) : list metric :=
  omap (λ hk, report_metric labels describe (dev hk) (op hk) (latency_histogram bs (latencies L hk))) (remove_dups (samples L).*1).

(** ** What the collector makes of an entry *)

Definition emits (o : outcome) : option metric := match o with Emit m => Some m | _ => None end.

#[local] Opaque SlotsToConstHistogram DevToString.

Lemma emits_emit d n s b ls ol : emits (emit d n s b ls ol) = l ← ol; NewConstHistogram d n s b (ls ++ [l]).
Proof. unfold emit. destruct ol as [l|]; [|done]. cbn. by destruct (NewConstHistogram _ _ _ _ _). Qed.

(** The operation is in range exactly when it has a label. *)
Lemma op_in_range (labels : list string) n op :
  Z.of_nat (length labels) = n + 1 → (n <? op) = true → labels !! Z.to_nat op = None.
Proof. intros Hl Ho. apply lookup_ge_None_2. lia. Qed.

(** Left to do once the order of the two reasons to skip an entry is settled. *)
Ltac entry_cases :=
  repeat match goal with
  | |- context [SlotsToConstHistogram ?a ?b] => destruct (SlotsToConstHistogram a b) as [[? ?] ?]
  | |- context [?n =? 0] => destruct (n =? 0)
  | |- context [Resolver_Lookup ?r ?d] => destruct (Resolver_Lookup r d); cbn [mbind option_bind]
  | |- context [namespaceAllowed ?c ?n] => destruct (namespaceAllowed c n)
  end; cbn [negb mbind option_bind emits]; rewrite ?emits_emit; try done;
  match goal with |- context [?l !! Z.to_nat ?o] => by destruct (l !! Z.to_nat o) end.

Lemma block_entry_metric c k h :
  emits (collect_block_entry c (k, h)) =
  report_metric opLabels (describe_block c) (bhk_dev k) (bhk_op k) (SlotsToConstHistogram (slots h) (c_buckets c)).
Proof.
  unfold collect_block_entry, report_metric, describe_block, pod_labels. destruct (3 <? bhk_op k) eqn:E.
  - rewrite (op_in_range opLabels 3) by done. by destruct (SlotsToConstHistogram _ _) as [[? ?] ?].
  - entry_cases.
Qed.

Lemma take2_label op : (1 <? op) = false → opLabels !! Z.to_nat op = take 2 opLabels !! Z.to_nat op.
Proof. intros E%Z.ltb_ge. rewrite lookup_take_lt; [done|lia]. Qed.

Lemma nfs_entry_metric c k h :
  emits (collect_nfs_entry c (k, h)) =
  report_metric (take 2 opLabels) (describe_nfs nfsDesc c) (nhk_dev k) (nhk_op k) (SlotsToConstHistogram (slots h) (c_buckets c)).
Proof.
  unfold collect_nfs_entry, report_metric, describe_nfs, pod_labels. destruct (1 <? nhk_op k) eqn:E.
  - rewrite (op_in_range (take 2 opLabels) 1) by done. by destruct (SlotsToConstHistogram _ _) as [[? ?] ?].
  - rewrite (take2_label _ E). entry_cases.
Qed.

Lemma vfs_entry_metric c k h :
  emits (collect_nfs_kprobe_entry c (k, h)) =
  report_metric nfsVfsOpLabels (describe_nfs nfsVfsDesc c) (nhk_dev k) (nhk_op k) (SlotsToConstHistogram (slots h) (c_buckets c)).
Proof.
  unfold collect_nfs_kprobe_entry, report_metric, describe_nfs, pod_labels. destruct (3 <? nhk_op k) eqn:E.
  - rewrite (op_in_range nfsVfsOpLabels 3) by done. by destruct (SlotsToConstHistogram _ _) as [[? ?] ?].
  - entry_cases.
Qed.

Lemma report_metric_empty labels describe dev op s b : report_metric labels describe dev op (0, s, b) = None.
Proof. unfold report_metric. destruct (labels !! _); [|done]. cbn. by destruct (describe dev) as [[? ?]|]. Qed.
End Report.

(** ** The iterator *)

(** What iterating a map yields while nobody changes it: every entry once. *)
Definition iterates {K : Type} `{Countable K} (m : bmap K hist) (l : list (K * hist)) : Prop :=
  NoDup l.*1 ∧ ∀ k h, (k, h) ∈ l ↔ bm_get m k = Some h.

Lemma foldl_ext {A B} (f g : A → B → A) a l : (∀ a b, f a b = g a b) → foldl f a l = foldl g a l.
Proof. intros E. revert a. induction l as [|b l IH]; intros a; [done|]. cbn [foldl]. by rewrite E, IH. Qed.

Section Family.
Context {SK SV HK : Type} `{Countable SK} `{!Zeroed SV} `{Countable HK} (ts_of : SV → Z) (Sok : SV → Prop).
Context (st : state SK SV HK) (L : ledger SK SV HK) (Hag : agrees ts_of Sok st L).

Lemma slot_ledger hk h i :
  bm_get (st_hists st) hk = Some h → default 0 (slots h !! i) = u64 (zcount (λ us, bool_decide (class us = i)) (latencies L hk)).
Proof.
  intros Hh. rewrite <- (tally_class ts_of), <- (ag_count _ _ _ _ Hag) by lia. unfold count_at, hist_slot. by rewrite Hh, Nat2Z.id.
Qed.

Lemma add_slots_sum sl t l :
  sum (foldl (add_slot sl) t l) =
  foldl (λ s i, f64_add s (f64_mul (f64_of_Z (default 0 (sl !! i))) (f64_div (midpointUS i) (f64_of_Z 1000000)))) (sum t) l.
Proof. revert t. induction l as [|i l IH]; intros t; [done|]. cbn [foldl]. by rewrite IH. Qed.

(** The exported histogram of an entry is that of the latencies of its key. *)
Lemma entry_histogram hk h bs :
  bm_get (st_hists st) hk = Some h → SlotsToConstHistogram (slots h) bs = latency_histogram bs (latencies L hk).
Proof.
  intros Hh. unfold latency_histogram, latency_sum.
  assert (Hc : count (totals_of (slots h)) = u64 (Z.of_nat (length (latencies L hk)))).
  { destruct (add_slots_prefix (slots h) MaxSlots ltac:(done)) as (Hc & Hct & _). unfold totals_of. rewrite Hct, Hc. by eapply total_ledger. }
  unfold SlotsToConstHistogram. rewrite Hc. f_equal; [f_equal|].
  - unfold totals_of. rewrite add_slots_sum. cbn [sum]. apply foldl_ext. intros s i. by rewrite (slot_ledger _ _ _ Hh).
  - apply foldl_ext. intros m b. rewrite bucket_value_within. by rewrite (within_ledger ts_of Sok st L hk h b Hag Hh).
Qed.

(** A key that is not in the map has no latencies, modulo 2^64. *)
Lemma absent_empty hk : bm_get (st_hists st) hk = None → u64 (Z.of_nat (length (latencies L hk))) = 0.
Proof.
  intros Hn. rewrite <- (zcount_all (λ us, bool_decide (class us ∈ seq 0 MaxSlots)))
    by (intros us; apply bool_decide_eq_true_2, elem_of_seq; pose proof (class_lt us); lia).
  rewrite <- zsum_classes, <- (u64_zsum (λ i, zcount (λ us, bool_decide (class us = i)) (latencies L hk))) by apply NoDup_seq.
  transitivity (u64 (zsum ((λ _, 0) <$> seq 0 MaxSlots))); [|done]. do 2 f_equal. apply list_fmap_ext. intros ? i _.
  rewrite <- (tally_class ts_of), <- (ag_count _ _ _ _ Hag) by lia. unfold count_at. by rewrite Hn.
Qed.

Context `{!ConstHistograms} (dev op : HK → Z) (labels : list string) (describe : Z → option (desc * list string)) (bs : list float64).

(** The metrics made of the entries are those of the ledger. *)
Lemma entries_report l :
  iterates (st_hists st) l →
  entry_metrics dev op labels describe bs l ≡ₚ report dev op labels describe bs L.
Proof.
  intros [Hnd Hit]. unfold report. set (F := λ hk, report_metric labels describe (dev hk) (op hk) (latency_histogram bs (latencies L hk))).
  assert (Hl : entry_metrics dev op labels describe bs l = omap F l.*1).
  { unfold entry_metrics. rewrite omap_fmap_compose. assert (Hall : Forall (λ e, bm_get (st_hists st) e.1 = Some e.2) l) by (apply Forall_forall; intros [k h]; apply Hit).
    clear Hnd Hit. induction Hall as [|[k h] l' Hk _ IH]; [done|]. cbn [omap list_omap fst snd] in *.
    rewrite (entry_histogram k h bs Hk). unfold F at 1. by rewrite IH. }
  rewrite Hl. apply omap_same; [done|apply NoDup_remove_dups|]. intros hk m Hm.
  assert (Hne : u64 (Z.of_nat (length (latencies L hk))) ≠ 0).
  { intros E. unfold F, latency_histogram in Hm. by rewrite E, report_metric_empty in Hm. }
  split; intros _.
  - apply elem_of_remove_dups. unfold latencies in Hne. destruct (filter (λ x, x.1 = hk) (samples L)) as [|x xs] eqn:E; [by cbn in Hne|].
    apply list_elem_of_fmap. exists x. assert (Hx : x ∈ filter (λ x, x.1 = hk) (samples L)) by (rewrite E; apply list_elem_of_here).
    apply list_elem_of_filter in Hx as [<- Hx]. done.
  - destruct (bm_get (st_hists st) hk) as [h|] eqn:Eh; [|by apply absent_empty in Eh].
    apply list_elem_of_fmap. exists (hk, h). split; [done|]. by apply Hit.
Qed.
End Family.

(** Walking the index yields every entry once. *)
Definition entries {K : Type} `{Countable K} (m : bmap K hist) : list (K * hist) := (λ '(k, p), (k, bm_load m p)) <$> map_to_list (bm_idx m).

Lemma entries_iterates {K : Type} `{Countable K} (m : bmap K hist) : iterates m (entries m).
Proof.
  unfold entries. split.
  - rewrite <- list_fmap_compose. rewrite (list_fmap_ext _ fst) by (by intros ? [k p] ?). apply NoDup_fst_map_to_list.
  - intros k h. unfold bm_get, bm_lookup. rewrite list_elem_of_fmap, fmap_Some. split.
    + intros ([k' p] & [= -> ->] & Hp%elem_of_map_to_list). by exists p.
    + intros (p & Hp & ->). exists (k, p). split; [done|]. by apply elem_of_map_to_list.
Qed.

(** ** The whole scrape *)

Section Scrape.
Context `{!ConstHistograms}.
#[local] Opaque SlotsToConstHistogram DevToString.

Definition gauges (p : programs) : list metric :=
  [Gauge subsystemDesc (BlockActive p) ["block"]; Gauge subsystemDesc (NFSActive p) ["nfs"]; Gauge subsystemDesc (NFSKprobeActive p) ["nfs_kprobe"]].
Definition block_report (c : Collector) : ledger req_key Z block_hist_key → list metric := report bhk_dev bhk_op opLabels (describe_block c) (c_buckets c).
Definition nfs_report (c : Collector) : ledger nfs_req_key Z nfs_hist_key → list metric :=
  report nhk_dev nhk_op (take 2 opLabels) (describe_nfs nfsDesc c) (c_buckets c).
Definition vfs_report (c : Collector) : ledger Z nfs_kprobe_start_val nfs_hist_key → list metric :=
  report nhk_dev nhk_op nfsVfsOpLabels (describe_nfs nfsVfsDesc c) (c_buckets c).

(** The part of a subsystem that is not loaded is empty. *)
Definition if_loaded {A} (o : option A) (l : list metric) : list metric := match o with Some _ => l | None => [] end.

Lemma emitted_app l l' : emitted (l ++ l') = emitted l ++ emitted l'.
Proof. unfold emitted. apply omap_app. Qed.

Lemma emitted_entries {K} (f : K * hist → outcome) dev op labels describe bs l :
  (∀ k h, emits (f (k, h)) = report_metric labels describe (dev k) (op k) (SlotsToConstHistogram (slots h) bs)) →
  emitted (f <$> l) = entry_metrics dev op labels describe bs l.
Proof.
  intros Hf. unfold emitted, entry_metrics. rewrite omap_fmap_compose. induction l as [|[k h] l IH]; [done|].
  cbn [omap list_omap fst snd]. by rewrite IH, <- Hf.
Qed.

(** Collect, part by part. *)
Lemma emitted_collect c :
  emitted (Collect c) = gauges (c_programs c) ++
    entry_metrics bhk_dev bhk_op opLabels (describe_block c) (c_buckets c) (default [] (BlockHists (c_programs c))) ++
    entry_metrics nhk_dev nhk_op (take 2 opLabels) (describe_nfs nfsDesc c) (c_buckets c) (default [] (NfsHists (c_programs c))) ++
    entry_metrics nhk_dev nhk_op nfsVfsOpLabels (describe_nfs nfsVfsDesc c) (c_buckets c) (default [] (NfsKprobeHists (c_programs c))).
Proof.
  unfold Collect. rewrite !emitted_app. f_equal. f_equal; [|f_equal].
  - destruct (BlockHists _); [|done]. apply emitted_entries, block_entry_metric.
  - destruct (NfsHists _); [|done]. apply emitted_entries, nfs_entry_metric.
  - destruct (NfsKprobeHists _); [|done]. apply emitted_entries, vfs_entry_metric.
Qed.

(** C2.  What a scrape reports, from the kernel to the page: after any traces of
    block requests, NFS requests and NFS calls in which the kernel evicts nothing,
    and whatever the resolver knows, Collect sends up to order the gauges of the
    subsystems and, for every subsystem that is loaded, one histogram for each
    device and operation of its ledger whose namespace is allowed; its count is
    the number of latencies, its buckets count those in slots within the boundary,
    and its labels are those of the pod that the resolver attributes the device to
    (a block device it does not know appears under its number).  Nothing else is
    sent. *)
Theorem scrape_refines_ledgers `{!ProbeReadKernel} E c trb trn trk :
  quiet block_program block_init trb → quiet (nfs_attached E) nfs_init trn → quiet (kprobe_attached E) kprobe_init trk →
  (∀ l, BlockHists (c_programs c) = Some l → iterates (st_hists (run_trace block_program block_init trb)) l) →
  (∀ l, NfsHists (c_programs c) = Some l → iterates (st_hists (run_trace (nfs_attached E) nfs_init trn)) l) →
  (∀ l, NfsKprobeHists (c_programs c) = Some l → iterates (st_hists (run_trace (kprobe_attached E) kprobe_init trk)) l) →
  emitted (Collect c) ≡ₚ gauges (c_programs c) ++
    if_loaded (BlockHists (c_programs c)) (block_report c (ledger_trace (λ t, t) block_abstract (Ledger ∅ []) trb)) ++
    if_loaded (NfsHists (c_programs c)) (nfs_report c (ledger_trace (λ t, t) (nfs_abstract E) (Ledger ∅ []) trn)) ++
    if_loaded (NfsKprobeHists (c_programs c)) (vfs_report c (ledger_trace ks_ts (kprobe_abstract E) (Ledger ∅ []) trk)).
Proof.
  intros Hb Hn Hk Ib In_ Ik. rewrite emitted_collect. f_equiv. f_equiv; [|f_equiv].
  - destruct (BlockHists _) as [l|]; [|done]. exact (entries_report _ _ _ _ (block_agrees trb Hb) _ _ _ _ _ l (Ib l eq_refl)).
  - destruct (NfsHists _) as [l|]; [|done]. exact (entries_report _ _ _ _ (nfs_agrees E trn Hn) _ _ _ _ _ l (In_ l eq_refl)).
  - destruct (NfsKprobeHists _) as [l|]; [|done]. exact (entries_report _ _ _ _ (kprobe_agrees E trk Hk) _ _ _ _ _ l (Ik l eq_refl)).
Qed.

(** ** No metric twice *)

Lemma report_metric_id labels describe dev op h m :
  report_metric labels describe dev op h = Some m →
  ∃ d ls ol, describe dev = Some (d, ls) ∧ labels !! Z.to_nat op = Some ol ∧ metric_id m = (d, ls ++ [ol]).
Proof.
  unfold report_metric. destruct h as [[n s] b]. destruct (labels !! _) as [ol|]; [|done]. cbn.
  destruct (describe dev) as [[d ls]|]; [|done]. cbn. destruct (n =? 0); [done|]. intros ->%const_histogram_value. by exists d, ls, ol.
Qed.

Lemma entry_metrics_distinct {K} (dev op : K → Z) labels describe bs (l : list (K * hist)) :
  NoDup labels → NoDup ((λ e, (dev e.1, op e.1)) <$> l) → Forall (λ e, 0 <= op e.1) l →
  (∀ e e' x, e ∈ l → e' ∈ l → describe (dev e.1) = Some x → describe (dev e'.1) = Some x → dev e.1 = dev e'.1) →
  NoDup (metric_id <$> entry_metrics dev op labels describe bs l).
Proof.
  intros Hl Hnd Hop Hinj. unfold entry_metrics. eapply NoDup_fmap_omap; [exact Hnd|]. rewrite Forall_forall in Hop.
  intros x y a b Hx Hy (d & ls & ol & Hd & Ho & Ea)%report_metric_id (d' & ls' & ol' & Hd' & Ho' & Eb)%report_metric_id Hid.
  rewrite Ea, Eb in Hid. injection Hid as -> [-> [= ->]]%app_inj_tail. f_equal; [by eapply Hinj|].
  pose proof (proj1 (NoDup_alt _) Hl _ _ _ Ho Ho'). pose proof (Hop x Hx). pose proof (Hop y Hy). lia.
Qed.

(** The descriptions a part uses. *)
Lemma entry_metrics_desc {K} (P : desc → Prop) (dev op : K → Z) labels describe bs (l : list (K * hist)) i :
  (∀ v d ls, describe v = Some (d, ls) → P d) → i ∈ metric_id <$> entry_metrics dev op labels describe bs l → P i.1.
Proof.
  intros HP (m & -> & (e & _ & (d & ls & ol & Hd & _ & ->)%report_metric_id)%list_elem_of_omap)%list_elem_of_fmap. by eapply HP.
Qed.

Lemma describe_block_desc c v d ls : describe_block c v = Some (d, ls) → d = podBlockDesc ∨ d = systemBlockDesc.
Proof. unfold describe_block. destruct (Resolver_Lookup _ _); [case_match|]; naive_solver. Qed.

Lemma describe_nfs_desc d0 c v d ls : describe_nfs d0 c v = Some (d, ls) → d = d0.
Proof. unfold describe_nfs. destruct (Resolver_Lookup _ _); cbn; [case_match|]; naive_solver. Qed.

(** The resolver tells volumes apart: two devices with the labels of one volume
    are the same. *)
Definition volumes_apart (r : Resolver) : Prop :=
  ∀ d d' i i', Resolver_Lookup r d = Some i → Resolver_Lookup r d' = Some i' →
    Namespace i = Namespace i' → PVCName i = PVCName i' → PodName i = PodName i' → d = d'.

Lemma describe_block_inj c d d' x :
  volumes_apart (c_resolver c) → is_u32 d → is_u32 d' → describe_block c d = Some x → describe_block c d' = Some x → d = d'.
Proof.
  intros Ha Hd Hd'. unfold describe_block, pod_labels. destruct (Resolver_Lookup _ d) as [i|] eqn:Ei, (Resolver_Lookup _ d') as [i'|] eqn:Ei'.
  - destruct (namespaceAllowed c (Namespace i)), (namespaceAllowed c (Namespace i')); try done. intros [= <-] [= E1 E2 E3]. by eapply Ha.
  - destruct (namespaceAllowed c (Namespace i)); [|done]. by intros [= <-].
  - destruct (namespaceAllowed c (Namespace i')); [|done]. by intros [= <-].
  - intros [= <-] [= E]. symmetry. by apply DevToString_inj.
Qed.

Lemma describe_nfs_inj d0 c d d' x :
  volumes_apart (c_resolver c) → describe_nfs d0 c d = Some x → describe_nfs d0 c d' = Some x → d = d'.
Proof.
  intros Ha. unfold describe_nfs, pod_labels. destruct (Resolver_Lookup _ d) as [i|] eqn:Ei; [|done].
  destruct (Resolver_Lookup _ d') as [i'|] eqn:Ei'; [|done]. cbn.
  destruct (namespaceAllowed c (Namespace i)), (namespaceAllowed c (Namespace i')); try done. intros [= <-] [= E1 E2 E3]. by eapply Ha.
Qed.

(** The entries of a map by device and operation. *)
Definition keyed {K} (dev op : K → Z) (l : list (K * hist)) : Prop :=
  NoDup ((λ e, (dev e.1, op e.1)) <$> l) ∧ Forall (λ e, is_u32 (dev e.1) ∧ 0 <= op e.1) l.

(** C39.  When the three maps yield each device and operation once and the resolver
    attributes different devices to different volumes, a scrape sends no two metrics
    with the same identity, for which Prometheus would reject the whole page: all
    metrics of a call of Collect, of the three subsystems and the gauges, differ in
    their description or their labels.  The code does not ensure the second
    condition over the whole of a scrape that overlaps with a scan
    ([scan_during_scrape_collides] in ScrapeConcurrency). *)
Theorem scrape_metrics_distinct c :
  keyed bhk_dev bhk_op (default [] (BlockHists (c_programs c))) → keyed nhk_dev nhk_op (default [] (NfsHists (c_programs c))) →
  keyed nhk_dev nhk_op (default [] (NfsKprobeHists (c_programs c))) → volumes_apart (c_resolver c) →
  NoDup (metric_id <$> emitted (Collect c)).
Proof.
  intros [Nb Fb] [Nn Fn] [Nk Fk] Ha. rewrite emitted_collect, !fmap_app.
  assert (Hop : ∀ K (dev op : K → Z) (l : list (K * hist)), Forall (λ e, is_u32 (dev e.1) ∧ 0 <= op e.1) l → Forall (λ e, 0 <= op e.1) l)
    by (intros *; intros Hf; eapply Forall_impl; [exact Hf|]; intros ? [_ ?]; done).
  assert (NoDup opLabels ∧ NoDup (take 2 opLabels) ∧ NoDup nfsVfsOpLabels) as (L1 & L2 & L3)
    by (split_and!; apply (bool_decide_eq_true_1 _); vm_compute; reflexivity).
  pose proof (λ bs l i, entry_metrics_desc (λ d, d = podBlockDesc ∨ d = systemBlockDesc) bhk_dev bhk_op opLabels (describe_block c) bs l i (describe_block_desc c)) as Db.
  pose proof (λ d0 ls bs l i, entry_metrics_desc (λ d, d = d0) nhk_dev nhk_op ls (describe_nfs d0 c) bs l i (describe_nfs_desc d0 c)) as Dn.
  apply NoDup_app; split_and!; [apply (bool_decide_eq_true_1 _); reflexivity| |apply NoDup_app; split_and!; [| |apply NoDup_app; split_and!]].
  - intros i Hi. assert (i.1 = subsystemDesc) by (cbn in Hi; set_solver).
    rewrite !elem_of_app. intros [?%Db|[?%Dn|?%Dn]]; naive_solver congruence.
  - apply entry_metrics_distinct; [done|done|by eapply Hop|]. intros e e' x He He'. rewrite Forall_forall in Fb.
    apply describe_block_inj; [done|by apply Fb..].
  - intros i ?%Db. rewrite elem_of_app. intros [?%Dn|?%Dn]; naive_solver congruence.
  - apply entry_metrics_distinct; [done|done|by eapply Hop|]. intros e e' x _ _. by apply describe_nfs_inj.
  - intros i ?%Dn ?%Dn. congruence.
  - apply entry_metrics_distinct; [done|done|by eapply Hop|]. intros e e' x _ _. by apply describe_nfs_inj.
Qed.
End Scrape.

(** ** An example scrape *)

(** The programs have seen one slow write to 8:16, and the resolver knows the
    NFS volume of the example host. *)
Definition slow_write_collector : Collector :=
  NewCollector (Programs (Some (entries (st_hists (run_trace block_program block_init slow_write_trace)))) None None true false false)
    (scan (NewResolver "node-1" "/proc") example_world) "node-1" default_boundaries [].

Lemma scrape_refines_ledgers_witness :
  emitted (Collect slow_write_collector) ≡ₚ gauges (c_programs slow_write_collector) ++
    block_report slow_write_collector (ledger_trace (λ t, t) block_abstract (Ledger ∅ []) slow_write_trace) ∧
  metric_id <$> block_report slow_write_collector (ledger_trace (λ t, t) block_abstract (Ledger ∅ []) slow_write_trace) =
    [(systemBlockDesc, ["node-1"; "8:16"; "write"])].
Proof.
  split; [|vm_compute; reflexivity].
  etrans; [apply (scrape_refines_ledgers vmlinux slow_write_collector slow_write_trace [] [] slow_write_quiet I I)|].
  - intros l E. change (Some (entries (st_hists (run_trace block_program block_init slow_write_trace))) = Some l) in E.
    apply (inj Some) in E. subst l. apply entries_iterates.
  - intros l E. change (None = Some l) in E. discriminate E.
  - intros l E. change (None = Some l) in E. discriminate E.
  - cbn [if_loaded c_programs slow_write_collector NewCollector BlockHists NfsHists NfsKprobeHists]. rewrite !app_nil_r. done.
Defined.

Lemma scrape_metrics_distinct_witness : NoDup (metric_id <$> emitted (Collect slow_write_collector)).
Proof.
  apply scrape_metrics_distinct.
  - assert (E : default [] (BlockHists (c_programs slow_write_collector)) = [(BlockHistKey 8388624 1 [0; 0; 0], hist_incr 13 zero_hist)])
      by (vm_compute; reflexivity).
    rewrite E. split; [apply NoDup_singleton|]. repeat constructor; cbn; unfold is_u32; lia.
  - split; constructor.
  - split; constructor.
  - assert (Hd : devices (c_resolver slow_write_collector) = {[45 :=
      Info "my-data-pvc" "virt-launcher-my-vm-abc" "default" "node-1" (MountPoint example_entry) "server:/export" true]})
      by (vm_compute; reflexivity).
    intros d d' i i'. unfold Resolver_Lookup. rewrite Hd. intros [<- _]%lookup_singleton_Some [<- _]%lookup_singleton_Some. done.
Defined.
