(* ===== verification/ScrapeConcurrency.v ===== *)
(** * Scrapes while the resolver scans

    The goroutine of [Resolver.Run] replaces the map of devices at the end of
    every scan, under the resolver's lock; scrapes of the eBPF collector look
    devices up in it one entry at a time, each look-up under the shared lock of
    its own.  Here they take turns in any order.  The assignment of the map takes
    two turns, and a look-up between the two is a data race, of which nothing is
    known: the locks have to exclude it. *)
From Stdlib Require Import Sorted.
From stdpp Require Import relations.
From S2P Require Import Prelude GoStrings GoFloat Common Histogram Device ProcMounts KubeletPaths Resolver EbpfCollector ScrapePipeline.

(** ** Handling one entry *)

(** An entry of one of the three maps. *)
Inductive work := BlockWork (e : block_hist_key * hist) | NfsWork (e : nfs_hist_key * hist) | VfsWork (e : nfs_hist_key * hist).

Definition work_dev (x : work) : Z := match x with BlockWork e => bhk_dev e.1 | NfsWork e | VfsWork e => nhk_dev e.1 end.
Definition work_hist (x : work) : hist := match x with BlockWork e => e.2 | NfsWork e | VfsWork e => e.2 end.

Definition set_resolver (r : Resolver) (c : Collector) : Collector := MkCollector (c_programs c) r (c_nodeName c) (c_buckets c) (c_namespaces c).

(** What a scrape works through, after the gauges. *)
Definition works (p : programs) : list work :=
  (BlockWork <$> default [] (BlockHists p)) ++ (NfsWork <$> default [] (NfsHists p)) ++ (VfsWork <$> default [] (NfsKprobeHists p)).

Section Machine.
Context `{!ConstHistograms} (c : Collector).

(** The body of the loop in one piece ... *)
Definition collect_work (r : Resolver) (x : work) : outcome :=
  match x with
  | BlockWork e => collect_block_entry (set_resolver r c) e
  | NfsWork e => collect_nfs_entry (set_resolver r c) e
  | VfsWork e => collect_nfs_kprobe_entry (set_resolver r c) e
  end.

(** ... up to the look-up: whether the entry is skipped ... *)
Definition skipped (x : work) : bool :=
  match x with BlockWork e => 3 <? bhk_op e.1 | NfsWork e => 1 <? nhk_op e.1 | VfsWork e => 3 <? nhk_op e.1 end ||
  ((SlotsToConstHistogram (slots (work_hist x)) (c_buckets c)).1.1 =? 0).

(** ... and from the look-up on. *)
Definition found (x : work) (info : option DeviceInfo) : outcome :=
  let '(n, s, b) := SlotsToConstHistogram (slots (work_hist x)) (c_buckets c) in
  let of_pod d info ol := if negb (namespaceAllowed c (Namespace info)) then Skip else emit d n s b (pod_labels c info) ol in
  match x, info with
  | BlockWork e, Some info => of_pod podBlockDesc info (opLabels !! Z.to_nat (bhk_op e.1))
  | BlockWork e, None => emit systemBlockDesc n s b [c_nodeName c; DevToString (bhk_dev e.1)] (opLabels !! Z.to_nat (bhk_op e.1))
  | NfsWork e, Some info => of_pod nfsDesc info (opLabels !! Z.to_nat (nhk_op e.1))
  | VfsWork e, Some info => of_pod nfsVfsDesc info (nfsVfsOpLabels !! Z.to_nat (nhk_op e.1))
  | _, None => Skip
  end.

#[local] Opaque SlotsToConstHistogram DevToString.

Lemma collect_work_split r x : collect_work r x = if skipped x then Skip else found x (Resolver_Lookup r (work_dev x)).
Proof.
  destruct x as [[k h]|[k h]|[k h]]; unfold collect_work, collect_block_entry, collect_nfs_entry, collect_nfs_kprobe_entry, skipped, found, pod_labels;
    cbn [set_resolver c_resolver c_buckets c_nodeName work_dev work_hist fst snd];
    (match goal with |- context [?n <? ?o] => destruct (n <? o) end; [done|]); cbn [orb];
    destruct (SlotsToConstHistogram _ _) as [[n s] b]; cbn [fst]; destruct (n =? 0); try done;
    destruct (Resolver_Lookup _ _); try done.
Qed.

(** ** Goroutines *)

Inductive scanner :=
  | Scanning                                       (** waiting for a tick, or at work on its own *)
  | AtMu (d : gmap Z DeviceInfo)                   (** at [r.mu.Lock()] *)
  | Writing (d : gmap Z DeviceInfo)                (** at [r.devices = devices] *)
  | HalfWritten (d : gmap Z DeviceInfo)            (** in the middle of it *)
  | Written.                                       (** at [r.mu.Unlock()] *)

Inductive scrape :=
  | Walking (todo : list work) (out : list outcome)
  | AtLookup (x : work) (todo : list work) (out : list outcome)       (** at [r.mu.RLock()] *)
  | Looking (x : work) (todo : list work) (out : list outcome)        (** holds the lock *)
  | LookedUp (info : option DeviceInfo) (x : work) (todo : list work) (out : list outcome)  (** at [r.mu.RUnlock()] *)
  | Emitting (info : option DeviceInfo) (x : work) (todo : list work) (out : list outcome)
  | Scraped (out : list outcome)
  | Raced.                                                            (** has read the field while it was written *)

Record scan_state := SState { ss_resolver : Resolver; ss_scanner : scanner; ss_scrapes : list scrape }.

Definition scan_start (r : Resolver) (n : nat) : scan_state :=
  SState r Scanning (replicate n (Walking (works (c_programs c)) (collectSubsystemGauge c))).

Definition holds_lock (s : scrape) : bool := match s with Looking _ _ _ | LookedUp _ _ _ _ => true | _ => false end.
Definition scan_locked (s : scanner) : bool := match s with Writing _ | HalfWritten _ | Written => true | _ => false end.
(** A scan that is under way, its map not assigned yet. *)
Definition unpublished (s : scanner) : bool := match s with AtMu _ | Writing _ | HalfWritten _ => true | _ => false end.

(** The map a scan builds, unless the mount table cannot be read. *)
Definition scanned (r : Resolver) (w : world) : option (gmap Z DeviceInfo) :=
  _ ← ParseMountInfo (read_file w (procPath r +:+ "/1/mountinfo")); Some (devices (scan r w)).

Definition set_devices (d : gmap Z DeviceInfo) (r : Resolver) : Resolver := MkResolver d (nodeName r) (procPath r).

(** The first scan, or a tick: the goroutine reads the world and builds the map. *)
Definition start_scan (w : world) (s : scan_state) : option scan_state :=
  match ss_scanner s with
  | Scanning => Some (SState (ss_resolver s) (match scanned (ss_resolver s) w with Some d => AtMu d | None => Scanning end) (ss_scrapes s))
  | _ => None
  end.

Definition scanner_turn (s : scan_state) : option scan_state :=
  match ss_scanner s with
  | Scanning => None
  | AtMu d => if existsb holds_lock (ss_scrapes s) then None else Some (SState (ss_resolver s) (Writing d) (ss_scrapes s))
  | Writing d => Some (SState (ss_resolver s) (HalfWritten d) (ss_scrapes s))
  | HalfWritten d => Some (SState (set_devices d (ss_resolver s)) Written (ss_scrapes s))
  | Written => Some (SState (ss_resolver s) Scanning (ss_scrapes s))
  end.

Definition scrape_turn (i : nat) (s : scan_state) : option scan_state :=
  x ← ss_scrapes s !! i;
  let go y := Some (SState (ss_resolver s) (ss_scanner s) (<[i := y]> (ss_scrapes s))) in
  match x with
  | Walking [] out => go (Scraped out)
  | Walking (x :: todo) out => go (if skipped x then Walking todo (out ++ [Skip]) else AtLookup x todo out)
  | AtLookup x todo out => if scan_locked (ss_scanner s) then None else go (Looking x todo out)
  | Looking x todo out =>
      go match ss_scanner s with HalfWritten _ => Raced | _ => LookedUp (Resolver_Lookup (ss_resolver s) (work_dev x)) x todo out end
  | LookedUp info x todo out => go (Emitting info x todo out)
  | Emitting info x todo out => go (Walking todo (out ++ [found x info]))
  | Scraped _ | Raced => None
  end.

Inductive scan_turn := StartScan (w : world) | ScanTurn | ScrapeTurn (i : nat).
Definition take_scan_turn (t : scan_turn) (s : scan_state) : option scan_state :=
  match t with StartScan w => start_scan w s | ScanTurn => scanner_turn s | ScrapeTurn i => scrape_turn i s end.
Definition scan_step (s s' : scan_state) : Prop := ∃ t, take_scan_turn t s = Some s'.

Fixpoint take_scan_turns (ts : list scan_turn) (s : scan_state) : option scan_state :=
  match ts with
  | [] => Some s
  | t :: ts' => s' ← take_scan_turn t s; take_scan_turns ts' s'
  end.

Lemma take_scan_turns_steps ts s s' : take_scan_turns ts s = Some s' → rtc scan_step s s'.
Proof.
  revert s. induction ts as [|t ts IH]; intros s Ht; [by injection Ht as ->|]. cbn in Ht.
  destruct (take_scan_turn t s) as [s1|] eqn:E; [|done]. eapply rtc_l; [by exists t|]. by apply IH.
Qed.

Lemma take_scan_turns_app ts ts' s : take_scan_turns (ts ++ ts') s = s' ← take_scan_turns ts s; take_scan_turns ts' s'.
Proof. revert s. induction ts as [|t ts IH]; intros s; [reflexivity|]. cbn. destruct (take_scan_turn t s) as [s1|]; [|reflexivity]. apply IH. Qed.

(** The scans begun in a schedule, and those whose map is assigned by the end. *)
Definition begun (ts : list scan_turn) : list world := omap (λ t, match t with StartScan w => Some w | _ => None end) ts.
Definition assigned (s : scanner) (ws : list world) : list world := if unpublished s then take (length ws - 1) ws else ws.

(** ** What a scrape has looked at *)

Lemma Run_snoc r ws w : Run r (ws ++ [w]) = scan (Run r ws) w.
Proof. unfold Run. by rewrite foldl_app. Qed.

#[local] Opaque collect_work found skipped collectSubsystemGauge Run.

(** The entry at each place was handled with the resolver as it was after as many
    scans as the list says. *)
Definition handled (r : Resolver) (ws : list world) (xs : list work) (ns : list nat) : list outcome :=
  zip_with (λ x n, collect_work (Run r (take n ws)) x) xs ns.

(** Scans only go forward. *)
Definition forward (ns : list nat) (bound : nat) : Prop := StronglySorted le ns ∧ Forall (λ n, (n <= bound)%nat) ns.

Lemma sorted_snoc ns n : StronglySorted le ns → Forall (λ m, (m <= n)%nat) ns → StronglySorted le (ns ++ [n]).
Proof.
  induction 1 as [|m ns Hs IH Hm]; intros Hn; [by repeat constructor|]. apply Forall_cons in Hn as [Hmn Hn]. cbn. constructor; [by apply IH|].
  apply Forall_app. split; [done|by repeat constructor].
Qed.

Lemma forward_snoc ns n : forward ns n → forward (ns ++ [n]) n.
Proof. intros [Hs Hf]. split; [by apply sorted_snoc|]. apply Forall_app. split; [done|]. by repeat constructor. Qed.

Lemma forward_weaken ns n n' : (n <= n')%nat → forward ns n → forward ns n'.
Proof. intros Hle [Hs Hf]. split; [done|]. eapply Forall_impl; [exact Hf|]. cbn. lia. Qed.

Lemma handled_more r ws w xs ns : forward ns (length ws) → handled r (ws ++ [w]) xs ns = handled r ws xs ns.
Proof.
  intros [_ Hf]. unfold handled. revert xs. induction Hf as [|n ns Hn _ IH]; intros [|x xs]; cbn [zip_with]; [reflexivity..|reflexivity|].
  apply (f_equal2 cons); [by rewrite take_app_le by lia|exact (IH xs)].
Qed.

Lemma handled_snoc r ws xs ns x n :
  length xs = length ns → handled r ws (xs ++ [x]) (ns ++ [n]) = handled r ws xs ns ++ [collect_work (Run r (take n ws)) x].
Proof. intros Hl. unfold handled. by rewrite zip_with_app by done. Qed.

(** ** The invariant *)

Section Invariant.
Context (r0 : Resolver).

(** A scrape in progress: the entries behind it, the state of the resolver each
    was handled with, and those ahead. *)
Definition behind (ws : list world) (todo : list work) (out : list outcome) (bound : nat) : Prop :=
  ∃ xs ns, works (c_programs c) = xs ++ todo ∧ length xs = length ns ∧ forward ns bound ∧
    out = collectSubsystemGauge c ++ handled r0 ws xs ns.

Definition scrape_ok (ws : list world) (locked : bool) (s : scrape) : Prop :=
  match s with
  | Walking todo out => behind ws todo out (length ws)
  | AtLookup x todo out => skipped x = false ∧ behind ws (x :: todo) out (length ws)
  | Looking x todo out => locked = false ∧ skipped x = false ∧ behind ws (x :: todo) out (length ws)
  | LookedUp info x todo out => locked = false ∧ skipped x = false ∧
      ∃ n, (n <= length ws)%nat ∧ info = Resolver_Lookup (Run r0 (take n ws)) (work_dev x) ∧ behind ws (x :: todo) out n
  | Emitting info x todo out => skipped x = false ∧
      ∃ n, (n <= length ws)%nat ∧ info = Resolver_Lookup (Run r0 (take n ws)) (work_dev x) ∧ behind ws (x :: todo) out n
  | Scraped out => behind ws [] out (length ws)
  | Raced => False
  end.

(** The scan under way, if there is one, is of the world [pending]. *)
Definition scanner_ok (r : Resolver) (s : scanner) (pending : list world) : Prop :=
  match s with AtMu d | Writing d | HalfWritten d => ∃ w, pending = [w] ∧ scan r w = set_devices d r | _ => pending = [] end.

Record scans_ok (ws pending : list world) (s : scan_state) : Prop := {
  so_resolver : ss_resolver s = Run r0 ws;
  so_scanner : scanner_ok (ss_resolver s) (ss_scanner s) pending;
  so_scrapes : Forall (scrape_ok ws (scan_locked (ss_scanner s))) (ss_scrapes s);
}.

Lemma scanned_scan r w d : scanned r w = Some d → scan r w = set_devices d r.
Proof. unfold scanned, scan. destruct (ParseMountInfo _); [|done]. cbn. by intros [= <-]. Qed.

Lemma unreadable_scan r w : scanned r w = None → scan r w = r.
Proof. unfold scanned, scan. by destruct (ParseMountInfo _). Qed.

Lemma behind_more ws w todo out n : (n <= length ws)%nat → behind ws todo out n → behind (ws ++ [w]) todo out n.
Proof.
  intros Hn (xs & ns & Hw & Hl & Hf & ->). exists xs, ns. split_and!; [exact Hw|exact Hl|exact Hf|].
  rewrite handled_more; [reflexivity|]. by eapply forward_weaken.
Qed.

Lemma behind_weaken ws todo out n n' : (n <= n')%nat → behind ws todo out n → behind ws todo out n'.
Proof. intros Hle (xs & ns & Hw & Hl & Hf & ->). exists xs, ns. split_and!; [exact Hw|exact Hl|by eapply forward_weaken|reflexivity]. Qed.

(** The next entry, handled with the resolver after [n] scans. *)
Lemma behind_next ws x todo out n :
  (n <= length ws)%nat → behind ws (x :: todo) out n → behind ws todo (out ++ [collect_work (Run r0 (take n ws)) x]) (length ws).
Proof.
  intros Hn (xs & ns & Hw & Hl & Hf & ->). exists (xs ++ [x]), (ns ++ [n]). split_and!.
  - by rewrite <- app_assoc.
  - rewrite !length_app. cbn. lia.
  - eapply forward_weaken; [exact Hn|]. by apply forward_snoc.
  - rewrite <- app_assoc, handled_snoc by exact Hl. reflexivity.
Qed.

Lemma scrape_ok_more ws w b s : scrape_ok ws b s → scrape_ok (ws ++ [w]) b s.
Proof.
  assert (Hlen : (length ws <= length (ws ++ [w]))%nat) by (rewrite length_app; lia).
  assert (Hmore : ∀ todo out, behind ws todo out (length ws) → behind (ws ++ [w]) todo out (length (ws ++ [w])))
    by (intros todo out Hb; eapply behind_weaken; [exact Hlen|]; apply behind_more; [reflexivity|exact Hb]).
  assert (Hsaw : ∀ info x todo out, (∃ n, (n <= length ws)%nat ∧ info = Resolver_Lookup (Run r0 (take n ws)) (work_dev x) ∧ behind ws (x :: todo) out n) →
    ∃ n, (n <= length (ws ++ [w]))%nat ∧ info = Resolver_Lookup (Run r0 (take n (ws ++ [w]))) (work_dev x) ∧ behind (ws ++ [w]) (x :: todo) out n).
  { intros info x todo out (n & Hn & -> & Hb). exists n. split_and!; [lia|rewrite take_app_le by lia; reflexivity|apply behind_more; [exact Hn|exact Hb]]. }
  destruct s as [todo out|x todo out|x todo out|info x todo out|info x todo out|out|]; intros Hok; cbn [scrape_ok] in *.
  - exact (Hmore _ _ Hok).
  - destruct Hok as [Hs Hb]. split; [exact Hs|exact (Hmore _ _ Hb)].
  - destruct Hok as (Hl & Hs & Hb). split_and!; [exact Hl|exact Hs|exact (Hmore _ _ Hb)].
  - destruct Hok as (Hl & Hs & Hb). split_and!; [exact Hl|exact Hs|exact (Hsaw _ _ _ _ Hb)].
  - destruct Hok as [Hs Hb]. split; [exact Hs|exact (Hsaw _ _ _ _ Hb)].
  - exact (Hmore _ _ Hok).
  - exact Hok.
Qed.

Lemma scans_ok_start n : scans_ok [] [] (scan_start r0 n).
Proof.
  split; [done|done|]. apply Forall_replicate. exists [], []. split_and!; [reflexivity|reflexivity|by repeat constructor|].
  unfold handled. cbn [zip_with]. rewrite app_nil_r. reflexivity.
Qed.

(** Only a scrape without the lock does not mind who else has it. *)
Lemma scrape_ok_lock ws b b' s : holds_lock s = false ∨ b' = false → scrape_ok ws b s → scrape_ok ws b' s.
Proof.
  intros Hl. destruct s; cbn [holds_lock scrape_ok] in *; try exact id; destruct Hl as [Hl| ->]; try discriminate Hl; (intros (_ & Hs); split; [reflexivity|exact Hs]).
Qed.

Lemma scrape_ok_unlocked ws x : scrape_ok ws true x → holds_lock x = false.
Proof. destruct x; cbn [scrape_ok holds_lock]; try reflexivity; by intros [[=] _]. Qed.

Lemma scans_ok_begin ws pending w s s' :
  scans_ok ws pending s → start_scan w s = Some s' → pending = [] ∧ ∃ ws' pending', ws ++ [w] = ws' ++ pending' ∧ scans_ok ws' pending' s'.
Proof.
  intros [Hr Hs Hc] Ht. unfold start_scan in Ht. destruct (ss_scanner s) as [|d|d|d|] eqn:Es; try discriminate Ht. injection Ht as <-.
  cbn [scanner_ok] in Hs. split; [exact Hs|]. destruct (scanned (ss_resolver s) w) as [d|] eqn:Ed.
  - exists ws, [w]. split; [reflexivity|]. split; [exact Hr| |exact Hc]. exists w. split; [reflexivity|]. by apply scanned_scan.
  - exists (ws ++ [w]), []. rewrite app_nil_r. split; [reflexivity|]. split; [|reflexivity|].
    + cbn [ss_resolver]. by rewrite Run_snoc, <- Hr, unreadable_scan.
    + cbn [ss_scanner scan_locked ss_scrapes] in *. eapply Forall_impl; [exact Hc|]. intros x. apply scrape_ok_more.
Qed.

Lemma scans_ok_scanner ws pending s s' :
  scans_ok ws pending s → scanner_turn s = Some s' → ∃ ws' pending', ws ++ pending = ws' ++ pending' ∧ scans_ok ws' pending' s'.
Proof.
  intros [Hr Hs Hc] Ht. unfold scanner_turn in Ht. destruct (ss_scanner s) as [|d|d|d|] eqn:Es; [discriminate Ht| | | |].
  - destruct (existsb holds_lock (ss_scrapes s)) eqn:Ex; [discriminate Ht|]. injection Ht as <-. exists ws, pending. split; [reflexivity|]. split; [exact Hr|exact Hs|].
    rewrite Forall_forall in Hc |- *. intros x Hx. apply (scrape_ok_lock ws false); [|exact (Hc x Hx)]. left.
    destruct (holds_lock x) eqn:Eh; [|done]. enough (existsb holds_lock (ss_scrapes s) = true) by congruence.
    apply existsb_exists. exists x. split; [by apply list_elem_of_In|done].
  - injection Ht as <-. exists ws, pending. split; [reflexivity|]. by split.
  - injection Ht as <-. destruct Hs as (v & -> & Hv). exists (ws ++ [v]), []. rewrite app_nil_r. split; [reflexivity|]. split; [|reflexivity|].
    + cbn [ss_resolver]. by rewrite <- Hv, Hr, Run_snoc.
    + cbn [ss_scanner scan_locked ss_scrapes] in *. eapply Forall_impl; [exact Hc|]. intros x Hx.
      by apply scrape_ok_more.
  - injection Ht as <-. exists ws, pending. split; [reflexivity|]. split; [exact Hr|exact Hs|]. eapply Forall_impl; [exact Hc|].
    intros x. apply scrape_ok_lock. by right.
Qed.

Lemma scrape_ok_turn ws pending s i s' : scans_ok ws pending s → scrape_turn i s = Some s' → scans_ok ws pending s'.
Proof.
  intros [Hr Hs Hc] Ht. unfold scrape_turn in Ht. destruct (ss_scrapes s !! i) as [x|] eqn:Ei; [|done]. cbn [mbind option_bind] in Ht.
  pose proof (Forall_lookup_1 _ _ _ _ Hc Ei) as Hx.
  assert (Hset : ∀ y, scrape_ok ws (scan_locked (ss_scanner s)) y → scans_ok ws pending (SState (ss_resolver s) (ss_scanner s) (<[i := y]> (ss_scrapes s))))
    by (intros y Hy; split; [exact Hr|exact Hs|apply Forall_insert; [exact Hc|exact Hy]]).
  assert (Hall : take (length ws) ws = ws) by (by rewrite take_ge by lia).
  destruct x as [[|x todo] out|x todo out|x todo out|info x todo out|info x todo out|out|]; [| | | | | |discriminate Ht|discriminate Ht].
  - injection Ht as <-. apply Hset. exact Hx.
  - injection Ht as <-. apply Hset. destruct (skipped x) eqn:Ek; [|split; [exact Ek|exact Hx]].
    pose proof (behind_next ws x todo out (length ws) (Nat.le_refl _) Hx) as Hn. rewrite collect_work_split, Ek in Hn. exact Hn.
  - destruct (scan_locked (ss_scanner s)) eqn:El; [discriminate Ht|]. injection Ht as <-. apply Hset. split; [reflexivity|exact Hx].
  - injection Ht as <-. apply Hset. destruct Hx as (Hl & Hk & Hb). destruct (ss_scanner s); try discriminate Hl; (split_and!; [exact Hl|exact Hk|]; exists (length ws);
    rewrite Hall, <- Hr; split_and!; [reflexivity|reflexivity|exact Hb]).
  - injection Ht as <-. apply Hset. exact (proj2 Hx).
  - injection Ht as <-. apply Hset. destruct Hx as (Hk & n & Hn & -> & Hb).
    pose proof (behind_next ws x todo out n Hn Hb) as Hnext. rewrite collect_work_split, Hk in Hnext. exact Hnext.
Qed.

Lemma scans_ok_turns ts n s :
  take_scan_turns ts (scan_start r0 n) = Some s → ∃ ws pending, begun ts = ws ++ pending ∧ scans_ok ws pending s.
Proof.
  revert s. induction ts as [|t ts IH] using rev_ind; intros s Ht.
  - injection Ht as <-. exists [], []. split; [reflexivity|apply scans_ok_start].
  - rewrite take_scan_turns_app in Ht. destruct (take_scan_turns ts _) as [s1|] eqn:E1; [|discriminate Ht]. cbn [mbind option_bind take_scan_turns] in Ht.
    destruct (take_scan_turn t s1) as [s2|] eqn:E2; [|discriminate Ht]. injection Ht as <-.
    destruct (IH s1 eq_refl) as (ws & pending & Hb & Hok). unfold begun in *. rewrite omap_app, Hb. destruct t as [w| |i]; cbn [omap list_omap take_scan_turn] in *.
    + destruct (scans_ok_begin ws pending w s1 s2 Hok E2) as (-> & ws' & pending' & Heq & Hok'). exists ws', pending'. by rewrite app_nil_r.
    + rewrite app_nil_r. by eapply scans_ok_scanner.
    + exists ws, pending. rewrite app_nil_r. split; [reflexivity|]. by eapply scrape_ok_turn.
Qed.

(** The scans published are those behind the resolver. *)
Lemma scans_ok_assigned ws pending s : scans_ok ws pending s → assigned (ss_scanner s) (ws ++ pending) = ws.
Proof.
  intros [_ Hs _]. unfold assigned. destruct (ss_scanner s); cbn [unpublished scanner_ok] in *; try (rewrite Hs; apply app_nil_r).
  all: destruct Hs as (w & -> & _); rewrite length_app; cbn [length]; by rewrite Nat.add_sub, take_app_length.
Qed.
End Invariant.
End Machine.

(** ** A scrape in one piece *)

Section Whole.
Context `{!ConstHistograms} (c : Collector).
#[local] Opaque SlotsToConstHistogram DevToString Run.

(** Collect works through the entries with one resolver. *)
Lemma collect_works r : Collect (set_resolver r c) = collectSubsystemGauge c ++ (collect_work c r <$> works (c_programs c)).
Proof.
  unfold Collect, works. rewrite !fmap_app, <- !list_fmap_compose. cbn [set_resolver c_programs].
  apply (f_equal2 app); [reflexivity|]. apply (f_equal2 app); [|apply (f_equal2 app)].
  - destruct (BlockHists _); reflexivity.
  - destruct (NfsHists _); reflexivity.
  - destruct (NfsKprobeHists _); reflexivity.
Qed.

Lemma handled_const r ws xs ns k :
  length xs = length ns → Forall (eq k) ns → handled c r ws xs ns = collect_work c (Run r (take k ws)) <$> xs.
Proof.
  intros Hl Hk. unfold handled. revert xs Hl. induction Hk as [|n ns <- _ IH]; intros [|x xs] Hl; try discriminate Hl; [reflexivity|].
  cbn [zip_with fmap list_fmap]. apply (f_equal2 cons); [reflexivity|]. apply IH. by injection Hl.
Qed.

(** C25.  A scrape may overlap with any number of scans, as may other scrapes.
    After any schedule the resolver is as the scans begun in it leave it one after
    the other, all but the one that has not assigned its map yet; no scrape has
    raced with an assignment, since none is in a look-up while the scanner has the
    lock.  A scrape that has ended has handled every entry once and in order, each
    exactly as Collect handles it with the resolver as it was after some of these
    scans, later entries never with an older state than earlier ones; and if that
    was one state all along, its result is that of Collect with this state. *)
Theorem scrape_during_scans r0 n ts s :
  take_scan_turns c ts (scan_start c r0 n) = Some s →
  let ws := assigned (ss_scanner s) (begun ts) in
  ss_resolver s = Run r0 ws ∧
  (Raced ∉ ss_scrapes s) ∧ (scan_locked (ss_scanner s) = true → Forall (λ x, holds_lock x = false) (ss_scrapes s)) ∧
  ∀ i out, ss_scrapes s !! i = Some (Scraped out) →
    ∃ ns, length ns = length (works (c_programs c)) ∧ StronglySorted le ns ∧ Forall (λ m, (m <= length ws)%nat) ns ∧
      out = collectSubsystemGauge c ++ handled c r0 ws (works (c_programs c)) ns ∧
      (∀ k, Forall (eq k) ns → out = Collect (set_resolver (Run r0 (take k ws)) c)).
Proof.
  intros Hs. destruct (scans_ok_turns c r0 ts n s Hs) as (ws & pending & Hb & Hok). rewrite Hb, (scans_ok_assigned c r0 ws pending s Hok).
  destruct Hok as [Hr _ Hc]. cbv zeta. split; [exact Hr|]. split; [|split].
  - intros Hin. exact (proj1 (Forall_forall _ _) Hc Raced Hin).
  - intros Hl. rewrite Hl in Hc. eapply Forall_impl; [exact Hc|]. intros x. apply scrape_ok_unlocked.
  - intros i out Hi. destruct (Forall_lookup_1 _ _ _ _ Hc Hi) as (xs & ns & Hw & Hl & [Hsort Hle] & Hout). rewrite app_nil_r in Hw. rewrite <- Hw in *.
    exists ns. split_and!; [by symmetry|exact Hsort|exact Hle|exact Hout|]. intros k Hk.
    rewrite collect_works, Hout, (handled_const r0 ws _ ns k Hl Hk). reflexivity.
Qed.
End Whole.

(** ** A volume that moves *)

(** A volume is first on 8:16, then, attached again, on 8:32; the histograms of
    both devices are in the map. *)
Definition disk_entry (minor : Z) : MountEntry :=
  Mount 36 35 8 minor "/" "/var/lib/kubelet/pods/6a76960a-a927-4211-96e6-1f187b126e90/volumes/kubernetes.io~csi/example/mount" "ext4" "/dev/sdb".
Definition disk_world (minor : Z) : world :=
  World (λ _, Some (mountinfo_line (disk_entry minor) "rw,relatime" ["shared:1"] "rw", true)) (λ _, None)
    (Some [Pod example_uid "virt-launcher-my-vm-abc" "default"]) (Some (filter_index example_objs)).
Definition moved_collector : Collector :=
  NewCollector (Programs (Some [(BlockHistKey (MkDev 8 16) 1 [0; 0; 0], hist_incr 13 zero_hist); (BlockHistKey (MkDev 8 32) 1 [0; 0; 0], hist_incr 9 zero_hist)])
    None None true false false) (NewResolver "node-1" "/proc") "node-1" default_boundaries [].

(** A scan, and a scrape that handles both entries after it. *)
Definition whole_scan (minor : Z) : list scan_turn := StartScan (disk_world minor) :: replicate 4 ScanTurn.
Definition quiet_schedule : list scan_turn := whole_scan 16 ++ replicate 11 (ScrapeTurn 0).
(** A second scan between the two entries. *)
Definition moved_schedule : list scan_turn :=
  whole_scan 16 ++ replicate 5 (ScrapeTurn 0) ++ whole_scan 32 ++ replicate 6 (ScrapeTurn 0).

(** The identities of the histograms of a scrape that has ended. *)
Definition scraped_ids (s : scan_state) : list (desc * list string) :=
  match ss_scrapes s with Scraped out :: _ => metric_id <$> drop 3 (emitted out) | _ => [] end.

Lemma moved_volume_ids ts ids :
  scraped_ids <$> take_scan_turns moved_collector ts (scan_start moved_collector (NewResolver "node-1" "/proc") 1) = Some ids →
  ∃ s, take_scan_turns moved_collector ts (scan_start moved_collector (NewResolver "node-1" "/proc") 1) = Some s ∧ scraped_ids s = ids.
Proof. intros (s & Hs & ->)%fmap_Some. exists s. split; [exact Hs|reflexivity]. Qed.

Lemma scrape_during_scans_witness :
  ∃ s, take_scan_turns moved_collector quiet_schedule (scan_start moved_collector (NewResolver "node-1" "/proc") 1) = Some s ∧
    scraped_ids s = [(podBlockDesc, ["node-1"; "default"; "my-data-pvc"; "virt-launcher-my-vm-abc"; "write"]);
                     (systemBlockDesc, ["node-1"; "8:32"; "write"])] ∧
    ss_resolver s = Run (NewResolver "node-1" "/proc") (assigned (ss_scanner s) [disk_world 16]) ∧ ∀ i out, ss_scrapes s !! i = Some (Scraped out) →
      ∃ ns, length ns = 2%nat ∧ Forall (λ m, (m <= length (assigned (ss_scanner s) [disk_world 16]))%nat) ns.
Proof.
  destruct (moved_volume_ids quiet_schedule [(podBlockDesc, ["node-1"; "default"; "my-data-pvc"; "virt-launcher-my-vm-abc"; "write"]);
    (systemBlockDesc, ["node-1"; "8:32"; "write"])]) as (s & Hs & Hi); [vm_compute; reflexivity|].
  exists s. split; [exact Hs|]. split; [exact Hi|].
  destruct (scrape_during_scans moved_collector (NewResolver "node-1" "/proc") 1 quiet_schedule s Hs) as (Hr & _ & _ & Hout). split; [exact Hr|].
  intros i out Ho. destruct (Hout i out Ho) as (ns & Hl & _ & Hle & _). exists ns. split; [exact Hl|exact Hle].
Defined.

Lemma one_volume_apart r d i : devices r = {[d := i]} → volumes_apart r.
Proof. intros E d1 d2 i1 i2. unfold Resolver_Lookup. rewrite E. intros [<- _]%lookup_singleton_Some [<- _]%lookup_singleton_Some. done. Qed.

(** Neither scan knows two devices of one volume, but a scrape that overlaps with
    the second sends two metrics with the same labels. *)
Theorem scan_during_scrape_collides :
  volumes_apart (Run (NewResolver "node-1" "/proc") [disk_world 16]) ∧
  volumes_apart (Run (NewResolver "node-1" "/proc") [disk_world 16; disk_world 32]) ∧
  ∃ s x, rtc (scan_step moved_collector) (scan_start moved_collector (NewResolver "node-1" "/proc") 1) s ∧ scraped_ids s = [x; x].
Proof.
  assert (Hd : ∀ m ws, devices (Run (NewResolver "node-1" "/proc") (ws ++ [disk_world m])) = devices (scan (NewResolver "node-1" "/proc") (disk_world m)) →
    devices (scan (NewResolver "node-1" "/proc") (disk_world m)) = {[MkDev 8 m := Info "my-data-pvc" "virt-launcher-my-vm-abc" "default" "node-1"
      (MountPoint (disk_entry m)) "/dev/sdb" false]} → volumes_apart (Run (NewResolver "node-1" "/proc") (ws ++ [disk_world m]))).
  { intros m ws E E'. eapply one_volume_apart. by rewrite E. }
  split; [apply (Hd 16 []); vm_compute; reflexivity|]. split; [apply (Hd 32 [disk_world 16]); vm_compute; reflexivity|].
  destruct (moved_volume_ids moved_schedule (replicate 2 (podBlockDesc, ["node-1"; "default"; "my-data-pvc"; "virt-launcher-my-vm-abc"; "write"])))
    as (s & Hs & Hi); [vm_compute; reflexivity|].
  exists s. eexists. split; [by eapply take_scan_turns_steps|exact Hi].
Qed.
