(* ===== verification/Loader.v ===== *)
(** * Loading and attaching the BPF programs (loader.go)

    Each subsystem is loaded and attached as a whole; the NFS ones are retried
    until they succeed.  Loaded collections and attached links are handles the
    kernel keeps until they are closed.  Here one function runs at a time; the
    goroutines that share the struct are in LoaderConcurrency. *)
From S2P Require Import Prelude Common.

Abbreviation handle := nat.

(** Handles given out so far, and those still open. *)
Record kernel := Kernel { next : handle; opened : gset handle }.

Definition k_open (k : kernel) : handle * kernel := (next k, Kernel (S (next k)) ({[next k]} ∪ opened k)).
Definition k_close (hs : list handle) (k : kernel) : kernel := Kernel (next k) (opened k ∖ list_to_set hs).

(** What the kernel answers to one attempt to load a subsystem: whether the
    embedded object parses, whether a collection with the given number of start
    entries loads, and whether each attachment succeeds, in order. *)
Record answers := Answers { a_spec : bool; a_load : Z → bool; a_attach : list bool }.

Record Programs := MkPrograms {
  blockObjs : option handle; nfsObjs : option handle; nfsKprobeObjs : option handle; links : list handle;
  BlockHists : option handle; NfsHists : option handle; NfsKprobeHists : option handle;
  BlockActive : bool; NFSActive : bool; NFSKprobeActive : bool;
  retryNFS : bool; retryNFSKprobe : bool; nfsMapSize : Z; nfsKprobeMapSize : Z;
}.

Definition new_programs (nfsMapSize nfsKprobeMapSize : Z) : Programs :=
  MkPrograms None None None [] None None None false false false false false nfsMapSize nfsKprobeMapSize.

(** Field updates of the mutable struct. *)
Definition set_block (o : option handle) (p : Programs) : Programs :=
  MkPrograms o (nfsObjs p) (nfsKprobeObjs p) (links p) o (NfsHists p) (NfsKprobeHists p) (BlockActive p) (NFSActive p)
    (NFSKprobeActive p) (retryNFS p) (retryNFSKprobe p) (nfsMapSize p) (nfsKprobeMapSize p).
Definition set_nfs (o : option handle) (p : Programs) : Programs :=
  MkPrograms (blockObjs p) o (nfsKprobeObjs p) (links p) (BlockHists p) o (NfsKprobeHists p) (BlockActive p) (NFSActive p)
    (NFSKprobeActive p) (retryNFS p) (retryNFSKprobe p) (nfsMapSize p) (nfsKprobeMapSize p).
Definition set_kprobe (o : option handle) (p : Programs) : Programs :=
  MkPrograms (blockObjs p) (nfsObjs p) o (links p) (BlockHists p) (NfsHists p) o (BlockActive p) (NFSActive p)
    (NFSKprobeActive p) (retryNFS p) (retryNFSKprobe p) (nfsMapSize p) (nfsKprobeMapSize p).
Definition add_links (ls : list handle) (p : Programs) : Programs :=
  MkPrograms (blockObjs p) (nfsObjs p) (nfsKprobeObjs p) (links p ++ ls) (BlockHists p) (NfsHists p) (NfsKprobeHists p)
    (BlockActive p) (NFSActive p) (NFSKprobeActive p) (retryNFS p) (retryNFSKprobe p) (nfsMapSize p) (nfsKprobeMapSize p).
Definition set_flags (b n k rn rk : bool) (p : Programs) : Programs :=
  MkPrograms (blockObjs p) (nfsObjs p) (nfsKprobeObjs p) (links p) (BlockHists p) (NfsHists p) (NfsKprobeHists p)
    b n k rn rk (nfsMapSize p) (nfsKprobeMapSize p).

(** The handles a [Programs] refers to; [Close] closes them all. *)
Definition refs (p : Programs) : list handle :=
  links p ++ option_list (blockObjs p) ++ option_list (nfsObjs p) ++ option_list (nfsKprobeObjs p).

Definition Close (p : Programs) (k : kernel) : kernel := k_close (refs p) k.

(** [spec.Maps[...].MaxEntries], overridden by a positive size. *)
Definition start_entries (default_entries : nat) (mapSize : Z) : Z :=
  if 0 <? mapSize then u32 mapSize else Z.of_nat default_entries.

Definition answer (a : answers) (i : nat) : bool := default false (a_attach a !! i).

(** Every function returns the struct, the kernel and whether it succeeded. *)
Definition loadBlock (mapSize : Z) (a : answers) (p : Programs) (k : kernel) : Programs * kernel * bool :=
  if negb (a_spec a) then (p, k, false) else
  if negb (a_load a (start_entries MAX_BLOCK_ENTRIES mapSize)) then (p, k, false) else
  let '(objs, k) := k_open k in
  let p := set_block (Some objs) p in
  if negb (answer a 0) then (p, k_close [objs] k, false) else
  let '(l, k) := k_open k in
  let p := add_links [l] p in
  if negb (answer a 1) then (p, Close p k, false) else
  let '(l, k) := k_open k in
  (add_links [l] p, k, true).

(** The loop that attaches one program per answer, unless one that is not
    optional fails: the links made, and whether it went through. *)
Fixpoint attach_all (opts : list bool) (a : list bool) (ls : list handle) (k : kernel) : list handle * kernel * bool :=
  match opts with
  | [] => (ls, k, true)
  | optional :: opts' =>
      if default false (head a) then
        let '(l, k) := k_open k in attach_all opts' (tail a) (ls ++ [l]) k
      else if optional : bool then attach_all opts' (tail a) ls k
      else (ls, k, false)
  end.

Definition loadNFS (mapSize : Z) (a : answers) (p : Programs) (k : kernel) : Programs * kernel * bool :=
  if negb (a_spec a) then (p, k, false) else
  if negb (a_load a (start_entries MAX_NFS_ENTRIES mapSize)) then (p, k, false) else
  let '(objs, k) := k_open k in
  let '(nfsLinks, k, ok) := attach_all (replicate 4 false) (a_attach a) [] k in
  if negb ok then (p, k_close [objs] (k_close nfsLinks k), false) else
  (add_links nfsLinks (set_nfs (Some objs) p), k, true).

(** The entry probes, of which [nfs4_file_open] is optional, then a return probe
    for each one attached. *)
Definition loadNFSKprobe (mapSize : Z) (a : answers) (p : Programs) (k : kernel) : Programs * kernel * bool :=
  if negb (a_spec a) then (p, k, false) else
  if negb (a_load a (start_entries MAX_NFS_KPROBE_ENTRIES mapSize)) then (p, k, false) else
  let '(objs, k) := k_open k in
  let '(kprobeLinks, k, ok) := attach_all [false; false; false; true; false] (a_attach a) [] k in
  if negb ok then (p, k_close [objs] (k_close kprobeLinks k), false) else
  let '(kprobeLinks, k, ok) := attach_all (replicate (length kprobeLinks) false) (drop 5 (a_attach a)) kprobeLinks k in
  if negb ok then (p, k_close [objs] (k_close kprobeLinks k), false) else
  (add_links kprobeLinks (set_kprobe (Some objs) p), k, true).

Record options := Options { enableBlock : bool; enableNFS : bool; enableNFSKprobe : bool; blockMapSize : Z; o_nfsMapSize : Z; o_nfsKprobeMapSize : Z }.

(** [LoadAndAttach]; the struct is kept also where the code returns an error. *)
Definition LoadAndAttach (o : options) (ab an ak : answers) (k : kernel) : Programs * kernel * bool :=
  let p := new_programs (o_nfsMapSize o) (o_nfsKprobeMapSize o) in
  let '(p, k) :=
    (if enableBlock o then
       let '(p, k, ok) := loadBlock (blockMapSize o) ab p k in
       (set_flags ok (NFSActive p) (NFSKprobeActive p) (retryNFS p) (retryNFSKprobe p) p, k)
     else (p, k)) in
  let '(p, k) :=
    (if enableNFS o then
       let '(p, k, ok) := loadNFS (nfsMapSize p) an p k in
       (set_flags (BlockActive p) ok (NFSKprobeActive p) (negb ok) (retryNFSKprobe p) p, k)
     else (p, k)) in
  let '(p, k) :=
    (if enableNFSKprobe o then
       let '(p, k, ok) := loadNFSKprobe (nfsKprobeMapSize p) ak p k in
       (set_flags (BlockActive p) (NFSActive p) ok (retryNFS p) (negb ok) p, k)
     else (p, k)) in
  let requested := enableBlock o || enableNFS o || enableNFSKprobe o in
  let active := BlockActive p || NFSActive p || NFSKprobeActive p in
  (p, k, negb (requested && negb active && negb (retryNFS p) && negb (retryNFSKprobe p))).

(** One tick of [RetryFailed]. *)
Definition retry_tick (an ak : answers) (pk : Programs * kernel) : Programs * kernel :=
  let '(p, k) := pk in
  let '(p, k) :=
    (if retryNFS p then
       let '(p, k, ok) := loadNFS (nfsMapSize p) an p k in
       (if ok : bool then set_flags (BlockActive p) true (NFSKprobeActive p) false (retryNFSKprobe p) p else p, k)
     else (p, k)) in
  if retryNFSKprobe p then
    let '(p, k, ok) := loadNFSKprobe (nfsKprobeMapSize p) ak p k in
    (if ok : bool then set_flags (BlockActive p) (NFSActive p) true (retryNFS p) false p else p, k)
  else (p, k).

Definition RetryFailed (ticks : list (answers * answers)) (pk : Programs * kernel) : Programs * kernel :=
  foldl (λ pk t, retry_tick t.1 t.2 pk) pk ticks.

(** ** What one attempt does to the handles *)

Definition fresh_from (n : handle) (hs : list handle) (k : kernel) : Prop := Forall (λ h, (n <= h < next k)%nat) hs.

Lemma attach_all_spec opts a ls k :
  let '(ls', k', ok) := attach_all opts a ls k in
  ∃ new, ls' = ls ++ new ∧ opened k' = list_to_set new ∪ opened k ∧ fresh_from (next k) new k' ∧ (next k <= next k')%nat.
Proof.
  revert a ls k. induction opts as [|o opts IH]; intros a ls k; cbn [attach_all].
  - exists []. rewrite app_nil_r, list_to_set_nil, union_empty_l_L. split_and!; [done|done|constructor|done].
  - destruct (default false (head a)).
    + cbn [k_open]. specialize (IH (tail a) (ls ++ [next k]) (Kernel (S (next k)) ({[next k]} ∪ opened k))).
      destruct (attach_all _ _ _ _) as [[ls' k'] ok]. destruct IH as (new & -> & Ho & Hf & Hn). cbn [next opened] in *.
      exists (next k :: new). split_and!.
      * by rewrite <- app_assoc.
      * rewrite Ho, list_to_set_cons. set_solver.
      * constructor; [lia|]. eapply Forall_impl; [exact Hf|]. cbn. lia.
      * lia.
    + destruct o; [by apply IH|]. exists []. rewrite app_nil_r, list_to_set_nil, union_empty_l_L.
      split_and!; [done|done|constructor|done].
Qed.

(** An attempt either fails and leaves the struct and the open handles as they
    were, or succeeds and adds a collection and its links, all new and open. *)
Definition attempt_ok (set : option handle → Programs → Programs) (p : Programs) (k : kernel) (r : Programs * kernel * bool) : Prop :=
  let '(p', k', ok) := r in
  (next k <= next k')%nat ∧
  if ok : bool then
    ∃ h ls, p' = add_links ls (set (Some h) p) ∧ opened k' = list_to_set (h :: ls) ∪ opened k ∧ fresh_from (next k) (h :: ls) k'
  else p' = p ∧ opened k' = opened k.

(** Handles in use were given out before. *)
Definition old (k : kernel) : Prop := ∀ h, h ∈ opened k → (h < next k)%nat.

Lemma close_new h ls k k' :
  old k → fresh_from (next k) (h :: ls) k' → opened k' = list_to_set (h :: ls) ∪ opened k →
  opened (k_close [h] (k_close ls k')) = opened k.
Proof.
  intros Hold Hf Ho. apply set_eq. intros x. cbn [k_close opened]. rewrite Ho.
  rewrite !elem_of_difference, elem_of_union, !elem_of_list_to_set.
  unfold fresh_from in Hf. rewrite Forall_forall in Hf. split; [set_solver|].
  intros Hx. pose proof (Hold x Hx). assert (x ∉ h :: ls) by (intros Hin; specialize (Hf x Hin); lia). set_solver.
Qed.

Lemma loadNFS_attempt mapSize a p k : old k → attempt_ok set_nfs p k (loadNFS mapSize a p k).
Proof.
  intros Hold. unfold loadNFS. destruct (a_spec a); [|done]. destruct (a_load a _); [|done]. cbn [negb k_open].
  pose proof (attach_all_spec (replicate 4 false) (a_attach a) [] (Kernel (S (next k)) ({[next k]} ∪ opened k))) as H.
  destruct (attach_all _ _ _ _) as [[ls k'] ok]. destruct H as (new & -> & Ho & Hf & Hn). cbn [next opened app] in *.
  assert (Hf' : fresh_from (next k) (next k :: new) k') by (constructor; [lia|]; eapply Forall_impl; [exact Hf|]; cbn; lia).
  assert (Ho' : opened k' = list_to_set (next k :: new) ∪ opened k) by (rewrite Ho, list_to_set_cons; set_solver).
  destruct ok; cbn [negb attempt_ok]; (split; [cbn; lia|]).
  - exists (next k), new. done.
  - split; [done|]. by apply close_new.
Qed.

Lemma loadNFSKprobe_attempt mapSize a p k : old k → attempt_ok set_kprobe p k (loadNFSKprobe mapSize a p k).
Proof.
  intros Hold. unfold loadNFSKprobe. destruct (a_spec a); [|done]. destruct (a_load a _); [|done]. cbn [negb k_open].
  pose proof (attach_all_spec [false; false; false; true; false] (a_attach a) [] (Kernel (S (next k)) ({[next k]} ∪ opened k))) as H.
  destruct (attach_all [false; false; false; true; false] _ _ _) as [[ls k'] ok]. destruct H as (new & -> & Ho & Hf & Hn). cbn [next opened app] in *.
  assert (Hf' : fresh_from (next k) (next k :: new) k') by (constructor; [lia|]; eapply Forall_impl; [exact Hf|]; cbn; lia).
  assert (Ho' : opened k' = list_to_set (next k :: new) ∪ opened k) by (rewrite Ho, list_to_set_cons; set_solver).
  destruct ok; cbn [negb]; [|split; [cbn; lia|]; split; [done|]; by apply close_new].
  pose proof (attach_all_spec (replicate (length new) false) (drop 5 (a_attach a)) new k') as H.
  destruct (attach_all _ _ _ _) as [[ls k''] ok]. destruct H as (new' & -> & Ho2 & Hf2 & Hn2).
  assert (Hf3 : fresh_from (next k) (next k :: new ++ new') k'').
  { change (next k :: new ++ new') with ((next k :: new) ++ new'). apply Forall_app. split.
    - eapply Forall_impl; [exact Hf'|]. cbn. lia.
    - eapply Forall_impl; [exact Hf2|]. cbn. lia. }
  assert (Ho3 : opened k'' = list_to_set (next k :: new ++ new') ∪ opened k).
  { rewrite Ho2, Ho', !list_to_set_cons, list_to_set_app_L. set_solver. }
  destruct ok; cbn [negb attempt_ok]; (split; [cbn; lia|]).
  - exists (next k), (new ++ new'). done.
  - split; [done|]. by apply close_new.
Qed.

(** ** The invariant *)

Definition present (o : option handle) : bool := match o with Some _ => true | None => false end.

(** Handles are old, everything open is referred to, a subsystem's histogram map
    is there exactly when it is active and is then open, and only inactive
    subsystems are retried. *)
Record inv (p : Programs) (k : kernel) : Prop := {
  inv_old : old k;
  inv_refs : ∀ h, h ∈ refs p → (h < next k)%nat;
  inv_noleak : ∀ h, h ∈ opened k → h ∈ refs p;
  inv_block : BlockActive p = true → ∃ h, BlockHists p = Some h ∧ h ∈ opened k;
  inv_nfs : NfsHists p = nfsObjs p ∧ NFSActive p = present (nfsObjs p) ∧ (∀ h, nfsObjs p = Some h → h ∈ opened k);
  inv_kprobe : NfsKprobeHists p = nfsKprobeObjs p ∧ NFSKprobeActive p = present (nfsKprobeObjs p) ∧
    (∀ h, nfsKprobeObjs p = Some h → h ∈ opened k);
  inv_retry : (retryNFS p = true → NFSActive p = false) ∧ (retryNFSKprobe p = true → NFSKprobeActive p = false);
}.

Lemma elem_refs h p :
  h ∈ refs p ↔ h ∈ links p ∨ blockObjs p = Some h ∨ nfsObjs p = Some h ∨ nfsKprobeObjs p = Some h.
Proof.
  unfold refs. rewrite !elem_of_app. destruct (blockObjs p), (nfsObjs p), (nfsKprobeObjs p); cbn [option_list]; set_solver.
Qed.

(** More handles open, all new, and the struct refers to them: what is known of
    the old ones stays. *)
Lemma fresh_bound n hs k h : fresh_from n hs k → h ∈ hs → (n <= h < next k)%nat.
Proof. intros Hf. unfold fresh_from in Hf. rewrite Forall_forall in Hf. apply Hf. Qed.

Lemma inv_add_nfs p k k' h ls :
  inv p k → nfsObjs p = None → (next k <= next k')%nat →
  opened k' = list_to_set (h :: ls) ∪ opened k → fresh_from (next k) (h :: ls) k' →
  inv (set_flags (BlockActive p) true (NFSKprobeActive p) false (retryNFSKprobe p) (add_links ls (set_nfs (Some h) p))) k'.
Proof.
  intros [Hold Hr Hl Hb Hn Hk Hre] Hnone Hle Ho Hf.
  assert (Hin : ∀ x, x ∈ opened k' ↔ x = h ∨ x ∈ ls ∨ x ∈ opened k) by (intros x; rewrite Ho; set_solver).
  assert (Hlt : ∀ x, x = h ∨ x ∈ ls → (x < next k')%nat) by (intros x Hx; eapply fresh_bound; [exact Hf|set_solver]).
  split; try setoid_rewrite elem_refs; unfold old; cbn [set_flags add_links set_nfs links blockObjs nfsObjs nfsKprobeObjs BlockHists NfsHists
    NfsKprobeHists BlockActive NFSActive NFSKprobeActive retryNFS retryNFSKprobe].
  - intros x [->|[Hx|Hx]]%Hin; [by apply Hlt; left|by apply Hlt; right|]. specialize (Hold x Hx). lia.
  - intros x Hx. destruct Hx as [[Hx|Hx]%elem_of_app|[Hx|[[= ->]|Hx]]]; try (by apply Hlt; auto);
      (assert (x < next k)%nat by (apply Hr, elem_refs; auto)); lia.
  - intros x [->|[Hx|Hx]]%Hin; [by auto|rewrite elem_of_app; by auto|].
    apply Hl, elem_refs in Hx. rewrite elem_of_app. destruct Hx as [?|[?|[?|?]]]; [auto..|congruence|auto].
  - intros Hx. destruct (Hb Hx) as (b & ? & ?). exists b. rewrite Hin. auto.
  - split_and!; [done..|]. intros x [= ->]. rewrite Hin. auto.
  - destruct Hk as (? & ? & Hk). split_and!; [done..|]. intros x Hx. rewrite Hin. auto.
  - split; [done|apply Hre].
Qed.

Lemma inv_add_kprobe p k k' h ls :
  inv p k → nfsKprobeObjs p = None → (next k <= next k')%nat →
  opened k' = list_to_set (h :: ls) ∪ opened k → fresh_from (next k) (h :: ls) k' →
  inv (set_flags (BlockActive p) (NFSActive p) true (retryNFS p) false (add_links ls (set_kprobe (Some h) p))) k'.
Proof.
  intros [Hold Hr Hl Hb Hn Hk Hre] Hnone Hle Ho Hf.
  assert (Hin : ∀ x, x ∈ opened k' ↔ x = h ∨ x ∈ ls ∨ x ∈ opened k) by (intros x; rewrite Ho; set_solver).
  assert (Hlt : ∀ x, x = h ∨ x ∈ ls → (x < next k')%nat) by (intros x Hx; eapply fresh_bound; [exact Hf|set_solver]).
  split; try setoid_rewrite elem_refs; unfold old; cbn [set_flags add_links set_kprobe links blockObjs nfsObjs nfsKprobeObjs BlockHists NfsHists
    NfsKprobeHists BlockActive NFSActive NFSKprobeActive retryNFS retryNFSKprobe].
  - intros x [->|[Hx|Hx]]%Hin; [by apply Hlt; left|by apply Hlt; right|]. specialize (Hold x Hx). lia.
  - intros x Hx. destruct Hx as [[Hx|Hx]%elem_of_app|[Hx|[Hx|[= ->]]]]; try (by apply Hlt; auto);
      (assert (x < next k)%nat by (apply Hr, elem_refs; auto)); lia.
  - intros x [->|[Hx|Hx]]%Hin; [by auto|rewrite elem_of_app; by auto|].
    apply Hl, elem_refs in Hx. rewrite elem_of_app. destruct Hx as [?|[?|[?|?]]]; [auto..|congruence].
  - intros Hx. destruct (Hb Hx) as (b & ? & ?). exists b. rewrite Hin. auto.
  - destruct Hn as (? & ? & Hn). split_and!; [done..|]. intros x Hx. rewrite Hin. auto.
  - split_and!; [done..|]. intros x [= ->]. rewrite Hin. auto.
  - split; [apply Hre|done].
Qed.

(** A failed attempt changes nothing but the retry flags. *)
Lemma inv_failed p k k' rn rk :
  inv p k → (next k <= next k')%nat → opened k' = opened k →
  (rn = true → NFSActive p = false) → (rk = true → NFSKprobeActive p = false) →
  inv (set_flags (BlockActive p) (NFSActive p) (NFSKprobeActive p) rn rk p) k'.
Proof.
  intros [Hold Hr Hl Hb Hn Hk Hre] Hle Ho Hrn Hrk.
  split; unfold old; cbn [set_flags links blockObjs nfsObjs nfsKprobeObjs BlockHists NfsHists NfsKprobeHists BlockActive
    NFSActive NFSKprobeActive retryNFS retryNFSKprobe]; rewrite ?Ho; try done.
  - intros x Hx. specialize (Hold x Hx). lia.
  - intros x Hx. specialize (Hr x Hx). lia.
Qed.

Lemma set_flags_id p :
  set_flags (BlockActive p) (NFSActive p) (NFSKprobeActive p) (retryNFS p) (retryNFSKprobe p) p = p.
Proof. by destruct p. Qed.

(** Loading an NFS subsystem that is not there yet keeps the invariant, whether
    it succeeds or not. *)
Lemma inv_try_nfs p k a r :
  inv p k → NFSActive p = false →
  let '(p', k', ok) := loadNFS (nfsMapSize p) a p k in
  inv (set_flags (BlockActive p') ok (NFSKprobeActive p') (if ok then false else r) (retryNFSKprobe p') p') k'.
Proof.
  intros Hinv Hna. pose proof (loadNFS_attempt (nfsMapSize p) a p k (inv_old _ _ Hinv)) as H.
  destruct (loadNFS _ _ _ _) as [[p' k'] ok]. destruct H as [Hle H]. destruct ok.
  - destruct H as (h & ls & -> & Ho & Hf). apply (inv_add_nfs p k k' h ls Hinv); try done.
    destruct (inv_nfs _ _ Hinv) as (_ & Ha & _). rewrite Hna in Ha. by destruct (nfsObjs p).
  - destruct H as [-> Ho]. rewrite <- Hna. apply (inv_failed p k k'); try done. apply Hinv.
Qed.

Lemma inv_try_kprobe p k a r :
  inv p k → NFSKprobeActive p = false →
  let '(p', k', ok) := loadNFSKprobe (nfsKprobeMapSize p) a p k in
  inv (set_flags (BlockActive p') (NFSActive p') ok (retryNFS p') (if ok then false else r) p') k'.
Proof.
  intros Hinv Hna. pose proof (loadNFSKprobe_attempt (nfsKprobeMapSize p) a p k (inv_old _ _ Hinv)) as H.
  destruct (loadNFSKprobe _ _ _ _) as [[p' k'] ok]. destruct H as [Hle H]. destruct ok.
  - destruct H as (h & ls & -> & Ho & Hf). apply (inv_add_kprobe p k k' h ls Hinv); try done.
    destruct (inv_kprobe _ _ Hinv) as (_ & Ha & _). rewrite Hna in Ha. by destruct (nfsKprobeObjs p).
  - destruct H as [-> Ho]. rewrite <- Hna. apply (inv_failed p k k'); try done. apply Hinv.
Qed.

Lemma retry_tick_inv an ak p k : inv p k → let '(p', k') := retry_tick an ak (p, k) in inv p' k'.
Proof.
  intros Hinv. unfold retry_tick.
  assert (H1 : let '(p', k') := (if retryNFS p then
       let '(p, k, ok) := loadNFS (nfsMapSize p) an p k in
       (if ok : bool then set_flags (BlockActive p) true (NFSKprobeActive p) false (retryNFSKprobe p) p else p, k)
     else (p, k)) in inv p' k').
  { destruct (retryNFS p) eqn:Hr; [|done]. pose proof (proj1 (inv_retry _ _ Hinv) Hr) as Hna.
    pose proof (loadNFS_attempt (nfsMapSize p) an p k (inv_old _ _ Hinv)) as Ha.
    pose proof (inv_try_nfs p k an true Hinv Hna) as H. destruct (loadNFS _ _ _ _) as [[p' k'] ok].
    destruct ok; [exact H|]. destruct Ha as (_ & -> & _). rewrite <- Hna, <- Hr, set_flags_id in H. exact H. }
  destruct (if retryNFS p then _ else _) as [p1 k1].
  destruct (retryNFSKprobe p1) eqn:Hr; [|done]. pose proof (proj2 (inv_retry _ _ H1) Hr) as Hna.
  pose proof (loadNFSKprobe_attempt (nfsKprobeMapSize p1) ak p1 k1 (inv_old _ _ H1)) as Ha.
  pose proof (inv_try_kprobe p1 k1 ak true H1 Hna) as H. destruct (loadNFSKprobe _ _ _ _) as [[p' k'] ok].
  destruct ok; [exact H|]. destruct Ha as (_ & -> & _). rewrite <- Hna, <- Hr, set_flags_id in H. exact H.
Qed.

Lemma RetryFailed_inv ticks p k : inv p k → let '(p', k') := RetryFailed ticks (p, k) in inv p' k'.
Proof.
  revert p k. induction ticks as [|[an ak] ticks IH]; intros p k Hinv; [done|]. cbn [RetryFailed foldl].
  pose proof (retry_tick_inv an ak p k Hinv) as H. cbn [fst snd]. destruct (retry_tick an ak (p, k)) as [p' k'].
  by apply IH.
Qed.

(** The block subsystem, loaded first. *)
Lemma inv_try_block n1 n2 size a k :
  opened k = ∅ →
  let '(p, k', ok) := loadBlock size a (new_programs n1 n2) k in
  inv (set_flags ok (NFSActive p) (NFSKprobeActive p) (retryNFS p) (retryNFSKprobe p) p) k' ∧
  NFSActive p = false ∧ NFSKprobeActive p = false.
Proof.
  intros He. unfold loadBlock. destruct (a_spec a); [|split; [by split; unfold old; cbn; rewrite ?He; try set_solver|done]].
  destruct (a_load a _); [|split; [by split; unfold old; cbn; rewrite ?He; try set_solver|done]]. cbn [negb k_open].
  destruct (answer a 0); cbn [negb]; [|split; [|done]].
  - destruct (answer a 1); cbn [negb]; (split; [|done]).
    + split; try setoid_rewrite elem_refs; unfold old; cbn -[elem_of]; rewrite ?He; try done; set_solver by lia.
    + split; try setoid_rewrite elem_refs; unfold old, Close, refs; cbn -[elem_of]; rewrite ?He; try done; set_solver by lia.
  - split; try setoid_rewrite elem_refs; unfold old; cbn -[elem_of]; rewrite ?He; try done; set_solver by lia.
Qed.

Lemma inv_new n1 n2 k : opened k = ∅ → inv (new_programs n1 n2) k.
Proof. intros He. split; unfold old; cbn; rewrite ?He; try done; set_solver. Qed.

Lemma LoadAndAttach_inv o ab an ak k :
  opened k = ∅ → let '(p, k', _) := LoadAndAttach o ab an ak k in inv p k'.
Proof.
  intros He. unfold LoadAndAttach.
  assert (Hb : let '(p, k') := (if enableBlock o then
      let '(p, k, ok) := loadBlock (blockMapSize o) ab (new_programs (o_nfsMapSize o) (o_nfsKprobeMapSize o)) k in
      (set_flags ok (NFSActive p) (NFSKprobeActive p) (retryNFS p) (retryNFSKprobe p) p, k)
      else (new_programs (o_nfsMapSize o) (o_nfsKprobeMapSize o), k)) in
    inv p k' ∧ NFSActive p = false ∧ NFSKprobeActive p = false).
  { destruct (enableBlock o); [|by split; [apply inv_new|]].
    pose proof (inv_try_block (o_nfsMapSize o) (o_nfsKprobeMapSize o) (blockMapSize o) ab k He) as H.
    destruct (loadBlock _ _ _ _) as [[p k'] ok]. exact H. }
  destruct (if enableBlock o then _ else _) as [p1 k1]. destruct Hb as (H1 & Hn1 & Hk1).
  assert (Hn : let '(p, k') := (if enableNFS o then
      let '(p, k, ok) := loadNFS (nfsMapSize p1) an p1 k1 in
      (set_flags (BlockActive p) ok (NFSKprobeActive p) (negb ok) (retryNFSKprobe p) p, k)
      else (p1, k1)) in inv p k' ∧ NFSKprobeActive p = false).
  { destruct (enableNFS o); [|done]. pose proof (inv_try_nfs p1 k1 an true H1 Hn1) as H.
    pose proof (loadNFS_attempt (nfsMapSize p1) an p1 k1 (inv_old _ _ H1)) as Ha.
    destruct (loadNFS _ _ _ _) as [[p k'] ok]. destruct Ha as [_ Ha].
    split; [by destruct ok|]. destruct ok; [destruct Ha as (h & ls & -> & _)|destruct Ha as [-> _]]; done. }
  destruct (if enableNFS o then _ else _) as [p2 k2]. destruct Hn as [H2 Hk2].
  destruct (enableNFSKprobe o); [|done]. pose proof (inv_try_kprobe p2 k2 ak true H2 Hk2) as H.
  destruct (loadNFSKprobe _ _ _ _) as [[p k'] ok]. by destruct ok.
Qed.

(** C6.  Whatever the kernel answers to loading and attaching, at the start and
    at any number of later retries: an NFS subsystem is active exactly when its
    histogram map is set, that map is then open, only inactive subsystems are
    retried, a failed attempt leaves no handle behind, and closing the programs
    releases every collection and link that was ever opened. *)
Theorem loader_invariant o ab an ak k ticks :
  opened k = ∅ →
  let '(p, k, _) := LoadAndAttach o ab an ak k in
  let '(p, k) := RetryFailed ticks (p, k) in
  inv p k ∧ opened (Close p k) = ∅.
Proof.
  intros He. pose proof (LoadAndAttach_inv o ab an ak k He) as H1. destruct (LoadAndAttach _ _ _ _ _) as [[p1 k1] ok].
  pose proof (RetryFailed_inv ticks p1 k1 H1) as H2. destruct (RetryFailed ticks (p1, k1)) as [p2 k2]. split; [done|].
  unfold Close. cbn [k_close opened]. pose proof (inv_noleak _ _ H2). set_solver.
Qed.

(** A kernel that grants everything. *)
Definition yes : answers := Answers true (λ _, true) (replicate 10 true).
Definition no_nfs : answers := Answers true (λ _, true) [true; true; false].

Lemma loader_invariant_witness :
  let '(p, k, _) := LoadAndAttach (Options true true true 0 0 0) yes no_nfs yes (Kernel 0 ∅) in
  let '(p, k) := RetryFailed [(no_nfs, yes); (yes, yes)] (p, k) in
  inv p k ∧ opened (Close p k) = ∅.
Proof. exact (loader_invariant (Options true true true 0 0 0) yes no_nfs yes (Kernel 0 ∅) [(no_nfs, yes); (yes, yes)] eq_refl). Defined.

(** Attaching goes through when every answer is yes. *)
Lemma attach_all_yes opts a ls k :
  Forall (λ b, b = true) a → (length opts <= length a)%nat → (attach_all opts a ls k).2 = true.
Proof.
  revert a ls k. induction opts as [|o opts IH]; intros a ls k Ha Hl; [done|].
  destruct a as [|b a]; [cbn in Hl; lia|]. apply Forall_cons in Ha as [-> Ha]. cbn. apply IH; [done|cbn in Hl; lia].
Qed.

(** Loading the probes does not touch the flags of the tracepoints. *)
Lemma kprobe_keeps_nfs size a p k :
  let '(p', _, _) := loadNFSKprobe size a p k in NFSActive p' = NFSActive p ∧ retryNFS p' = retryNFS p.
Proof.
  unfold loadNFSKprobe. destruct (a_spec a); [|done]. destruct (a_load a _); [|done]. cbn [negb k_open].
  destruct (attach_all _ _ _ _) as [[ls k'] ok]. destruct ok; [|done]. cbn [negb].
  destruct (attach_all _ _ _ _) as [[ls' k''] ok]. by destruct ok.
Qed.

Lemma nfs_keeps_flags size a p k :
  let '(p', _, _) := loadNFS size a p k in NFSActive p' = NFSActive p ∧ retryNFS p' = retryNFS p.
Proof.
  unfold loadNFS. destruct (a_spec a); [|done]. destruct (a_load a _); [|done]. cbn [negb k_open].
  destruct (attach_all _ _ _ _) as [[ls k'] ok]. by destruct ok.
Qed.

(** An enabled subsystem is active or else retried. *)
Definition nfs_tried (p : Programs) : Prop := NFSActive p = negb (retryNFS p).

Lemma LoadAndAttach_tried o ab an ak k :
  enableNFS o = true → let '(p, _, _) := LoadAndAttach o ab an ak k in nfs_tried p.
Proof.
  intros He. unfold LoadAndAttach. destruct (if enableBlock o then _ else _) as [p1 k1]. rewrite He.
  destruct (loadNFS _ _ _ _) as [[p2 k2] ok].
  set (p3 := set_flags _ _ _ _ _ p2). assert (H3 : nfs_tried p3) by (by destruct ok).
  destruct (enableNFSKprobe o); [|done]. pose proof (kprobe_keeps_nfs (nfsKprobeMapSize p3) ak p3 k2) as H.
  destruct (loadNFSKprobe _ _ _ _) as [[p4 k4] ok']. destruct H as [Ha Hr]. unfold nfs_tried in *. cbn. congruence.
Qed.

Lemma retry_tick_tried an ak p k :
  nfs_tried p → let '(p', _) := retry_tick an ak (p, k) in
  nfs_tried p' ∧ (NFSActive p = true ∨ (loadNFS (nfsMapSize p) an p k).2 = true → NFSActive p' = true).
Proof.
  intros Ht. unfold retry_tick.
  assert (H1 : let '(p1, k1) := (if retryNFS p then
       let '(p, k, ok) := loadNFS (nfsMapSize p) an p k in
       (if ok : bool then set_flags (BlockActive p) true (NFSKprobeActive p) false (retryNFSKprobe p) p else p, k)
     else (p, k)) in
     nfs_tried p1 ∧ (NFSActive p = true ∨ (loadNFS (nfsMapSize p) an p k).2 = true → NFSActive p1 = true)).
  { destruct (retryNFS p) eqn:Hr; [|unfold nfs_tried in Ht; rewrite Hr in Ht; by split; [unfold nfs_tried; rewrite Hr|]].
    pose proof (nfs_keeps_flags (nfsMapSize p) an p k) as H. destruct (loadNFS _ _ _ _) as [[p1 k1] ok].
    destruct ok; [done|]. destruct H as [Ha Hr1]. unfold nfs_tried in *. rewrite Ha, Hr1. split; [done|].
    intros [?|?]; [congruence|done]. }
  destruct (if retryNFS p then _ else _) as [p1 k1]. destruct H1 as [Ht1 Ha1].
  destruct (retryNFSKprobe p1); [|done]. pose proof (kprobe_keeps_nfs (nfsKprobeMapSize p1) ak p1 k1) as H.
  destruct (loadNFSKprobe _ _ _ _) as [[p2 k2] ok]. destruct H as [Ha Hr]. unfold nfs_tried in *.
  destruct ok; cbn; rewrite Ha, Hr; done.
Qed.

Lemma RetryFailed_tried ticks p k : nfs_tried p → let '(p', _) := RetryFailed ticks (p, k) in nfs_tried p'.
Proof.
  revert p k. induction ticks as [|[an ak] ticks IH]; intros p k Ht; [done|]. cbn [RetryFailed foldl fst snd].
  pose proof (retry_tick_tried an ak p k Ht) as H. destruct (retry_tick an ak (p, k)) as [p' k']. by apply IH, H.
Qed.

Lemma loadNFS_yes size a p k :
  a_spec a = true → (∀ n, a_load a n = true) → Forall (λ b, b = true) (a_attach a) → (4 <= length (a_attach a))%nat →
  (loadNFS size a p k).2 = true.
Proof.
  intros Hs Hl Ha Hn. unfold loadNFS. rewrite Hs, Hl. cbn [negb k_open].
  pose proof (attach_all_yes (replicate 4 false) (a_attach a) [] (Kernel (S (next k)) ({[next k]} ∪ opened k)) Ha Hn) as H.
  destruct (attach_all _ _ _ _) as [[ls k'] ok]. cbn in H. by rewrite H.
Qed.

(** Retries are not in vain: at the first tick at which the kernel accepts
    the NFS tracepoint programs, NFS monitoring becomes active and is no longer
    retried, whatever happened before. *)
Theorem retry_activates_nfs o ab an ak k ticks a ak' :
  enableNFS o = true → a_spec a = true → (∀ n, a_load a n = true) → Forall (λ b, b = true) (a_attach a) → (4 <= length (a_attach a))%nat →
  let '(p, k, _) := LoadAndAttach o ab an ak k in
  let '(p, k) := RetryFailed ticks (p, k) in
  let '(p, _) := retry_tick a ak' (p, k) in
  NFSActive p = true ∧ retryNFS p = false.
Proof.
  intros He Hs Hl Ha Hn. pose proof (LoadAndAttach_tried o ab an ak k He) as H1.
  destruct (LoadAndAttach _ _ _ _ _) as [[p1 k1] ok]. pose proof (RetryFailed_tried ticks p1 k1 H1) as H2.
  destruct (RetryFailed ticks (p1, k1)) as [p2 k2]. pose proof (retry_tick_tried a ak' p2 k2 H2) as H3.
  destruct (retry_tick a ak' (p2, k2)) as [p3 k3]. destruct H3 as [Ht Hact].
  assert (Hon : NFSActive p3 = true) by (apply Hact; right; by apply loadNFS_yes).
  split; [done|]. unfold nfs_tried in Ht. rewrite Hon in Ht. by destruct (retryNFS p3).
Qed.

Lemma retry_activates_nfs_witness :
  let '(p, k, _) := LoadAndAttach (Options false true false 0 0 0) yes no_nfs yes (Kernel 0 ∅) in
  let '(p, k) := RetryFailed [(no_nfs, yes)] (p, k) in
  let '(p, _) := retry_tick yes yes (p, k) in
  NFSActive p = true ∧ retryNFS p = false.
Proof.
  refine (retry_activates_nfs (Options false true false 0 0 0) yes no_nfs yes (Kernel 0 ∅) [(no_nfs, yes)] yes yes
    eq_refl eq_refl _ _ _).
  - done.
  - by repeat constructor.
  - cbn. lia.
Defined.

(** When the first block tracepoint cannot be attached, the collection is
    closed but the struct still points to its histogram map, which the collector
    takes for one to iterate, although block monitoring is reported inactive. *)
Theorem failed_block_leaves_closed_map size a n1 n2 k :
  opened k = ∅ → a_spec a = true → (∀ n, a_load a n = true) → answer a 0 = false →
  let '(p, k', ok) := loadBlock size a (new_programs n1 n2) k in
  ok = false ∧ ∃ h, BlockHists p = Some h ∧ h ∉ opened k'.
Proof.
  intros He Hs Hl Ha. unfold loadBlock. rewrite Hs, Hl, Ha. cbn [negb k_open].
  split; [done|]. exists (next k). cbn. split; [done|]. set_solver.
Qed.

Lemma failed_block_leaves_closed_map_witness :
  let '(p, k', ok) := loadBlock 0 (Answers true (λ _, true) []) (new_programs 0 0) (Kernel 0 ∅) in
  ok = false ∧ ∃ h, BlockHists p = Some h ∧ h ∉ opened k'.
Proof. exact (failed_block_leaves_closed_map 0 (Answers true (λ _, true) []) 0 0 (Kernel 0 ∅) eq_refl eq_refl (λ _, eq_refl) eq_refl). Defined.
