(* ===== verification/LoaderConcurrency.v ===== *)
(** * The programs while they are shared

    Once loaded, the struct [Programs] is shared by three kinds of goroutines:
    [RetryFailed], which loads what failed and writes under the lock of the
    struct; [Collect], which reads it under the lock shared with other readers,
    whenever Prometheus asks; and the goroutine of main.go that calls [Close] once
    the context is cancelled, without the lock.  They take turns in any order,
    one assignment, one field or one handle at a time. *)
From stdpp Require Import relations.
From S2P Require Import Prelude Common Loader.

(** ** The retrying goroutine *)

(** The assignments that follow a successful attempt: those of loadNFS and of
    loadNFSKprobe, and the two of RetryFailed. *)
Inductive assignment :=
  | SetNfsObjs (o : option handle) | SetNfsHists (o : option handle)
  | SetKprobeObjs (o : option handle) | SetKprobeHists (o : option handle)
  | SetLinks (ls : list handle)
  | SetNFSActive | ClearRetryNFS | SetKprobeActive | ClearRetryKprobe.

Definition assign (s : assignment) (p : Programs) : Programs :=
  let '(MkPrograms bo no ko ls bh nh kh ba na ka rn rk ns ks) := p in
  match s with
  | SetNfsObjs o => MkPrograms bo o ko ls bh nh kh ba na ka rn rk ns ks
  | SetNfsHists o => MkPrograms bo no ko ls bh o kh ba na ka rn rk ns ks
  | SetKprobeObjs o => MkPrograms bo no o ls bh nh kh ba na ka rn rk ns ks
  | SetKprobeHists o => MkPrograms bo no ko ls bh nh o ba na ka rn rk ns ks
  | SetLinks ls' => MkPrograms bo no ko ls' bh nh kh ba na ka rn rk ns ks
  | SetNFSActive => MkPrograms bo no ko ls bh nh kh ba true ka rn rk ns ks
  | ClearRetryNFS => MkPrograms bo no ko ls bh nh kh ba na ka false rk ns ks
  | SetKprobeActive => MkPrograms bo no ko ls bh nh kh ba na true rn rk ns ks
  | ClearRetryKprobe => MkPrograms bo no ko ls bh nh kh ba na ka rn false ns ks
  end.

(** The two conditionals between Lock and Unlock. *)
Inductive test := IfRetryNFS | IfRetryKprobe.

(** The attempt a conditional makes: the kernel's calls are one step, since no
    other goroutine knows the handles they open before they are assigned.  What
    is left are the assignments, none when it fails. *)
Definition attempt (t : test) (a : answers) (p : Programs) (k : kernel) : list assignment * kernel :=
  match t with
  | IfRetryNFS =>
      if retryNFS p then
        let '(p', k', ok) := loadNFS (nfsMapSize p) a p k in
        (if ok : bool then [SetNfsObjs (nfsObjs p'); SetNfsHists (NfsHists p'); SetLinks (links p'); SetNFSActive; ClearRetryNFS] else [], k')
      else ([], k)
  | IfRetryKprobe =>
      if retryNFSKprobe p then
        let '(p', k', ok) := loadNFSKprobe (nfsKprobeMapSize p) a p k in
        (if ok : bool then [SetKprobeObjs (nfsKprobeObjs p'); SetKprobeHists (NfsKprobeHists p'); SetLinks (links p'); SetKprobeActive; ClearRetryKprobe] else [], k')
      else ([], k)
  end.

Inductive retrier :=
  | Entering                                       (** at the first conditional *)
  | Selecting                                      (** at the select *)
  | AtLock
  | Locked (l : list assignment) (ts : list test)  (** what is left before Unlock *)
  | Unlocked                                       (** at the last conditional *)
  | RetryReturned.

(** ** The readers *)

Inductive flag := FBlock | FNfs | FKprobe.
Definition active (f : flag) (p : Programs) : bool :=
  match f with FBlock => BlockActive p | FNfs => NFSActive p | FKprobe => NFSKprobeActive p end.
Definition hists (f : flag) (p : Programs) : option handle :=
  match f with FBlock => BlockHists p | FNfs => NfsHists p | FKprobe => NfsKprobeHists p end.

(** Collect reads the three flags for the gauges, tests each map for nil, and
    reads the field a second time to iterate. *)
Inductive access := ReadFlag (f : flag) | TestMap (f : flag) | IterMap (f : flag).
Inductive seen := SawFlag (f : flag) (b : bool) | SawMap (f : flag) (h : option handle) | Iterated (f : flag) (h : option handle).

Definition observe (x : access) (p : Programs) : seen :=
  match x with ReadFlag f => SawFlag f (active f p) | TestMap f => SawMap f (hists f p) | IterMap f => Iterated f (hists f p) end.
Definition next_access (v : seen) : list access := match v with SawMap f (Some _) => [IterMap f] | _ => [] end.
Definition accesses : list access := [ReadFlag FBlock; ReadFlag FNfs; ReadFlag FKprobe; TestMap FBlock; TestMap FNfs; TestMap FKprobe].

(** A call of Collect, with what it has seen so far. *)
Inductive reader := AtRLock | Reading (todo : list access) (log : list seen) | Collected (log : list seen).

(** ** The closing goroutine *)

(** The loop has evaluated [p.links]; the collections are read one by one. *)
Inductive closer := AwaitDone | ClosingLinks (ls : list handle) | ClosingObjs (fs : list flag) | CloseReturned.

Definition objs (f : flag) (p : Programs) : option handle :=
  match f with FBlock => blockObjs p | FNfs => nfsObjs p | FKprobe => nfsKprobeObjs p end.

(** ** Turns *)

Record loader_state := LState {
  l_prog : Programs; l_kern : kernel; l_done : bool;  (** the context is cancelled *)
  l_retrier : retrier; l_closer : closer; l_readers : list reader;
}.

Definition set_retrier (r : retrier) (c : loader_state) : loader_state := LState (l_prog c) (l_kern c) (l_done c) r (l_closer c) (l_readers c).
Definition set_closer (x : closer) (c : loader_state) : loader_state := LState (l_prog c) (l_kern c) (l_done c) (l_retrier c) x (l_readers c).
Definition set_kern (k : kernel) (c : loader_state) : loader_state := LState (l_prog c) k (l_done c) (l_retrier c) (l_closer c) (l_readers c).
Definition set_prog (p : Programs) (c : loader_state) : loader_state := LState p (l_kern c) (l_done c) (l_retrier c) (l_closer c) (l_readers c).
Definition set_lreader (i : nat) (r : reader) (c : loader_state) : loader_state :=
  LState (l_prog c) (l_kern c) (l_done c) (l_retrier c) (l_closer c) (<[i := r]> (l_readers c)).

(** What main.go starts after [LoadAndAttach], and [n] calls of Collect. *)
Definition shared_start (p : Programs) (k : kernel) (n : nat) : loader_state := LState p k false Entering AwaitDone (replicate n AtRLock).

Definition write_locked (r : retrier) : bool := match r with Locked _ _ => true | _ => false end.
Definition read_locked (r : reader) : bool := match r with Reading _ _ => true | _ => false end.
Definition retry_left (p : Programs) : bool := retryNFS p || retryNFSKprobe p.

(** A step of RetryFailed; [tick] chooses the arm of the select (the one of the
    context only when that is cancelled) and [a] is what the kernel answers. *)
Definition retrier_turn (tick : bool) (a : answers) (c : loader_state) : option loader_state :=
  match l_retrier c with
  | Entering => Some (set_retrier (if retry_left (l_prog c) then Selecting else RetryReturned) c)
  | Selecting =>
      if tick then Some (set_retrier AtLock c) else
      if l_done c then Some (set_retrier RetryReturned c) else None
  | AtLock => if existsb read_locked (l_readers c) then None else Some (set_retrier (Locked [] [IfRetryNFS; IfRetryKprobe]) c)
  | Locked (s :: l) ts => Some (set_prog (assign s (l_prog c)) (set_retrier (Locked l ts) c))
  | Locked [] (t :: ts) =>
      let '(l, k) := attempt t a (l_prog c) (l_kern c) in Some (set_kern k (set_retrier (Locked l ts) c))
  | Locked [] [] => Some (set_retrier Unlocked c)
  | Unlocked => Some (set_retrier (if retry_left (l_prog c) then Selecting else RetryReturned) c)
  | RetryReturned => None
  end.

Definition closer_turn (c : loader_state) : option loader_state :=
  match l_closer c with
  | AwaitDone => if l_done c then Some (set_closer (ClosingLinks (links (l_prog c))) c) else None
  | ClosingLinks (l :: ls) => Some (set_kern (k_close [l] (l_kern c)) (set_closer (ClosingLinks ls) c))
  | ClosingLinks [] => Some (set_closer (ClosingObjs [FBlock; FNfs; FKprobe]) c)
  | ClosingObjs (f :: fs) => Some (set_kern (k_close (option_list (objs f (l_prog c))) (l_kern c)) (set_closer (ClosingObjs fs) c))
  | ClosingObjs [] => Some (set_closer CloseReturned c)
  | CloseReturned => None
  end.

Definition collect_turn (i : nat) (c : loader_state) : option loader_state :=
  r ← l_readers c !! i;
  match r with
  | AtRLock => if write_locked (l_retrier c) then None else Some (set_lreader i (Reading accesses []) c)
  | Reading (x :: todo) log =>
      let v := observe x (l_prog c) in Some (set_lreader i (Reading (next_access v ++ todo) (log ++ [v])) c)
  | Reading [] log => Some (set_lreader i (Collected log) c)
  | Collected _ => None
  end.

Inductive loader_turn := RetryTurn (tick : bool) (a : answers) | CloseTurn | CollectTurn (i : nat) | Cancel.

Definition take_turn (t : loader_turn) (c : loader_state) : option loader_state :=
  match t with
  | RetryTurn tick a => retrier_turn tick a c
  | CloseTurn => closer_turn c
  | CollectTurn i => collect_turn i c
  | Cancel => Some (LState (l_prog c) (l_kern c) true (l_retrier c) (l_closer c) (l_readers c))
  end.

Definition loader_step (c c' : loader_state) : Prop := ∃ t, take_turn t c = Some c'.

Fixpoint take_turns (ts : list loader_turn) (c : loader_state) : option loader_state :=
  match ts with
  | [] => Some c
  | t :: ts' => c' ← take_turn t c; take_turns ts' c'
  end.

(** ** A tick, in two halves *)

Definition tick_half (t : test) (a : answers) (pk : Programs * kernel) : Programs * kernel :=
  let '(l, k) := attempt t a pk.1 pk.2 in (foldl (flip assign) pk.1 l, k).

Lemma assigned_nfs p h ls :
  foldl (flip assign) p
    [SetNfsObjs (nfsObjs (add_links ls (set_nfs (Some h) p))); SetNfsHists (NfsHists (add_links ls (set_nfs (Some h) p)));
     SetLinks (links (add_links ls (set_nfs (Some h) p))); SetNFSActive; ClearRetryNFS] =
  set_flags (BlockActive p) true (NFSKprobeActive p) false (retryNFSKprobe p) (add_links ls (set_nfs (Some h) p)).
Proof. by destruct p. Qed.

Lemma assigned_kprobe p h ls :
  foldl (flip assign) p
    [SetKprobeObjs (nfsKprobeObjs (add_links ls (set_kprobe (Some h) p))); SetKprobeHists (NfsKprobeHists (add_links ls (set_kprobe (Some h) p)));
     SetLinks (links (add_links ls (set_kprobe (Some h) p))); SetKprobeActive; ClearRetryKprobe] =
  set_flags (BlockActive p) (NFSActive p) true (retryNFS p) false (add_links ls (set_kprobe (Some h) p)).
Proof. by destruct p. Qed.

(** What an attempt does to the struct, without assumptions on the handles. *)
Lemma loadNFS_shape size a p k :
  let '(p', _, ok) := loadNFS size a p k in if ok : bool then ∃ h ls, p' = add_links ls (set_nfs (Some h) p) else p' = p.
Proof.
  unfold loadNFS. destruct (a_spec a); [|done]. destruct (a_load a _); [|done]. cbn [negb k_open].
  destruct (attach_all _ _ _ _) as [[ls k'] ok]. destruct ok; cbn [negb]; [by eexists _, _|done].
Qed.

Lemma loadNFSKprobe_shape size a p k :
  let '(p', _, ok) := loadNFSKprobe size a p k in if ok : bool then ∃ h ls, p' = add_links ls (set_kprobe (Some h) p) else p' = p.
Proof.
  unfold loadNFSKprobe. destruct (a_spec a); [|done]. destruct (a_load a _); [|done]. cbn [negb k_open].
  destruct (attach_all _ _ _ _) as [[ls k'] ok]. destruct ok; [|done]. cbn [negb].
  destruct (attach_all _ _ _ _) as [[ls' k''] ok]. destruct ok; cbn [negb]; [by eexists _, _|done].
Qed.

Lemma retry_tick_halves an ak pk : retry_tick an ak pk = tick_half IfRetryKprobe ak (tick_half IfRetryNFS an pk).
Proof.
  destruct pk as [p k]. unfold retry_tick.
  assert (tick_half IfRetryNFS an (p, k) = if retryNFS p then
       let '(p, k, ok) := loadNFS (nfsMapSize p) an p k in
       (if ok : bool then set_flags (BlockActive p) true (NFSKprobeActive p) false (retryNFSKprobe p) p else p, k)
     else (p, k)) as ->.
  { unfold tick_half, attempt. cbn [fst snd]. destruct (retryNFS p); [|done].
    pose proof (loadNFS_shape (nfsMapSize p) an p k) as H. destruct (loadNFS _ _ _ _) as [[p' k'] []].
    - destruct H as (h & ls & ->). by rewrite assigned_nfs.
    - by subst. }
  destruct (if retryNFS p then _ else _) as [p1 k1]. unfold tick_half, attempt. cbn [fst snd]. destruct (retryNFSKprobe p1); [|done].
  pose proof (loadNFSKprobe_shape (nfsKprobeMapSize p1) ak p1 k1) as H. destruct (loadNFSKprobe _ _ _ _) as [[p' k'] []].
  - destruct H as (h & ls & ->). by rewrite assigned_kprobe.
  - by subst.
Qed.

(** Which handles are open does not matter to an attempt, only how many were
    given out. *)
Definition same_next (r1 r2 : Programs * kernel * bool) : Prop := r1.1.1 = r2.1.1 ∧ next r1.1.2 = next r2.1.2 ∧ r1.2 = r2.2.

Lemma attach_all_next opts a ls k1 k2 :
  next k1 = next k2 →
  (attach_all opts a ls k1).1.1 = (attach_all opts a ls k2).1.1 ∧
  next (attach_all opts a ls k1).1.2 = next (attach_all opts a ls k2).1.2 ∧
  (attach_all opts a ls k1).2 = (attach_all opts a ls k2).2.
Proof.
  revert a ls k1 k2. induction opts as [|o opts IH]; intros a ls k1 k2 E; [done|]. cbn [attach_all].
  destruct (default false (head a)); [|destruct o; [by apply IH|done]]. cbn [k_open]. rewrite E. apply IH. cbn. lia.
Qed.

Ltac attach_same k1 k2 E :=
  match goal with
  | |- context [attach_all ?o ?a ?l k1] =>
      let H := fresh in
      pose proof (attach_all_next o a l k1 k2 E) as H;
      destruct (attach_all o a l k1) as [[? ?] ?], (attach_all o a l k2) as [[? ?] ?];
      cbn [fst snd] in H; destruct H as (-> & ? & ->)
  end.

Lemma loadNFS_next size a p k1 k2 : next k1 = next k2 → same_next (loadNFS size a p k1) (loadNFS size a p k2).
Proof.
  intros E. unfold loadNFS. destruct (a_spec a); [|done]. destruct (a_load a _); [|done]. cbn [negb k_open]. rewrite E.
  attach_same (Kernel (S (next k2)) ({[next k2]} ∪ opened k1)) (Kernel (S (next k2)) ({[next k2]} ∪ opened k2)) (eq_refl (S (next k2))).
  match goal with |- context [negb ?b] => by destruct b end.
Qed.

Lemma loadNFSKprobe_next size a p k1 k2 : next k1 = next k2 → same_next (loadNFSKprobe size a p k1) (loadNFSKprobe size a p k2).
Proof.
  intros E. unfold loadNFSKprobe. destruct (a_spec a); [|done]. destruct (a_load a _); [|done]. cbn [negb k_open]. rewrite E.
  attach_same (Kernel (S (next k2)) ({[next k2]} ∪ opened k1)) (Kernel (S (next k2)) ({[next k2]} ∪ opened k2)) (eq_refl (S (next k2))).
  match goal with |- context [negb ?b] => destruct b; [|done] end. cbn [negb].
  match goal with Hk : next ?x = next ?y |- _ => attach_same x y Hk end.
  match goal with |- context [negb ?b] => by destruct b end.
Qed.

Lemma attempt_next t a p k1 k2 :
  next k1 = next k2 → (attempt t a p k1).1 = (attempt t a p k2).1 ∧ next (attempt t a p k1).2 = next (attempt t a p k2).2.
Proof.
  intros E. destruct t; cbn [attempt].
  - destruct (retryNFS p); [|done]. pose proof (loadNFS_next (nfsMapSize p) a p k1 k2 E) as H.
    destruct (loadNFS _ _ _ k1) as [[? ?] ?], (loadNFS _ _ _ k2) as [[? ?] ?]. unfold same_next in H. cbn in H. destruct H as (-> & ? & ->). done.
  - destruct (retryNFSKprobe p); [|done]. pose proof (loadNFSKprobe_next (nfsKprobeMapSize p) a p k1 k2 E) as H.
    destruct (loadNFSKprobe _ _ _ k1) as [[? ?] ?], (loadNFSKprobe _ _ _ k2) as [[? ?] ?]. unfold same_next in H. cbn in H. destruct H as (-> & ? & ->). done.
Qed.

(** ** What a Collect sees of a struct that does not change meanwhile *)

Definition see (p : Programs) (x : access) : list seen :=
  let v := observe x p in v :: ((λ y, observe y p) <$> next_access v).
Definition sees (p : Programs) (todo : list access) : list seen := todo ≫= see p.
Definition collect_sees (p : Programs) : list seen := sees p accesses.

Lemma sees_next p x todo : sees p (x :: todo) = observe x p :: sees p (next_access (observe x p) ++ todo).
Proof. destruct x as [f|f|f]; cbn; [done| |done]. by destruct (hists f p). Qed.

(** The gauge of a subsystem is 1 exactly when its map is iterated. *)
Definition gauge_matches (f : flag) (log : list seen) : Prop := SawFlag f true ∈ log ↔ ∃ h, Iterated f (Some h) ∈ log.

Ltac see_cases x Hs p :=
  let g := fresh "g" in let E := fresh "E" in
  destruct x as [g|g|g]; unfold see in Hs; cbn in Hs; destruct (hists g p) eqn:E; cbn in Hs; rewrite ?E in Hs;
  repeat (apply elem_of_cons in Hs as [Hs|Hs]; [simplify_eq; try done|]); try by apply elem_of_nil in Hs.

Lemma collect_sees_active f p h : active f p = true → hists f p = Some h → SawFlag f true ∈ collect_sees p ∧ Iterated f (Some h) ∈ collect_sees p.
Proof.
  intros Ea Eh. unfold collect_sees, sees. rewrite !list_elem_of_bind. split.
  - exists (ReadFlag f). split; [|destruct f; set_solver]. unfold see. cbn. rewrite Ea. set_solver.
  - exists (TestMap f). split; [|destruct f; set_solver]. unfold see. cbn. rewrite Eh. cbn. rewrite Eh. set_solver.
Qed.

Lemma collect_sees_inv f p :
  (SawFlag f true ∈ collect_sees p → active f p = true) ∧ (∀ h, Iterated f (Some h) ∈ collect_sees p → hists f p = Some h).
Proof. unfold collect_sees, sees. setoid_rewrite list_elem_of_bind. split; [|intros h]; intros (x & Hs & _); by see_cases x Hs p. Qed.

Lemma collect_sees_iterates f p :
  (active f p = true → ∃ h, hists f p = Some h) → SawFlag f true ∈ collect_sees p → ∃ h, Iterated f (Some h) ∈ collect_sees p.
Proof. intros Hp Hs. pose proof (proj1 (collect_sees_inv f p) Hs) as Ea. destruct (Hp Ea) as [h Eh]. exists h. by eapply collect_sees_active. Qed.

Lemma collect_sees_gauge f p : active f p = present (hists f p) → gauge_matches f (collect_sees p).
Proof.
  intros E. split.
  - apply collect_sees_iterates. rewrite E. destruct (hists f p) as [h|]; [by exists h|done].
  - intros [h Hh]. pose proof (proj2 (collect_sees_inv f p) h Hh) as Eh. eapply collect_sees_active; [|done]. by rewrite E, Eh.
Qed.

(** ** The invariant *)

Section Shared.
Context (p0 : Programs) (k0 : kernel).

(** The struct after some ticks, one after the other. *)
Abbreviation after ticks := (RetryFailed ticks (p0, k0)).

Definition pending (r : retrier) : list assignment := match r with Locked l _ => l | _ => [] end.

(** Where the tick in progress has brought the struct and the kernel, once the
    pending assignments are made. *)
Definition midway (r : retrier) (pk pk' : Programs * kernel) : Prop :=
  match r with
  | Locked _ [IfRetryKprobe] => ∃ an, pk' = tick_half IfRetryNFS an pk
  | Locked _ [] => ∃ an ak, pk' = retry_tick an ak pk
  | Locked _ [IfRetryNFS; IfRetryKprobe] => pk' = pk
  | Locked _ _ => False
  | _ => pk' = pk
  end.

(** Closing only takes handles away. *)
Definition agrees (x : closer) (k ks : kernel) : Prop := next k = next ks ∧ (x = AwaitDone → k = ks).

Definition reader_ok (ticks : list (answers * answers)) (c : loader_state) (r : reader) : Prop :=
  match r with
  | AtRLock => True
  | Reading todo log => write_locked (l_retrier c) = false ∧ log ++ sees (l_prog c) todo = collect_sees (l_prog c)
  | Collected log => ∃ ticks', ticks' `prefix_of` ticks ∧ log = collect_sees (after ticks').1
  end.

Record between (ticks : list (answers * answers)) (c : loader_state) : Prop := {
  bt_prog : ∃ pk, midway (l_retrier c) (after ticks) pk ∧ foldl (flip assign) (l_prog c) (pending (l_retrier c)) = pk.1 ∧
    agrees (l_closer c) (l_kern c) pk.2;
  bt_readers : ∀ i r, l_readers c !! i = Some r → reader_ok ticks c r;
}.

Lemma between_start n : between [] (shared_start p0 k0 n).
Proof.
  split; [by exists (p0, k0)|]. intros i r [-> _]%lookup_replicate. done.
Qed.

(** Outside the lock the struct is as after whole ticks. *)
Lemma between_rest ticks c : between ticks c → write_locked (l_retrier c) = false → l_prog c = (after ticks).1 ∧ agrees (l_closer c) (l_kern c) (after ticks).2.
Proof. intros [(pk & Hm & Hp & Hk) _] Hw. destruct (l_retrier c); try done; cbn in Hm; by subst. Qed.

(** Steps of the retrying goroutine outside the lock change nothing that counts. *)
Lemma between_idle ticks c r :
  between ticks c → write_locked (l_retrier c) = false → write_locked r = false → between ticks (set_retrier r c).
Proof.
  intros Hb Hw Hr. destruct (between_rest _ _ Hb Hw) as [Hp Hk]. split.
  - exists (after ticks). cbn. destruct r; done.
  - intros i x Hx. pose proof (bt_readers _ _ Hb i x Hx) as Hok. destruct x; cbn in *; [done|by split; [|apply Hok]|done].
Qed.

(** While it holds the lock nobody reads. *)
Lemma between_locked ticks c p k r :
  between ticks c → write_locked (l_retrier c) = true →
  (∃ pk, midway r (after ticks) pk ∧ foldl (flip assign) p (pending r) = pk.1 ∧ agrees (l_closer c) k pk.2) →
  between ticks (LState p k (l_done c) r (l_closer c) (l_readers c)).
Proof.
  intros Hb Hw Hs. split; [exact Hs|]. intros i x Hx. pose proof (bt_readers _ _ Hb i x Hx) as Hok.
  destruct x; cbn in *; [done|by rewrite Hw in Hok; destruct Hok|done].
Qed.

Lemma agrees_attempt x t a p k ks : agrees x k ks → agrees x (attempt t a p k).2 (attempt t a p ks).2.
Proof. intros [Hn He]. split; [by apply attempt_next|]. intros Hx. by rewrite (He Hx). Qed.

Lemma between_attempt ticks c t ts a :
  between ticks c → l_retrier c = Locked [] (t :: ts) →
  let '(l, k) := attempt t a (l_prog c) (l_kern c) in between ticks (set_kern k (set_retrier (Locked l ts) c)).
Proof.
  intros Hb Er. destruct (bt_prog _ _ Hb) as (pk & Hm & Hp & Hk). rewrite Er in Hm, Hp. cbn [pending foldl] in Hp.
  pose proof (agrees_attempt _ t a (l_prog c) _ _ Hk) as Ha.
  pose proof (attempt_next t a (l_prog c) (l_kern c) pk.2 (proj1 Hk)) as [El _].
  assert (Ht : tick_half t a pk = (foldl (flip assign) (l_prog c) (attempt t a (l_prog c) (l_kern c)).1, (attempt t a (l_prog c) pk.2).2))
    by (unfold tick_half; rewrite El, <- Hp; by destruct (attempt t a (l_prog c) pk.2)).
  destruct (attempt t a (l_prog c) (l_kern c)) as [l k]. cbn [fst snd] in *.
  apply (between_locked ticks c); [done|by rewrite Er|]. exists (tick_half t a pk). rewrite Ht. split_and!; [|done|done]. rewrite <- Ht.
  destruct t, ts as [|[] [|]]; cbn in Hm |- *; try done; [subst; by exists a|]. destruct Hm as [an ->]. exists an, a. by rewrite retry_tick_halves.
Qed.

Lemma between_retrier ticks tick a c c' :
  between ticks c → retrier_turn tick a c = Some c' → ∃ more, between (ticks ++ more) c'.
Proof.
  intros Hb. unfold retrier_turn. destruct (l_retrier c) as [| | |[|s l] [|t ts]| |] eqn:Er; intros Ht.
  - exists []. rewrite app_nil_r. injection Ht as <-. apply between_idle; rewrite ?Er; try done. by destruct (retry_left _).
  - exists []. rewrite app_nil_r. destruct tick; [|destruct (l_done c); [|done]]; injection Ht as <-; apply between_idle; by rewrite ?Er.
  - exists []. rewrite app_nil_r. destruct (existsb _ _) eqn:Ex; [done|]. injection Ht as <-.
    destruct (between_rest _ _ Hb) as [Hp Hk]; [by rewrite Er|]. split; [by exists (after ticks)|]. intros i r Hr.
    pose proof (bt_readers _ _ Hb i r Hr) as Hok. destruct r as [|todo log|log]; [done| |done]. exfalso.
    enough (existsb read_locked (l_readers c) = true) by congruence. apply existsb_exists. exists (Reading todo log). split; [|done].
    apply list_elem_of_In. by apply list_elem_of_lookup_2 in Hr.
  - injection Ht as <-. destruct (bt_prog _ _ Hb) as (pk & Hm & Hp & Hk). rewrite Er in Hm, Hp. destruct Hm as (an & ak & ->). exists [(an, ak)].
    assert (Hs : after (ticks ++ [(an, ak)]) = retry_tick an ak (after ticks)) by (unfold RetryFailed; by rewrite foldl_app).
    split; [exists (after (ticks ++ [(an, ak)])); rewrite Hs; done|]. intros i r Hr.
    pose proof (bt_readers _ _ Hb i r Hr) as Hok. destruct r as [|todo log|log]; [done|by cbn in Hok; rewrite Er in Hok; destruct Hok|].
    destruct Hok as (ticks' & Hpre & ->). exists ticks'. split; [|done]. by apply prefix_app_r.
  - exists []. rewrite app_nil_r. pose proof (between_attempt ticks c t ts a Hb Er) as H. destruct (attempt _ _ _ _). by injection Ht as <-.
  - exists []. rewrite app_nil_r. injection Ht as <-. destruct (bt_prog _ _ Hb) as (pk & Hm & Hp & Hk). rewrite Er in Hm, Hp.
    apply (between_locked ticks c); [done|by rewrite Er|]. by exists pk.
  - exists []. rewrite app_nil_r. injection Ht as <-. destruct (bt_prog _ _ Hb) as (pk & Hm & Hp & Hk). rewrite Er in Hm, Hp.
    apply (between_locked ticks c); [done|by rewrite Er|]. by exists pk.
  - exists []. rewrite app_nil_r. injection Ht as <-. apply between_idle; rewrite ?Er; try done. by destruct (retry_left _).
  - done.
Qed.

Lemma between_closer ticks c c' : between ticks c → closer_turn c = Some c' → between ticks c'.
Proof.
  intros [(pk & Hm & Hp & Hk) Hr] Ht.
  assert (∃ x k, c' = set_kern k (set_closer x c) ∧ next k = next (l_kern c) ∧ x ≠ AwaitDone) as (x & k & -> & Hn & Hx).
  { revert Ht. unfold closer_turn. destruct (l_closer c) as [|[|l ls]|[|f fs]|]; [destruct (l_done c); [|done]| | | | |done];
      intros [= <-]; (eexists _, _; split; [reflexivity|done]). }
  split; [exists pk; split_and!; [done..|]|done]. split; [cbn; rewrite Hn; apply Hk|done].
Qed.

Lemma between_collect ticks i c c' : between ticks c → collect_turn i c = Some c' → between ticks c'.
Proof.
  intros Hb. unfold collect_turn. destruct (l_readers c !! i) as [r|] eqn:Ei; [|done]. cbn [mbind option_bind].
  assert (Hset : ∀ x, reader_ok ticks c x → between ticks (set_lreader i x c)).
  { intros x Hx. split; [apply Hb|]. cbn [set_lreader l_readers]. intros j y.
    rewrite list_lookup_insert_Some. intros [(<- & <- & _)|(_ & Hy)]; [exact Hx|]. exact (bt_readers _ _ Hb j y Hy). }
  pose proof (bt_readers _ _ Hb i r Ei) as Hok. destruct r as [|[|x todo] log|log]; intros Ht; [| | |done].
  - destruct (write_locked _) eqn:Ew; [done|]. injection Ht as <-. by apply Hset.
  - injection Ht as <-. apply Hset. destruct Hok as [Hw Hl]. exists ticks. split; [done|]. cbn [sees mbind list_bind] in Hl.
    rewrite app_nil_r in Hl. destruct (between_rest _ _ Hb Hw) as [<- _]. done.
  - injection Ht as <-. apply Hset. destruct Hok as [Hw Hl]. split; [done|]. by rewrite <- app_assoc, <- Hl, sees_next.
Qed.

Lemma between_step ticks c c' : between ticks c → loader_step c c' → ∃ more, between (ticks ++ more) c'.
Proof.
  intros Hb [[tick a| |i|] Ht]; cbn in Ht; [by eapply between_retrier| | |]; exists []; rewrite app_nil_r.
  - by eapply between_closer.
  - by eapply between_collect.
  - injection Ht as <-. by destruct Hb.
Qed.

Lemma between_reachable n c : rtc loader_step (shared_start p0 k0 n) c → ∃ ticks, between ticks c.
Proof.
  revert c. apply rtc_ind_r; [exists []; apply between_start|]. intros c c' _ Hs [ticks Hb].
  destruct (between_step _ _ _ Hb Hs) as [more H]. by eexists.
Qed.
End Shared.

(** ** Shutting down *)

(** What the closing goroutine is still going to close. *)
Definition to_close (x : closer) (p : Programs) : list handle :=
  match x with
  | AwaitDone => refs p
  | ClosingLinks ls => ls ++ ([FBlock; FNfs; FKprobe] ≫= λ f, option_list (objs f p))
  | ClosingObjs fs => fs ≫= λ f, option_list (objs f p)
  | CloseReturned => []
  end.

Record winding_down (c : loader_state) : Prop := {
  wd_retrier : l_retrier c = RetryReturned;
  wd_open : ∀ h, h ∈ opened (l_kern c) → h ∈ to_close (l_closer c) (l_prog c);
}.

Lemma winding_down_step c c' : winding_down c → loader_step c c' → winding_down c'.
Proof.
  intros [Hr Ho] [[tick a| |i|] Ht]; cbn in Ht.
  - unfold retrier_turn in Ht. by rewrite Hr in Ht.
  - unfold closer_turn in Ht.
    destruct (l_closer c) as [|[|l ls]|[|f fs]|] eqn:Ec; [destruct (l_done c); [|done]| | | | |done]; injection Ht as <-; (split; [done|]); cbn in *; try done.
    + intros h Hh. specialize (Ho h Hh). unfold refs in Ho. by rewrite app_nil_r.
    + intros h [Hh Hl]%elem_of_difference. specialize (Ho h Hh). set_solver.
    + intros h [Hh Hl]%elem_of_difference. specialize (Ho h Hh). apply elem_of_app in Ho as [?|?]; [set_solver|done].
  - unfold collect_turn in Ht. destruct (l_readers c !! i) as [r|]; [|done]. cbn in Ht.
    destruct r as [|[|x todo] log|log]; [destruct (write_locked _)| | |]; try done; by injection Ht as <-.
  - by injection Ht as <-.
Qed.

(** Once the retries are over, shutting down closes everything. *)
Lemma close_after_retries p0 k0 n c c' :
  inv p0 k0 → rtc loader_step (shared_start p0 k0 n) c → l_retrier c = RetryReturned → l_closer c = AwaitDone →
  rtc loader_step c c' → l_closer c' = CloseReturned → opened (l_kern c') = ∅.
Proof.
  intros Hi Hc Hr Hx Hc' Hx'. destruct (between_reachable p0 k0 n c Hc) as [ticks Hb].
  destruct (between_rest p0 k0 ticks c Hb) as [Hp [_ Hk]]; [by rewrite Hr|]. specialize (Hk Hx).
  pose proof (RetryFailed_inv ticks p0 k0 Hi) as Hi'. destruct (RetryFailed ticks (p0, k0)) as [p k]. cbn in Hp, Hk.
  assert (Hw : winding_down c) by (split; [done|]; rewrite Hx, Hp, Hk; apply Hi').
  assert (Hw' : winding_down c') by (clear -Hc' Hw; induction Hc'; eauto using winding_down_step).
  apply set_eq. intros h. split; [|set_solver]. intros Hh. apply (wd_open _ Hw') in Hh. rewrite Hx' in Hh. by apply elem_of_nil in Hh.
Qed.

Lemma take_turns_steps ts c c' : take_turns ts c = Some c' → rtc loader_step c c'.
Proof.
  revert c. induction ts as [|t ts IH]; intros c Ht; [by injection Ht as ->|]. cbn in Ht.
  destruct (take_turn t c) as [c1|] eqn:E; [|done]. eapply rtc_l; [by exists t|]. by apply IH.
Qed.

(** A retry that is under way when the context is cancelled: [Close] takes no
    lock and has looked at the collection of NFS before it is assigned.  Both
    goroutines return, and the tracepoints stay attached. *)
Definition nothing : answers := Answers false (λ _, false) [].
Definition late_retry : list loader_turn :=
  [RetryTurn false nothing; RetryTurn true nothing; RetryTurn false nothing; RetryTurn false yes; Cancel] ++
  replicate 6 CloseTurn ++ replicate 8 (RetryTurn false nothing).

Theorem retry_during_close_leaks :
  let '(p, k, ok) := LoadAndAttach (Options false true false 0 0 0) nothing no_nfs nothing (Kernel 0 ∅) in
  ∃ c, rtc loader_step (shared_start p k 0) c ∧ ok = true ∧ l_closer c = CloseReturned ∧ l_retrier c = RetryReturned ∧
    size (opened (l_kern c)) = 5%nat ∧ refs (l_prog c) ⊆ elements (opened (l_kern c)).
Proof.
  set (r := LoadAndAttach _ _ _ _ _). vm_compute in r. subst r. cbv beta iota.
  eexists. split; [eapply (take_turns_steps late_retry); vm_compute; reflexivity|].
  split_and!; [done|done|done|vm_compute; reflexivity|]. vm_compute. set_solver.
Qed.

(** C7.  However retries, scrapes and the shutdown interleave after the programs
    were loaded: a Collect that has returned saw the struct as it was between two
    ticks, never one half written, so that the gauge of an NFS subsystem is 1
    exactly when its histogram map is iterated, and the gauge of the block
    subsystem is 1 only when its map is iterated (a block program that failed to
    attach leaves its map behind with the gauge at 0); and when the retries are
    over before Close begins, Close leaves no collection and no link open. *)
Theorem shared_programs_consistent o ab an ak k n c :
  opened k = ∅ →
  let '(p0, k0, _) := LoadAndAttach o ab an ak k in
  rtc loader_step (shared_start p0 k0 n) c →
  (∀ i log, l_readers c !! i = Some (Collected log) →
     (∃ ticks, log = collect_sees (RetryFailed ticks (p0, k0)).1) ∧ gauge_matches FNfs log ∧ gauge_matches FKprobe log ∧
     (SawFlag FBlock true ∈ log → ∃ h, Iterated FBlock (Some h) ∈ log)) ∧
  (l_retrier c = RetryReturned → l_closer c = AwaitDone →
   ∀ c', rtc loader_step c c' → l_closer c' = CloseReturned → opened (l_kern c') = ∅).
Proof.
  intros He. pose proof (LoadAndAttach_inv o ab an ak k He) as Hi. destruct (LoadAndAttach _ _ _ _ _) as [[p0 k0] ok]. intros Hc.
  split; [|by intros; eapply close_after_retries]. intros i log Hl.
  destruct (between_reachable p0 k0 n c Hc) as [ticks Hb]. destruct (bt_readers _ _ _ _ Hb i _ Hl) as (ticks' & _ & ->).
  split; [by exists ticks'|]. pose proof (RetryFailed_inv ticks' p0 k0 Hi) as Hi'. destruct (RetryFailed ticks' (p0, k0)) as [p k'].
  split; [|split]; [apply collect_sees_gauge; cbn..|apply collect_sees_iterates; cbn].
  - destruct (inv_nfs _ _ Hi') as (-> & -> & _). done.
  - destruct (inv_kprobe _ _ Hi') as (-> & -> & _). done.
  - intros Ea. destruct (inv_block _ _ Hi' Ea) as (h & -> & _). by exists h.
Qed.

(** NFS fails at first and is retried; one Collect before the retry, one after,
    then the shutdown. *)
Definition quiet_shutdown : list loader_turn :=
  replicate 8 (CollectTurn 0) ++ [RetryTurn false nothing; RetryTurn true nothing; RetryTurn false nothing; RetryTurn false yes] ++
  replicate 8 (RetryTurn false nothing) ++ replicate 9 (CollectTurn 1).

Lemma shared_programs_consistent_witness :
  let '(p0, k0, _) := LoadAndAttach (Options false true false 0 0 0) nothing no_nfs nothing (Kernel 0 ∅) in
  ∃ c l0 l1, rtc loader_step (shared_start p0 k0 2) c ∧ l_readers c = [Collected l0; Collected l1] ∧
    SawFlag FNfs false ∈ l0 ∧ SawFlag FNfs true ∈ l1 ∧ (∃ h, Iterated FNfs (Some h) ∈ l1) ∧
    ∃ c', rtc loader_step c c' ∧ l_closer c' = CloseReturned ∧ opened (l_kern c') = ∅.
Proof.
  pose proof (λ c, shared_programs_consistent (Options false true false 0 0 0) nothing no_nfs nothing (Kernel 0 ∅) 2 c eq_refl) as H.
  set (r := LoadAndAttach _ _ _ _ _) in H |- *. vm_compute in r. subst r. cbv beta iota in H |- *.
  eexists _, _, _. split; [eapply (take_turns_steps quiet_shutdown); vm_compute; reflexivity|]. split; [reflexivity|].
  edestruct H as [Hl Hs]; [eapply (take_turns_steps quiet_shutdown); vm_compute; reflexivity|].
  split; [set_solver|]. split; [set_solver|]. split.
  - apply (Hl 1%nat _ eq_refl). set_solver.
  - eexists. split; [eapply (take_turns_steps (Cancel :: replicate 10 CloseTurn)); vm_compute; reflexivity|]. split; [reflexivity|].
    eapply Hs; [reflexivity|reflexivity|eapply (take_turns_steps (Cancel :: replicate 10 CloseTurn)); vm_compute; reflexivity|reflexivity].
Defined.
