(* ===== verification/QgaMetrics.v ===== *)
(** * Guest disk metrics (pkg/qga/types.go, ComputeMetrics)

    Average latency and operations per second of a guest disk, from two
    snapshots of its Windows performance counters. *)
From S2P Require Import Prelude GoFloat.

Record DiskCounters := Counters {
  dc_Name : string; RdQueueLen : Z; WrQueueLen : Z; RdOps : Z; WrOps : Z; Timestamp100ns : Z;
}.

Record DiskMetrics := Metrics {
  dm_Name : string; RdLatSec : float64; WrLatSec : float64; RdIOPS : float64; WrIOPS : float64; ElapsedSec : float64;
}.

Definition f64_0 : float64 := S754_zero false.
Definition f64_1e7 : float64 := f64_of_Z 10000000.

(** Latency and rate of one direction, unsigned subtraction included; both stay
    zero when there was no operation. *)
Definition direction (queue0 queue1 ops0 ops1 : Z) (elapsed : float64) : float64 * float64 :=
  let ops := u64 (ops1 - ops0) in
  if 0 <? ops then
    (f64_div (f64_div (f64_of_Z (u64 (queue1 - queue0))) (f64_of_Z ops)) f64_1e7, f64_div (f64_of_Z ops) elapsed)
  else (f64_0, f64_0).

Definition ComputeMetrics (prev curr : DiskCounters) : DiskMetrics :=
  if Timestamp100ns curr <=? Timestamp100ns prev then Metrics (dc_Name curr) f64_0 f64_0 f64_0 f64_0 f64_0
  else
    let elapsed := f64_div (f64_of_Z (u64 (Timestamp100ns curr - Timestamp100ns prev))) f64_1e7 in
    let '(rdLat, rdIOPS) := direction (RdQueueLen prev) (RdQueueLen curr) (RdOps prev) (RdOps curr) elapsed in
    let '(wrLat, wrIOPS) := direction (WrQueueLen prev) (WrQueueLen curr) (WrOps prev) (WrOps curr) elapsed in
    Metrics (dc_Name curr) rdLat wrLat rdIOPS wrIOPS elapsed.

(** Counters that did not go back. *)
Record monotone (prev curr : DiskCounters) : Prop := {
  mo_ts : 0 <= Timestamp100ns prev <= Timestamp100ns curr ∧ Timestamp100ns curr < 2 ^ 64;
  mo_rq : 0 <= RdQueueLen prev <= RdQueueLen curr ∧ RdQueueLen curr < 2 ^ 64;
  mo_wq : 0 <= WrQueueLen prev <= WrQueueLen curr ∧ WrQueueLen curr < 2 ^ 64;
  mo_ro : 0 <= RdOps prev <= RdOps curr ∧ RdOps curr < 2 ^ 64;
  mo_wo : 0 <= WrOps prev <= WrOps curr ∧ WrOps curr < 2 ^ 64;
}.

(** Little's law on one direction, over the true differences. *)
Definition littles_law (dqueue dops : Z) (elapsed : float64) : float64 * float64 :=
  if decide (dops = 0) then (f64_0, f64_0)
  else (f64_div (f64_div (f64_of_Z dqueue) (f64_of_Z dops)) f64_1e7, f64_div (f64_of_Z dops) elapsed).

Lemma direction_monotone q0 q1 o0 o1 el :
  0 <= q0 <= q1 → q1 < 2 ^ 64 → 0 <= o0 <= o1 → o1 < 2 ^ 64 →
  direction q0 q1 o0 o1 el = littles_law (q1 - q0) (o1 - o0) el.
Proof.
  intros Hq Hq1 Ho Ho1. unfold direction, littles_law. rewrite !u64_id by (unfold is_u64; lia). cbv zeta.
  destruct (Z.ltb_spec 0 (o1 - o0)); [by rewrite decide_False by lia|by rewrite decide_True by lia].
Qed.

(** As long as no counter goes back, the metrics are Little's law over the
    counter differences, computed in float64: latency is queue time per
    operation in seconds, the rate is operations per elapsed second, and both
    are zero for a direction without operations or without elapsed time. *)
Theorem metrics_littles_law prev curr :
  monotone prev curr → Timestamp100ns prev < Timestamp100ns curr →
  let m := ComputeMetrics prev curr in
  ElapsedSec m = f64_div (f64_of_Z (Timestamp100ns curr - Timestamp100ns prev)) f64_1e7 ∧
  (RdLatSec m, RdIOPS m) = littles_law (RdQueueLen curr - RdQueueLen prev) (RdOps curr - RdOps prev) (ElapsedSec m) ∧
  (WrLatSec m, WrIOPS m) = littles_law (WrQueueLen curr - WrQueueLen prev) (WrOps curr - WrOps prev) (ElapsedSec m).
Proof.
  intros [Ht Hrq Hwq Hro Hwo] Hlt. unfold ComputeMetrics. destruct (Z.leb_spec (Timestamp100ns curr) (Timestamp100ns prev)); [lia|].
  cbv zeta. rewrite (u64_id (Timestamp100ns curr - Timestamp100ns prev)) by (unfold is_u64; lia).
  rewrite !direction_monotone by lia.
  destruct (littles_law (RdQueueLen curr - _) _ _) as [a b] eqn:E1, (littles_law (WrQueueLen curr - _) _ _) as [c d] eqn:E2.
  cbn [ElapsedSec RdLatSec RdIOPS WrLatSec WrIOPS]. by rewrite E1, E2.
Qed.

(** 160 writes in ten seconds with 256 s of queue time: 1.6 s each. *)
Definition example_prev : DiskCounters := Counters "0 C:" 5000 7000 10 20 1000000000.
Definition example_curr : DiskCounters := Counters "0 C:" 5000 (7000 + 2560000000) 10 180 1100000000.

Lemma metrics_littles_law_witness :
  let m := ComputeMetrics example_prev example_curr in
  (WrLatSec m, WrIOPS m) = littles_law 2560000000 160 (ElapsedSec m) ∧ WrLatSec m = f64_ratio 16 10.
Proof.
  split; [|vm_compute; reflexivity].
  refine (proj2 (proj2 (metrics_littles_law example_prev example_curr _ _))); [split|]; cbn; lia.
Defined.

(** The operation counters have 32 bits in the guest and restart with it,
    but are subtracted as 64-bit numbers: when one went back, the difference is
    2^64 less what it went back, so that the reported rate is that of more than
    1.8 * 10^19 operations, not of the true number modulo 2^32. *)
Theorem counter_wrap_explodes q0 q1 o0 o1 el :
  0 <= o1 < o0 → o0 < 2 ^ 32 →
  (direction q0 q1 o0 o1 el).2 = f64_div (f64_of_Z (2 ^ 64 - (o0 - o1))) el ∧ 2 ^ 64 - 2 ^ 32 < 2 ^ 64 - (o0 - o1).
Proof.
  intros Ho Hb. split; [|lia]. unfold direction.
  assert (Hw : u64 (o1 - o0) = 2 ^ 64 - (o0 - o1)).
  { unfold u64. rewrite <- (Z.mod_add _ 1) by lia. rewrite Z.mod_small; lia. }
  rewrite Hw. cbv zeta. by destruct (Z.ltb_spec 0 (2 ^ 64 - (o0 - o1))); [|lia].
Qed.

Lemma counter_wrap_explodes_witness :
  (direction 0 0 4294967295 9 (f64_of_Z 10)).2 = f64_div (f64_of_Z (2 ^ 64 - (4294967295 - 9))) (f64_of_Z 10).
Proof. refine (proj1 (counter_wrap_explodes 0 0 4294967295 9 (f64_of_Z 10) _ _)); lia. Defined.
