(* ===== verification/DiskMap.v ===== *)
(** * Mapping guest disks to volumes (pkg/qmp/types.go, pkg/qga/diskmap.go)

    The libvirt domain description says which volume each disk of a virtual
    machine is and where it sits; the guest agent says where each physical drive
    sits from the guest's view.  The two are joined by location, and by serial
    number where locations do not match. *)
From S2P Require Import Prelude GoStrings.

(** ** The domain description, as decoded from XML *)

Record xmlAddr := XmlAddr { xa_type : string; xa_domain : string; xa_bus : string; xa_slot : string; xa_function : string;
  xa_controller : string; xa_target : string; xa_unit : string }.
Record xmlController := XmlController { xc_type : string; xc_index : string; xc_address : xmlAddr }.
Record xmlDisk := XmlDisk { xd_device : string; xd_serial : string; xd_bus : string; xd_alias : string; xd_address : xmlAddr }.
Record xmlDomain := XmlDomain { disks : list xmlDisk; controllers : list xmlController }.

Record PCIAddr := PCI { Domain : Z; Bus : Z; Slot : Z; Function : Z }.
Record DiskLocation := Location { Controller : PCIAddr; dl_Bus : Z; dl_Target : Z; dl_Unit : Z }.

#[export] Instance PCIAddr_eq_dec : EqDecision PCIAddr.
Proof. solve_decision. Defined.
#[export] Instance PCIAddr_countable : Countable PCIAddr.
Proof. refine (inj_countable' (λ a, (Domain a, Bus a, Slot a, Function a)) (λ '(d, b, s, f), PCI d b s f) _). by intros []. Defined.
#[export] Instance DiskLocation_eq_dec : EqDecision DiskLocation.
Proof. solve_decision. Defined.
#[export] Instance DiskLocation_countable : Countable DiskLocation.
Proof.
  refine (inj_countable' (λ l, (Controller l, dl_Bus l, dl_Target l, dl_Unit l)) (λ '(c, b, t, u), Location c b t u) _).
  by intros [].
Defined.

Definition parseHexAddr (a : xmlAddr) : option PCIAddr :=
  domain ← ParseInt16 (TrimPrefix (xa_domain a) "0x");
  bus ← ParseInt16 (TrimPrefix (xa_bus a) "0x");
  slot ← ParseInt16 (TrimPrefix (xa_slot a) "0x");
  fn ← ParseInt16 (TrimPrefix (xa_function a) "0x");
  Some (PCI domain bus slot fn).

(** The volume a disk's alias names: what follows "ua-", if anything does. *)
Definition volume_name (d : xmlDisk) : option string :=
  let volName := TrimPrefix (xd_alias d) "ua-" in
  if bool_decide (volName = xd_alias d) || bool_decide (volName = EmptyString) then None else Some volName.

(** PCI addresses of the controllers, by "type:index". *)
Definition controllerPCI (dom : xmlDomain) : gmap string PCIAddr :=
  foldl (λ m c,
    if bool_decide (xa_type (xc_address c) = "pci") then
      match parseHexAddr (xc_address c) with
      | Some addr => <[xc_type c +:+ ":" +:+ xc_index c := addr]> m
      | None => m
      end
    else m) ∅ (controllers dom).

(** Failing conversions of unit numbers count as 0. *)
Definition atoi0 (s : string) : Z := default 0 (Atoi s).

(** The body of the loop over the disks. *)
Definition disk_location (ctrl : gmap string PCIAddr) (d : xmlDisk) : option (DiskLocation * string) :=
  if negb (bool_decide (xd_device d = "disk")) then None else
  volName ← volume_name d;
  let a := xd_address d in
  if bool_decide (xa_type a = "pci") then
    addr ← parseHexAddr a;
    Some (Location addr 0 0 0, volName)
  else if bool_decide (xa_type a = "drive") then
    let ctrlIdx := if bool_decide (xa_controller a = EmptyString) then "0" else xa_controller a in
    if bool_decide (xd_bus d = EmptyString) then None else
    ctrlPCI ← ctrl !! (xd_bus d +:+ ":" +:+ ctrlIdx);
    Some (Location ctrlPCI (atoi0 (xa_bus a)) (atoi0 (xa_target a)) (atoi0 (xa_unit a)), volName)
  else None.

(** Inserting what a list yields into a Go map, in order. *)
Definition build_map {K A V} `{Countable K} (f : A → option (K * V)) (l : list A) : gmap K V :=
  foldl (λ m x, match f x with Some (k, v) => <[k := v]> m | None => m end) ∅ l.

(** [ParseDiskLocations] and [ParseDiskSerials] after decoding; [None] when the
    XML does not decode. *)
Definition ParseDiskLocations (dom : option xmlDomain) : option (gmap DiskLocation string) :=
  dom ← dom; Some (build_map (disk_location (controllerPCI dom)) (disks dom)).

Definition disk_serial (d : xmlDisk) : option (string * string) :=
  if negb (bool_decide (xd_device d = "disk")) || bool_decide (xd_serial d = EmptyString) then None else
  volName ← volume_name d; Some (xd_serial d, volName).

Definition ParseDiskSerials (dom : option xmlDomain) : option (gmap string string) :=
  dom ← dom; Some (build_map disk_serial (disks dom)).

(** [ParseDiskAddresses], the older function for disks with a PCI address. *)
Definition disk_address (d : xmlDisk) : option (PCIAddr * string) :=
  if negb (bool_decide (xd_device d = "disk")) then None else
  if negb (bool_decide (xa_type (xd_address d) = "pci")) then None else
  volName ← volume_name d;
  addr ← parseHexAddr (xd_address d);
  Some (addr, volName).

Definition ParseDiskAddresses (dom : option xmlDomain) : option (gmap PCIAddr string) :=
  dom ← dom; Some (build_map disk_address (disks dom)).

(** ** The join *)

Record GuestDisk := Guest { gd_Name : string; DriveIndex : Z; Serial : string; gd_Location : DiskLocation }.

Definition by_location (hostMap : gmap DiskLocation string) (gd : GuestDisk) : option (Z * string) :=
  volName ← hostMap !! gd_Location gd; Some (DriveIndex gd, volName).

(** One step of the fallback loop. *)
Definition serial_step (serialMap : gmap string string) (result : gmap Z string) (gd : GuestDisk) : gmap Z string :=
  match result !! DriveIndex gd with
  | Some _ => result
  | None =>
      if bool_decide (Serial gd = EmptyString) then result
      else match serialMap !! Serial gd with
           | Some volName => <[DriveIndex gd := volName]> result
           | None => result
           end
  end.

Definition BuildDiskMapping (dom : option xmlDomain) (guestDisks : list GuestDisk) : option (gmap Z string) :=
  hostMap ← ParseDiskLocations dom;
  let result := build_map (by_location hostMap) guestDisks in
  Some (match ParseDiskSerials dom with
        | Some serialMap =>
            if (0 <? size serialMap)%nat then foldl (serial_step serialMap) result guestDisks else result
        | None => result
        end).

(** The leading number of a drive name such as "1 E:". *)
Definition ParseDiskIndex (name : string) : option Z :=
  match SplitN2 " " (TrimSpace name) with
  | p :: _ => Atoi p
  | [] => None
  end.

(** ** Correctness of the join *)

Lemma build_map_in {K A V} `{Countable K} (f : A → option (K * V)) l k v :
  build_map f l !! k = Some v → ∃ x, x ∈ l ∧ f x = Some (k, v).
Proof.
  unfold build_map. assert (Hgen : ∀ acc : gmap K V,
    foldl (λ m x, match f x with Some (k, v) => <[k := v]> m | None => m end) acc l !! k = Some v →
    acc !! k = Some v ∨ ∃ x, x ∈ l ∧ f x = Some (k, v)).
  { induction l as [|x l IH]; intros acc Hk; [by left|]. cbn [foldl] in Hk. destruct (IH _ Hk) as [Hacc|(y & Hy & Hf)].
    - destruct (f x) as [[k' v']|] eqn:Hf; [|by left]. rewrite lookup_insert in Hacc. case_decide; [|by left].
      simplify_eq. right. exists x. split; [apply list_elem_of_here|done].
    - right. exists y. split; [by apply list_elem_of_further|done]. }
  intros Hk. destruct (Hgen ∅ Hk) as [He|]; [by rewrite lookup_empty in He|done].
Qed.

Lemma build_map_has {K A V} `{Countable K} (f : A → option (K * V)) l x k v :
  x ∈ l → f x = Some (k, v) → is_Some (build_map f l !! k).
Proof.
  unfold build_map. intros Hx Hf. assert (Hgen : ∀ acc : gmap K V, x ∈ l ∨ is_Some (acc !! k) →
    is_Some (foldl (λ m x, match f x with Some (k, v) => <[k := v]> m | None => m end) acc l !! k)).
  { clear Hx. induction l as [|y l IH]; intros acc [Hx|Ha].
    - by apply elem_of_nil in Hx.
    - done.
    - apply elem_of_cons in Hx as [<-|Hx]; cbn [foldl]; apply IH; [|by left].
      right. rewrite Hf, lookup_insert_eq. by eexists.
    - cbn [foldl]. apply IH. right. destruct (f y) as [[k' v']|]; [|done]. rewrite lookup_insert. by case_decide; [eexists|]. }
  apply Hgen. by left.
Qed.

Lemma volume_name_alias d v : volume_name d = Some v ↔ xd_alias d = "ua-" +:+ v ∧ v ≠ EmptyString.
Proof.
  unfold volume_name, TrimPrefix. cbv zeta. destruct (strip "ua-" (xd_alias d)) as [r|] eqn:E; cbn [default from_option id].
  - apply strip_Some in E. rewrite E. rewrite bool_decide_eq_false_2.
    + cbn [orb]. split.
      * case_bool_decide; [done|]. by intros [= <-].
      * intros [Hr Hv]. assert (r = v) as -> by (by injection Hr). by rewrite bool_decide_eq_false_2.
    + change ("ua-" +:+ r) with (String "u" (String "a" (String "-" r))).
      intros Hr. apply (f_equal String.length) in Hr. cbn in Hr. lia.
  - rewrite bool_decide_eq_true_2 by done. split; [done|]. intros [Ha _].
    apply strip_Some in Ha. congruence.
Qed.

Lemma disk_location_volume ctrl d loc v :
  disk_location ctrl d = Some (loc, v) → xd_device d = "disk" ∧ volume_name d = Some v.
Proof.
  unfold disk_location. case_bool_decide; [|done]. cbn [negb]. intros Hd. inv_bind Hd. split; [done|].
  repeat case_bool_decide; try done; inv_bind Hd; by simplify_eq.
Qed.

(** What a result of the fallback loop comes from. *)
Lemma serial_loop_in serialMap gds result idx v :
  foldl (serial_step serialMap) result gds !! idx = Some v →
  result !! idx = Some v ∨
  ∃ gd, gd ∈ gds ∧ DriveIndex gd = idx ∧ Serial gd ≠ EmptyString ∧ serialMap !! Serial gd = Some v.
Proof.
  revert result. induction gds as [|gd gds IH]; intros result Hk; [by left|]. cbn [foldl] in Hk.
  destruct (IH _ Hk) as [Hr|(g & Hg & Hrest)]; [|right; exists g; split; [by apply list_elem_of_further|done]].
  unfold serial_step in Hr. destruct (result !! DriveIndex gd) eqn:Hd; [by left|].
  case_bool_decide; [by left|]. destruct (serialMap !! Serial gd) eqn:Hs; [|by left].
  rewrite lookup_insert in Hr. case_decide; [|by left]. simplify_eq.
  right. exists gd. split_and!; [apply list_elem_of_here|done..].
Qed.

(** Once mapped, a drive keeps its volume. *)
Lemma serial_loop_keeps serialMap gds result idx v :
  result !! idx = Some v → foldl (serial_step serialMap) result gds !! idx = Some v.
Proof.
  revert result. induction gds as [|gd gds IH]; intros result Hk; [done|]. cbn [foldl]. apply IH.
  unfold serial_step. destruct (result !! DriveIndex gd) eqn:Hd; [done|]. case_bool_decide; [done|].
  destruct (serialMap !! Serial gd); [|done]. rewrite lookup_insert_ne; [done|]. intros Hq. congruence.
Qed.

(** C40.  Drives are mapped to the right volumes: a drive is mapped to a volume
    only if the domain has a disk whose alias is "ua-" and that volume, and the
    guest reported the drive at that disk's location (controller address and
    unit) or with its non-empty serial number.  Every drive whose location the
    domain knows is mapped, and then by location: the serial number is used only
    for the others. *)
Theorem disk_mapping_sound dom gds m idx :
  BuildDiskMapping (Some dom) gds = Some m →
  (∀ v, m !! idx = Some v →
    ∃ d gd, d ∈ disks dom ∧ gd ∈ gds ∧ DriveIndex gd = idx ∧
      xd_device d = "disk" ∧ xd_alias d = "ua-" +:+ v ∧ v ≠ EmptyString ∧
      (disk_location (controllerPCI dom) d = Some (gd_Location gd, v) ∨ (xd_serial d = Serial gd ∧ Serial gd ≠ EmptyString))) ∧
  (∀ gd, gd ∈ gds → DriveIndex gd = idx →
    is_Some (build_map (disk_location (controllerPCI dom)) (disks dom) !! gd_Location gd) →
    is_Some (m !! idx) ∧ m !! idx = build_map (by_location (build_map (disk_location (controllerPCI dom)) (disks dom))) gds !! idx).
Proof.
  unfold BuildDiskMapping, ParseDiskLocations, ParseDiskSerials. rewrite !bind_Some_l. cbv zeta. intros [= Hm].
  set (hm := build_map (disk_location (controllerPCI dom)) (disks dom)) in *. set (r0 := build_map (by_location hm) gds) in *.
  assert (Hloc : ∀ v, r0 !! idx = Some v → ∃ d gd, d ∈ disks dom ∧ gd ∈ gds ∧ DriveIndex gd = idx ∧
    disk_location (controllerPCI dom) d = Some (gd_Location gd, v)).
  { intros v (gd & Hgd & Hb)%build_map_in. unfold by_location in Hb. inv_bind Hb. simplify_eq.
    apply build_map_in in E as (d & Hd & Hl). eauto 10. }
  split.
  - intros v Hv.
    assert (Hcase : r0 !! idx = Some v ∨ ∃ gd, gd ∈ gds ∧ DriveIndex gd = idx ∧ Serial gd ≠ EmptyString ∧
      build_map disk_serial (disks dom) !! Serial gd = Some v).
    { rewrite <- Hm in Hv. destruct (0 <? _)%nat; [by apply serial_loop_in in Hv|by left]. }
    destruct Hcase as [(d & gd & Hd & Hgd & Hi & Hl)%Hloc|(gd & Hgd & Hi & Hs & (d & Hd & Hser)%build_map_in)].
    + exists d, gd. pose proof (disk_location_volume _ _ _ _ Hl) as [Hdev [Ha Hne]%volume_name_alias]. split_and!; auto.
    + unfold disk_serial in Hser. destruct (negb _ || _) eqn:Hn; [done|]. apply orb_false_iff in Hn as [Hdev%negb_false_iff%bool_decide_eq_true _].
      inv_bind Hser. simplify_eq. apply volume_name_alias in E as [Ha Hne]. exists d, gd. split_and!; auto.
  - intros gd Hgd Hi [v Hv].
    destruct (build_map_has (by_location hm) gds gd idx v) as [w Hw]; [done|unfold by_location; rewrite Hv, bind_Some_l, Hi; done|].
    assert (Hmi : m !! idx = Some w) by (rewrite <- Hm; destruct (0 <? _)%nat; [by apply serial_loop_keeps|done]).
    rewrite Hmi. split; [by eexists|]. symmetry. exact Hw.
Qed.

(** A virtio disk found by its PCI address and a SATA disk found by its serial. *)
Definition no_addr : xmlAddr := XmlAddr "" "" "" "" "" "" "" "".
Definition example_domain : xmlDomain := XmlDomain
  [XmlDisk "disk" "" "virtio" "ua-rootdisk" (XmlAddr "pci" "0x0000" "0x07" "0x00" "0x0" "" "" "");
   XmlDisk "disk" "S3R1AL" "sata" "ua-data" (XmlAddr "drive" "" "0" "" "" "0" "0" "1")] [].
Definition example_guests : list GuestDisk :=
  [Guest "\\.\PhysicalDrive0" 0 "" (Location (PCI 0 7 0 0) 0 0 0);
   Guest "\\.\PhysicalDrive1" 1 "S3R1AL" (Location (PCI (-1) (-1) (-1) (-1)) 0 0 0)].

Lemma disk_mapping_sound_witness :
  BuildDiskMapping (Some example_domain) example_guests = Some {[0 := "rootdisk"; 1 := "data"]} ∧
  ∃ d gd, d ∈ disks example_domain ∧ gd ∈ example_guests ∧ DriveIndex gd = 1 ∧
    xd_device d = "disk" ∧ xd_alias d = "ua-" +:+ "data" ∧ "data" ≠ EmptyString ∧
    (disk_location (controllerPCI example_domain) d = Some (gd_Location gd, "data") ∨ (xd_serial d = Serial gd ∧ Serial gd ≠ EmptyString)).
Proof.
  assert (Hm : BuildDiskMapping (Some example_domain) example_guests = Some {[0 := "rootdisk"; 1 := "data"]}) by (vm_compute; reflexivity).
  split; [exact Hm|]. refine (proj1 (disk_mapping_sound example_domain example_guests _ 1 Hm) "data" _).
  vm_compute. reflexivity.
Defined.

(** Where every disk sits on PCI, the older function and the newer one agree. *)
Lemma addresses_are_locations dom :
  Forall (λ d, xa_type (xd_address d) = "pci") (disks dom) →
  ∀ m m', ParseDiskAddresses (Some dom) = Some m → ParseDiskLocations (Some dom) = Some m' →
  ∀ addr, m !! addr = m' !! Location addr 0 0 0.
Proof.
  intros HF m m' [= <-] [= <-]. unfold build_map.
  assert (Hl : ∀ l (m1 : gmap PCIAddr string) (m2 : gmap DiskLocation string), Forall (λ d, xa_type (xd_address d) = "pci") l →
    (∀ addr, m1 !! addr = m2 !! Location addr 0 0 0) →
    ∀ addr, foldl (λ m x, match disk_address x with Some (k, v) => <[k := v]> m | None => m end) m1 l !! addr =
      foldl (λ m x, match disk_location (controllerPCI dom) x with Some (k, v) => <[k := v]> m | None => m end) m2 l !! Location addr 0 0 0).
  { induction l as [|d l IH]; intros m1 m2 Hl H12 addr; [apply H12|]. apply Forall_cons in Hl as [Hd Hl]. cbn [foldl]. apply IH; [done|].
    intros a. unfold disk_address, disk_location. cbv zeta. destruct (negb _); [apply H12|]. rewrite Hd. rewrite bool_decide_eq_true_2 by done. cbn [negb].
    destruct (volume_name d) as [v|]; [|apply H12]. rewrite !bind_Some_l. destruct (parseHexAddr (xd_address d)) as [b|]; [|apply H12]. rewrite !bind_Some_l.
    destruct (decide (a = b)) as [->|Hne]; [by rewrite !lookup_insert_eq|]. rewrite !lookup_insert_ne by congruence. apply H12. }
  by apply Hl.
Qed.
