(* ===== verification/GoJson.v ===== *)
(** * JSON (encoding/json)

    The commands sent to QEMU and to the guest agents and the answers read from
    them are JSON.  This file models what the exporter uses of Go's
    encoding/json: the syntax checker and decoder of strings, the printer, and
    decoding into Go values. *)
From S2P Require Import Prelude GoStrings.

(** ** UTF-8 *)

Definition cont (c : ascii) : bool := (0x80 <=? byte_of c) && (byte_of c <=? 0xBF).

(** The width of the valid encoding of a character at the start of [s], 0 if
    there is none ([utf8.DecodeRune]). *)
Definition rune_width (s : string) : nat :=
  match s with
  | EmptyString => 0%nat
  | String c s1 =>
      let b := byte_of c in
      if b <? 0x80 then 1%nat
      else if (0xC2 <=? b) && (b <=? 0xDF) then
        match s1 with String d _ => if cont d then 2%nat else 0%nat | _ => 0%nat end
      else if (0xE0 <=? b) && (b <=? 0xEF) then
        match s1 with
        | String d (String e _) =>
            let lo := if b =? 0xE0 then 0xA0 else 0x80 in
            let hi := if b =? 0xED then 0x9F else 0xBF in
            if (lo <=? byte_of d) && (byte_of d <=? hi) && cont e then 3%nat else 0%nat
        | _ => 0%nat
        end
      else if (0xF0 <=? b) && (b <=? 0xF4) then
        match s1 with
        | String d (String e (String f _)) =>
            let lo := if b =? 0xF0 then 0x90 else 0x80 in
            let hi := if b =? 0xF4 then 0x8F else 0xBF in
            if (lo <=? byte_of d) && (byte_of d <=? hi) && cont e && cont f then 4%nat else 0%nat
        | _ => 0%nat
        end
      else 0%nat
  end.

(** Valid UTF-8, after [skip] bytes of a character already seen. *)
Fixpoint valid_utf8 (skip : nat) (s : string) : bool :=
  match s with
  | EmptyString => (skip =? 0)%nat
  | String _ s1 =>
      match skip with
      | S k => valid_utf8 k s1
      | O => match rune_width s with O => false | S k => valid_utf8 k s1 end
      end
  end.

(** [utf8.EncodeRune] on a Unicode scalar value. *)
Definition utf8 (r : Z) : string :=
  if r <? 0x80 then str1 (chr r)
  else if r <? 0x800 then String (chr (0xC0 + r / 64)) (str1 (chr (0x80 + r mod 64)))
  else if r <? 0x10000 then
    String (chr (0xE0 + r / 4096)) (String (chr (0x80 + r / 64 mod 64)) (str1 (chr (0x80 + r mod 64))))
  else
    String (chr (0xF0 + r / 262144)) (String (chr (0x80 + r / 4096 mod 64))
      (String (chr (0x80 + r / 64 mod 64)) (str1 (chr (0x80 + r mod 64))))).

(** The replacement character. *)
Definition ufffd : string := utf8 0xFFFD.

(** ** Syntax *)

Inductive json :=
  | JNull
  | JBool (b : bool)
  | JNum (lit : string)
  | JStr (s : string)
  | JArr (vs : list json)
  | JObj (kvs : list (string * json)).

Definition prepend (p : string) (o : option (string * string)) : option (string * string) :=
  '(t, r) ← o; Some (p +:+ t, r).

(** A high surrogate that waits for its other half. *)
Definition flush_pend (pend : option Z) : string := match pend with Some _ => ufffd | None => EmptyString end.

Definition surrogate (pend : option Z) (u : Z) : string * option Z :=
  if (0xDC00 <=? u) && (u <=? 0xDFFF) then
    (match pend with Some h => utf8 (0x10000 + (h - 0xD800) * 0x400 + (u - 0xDC00)) | None => ufffd end, None)
  else if (0xD800 <=? u) && (u <=? 0xDBFF) then (flush_pend pend, Some u)
  else (flush_pend pend +:+ utf8 u, None).

Definition escaped (e : ascii) : option string :=
  let b := byte_of e in
  if (b =? 34) || (b =? 92) || (b =? 47) then Some (str1 e)
  else if b =? 98 then Some (str1 (chr 8))
  else if b =? 102 then Some (str1 (chr 12))
  else if b =? 110 then Some (str1 (chr 10))
  else if b =? 114 then Some (str1 (chr 13))
  else if b =? 116 then Some (str1 (chr 9))
  else None.

Definition hex4 (a b c d : ascii) : option Z :=
  hex_digits (String a (String b (String c (str1 d)))) 0.

(** The body of a string after its opening quote, and what follows its closing
    quote.  Bytes that are not UTF-8 and surrogates without partner become the
    replacement character. *)
Fixpoint unquote (skip : nat) (pend : option Z) (s : string) : option (string * string) :=
  match s with
  | EmptyString => None
  | String c s1 =>
      match skip with
      | S k => prepend (str1 c) (unquote k None s1)
      | O =>
          if byte_of c =? 34 then Some (flush_pend pend, s1)
          else if byte_of c <? 32 then None
          else if byte_of c =? 92 then
            match s1 with
            | EmptyString => None
            | String e s2 =>
                if byte_of e =? 117 then
                  match s2 with
                  | String h1 (String h2 (String h3 (String h4 s3))) =>
                      u ← hex4 h1 h2 h3 h4;
                      let '(out, pend') := surrogate pend u in
                      prepend out (unquote 0 pend' s3)
                  | _ => None
                  end
                else x ← escaped e; prepend (flush_pend pend +:+ x) (unquote 0 None s2)
            end
          else
            match rune_width s with
            | O => prepend (flush_pend pend +:+ ufffd) (unquote 0 None s1)
            | S k => prepend (flush_pend pend +:+ str1 c) (unquote k None s1)
            end
      end
  end.

(** Numbers: the literal and what follows. *)
Fixpoint span (P : ascii → bool) (s : string) : string * string :=
  match s with
  | String c s1 => if P c then let '(a, b) := span P s1 in (String c a, b) else (EmptyString, s)
  | EmptyString => (EmptyString, EmptyString)
  end.

Definition sign_part (s : string) : option (string * string) :=
  match s with
  | String c s1 => if (c =? "-")%char then Some (str1 c, s1) else Some (EmptyString, s)
  | EmptyString => None
  end.

Definition int_part (s : string) : option (string * string) :=
  match s with
  | String c s1 =>
      if (c =? "0")%char then Some (str1 c, s1)
      else if is_digit c then Some (span is_digit s) else None
  | EmptyString => None
  end.

Definition nonempty_digits (s : string) : option (string * string) :=
  let '(a, b) := span is_digit s in
  match a with EmptyString => None | _ => Some (a, b) end.

Definition frac_part (s : string) : option (string * string) :=
  match s with
  | String c s1 => if (c =? ".")%char then prepend (str1 c) (nonempty_digits s1) else Some (EmptyString, s)
  | EmptyString => Some (EmptyString, s)
  end.

Definition exp_sign (s : string) : option (string * string) :=
  match s with
  | String c s1 => if (c =? "+")%char || (c =? "-")%char then Some (str1 c, s1) else Some (EmptyString, s)
  | EmptyString => None
  end.

Definition exp_part (s : string) : option (string * string) :=
  match s with
  | String c s1 =>
      if (c =? "e")%char || (c =? "E")%char then
        '(sg, s2) ← exp_sign s1; prepend (String c sg) (nonempty_digits s2)
      else Some (EmptyString, s)
  | EmptyString => Some (EmptyString, s)
  end.

Definition number (s : string) : option (string * string) :=
  '(a, s1) ← sign_part s;
  '(b, s2) ← int_part s1;
  '(c, s3) ← frac_part s2;
  '(d, s4) ← exp_part s3;
  Some (a +:+ b +:+ c +:+ d, s4).

Definition is_ws (c : ascii) : bool :=
  (c =? " ")%char || (byte_of c =? 9) || (byte_of c =? 10) || (byte_of c =? 13).

Fixpoint skip_ws (s : string) : string :=
  match s with
  | String c s1 => if is_ws c then skip_ws s1 else s
  | EmptyString => EmptyString
  end.

(** The byte [c] first, then the rest. *)
Definition expect (c : ascii) (s : string) : option string :=
  match s with String d s1 => if (d =? c)%char then Some s1 else None | EmptyString => None end.

Definition maxNestingDepth : Z := 10000.

(** A value at the start of [s], with [depth] arrays and objects open; the
    elements of an array and the members of an object, the opening bracket and
    white space already read, at least one of them. *)
Fixpoint parse_value (fuel : nat) (depth : Z) (s : string) : option (json * string) :=
  match fuel with
  | O => None
  | S f =>
      match s with
      | EmptyString => None
      | String c s1 =>
          if byte_of c =? 34 then '(t, r) ← unquote 0 None s1; Some (JStr t, r)
          else if (c =? "[")%char then
            if maxNestingDepth <=? depth then None else
            match expect "]" (skip_ws s1) with
            | Some r => Some (JArr [], r)
            | None => '(vs, r) ← parse_elems f (depth + 1) (skip_ws s1); Some (JArr vs, r)
            end
          else if (c =? "{")%char then
            if maxNestingDepth <=? depth then None else
            match expect "}" (skip_ws s1) with
            | Some r => Some (JObj [], r)
            | None => '(kvs, r) ← parse_members f (depth + 1) (skip_ws s1); Some (JObj kvs, r)
            end
          else if (c =? "t")%char then r ← strip "true" s; Some (JBool true, r)
          else if (c =? "f")%char then r ← strip "false" s; Some (JBool false, r)
          else if (c =? "n")%char then r ← strip "null" s; Some (JNull, r)
          else '(lit, r) ← number s; Some (JNum lit, r)
      end
  end
with parse_elems (fuel : nat) (depth : Z) (s : string) : option (list json * string) :=
  match fuel with
  | O => None
  | S f =>
      '(v, r) ← parse_value f depth s;
      match expect "]" (skip_ws r) with
      | Some r' => Some ([v], r')
      | None =>
          r' ← expect "," (skip_ws r);
          '(vs, r'') ← parse_elems f depth (skip_ws r');
          Some (v :: vs, r'')
      end
  end
with parse_members (fuel : nat) (depth : Z) (s : string) : option (list (string * json) * string) :=
  match fuel with
  | O => None
  | S f =>
      s1 ← expect (chr 34) s;
      '(k, r0) ← unquote 0 None s1;
      r1 ← expect ":" (skip_ws r0);
      '(v, r) ← parse_value f depth (skip_ws r1);
      match expect "}" (skip_ws r) with
      | Some r' => Some ([(k, v)], r')
      | None =>
          r' ← expect "," (skip_ws r);
          '(kvs, r'') ← parse_members f depth (skip_ws r');
          Some ((k, v) :: kvs, r'')
      end
  end.

(** Every call reads a byte or is made by one that does: [2 n + 1] calls are
    enough for [n] bytes ([parse_value_fuel]). *)
Definition json_fuel (s : string) : nat := S (2 * String.length s).

Definition json_of (s : string) : option json :=
  let s := skip_ws s in
  '(j, r) ← parse_value (json_fuel s) 0 s;
  match skip_ws r with EmptyString => Some j | _ => None end.

(** ** Printing *)

Definition hexdigit (n : Z) : ascii := if n <? 10 then chr (48 + n) else chr (87 + n).

Definition escape1 (c : ascii) : string :=
  let b := byte_of c in
  let esc x := String "\" (str1 x) in
  if (b =? 34) || (b =? 92) then esc c
  else if b =? 8 then esc "b"%char
  else if b =? 12 then esc "f"%char
  else if b =? 10 then esc "n"%char
  else if b =? 13 then esc "r"%char
  else if b =? 9 then esc "t"%char
  else if (b <? 32) || (b =? 60) || (b =? 62) || (b =? 38) then
    "\u00" +:+ String (hexdigit (b / 16)) (str1 (hexdigit (b mod 16)))
  else str1 c.

(** The body of a printed string: [json.Marshal] with its HTML escapes. *)
Fixpoint escape (skip : nat) (s : string) : string :=
  match s with
  | EmptyString => EmptyString
  | String c s1 =>
      match skip with
      | S k => String c (escape k s1)
      | O =>
          if byte_of c <? 0x80 then escape1 c +:+ escape 0 s1
          else
            match rune_width s with
            | O => "\ufffd" +:+ escape 0 s1
            | S k =>
                match s1 with
                | String d (String e s3) =>
                    if (byte_of c =? 0xE2) && (byte_of d =? 0x80) && ((byte_of e =? 0xA8) || (byte_of e =? 0xA9))
                    then "\u202" +:+ String (hexdigit (byte_of e - 0xA0)) (escape 0 s3)
                    else String c (escape k s1)
                | _ => String c (escape k s1)
                end
            end
      end
  end.

Definition quote (s : string) : string := String (chr 34) (escape 0 s +:+ str1 (chr 34)).

(** Elements separated by commas. *)
Fixpoint join_comma (l : list string) : string :=
  match l with
  | [] => EmptyString
  | [x] => x
  | x :: l' => x +:+ String "," (join_comma l')
  end.

Fixpoint marshal (j : json) : string :=
  match j with
  | JNull => "null"
  | JBool true => "true"
  | JBool false => "false"
  | JNum lit => lit
  | JStr s => quote s
  | JArr vs => String "[" (join_comma (marshal <$> vs) +:+ "]")
  | JObj kvs => String "{" (join_comma ((λ '(k, v), quote k +:+ String ":" (marshal v)) <$> kvs) +:+ "}")
  end.

(** The verb %d, and a Go integer as a JSON number. *)
Definition itoa (n : Z) : string := if n <? 0 then String "-" (dec (- n)) else dec n.
Definition JInt (n : Z) : json := JNum (itoa n).

(** ** Strings round trip *)

Lemma prepend_Some p t r : prepend p (Some (t, r)) = Some (p +:+ t, r).
Proof. reflexivity. Qed.

Lemma prepend_prepend p q o : prepend p (prepend q o) = prepend (p +:+ q) o.
Proof. destruct o as [[t r]|]; [|done]. rewrite !prepend_Some. by rewrite append_assoc. Qed.

Lemma prepend_nil o : prepend EmptyString o = o.
Proof. by destruct o as [[t r]|]. Qed.

Lemma rune_split s k :
  rune_width s = S k → ∃ p t, s = p +:+ t ∧ String.length p = S k ∧ ∀ t', rune_width (p +:+ t') = S k.
Proof.
  destruct s as [|c s1]; [done|]. cbn [rune_width]. intros H.
  assert (H1 : byte_of c < 0x80 → k = 0%nat →
    ∃ p t, String c s1 = p +:+ t ∧ String.length p = S k ∧ ∀ t', rune_width (p +:+ t') = S k).
  { intros Hc ->. exists (str1 c), s1. split_and!; [done..|]. intros t'. unfold str1. rewrite append_cons. cbn [rune_width].
    by destruct (Z.ltb_spec (byte_of c) 0x80); [|lia]. }
  destruct (Z.ltb_spec (byte_of c) 0x80) as [|Hge]; [apply H1; congruence|].
  destruct (_ && _) eqn:E2; [|destruct ((0xE0 <=? _) && _) eqn:E3; [|destruct ((0xF0 <=? _) && _) eqn:E4; [|done]]].
  - destruct s1 as [|d s2]; [done|]. destruct (cont d) eqn:Hd; [|done]. simplify_eq.
    exists (String c (str1 d)), s2. split_and!; [done..|]. intros t'. unfold str1. rewrite !append_cons. cbn [rune_width].
    destruct (Z.ltb_spec (byte_of c) 0x80); [lia|]. by rewrite E2, Hd.
  - destruct s1 as [|d [|e s3]]; [done..|]. destruct (_ && cont e) eqn:Hd; [|done]. simplify_eq.
    exists (String c (String d (str1 e))), s3. split_and!; [done..|]. intros t'. unfold str1. rewrite !append_cons. cbn [rune_width].
    destruct (Z.ltb_spec (byte_of c) 0x80); [lia|]. by rewrite E2, E3, Hd.
  - destruct s1 as [|d [|e [|f s4]]]; [done..|]. destruct (_ && cont f) eqn:Hd; [|done]. simplify_eq.
    exists (String c (String d (String e (str1 f)))), s4. split_and!; [done..|]. intros t'. unfold str1. rewrite !append_cons. cbn [rune_width].
    destruct (Z.ltb_spec (byte_of c) 0x80); [lia|]. by rewrite E2, E3, E4, Hd.
Qed.

Lemma escape_copy p t : escape (String.length p) (p +:+ t) = p +:+ escape 0 t.
Proof. induction p as [|c p IH]; [done|]. rewrite !append_cons. cbn [escape String.length]. by rewrite IH. Qed.

Lemma valid_copy p t : valid_utf8 (String.length p) (p +:+ t) = valid_utf8 0 t.
Proof. induction p as [|c p IH]; [done|]. rewrite !append_cons. cbn [valid_utf8 String.length]. by rewrite IH. Qed.

Lemma unquote_copy p x : unquote (String.length p) None (p +:+ x) = prepend p (unquote 0 None x).
Proof.
  induction p as [|c p IH]; [by rewrite append_nil_l, prepend_nil|].
  rewrite !append_cons. cbn [unquote String.length]. by rewrite IH, prepend_prepend.
Qed.

(** One byte below 128, printed and read. *)
Lemma unquote_escape1 c x :
  byte_of c < 0x80 → unquote 0 None (escape1 c +:+ x) = prepend (str1 c) (unquote 0 None x).
Proof.
  intros Hc. destruct c as [b0 b1 b2 b3 b4 b5 b6 b7]. destruct b7.
  - exfalso. revert Hc. apply Z.nlt_ge. destruct b0, b1, b2, b3, b4, b5, b6; vm_compute; discriminate.
  - clear Hc. destruct b0, b1, b2, b3, b4, b5, b6; reflexivity.
Qed.

Lemma unquote_separator e x :
  byte_of e = 0xA8 ∨ byte_of e = 0xA9 →
  unquote 0 None ("\u202" +:+ String (hexdigit (byte_of e - 0xA0)) x)
  = prepend (String (chr 0xE2) (String (chr 0x80) (str1 e))) (unquote 0 None x).
Proof.
  intros [H|H]; rewrite H.
  - assert (e = chr 0xA8) as -> by (apply byte_of_inj; by rewrite H, byte_of_chr by lia). reflexivity.
  - assert (e = chr 0xA9) as -> by (apply byte_of_inj; by rewrite H, byte_of_chr by lia). reflexivity.
Qed.

(** A whole character beyond ASCII, copied. *)
Lemma unquote_rune c p k x :
  0x80 <= byte_of c → String.length p = k → rune_width (String c p +:+ x) = S k →
  unquote 0 None (String c p +:+ x) = prepend (String c p) (unquote 0 None x).
Proof.
  intros Hc Hk Hw. rewrite append_cons in *. cbn [unquote]. rewrite Hw.
  destruct (Z.eqb_spec (byte_of c) 34); [lia|]. destruct (Z.ltb_spec (byte_of c) 32); [lia|].
  destruct (Z.eqb_spec (byte_of c) 92); [lia|]. subst k. rewrite unquote_copy, prepend_prepend. done.
Qed.

Lemma separator_eq c d e s3 :
  (byte_of c =? 0xE2) && (byte_of d =? 0x80) && ((byte_of e =? 0xA8) || (byte_of e =? 0xA9)) = true →
  String c (String d (String e s3)) = String (chr 0xE2) (String (chr 0x80) (str1 e)) +:+ s3 ∧
  (byte_of e = 0xA8 ∨ byte_of e = 0xA9) ∧ rune_width (String c (String d (String e s3))) = 3%nat.
Proof.
  rewrite !andb_true_iff, orb_true_iff, !Z.eqb_eq. intros [[Hc Hd] He].
  assert (c = chr 0xE2) as -> by (apply byte_of_inj; by rewrite Hc, byte_of_chr by lia).
  assert (d = chr 0x80) as -> by (apply byte_of_inj; by rewrite Hd, byte_of_chr by lia).
  split_and!; [done..|]. destruct He as [He|He].
  - assert (e = chr 0xA8) as -> by (apply byte_of_inj; by rewrite He, byte_of_chr by lia). reflexivity.
  - assert (e = chr 0xA9) as -> by (apply byte_of_inj; by rewrite He, byte_of_chr by lia). reflexivity.
Qed.

(** The three forms a character takes in print. *)
Lemma escape_cases c s1 k :
  rune_width (String c s1) = S k →
  (byte_of c < 0x80 ∧ k = 0%nat ∧ escape 0 (String c s1) = escape1 c +:+ escape 0 s1) ∨
  (∃ e s3, String c s1 = String (chr 0xE2) (String (chr 0x80) (str1 e)) +:+ s3 ∧ k = 2%nat ∧
     (byte_of e = 0xA8 ∨ byte_of e = 0xA9) ∧
     escape 0 (String c s1) = "\u202" +:+ String (hexdigit (byte_of e - 0xA0)) (escape 0 s3)) ∨
  (0x80 <= byte_of c ∧ escape 0 (String c s1) = String c (escape k s1)).
Proof.
  intros Hw. destruct (Z.ltb_spec (byte_of c) 0x80) as [Hc|Hc].
  - left. assert (k = 0%nat) as -> by (cbn [rune_width] in Hw; destruct (Z.ltb_spec (byte_of c) 0x80); [congruence|lia]).
    cbn [escape]. by destruct (Z.ltb_spec (byte_of c) 0x80); [|lia].
  - right. cbn [escape]. rewrite Hw. destruct (Z.ltb_spec (byte_of c) 0x80); [lia|].
    destruct s1 as [|d [|e s3]]; [by right..|].
    destruct (_ && _) eqn:Hsep; [|by right]. left. apply (separator_eq c d e s3) in Hsep as (Heq & He & Hw3).
    exists e, s3. split_and!; [done|congruence|done..].
Qed.

Lemma unquote_escape s rest :
  valid_utf8 0 s = true → unquote 0 None (escape 0 s +:+ String (chr 34) rest) = Some (s, rest).
Proof.
  remember (String.length s) as n eqn:Hn. revert s Hn. induction (lt_wf n) as [n _ IH]. intros s -> Hv.
  destruct s as [|c s1]; [reflexivity|]. cbn [valid_utf8] in Hv.
  destruct (rune_width (String c s1)) as [|k] eqn:Hw; [done|].
  destruct (escape_cases c s1 k Hw) as [(Hc & -> & ->)|[(e & s3 & Heq & -> & He & ->)|[Hc ->]]].
  - rewrite append_assoc, unquote_escape1 by done. rewrite (IH (String.length s1)); [|cbn; lia|done..]. reflexivity.
  - rewrite append_assoc, (append_cons (hexdigit _)), unquote_separator by done.
    rewrite Heq. injection Heq as _ Hs1.
    rewrite (IH (String.length s3)); [by rewrite prepend_Some| |done|].
    { rewrite Hs1. cbn [String.length]. rewrite length_append. cbn. lia. }
    rewrite <- Hv, Hs1. exact (eq_sym (valid_copy (String (chr 0x80) (str1 e)) s3)).
  - apply rune_split in Hw as (p & t & Heq & Hlen & Hany). destruct p as [|c' p]; [done|].
    rewrite append_cons in Heq. injection Heq as <- ->. cbn in Hlen. injection Hlen as Hlen. subst k.
    rewrite escape_copy, append_cons, append_assoc, <- append_cons. rewrite valid_copy in Hv.
    rewrite unquote_rune with (k := String.length p); [|done..|apply Hany].
    rewrite (IH (String.length t)); [by rewrite prepend_Some, append_cons| |done|done].
    cbn [String.length]. rewrite length_append. lia.
Qed.

(** ** Every reader consumes what it reads *)

Lemma skip_ws_length s : (String.length (skip_ws s) <= String.length s)%nat.
Proof. induction s as [|c s IH]; [done|]. cbn [skip_ws]. destruct (is_ws c); cbn; lia. Qed.

Lemma expect_length c s r : expect c s = Some r → String.length s = S (String.length r).
Proof. destruct s as [|d s]; [done|]. cbn. destruct (d =? c)%char; [|done]. by intros [= ->]. Qed.

Lemma strip_length pre s r : strip pre s = Some r → String.length s = (String.length pre + String.length r)%nat.
Proof. intros ->%strip_Some. apply length_append. Qed.

Lemma prepend_inv p o t r : prepend p o = Some (t, r) → ∃ t', o = Some (t', r) ∧ t = p +:+ t'.
Proof. destruct o as [[t' r']|]; [|done]. intros [= <- <-]. eauto. Qed.

Lemma unquote_length k pend s t r : unquote k pend s = Some (t, r) → (String.length r < String.length s)%nat.
Proof.
  remember (String.length s) as n eqn:Hn. revert k pend s t r Hn. induction (lt_wf n) as [n _ IH]. intros k pend s t r -> H.
  assert (Hsub : ∀ k' pend' s' t' r', (String.length s' < String.length s)%nat → unquote k' pend' s' = Some (t', r') →
    (String.length r' < String.length s)%nat).
  { intros k' pend' s' t' r' Hl Hu. pose proof (IH _ Hl k' pend' s' t' r' eq_refl Hu). lia. }
  destruct s as [|c s1]; [done|]. cbn [unquote] in H.
  destruct k as [|k]; [|apply prepend_inv in H as (t' & H & _); eapply Hsub, H; cbn; lia].
  destruct (byte_of c =? 34); [simplify_eq; cbn; lia|]. destruct (byte_of c <? 32); [done|].
  destruct (byte_of c =? 92).
  - destruct s1 as [|e s2]; [done|]. destruct (byte_of e =? 117).
    + destruct s2 as [|h1 [|h2 [|h3 [|h4 s3]]]]; [done..|]. inv_bind H. destruct (surrogate pend x).
      apply prepend_inv in H as (t' & H & _). eapply Hsub, H. cbn. lia.
    + inv_bind H. apply prepend_inv in H as (t' & H & _). eapply Hsub, H. cbn. lia.
  - destruct (rune_width _); apply prepend_inv in H as (t' & H & _); eapply Hsub, H; cbn; lia.
Qed.

Lemma span_eq P s a b : span P s = (a, b) → s = a +:+ b.
Proof.
  revert a b. induction s as [|c s IH]; intros a b; cbn [span]; [by intros [= <- <-]|].
  destruct (P c); [|by intros [= <- <-]]. destruct (span P s) as [a' b'] eqn:E. intros [= <- <-].
  rewrite append_cons. by rewrite <- (IH _ _ eq_refl).
Qed.

Lemma number_length s lit r : number s = Some (lit, r) → (String.length r < String.length s)%nat.
Proof.
  unfold number. intros H. inv_bind H. destruct x as [a s1]. inv_bind H. destruct x as [b s2].
  inv_bind H. destruct x as [c s3]. inv_bind H. destruct x as [d s4]. simplify_eq.
  assert (H1 : (String.length s1 <= String.length s)%nat).
  { destruct s as [|x s]; [done|]. cbn in E. case_match; simplify_eq; cbn; lia. }
  assert (H2 : (String.length s2 < String.length s1)%nat).
  { destruct s1 as [|x s1]; [done|]. cbn [int_part] in E0. destruct (x =? "0")%char; [by simplify_eq; cbn; lia|].
    destruct (is_digit x) eqn:Hx; [|done]. cbn [span] in E0. rewrite Hx in E0. destruct (span is_digit s1) as [a' b'] eqn:Es.
    simplify_eq. apply span_eq in Es as ->. cbn. rewrite length_append. lia. }
  assert (Hd : ∀ s p b q, prepend p (nonempty_digits s) = Some (b, q) → (String.length q <= String.length s)%nat).
  { intros s' p b' q (t' & Hq & _)%prepend_inv. unfold nonempty_digits in Hq. destruct (span is_digit s') as [u v] eqn:Es.
    destruct u; [done|]. simplify_eq. apply span_eq in Es as ->. rewrite length_append. lia. }
  assert (H3 : (String.length s3 <= String.length s2)%nat).
  { destruct s2 as [|x s2]; cbn [frac_part] in E1; [by simplify_eq|]. destruct (x =? ".")%char; [|by simplify_eq].
    apply Hd in E1. cbn. lia. }
  assert (H4 : (String.length r <= String.length s3)%nat).
  { destruct s3 as [|x s3]; cbn [exp_part] in E2; [by simplify_eq|]. destruct (_ || _); [|by simplify_eq].
    inv_bind E2. destruct x0 as [sg s5]. apply Hd in E2. destruct s3 as [|y s3]; [done|]. cbn in E3.
    destruct (_ || _) in E3; simplify_eq; cbn in *; lia. }
  lia.
Qed.

(** ** The fuel is enough *)

(** What a parse that succeeds says of larger fuel. *)
Definition settled {A} (p : nat → string → option (A * string)) (need : nat) (f : nat) : Prop :=
  ∀ s x r, p f s = Some (x, r) →
    (String.length r < String.length s)%nat ∧ ∀ g, (need + 2 * String.length s < g)%nat → p g s = Some (x, r).

Lemma settled_value f :
  (∀ d, settled (λ f, parse_elems f d) 1 f) → (∀ d, settled (λ f, parse_members f d) 1 f) →
  ∀ d, settled (λ f, parse_value f d) 0 (S f).
Proof.
  intros He Hm d s x r H. cbn [parse_value] in H. destruct s as [|c s1]; [done|].
  pose proof (skip_ws_length s1) as Hws.
  assert (Hgo : ∀ g, (0 + 2 * String.length (String c s1) < g)%nat → ∃ g', g = S g' ∧ (1 + 2 * String.length (skip_ws s1) < g')%nat).
  { intros [|g] Hg; [lia|]. exists g. split; [done|]. cbn in Hg. lia. }
  destruct (byte_of c =? 34) eqn:H34.
  { inv_bind H. destruct x0 as [t r']. simplify_eq. split; [apply unquote_length in E; cbn; lia|].
    intros g (g' & -> & _)%Hgo. cbn [parse_value]. rewrite H34, E. done. }
  destruct (c =? "[")%char eqn:Hb; [|destruct (c =? "{")%char eqn:Hc].
  - destruct (maxNestingDepth <=? d) eqn:Hd; [done|]. destruct (expect "]" (skip_ws s1)) as [r'|] eqn:Hx.
    + simplify_eq. split; [apply expect_length in Hx; cbn; lia|].
      intros g (g' & -> & _)%Hgo. cbn [parse_value]. by rewrite H34, Hb, Hd, Hx.
    + inv_bind H. destruct x0 as [vs r']. simplify_eq. apply He in E as [Hl Hg]. split; [cbn; lia|].
      intros g (g' & -> & Hg')%Hgo. cbn [parse_value]. rewrite H34, Hb, Hd, Hx, Hg by done. done.
  - destruct (maxNestingDepth <=? d) eqn:Hd; [done|]. destruct (expect "}" (skip_ws s1)) as [r'|] eqn:Hx.
    + simplify_eq. split; [apply expect_length in Hx; cbn; lia|].
      intros g (g' & -> & _)%Hgo. cbn [parse_value]. by rewrite H34, Hb, Hc, Hd, Hx.
    + inv_bind H. destruct x0 as [vs r']. simplify_eq. apply Hm in E as [Hl Hg]. split; [cbn; lia|].
      intros g (g' & -> & Hg')%Hgo. cbn [parse_value]. rewrite H34, Hb, Hc, Hd, Hx, Hg by done. done.
  - assert (Hlen : (String.length r < String.length (String c s1))%nat).
    { repeat case_match; inv_bind H; simplify_eq; try (apply strip_length in E; cbn in E |- *; lia).
      destruct x0 as [lit r']. simplify_eq. by apply number_length in E. }
    split; [done|]. intros g (g' & -> & _)%Hgo. cbn [parse_value]. rewrite H34, Hb, Hc. exact H.
Qed.

Lemma settled_elems f :
  (∀ d, settled (λ f, parse_value f d) 0 f) → (∀ d, settled (λ f, parse_elems f d) 1 f) →
  ∀ d, settled (λ f, parse_elems f d) 1 (S f).
Proof.
  intros Hv He d s x r H. cbn [parse_elems] in H. inv_bind H. destruct x0 as [v r1]. apply Hv in E as [Hl Hg].
  pose proof (skip_ws_length r1) as Hws. destruct (expect "]" (skip_ws r1)) as [r'|] eqn:Hx.
  - simplify_eq. split; [apply expect_length in Hx; lia|]. intros [|g] Hg'; [lia|]. cbn [parse_elems].
    rewrite Hg, bind_Some_l, Hx by lia. done.
  - inv_bind H. inv_bind H. destruct x1 as [vs r3]. simplify_eq. apply He in E0 as [Hl3 Hg3]. apply expect_length in E as Hlc.
    pose proof (skip_ws_length x0) as Hws0. split; [lia|]. intros [|g] Hg'; [lia|]. cbn [parse_elems].
    rewrite Hg, bind_Some_l, Hx, E, bind_Some_l, Hg3 by lia. done.
Qed.

Lemma settled_members f :
  (∀ d, settled (λ f, parse_value f d) 0 f) → (∀ d, settled (λ f, parse_members f d) 1 f) →
  ∀ d, settled (λ f, parse_members f d) 1 (S f).
Proof.
  intros Hv He d s x r H. cbn [parse_members] in H. inv_bind H. inv_bind H. destruct x1 as [k r0]. inv_bind H.
  inv_bind H. destruct x2 as [v r2]. apply Hv in E2 as [Hl Hg].
  apply expect_length in E as Hl1. apply unquote_length in E0 as Hl2. apply expect_length in E1 as Hl3.
  pose proof (skip_ws_length r0) as Hws0. pose proof (skip_ws_length x1) as Hws1. pose proof (skip_ws_length r2) as Hws2.
  destruct (expect "}" (skip_ws r2)) as [r'|] eqn:Hx.
  - simplify_eq. split; [apply expect_length in Hx; lia|]. intros [|g] Hg'; [lia|]. cbn [parse_members].
    rewrite E, bind_Some_l, E0, bind_Some_l, E1, bind_Some_l, Hg, bind_Some_l, Hx by lia. done.
  - inv_bind H. inv_bind H. destruct x3 as [kvs r3]. simplify_eq. apply He in E3 as [Hl4 Hg3]. apply expect_length in E2 as Hlc.
    pose proof (skip_ws_length x2) as Hws3. split; [lia|]. intros [|g] Hg'; [lia|]. cbn [parse_members].
    rewrite E, bind_Some_l, E0, bind_Some_l, E1, bind_Some_l, Hg, bind_Some_l, Hx, E2, bind_Some_l, Hg3 by lia. done.
Qed.

Lemma parse_settled f :
  (∀ d, settled (λ f, parse_value f d) 0 f) ∧ (∀ d, settled (λ f, parse_elems f d) 1 f) ∧
  (∀ d, settled (λ f, parse_members f d) 1 f).
Proof.
  induction f as [|f (IHv & IHe & IHm)]; [split_and!; by intros d s x r H|].
  split_and!; [by apply settled_value|by apply settled_elems|by apply settled_members].
Qed.

(** More fuel than [json_fuel] changes nothing: a text that any fuel reads is
    read with it. *)
Lemma parse_value_fuel f d s : (json_fuel s <= f)%nat → parse_value f d s = parse_value (json_fuel s) d s.
Proof.
  intros Hf. destruct (parse_value (json_fuel s) d s) as [[j r]|] eqn:E.
  - apply (parse_settled (json_fuel s)) in E as [_ Hg]. apply Hg. unfold json_fuel in *. lia.
  - destruct (parse_value f d s) as [[j r]|] eqn:E'; [|done].
    apply (parse_settled f) in E' as [_ Hg]. rewrite Hg in E; [done|]. unfold json_fuel. lia.
Qed.

(** ** Numbers in context *)

(** Text that does not continue a number. *)
Definition stops (s : string) : bool :=
  match s with
  | EmptyString => true
  | String c _ => negb (is_digit c || (c =? ".")%char || (c =? "e")%char || (c =? "E")%char || (c =? "+")%char || (c =? "-")%char)
  end.

(** A reader that is not disturbed by such text. *)
Definition extends (p : string → option (string * string)) : Prop :=
  ∀ s a b rest, stops rest = true → p s = Some (a, b) → p (s +:+ rest) = Some (a, b +:+ rest).

Lemma span_extends s a b rest :
  stops rest = true → span is_digit s = (a, b) → span is_digit (s +:+ rest) = (a, b +:+ rest).
Proof.
  intros Hr. revert a b. induction s as [|c s IH]; intros a b; cbn [span].
  - intros [= <- <-]. rewrite !append_nil_l. destruct rest as [|c rest]; [done|]. cbn [span stops] in *.
    by destruct (is_digit c).
  - rewrite append_cons. cbn [span]. destruct (is_digit c); [|by intros [= <- <-]].
    destruct (span is_digit s) as [a' b'] eqn:E. intros [= <- <-]. by rewrite (IH _ _ eq_refl).
Qed.

Lemma nonempty_digits_extends : extends nonempty_digits.
Proof.
  intros s a b rest Hr. unfold nonempty_digits. destruct (span is_digit s) as [u v] eqn:E.
  rewrite (span_extends _ _ _ _ Hr E). destruct u; [done|]. by intros [= <- <-].
Qed.

Lemma prepend_extends q p : extends p → ∀ s a b rest, stops rest = true →
  prepend q (p s) = Some (a, b) → prepend q (p (s +:+ rest)) = Some (a, b +:+ rest).
Proof. intros Hp s a b rest Hr (t & Ht & ->)%prepend_inv. by rewrite (Hp _ _ _ _ Hr Ht). Qed.

Lemma sign_part_extends : extends sign_part.
Proof.
  intros [|c s] a b rest Hr; [done|]. rewrite append_cons. cbn [sign_part]. case_match; by intros [= <- <-].
Qed.

Lemma int_part_extends : extends int_part.
Proof.
  intros [|c s] a b rest Hr; [done|]. rewrite append_cons. cbn [int_part]. destruct (c =? "0")%char; [by intros [= <- <-]|].
  destruct (is_digit c); [|done]. intros H. apply Some_inj in H. f_equal. exact (span_extends (String c s) _ _ _ Hr H).
Qed.

Lemma frac_part_extends : extends frac_part.
Proof.
  intros [|c s] a b rest Hr.
  - cbn [frac_part]. intros [= <- <-]. rewrite append_nil_l. destruct rest as [|c rest]; [done|]. cbn [frac_part stops] in *.
    destruct (c =? ".")%char; [by rewrite orb_true_r in Hr|done].
  - rewrite append_cons. cbn [frac_part]. destruct (c =? ".")%char; [|by intros [= <- <-]].
    by apply prepend_extends; [apply nonempty_digits_extends|].
Qed.

Lemma exp_part_extends : extends exp_part.
Proof.
  intros [|c s] a b rest Hr.
  - cbn [exp_part]. intros [= <- <-]. rewrite append_nil_l. destruct rest as [|c rest]; [done|]. cbn [exp_part stops] in *.
    destruct (c =? "e")%char, (c =? "E")%char; try done; by rewrite ?orb_true_r in Hr.
  - rewrite append_cons. cbn [exp_part]. destruct (_ || _); [|by intros [= <- <-]].
    destruct s as [|d s]; [done|]. rewrite append_cons. cbn [exp_sign].
    destruct (_ || _); rewrite !bind_Some_l; [by apply prepend_extends; [apply nonempty_digits_extends|]|].
    rewrite <- append_cons. by apply prepend_extends; [apply nonempty_digits_extends|].
Qed.

Lemma number_extends : extends number.
Proof.
  intros s a b rest Hr H. unfold number in H |- *. inv_bind H. destruct x as [a1 s1]. inv_bind H. destruct x as [a2 s2].
  inv_bind H. destruct x as [a3 s3]. inv_bind H. destruct x as [a4 s4]. simplify_eq.
  rewrite (sign_part_extends _ _ _ _ Hr E), bind_Some_l, (int_part_extends _ _ _ _ Hr E0), bind_Some_l.
  by rewrite (frac_part_extends _ _ _ _ Hr E1), bind_Some_l, (exp_part_extends _ _ _ _ Hr E2), bind_Some_l.
Qed.

Definition is_number (lit : string) : bool := bool_decide (number lit = Some (lit, EmptyString)).

Lemma is_number_app lit rest : is_number lit = true → stops rest = true → number (lit +:+ rest) = Some (lit, rest).
Proof.
  intros Hn%bool_decide_eq_true Hr. by rewrite (number_extends _ _ _ _ Hr Hn), append_nil_l.
Qed.

(** A number starts with a sign or a digit. *)
Lemma number_head lit x : number lit = Some x → ∃ c s, lit = String c s ∧ ((c =? "-")%char || is_digit c) = true.
Proof.
  unfold number. destruct lit as [|c s]; [done|]. intros H. exists c, s. split; [done|]. cbn [sign_part] in H.
  destruct (c =? "-")%char; [done|]. rewrite bind_Some_l in H. cbn [int_part] in H.
  destruct (c =? "0")%char eqn:H0; [apply Ascii.eqb_eq in H0 as ->; done|]. by destruct (is_digit c).
Qed.

(** ** Printed values are read back *)

Lemma json_ind' (P : json → Prop) :
  P JNull → (∀ b, P (JBool b)) → (∀ l, P (JNum l)) → (∀ s, P (JStr s)) →
  (∀ vs, Forall P vs → P (JArr vs)) → (∀ kvs, Forall (λ kv, P kv.2) kvs → P (JObj kvs)) → ∀ j, P j.
Proof.
  intros Hn Hb Hl Hs Ha Ho. refine (fix IH j := _). destruct j as [|b|l|s|vs|kvs]; [done|apply Hb|apply Hl|apply Hs|apply Ha|apply Ho].
  - induction vs as [|v vs IHvs]; constructor; [apply IH|exact IHvs].
  - induction kvs as [|[k v] kvs IHk]; constructor; [apply IH|exact IHk].
Qed.

(** Values whose strings are UTF-8 and whose number literals are numbers. *)
Fixpoint wf_json (j : json) : bool :=
  match j with
  | JNull | JBool _ => true
  | JNum lit => is_number lit
  | JStr s => valid_utf8 0 s
  | JArr vs => forallb wf_json vs
  | JObj kvs => forallb (λ '(k, v), valid_utf8 0 k && wf_json v) kvs
  end.

Fixpoint nesting (j : json) : Z :=
  match j with
  | JArr vs => 1 + foldr Z.max 0 (nesting <$> vs)
  | JObj kvs => 1 + foldr Z.max 0 ((λ '(_, v), nesting v) <$> kvs)
  | _ => 0
  end.

(** With enough fuel, [p] reads [x] and leaves [r]. *)
Definition reads {A} (p : nat → string → option (A * string)) (s : string) (x : A) (r : string) : Prop :=
  ∃ f0, ∀ f, (f0 <= f)%nat → p f s = Some (x, r).

Lemma marshal_head j :
  wf_json j = true → ∃ c s, marshal j = String c s ∧ is_ws c = false ∧ (c =? "]")%char = false ∧ (c =? "}")%char = false.
Proof.
  destruct j as [|[]|lit|s|vs|kvs]; cbn [wf_json marshal]; intros H; try (by eexists _, _; split_and!).
  apply bool_decide_eq_true in H. apply number_head in H as (c & s & -> & Hc). exists c, s. split; [done|].
  apply orb_true_iff in Hc as [Hc|Hc]; [apply Ascii.eqb_eq in Hc as ->; done|].
  unfold is_digit, digit_val in Hc. destruct (_ && _) eqn:Hr; [|done]. apply andb_true_iff in Hr as [H1%Z.leb_le H2%Z.leb_le].
  assert (Hne : ∀ d : ascii, byte_of d < 48 ∨ 57 < byte_of d → (c =? d)%char = false).
  { intros d Hd. apply Ascii.eqb_neq. intros ->. unfold byte_of in Hd. lia. }
  unfold is_ws. rewrite !Hne by (vm_compute; auto).
  destruct (Z.eqb_spec (byte_of c) 9); [unfold byte_of in *; lia|]. destruct (Z.eqb_spec (byte_of c) 10); [unfold byte_of in *; lia|].
  by destruct (Z.eqb_spec (byte_of c) 13); [unfold byte_of in *; lia|].
Qed.

Lemma skip_ws_marshal j t : wf_json j = true → skip_ws (marshal j +:+ t) = marshal j +:+ t.
Proof. intros (c & s & -> & Hc & _)%marshal_head. rewrite append_cons. cbn [skip_ws]. by rewrite Hc. Qed.

Lemma reads_elems d vs rest :
  vs ≠ [] →
  Forall (λ v, wf_json v = true ∧ ∀ t, stops t = true → reads (λ f, parse_value f d) (marshal v +:+ t) v t) vs →
  reads (λ f, parse_elems f d) (join_comma (marshal <$> vs) +:+ String "]" rest) vs rest.
Proof.
  intros Hne Hall. revert Hne. induction Hall as [|v vs [Hwf Hv] Hall IH]; intros Hne; [done|]. clear Hne.
  destruct vs as [|w vs].
  - cbn [fmap list_fmap join_comma]. destruct (Hv (String "]" rest) eq_refl) as [f0 Hf]. exists (S f0). intros [|f] Hle; [lia|].
    cbn [parse_elems]. rewrite Hf by lia. done.
  - change (join_comma (marshal <$> v :: w :: vs)) with (marshal v +:+ String "," (join_comma (marshal <$> w :: vs))).
    rewrite append_assoc, append_cons. destruct (IH ltac:(done)) as [f1 Hf1].
    destruct (Hv (String "," (join_comma (marshal <$> w :: vs) +:+ String "]" rest)) eq_refl) as [f0 Hf].
    exists (S (f0 + f1)). intros [|f] Hle; [lia|]. cbn [parse_elems]. rewrite Hf, bind_Some_l by lia.
    change (expect "]" (skip_ws (String "," ?x))) with (@None string).
    change (expect "," (skip_ws (String "," ?x))) with (Some x). rewrite bind_Some_l.
    assert (Hws : ∀ t, skip_ws (join_comma (marshal <$> w :: vs) +:+ t) = join_comma (marshal <$> w :: vs) +:+ t).
    { intros t. apply Forall_cons in Hall as [[Hw _] _]. destruct vs; cbn [fmap list_fmap join_comma]; [by apply skip_ws_marshal|].
      rewrite append_assoc. by apply skip_ws_marshal. }
    rewrite Hws, Hf1 by lia. done.
Qed.

Definition print_member (kv : string * json) : string := let '(k, v) := kv in quote k +:+ String ":" (marshal v).

Lemma reads_members d kvs rest :
  kvs ≠ [] →
  Forall (λ kv, valid_utf8 0 kv.1 = true ∧ wf_json kv.2 = true ∧
    ∀ t, stops t = true → reads (λ f, parse_value f d) (marshal kv.2 +:+ t) kv.2 t) kvs →
  reads (λ f, parse_members f d) (join_comma (print_member <$> kvs) +:+ String "}" rest) kvs rest.
Proof.
  intros Hne Hall. revert Hne. induction Hall as [|[k v] kvs (Hk & Hwf & Hv) Hall IH]; intros Hne; [done|]. clear Hne.
  cbn [fst snd] in *.
  assert (Hkey : ∀ f t, parse_members (S f) d (print_member (k, v) +:+ t) =
    '(w, r) ← parse_value f d (marshal v +:+ t);
    match expect "}" (skip_ws r) with
    | Some r' => Some ([(k, w)], r')
    | None => r' ← expect "," (skip_ws r); '(kvs, r'') ← parse_members f d (skip_ws r'); Some ((k, w) :: kvs, r'')
    end).
  { intros f t. unfold print_member, quote. rewrite !append_cons, !append_assoc. cbn [parse_members].
    change (expect (chr 34) (String (chr 34) ?x)) with (Some x). rewrite bind_Some_l.
    change (str1 (chr 34) +:+ ?x) with (String (chr 34) x). rewrite unquote_escape, bind_Some_l by done.
    change (String ":" (marshal v) +:+ t) with (String ":" (marshal v +:+ t)).
    change (expect ":" (skip_ws (String ":" ?x))) with (Some x). by rewrite bind_Some_l, skip_ws_marshal. }
  destruct kvs as [|[k' v'] kvs].
  - cbn [fmap list_fmap join_comma]. destruct (Hv (String "}" rest) eq_refl) as [f0 Hf]. exists (S f0). intros [|f] Hle; [lia|].
    rewrite Hkey, Hf by lia. done.
  - change (join_comma (print_member <$> (k, v) :: (k', v') :: kvs))
      with (print_member (k, v) +:+ String "," (join_comma (print_member <$> (k', v') :: kvs))).
    rewrite append_assoc, append_cons. destruct (IH ltac:(done)) as [f1 Hf1].
    destruct (Hv (String "," (join_comma (print_member <$> (k', v') :: kvs) +:+ String "}" rest)) eq_refl) as [f0 Hf].
    exists (S (f0 + f1)). intros [|f] Hle; [lia|]. rewrite Hkey, Hf, bind_Some_l by lia.
    change (expect "}" (skip_ws (String "," ?x))) with (@None string).
    change (expect "," (skip_ws (String "," ?x))) with (Some x). rewrite bind_Some_l.
    assert (Hws : ∀ t, skip_ws (join_comma (print_member <$> (k', v') :: kvs) +:+ t) = join_comma (print_member <$> (k', v') :: kvs) +:+ t).
    { intros t. by destruct kvs. }
    rewrite Hws, Hf1 by lia. done.
Qed.

Lemma marshal_obj kvs : marshal (JObj kvs) = String "{" (join_comma (print_member <$> kvs) +:+ "}").
Proof. reflexivity. Qed.

Lemma foldr_max_le l x b : foldr Z.max 0 l <= b → x ∈ l → x <= b.
Proof.
  intros Hb Hx. induction l as [|y l IH]; [by apply elem_of_nil in Hx|]. cbn [foldr] in Hb.
  apply elem_of_cons in Hx as [->|Hx]; [lia|]. apply IH; [lia|done].
Qed.

(** The first byte of a list of printed elements closes nothing. *)
Lemma join_head (ss : list string) t :
  ss ≠ [] → Forall (λ s, ∃ c s', s = String c s' ∧ is_ws c = false ∧ (c =? "]")%char = false ∧ (c =? "}")%char = false) ss →
  skip_ws (join_comma ss +:+ t) = join_comma ss +:+ t ∧
  expect "]" (join_comma ss +:+ t) = None ∧ expect "}" (join_comma ss +:+ t) = None.
Proof.
  intros Hne Hall. destruct ss as [|s ss]; [done|]. apply Forall_cons in Hall as [(c & s' & -> & Hw & H1 & H2) _].
  assert (∃ u, join_comma (String c s' :: ss) +:+ t = String c u) as [u ->] by (destruct ss; by eexists).
  cbn [skip_ws expect]. by rewrite Hw, H1, H2.
Qed.

Lemma foldr_max_nonneg l : 0 <= foldr Z.max 0 l.
Proof. induction l; cbn; lia. Qed.

(** What the parts of a value have to satisfy. *)
Definition part_reads (d : Z) (j : json) : Prop :=
  wf_json j = true ∧ ∀ t, stops t = true → reads (λ f, parse_value f d) (marshal j +:+ t) j t.

Lemma reads_arr d vs rest :
  d < maxNestingDepth → Forall (part_reads (d + 1)) vs → reads (λ f, parse_value f d) (marshal (JArr vs) +:+ rest) (JArr vs) rest.
Proof.
  intros Hd Hall. cbn [marshal]. rewrite append_cons, append_assoc. change ("]" +:+ rest) with (String "]" rest).
  assert (Hstep : ∀ f s1, parse_value (S f) d (String "[" s1) =
    match expect "]" (skip_ws s1) with
    | Some r => Some (JArr [], r)
    | None => '(vs, r) ← parse_elems f (d + 1) (skip_ws s1); Some (JArr vs, r)
    end).
  { intros f s1. cbn [parse_value]. change (byte_of "[" =? 34) with false. change ("[" =? "[")%char with true. cbv iota.
    by destruct (Z.leb_spec maxNestingDepth d); [lia|]. }
  destruct (decide (vs = [])) as [->|Hne].
  - exists 1%nat. intros [|f] Hf; [lia|]. by rewrite Hstep.
  - destruct (reads_elems (d + 1) vs rest Hne Hall) as [f0 Hf0].
    destruct (join_head (marshal <$> vs) (String "]" rest)) as (Hs1 & Hs2 & _).
    { by intros H%fmap_nil_inv. }
    { apply Forall_fmap. eapply Forall_impl; [exact Hall|]. intros v [Hw _]. by apply marshal_head. }
    exists (S f0). intros [|f] Hf; [lia|]. rewrite Hstep, Hs1, Hs2, Hf0 by lia. done.
Qed.

Lemma reads_obj d kvs rest :
  d < maxNestingDepth → Forall (λ kv, valid_utf8 0 kv.1 = true ∧ part_reads (d + 1) kv.2) kvs →
  reads (λ f, parse_value f d) (marshal (JObj kvs) +:+ rest) (JObj kvs) rest.
Proof.
  intros Hd Hall. rewrite marshal_obj, append_cons, append_assoc. change ("}" +:+ rest) with (String "}" rest).
  assert (Hstep : ∀ f s1, parse_value (S f) d (String "{" s1) =
    match expect "}" (skip_ws s1) with
    | Some r => Some (JObj [], r)
    | None => '(kvs, r) ← parse_members f (d + 1) (skip_ws s1); Some (JObj kvs, r)
    end).
  { intros f s1. cbn [parse_value]. change (byte_of "{" =? 34) with false. change ("{" =? "[")%char with false.
    change ("{" =? "{")%char with true. cbv iota. by destruct (Z.leb_spec maxNestingDepth d); [lia|]. }
  destruct (decide (kvs = [])) as [->|Hne].
  - exists 1%nat. intros [|f] Hf; [lia|]. by rewrite Hstep.
  - destruct (reads_members (d + 1) kvs rest Hne) as [f0 Hf0].
    { eapply Forall_impl; [exact Hall|]. intros kv (Hk & Hw & Hv). auto. }
    destruct (join_head (print_member <$> kvs) (String "}" rest)) as (Hs1 & _ & Hs3).
    { by intros H%fmap_nil_inv. }
    { apply Forall_fmap, Forall_forall. intros [k v] _. by eexists _, _. }
    exists (S f0). intros [|f] Hf; [lia|]. rewrite Hstep, Hs1, Hs3, Hf0 by lia. done.
Qed.

Lemma reads_num d lit rest :
  is_number lit = true → stops rest = true → reads (λ f, parse_value f d) (lit +:+ rest) (JNum lit) rest.
Proof.
  intros Hn Hr. exists 1%nat. intros [|f] Hf; [lia|]. pose proof Hn as Hwf.
  apply bool_decide_eq_true in Hwf. apply number_head in Hwf as (c & s & -> & Hc). rewrite append_cons. cbn [parse_value].
  assert (Hne : ∀ x : ascii, (x =? "-")%char || is_digit x = false → (c =? x)%char = false).
  { intros x Hx. apply Ascii.eqb_neq. intros ->. congruence. }
  assert ((byte_of c =? 34) = false) as ->.
  { apply Z.eqb_neq. intros Hb. assert (c = chr 34) as -> by (by apply byte_of_inj). discriminate. }
  rewrite !Hne by done. rewrite <- append_cons. by rewrite is_number_app.
Qed.

Lemma marshal_reads j d rest :
  wf_json j = true → d + nesting j <= maxNestingDepth → stops rest = true →
  reads (λ f, parse_value f d) (marshal j +:+ rest) j rest.
Proof.
  revert d rest. induction j as [|b|lit|s|vs IH|kvs IH] using json_ind'; intros d rest Hwf Hd Hr.
  - exists 1%nat. intros [|f] Hf; [lia|]. reflexivity.
  - exists 1%nat. intros [|f] Hf; [lia|]. destruct b; reflexivity.
  - by apply reads_num.
  - exists 1%nat. intros [|f] Hf; [lia|]. cbn [marshal]. unfold quote. rewrite append_cons, append_assoc. cbn [parse_value].
    change (byte_of (chr 34) =? 34) with true. cbv iota. change (str1 (chr 34) +:+ ?x) with (String (chr 34) x).
    by rewrite unquote_escape.
  - cbn [nesting wf_json] in *. pose proof (foldr_max_nonneg (nesting <$> vs)). apply reads_arr; [lia|].
    rewrite Forall_forall in IH |- *. intros v Hv. eapply forallb_forall in Hwf; [|by apply list_elem_of_In].
    split; [done|]. intros t Ht. apply IH; [done..| |done].
    assert (nesting v <= maxNestingDepth - d - 1); [|lia]. eapply foldr_max_le; [|by apply list_elem_of_fmap_2]. lia.
  - cbn [nesting wf_json] in *. pose proof (foldr_max_nonneg ((λ '(_, v), nesting v) <$> kvs)). apply reads_obj; [lia|].
    rewrite Forall_forall in IH |- *. intros [k v] Hv. eapply forallb_forall in Hwf; [|by apply list_elem_of_In].
    apply andb_true_iff in Hwf as [Hk Hw]. split; [done|]. split; [done|]. intros t Ht. apply (IH (k, v)); [done..| |done]. cbn [snd].
    assert (nesting v <= maxNestingDepth - d - 1); [|lia].
    eapply foldr_max_le; [|exact (list_elem_of_fmap_2 (λ '(_, v), nesting v) kvs _ Hv)]. lia.
Qed.

(** Printing a value and reading it gives the value back. *)
Lemma json_of_marshal j :
  wf_json j = true → nesting j <= maxNestingDepth → json_of (marshal j) = Some j.
Proof.
  intros Hwf Hn. destruct (marshal_reads j 0 EmptyString Hwf ltac:(lia) eq_refl) as [f0 Hf].
  rewrite append_nil in Hf. unfold json_of. rewrite <- (append_nil (marshal j)), skip_ws_marshal, append_nil by done.
  rewrite <- (parse_value_fuel (f0 + json_fuel (marshal j))) by lia. rewrite Hf by lia. done.
Qed.

(** Integers are numbers. *)
Lemma span_all P s : all_bytes P s = true → span P s = (s, EmptyString).
Proof.
  induction s as [|c s IH]; [done|]. cbn [all_bytes span]. intros [Hc Hs]%andb_true_iff. by rewrite Hc, IH.
Qed.

Lemma dec_aux_head fuel n acc :
  0 < n < 2 ^ Z.of_nat fuel → ∃ d s, 1 <= d <= 9 ∧ dec_aux fuel n acc = String (digit d) s.
Proof.
  revert n acc. induction fuel as [|fuel IH]; intros n acc Hn; [cbn in Hn; lia|]. cbn [dec_aux].
  rewrite Nat2Z.inj_succ, Z.pow_succ_r in Hn by lia. destruct (Z.ltb_spec n 10).
  - exists n, acc. rewrite Z.mod_small by lia. split; [lia|done].
  - apply IH. split; [apply Z.div_str_pos; lia|apply Z.div_lt_upper_bound; lia].
Qed.

Lemma dec_head n : 0 < n → ∃ d s, 1 <= d <= 9 ∧ dec n = String (digit d) s.
Proof.
  intros Hn. apply dec_aux_head. rewrite Nat2Z.inj_succ, Z2Nat.id by apply Z.log2_nonneg. split; [done|]. by apply Z.log2_spec.
Qed.

Lemma int_part_dec n : 0 <= n → int_part (dec n) = Some (dec n, EmptyString).
Proof.
  intros Hn. destruct (decide (n = 0)) as [->|Hz]; [reflexivity|]. destruct (dec_head n ltac:(lia)) as (d & s & Hd & E).
  pose proof (dec_digits n Hn) as Hall. rewrite E in *. cbn [int_part].
  assert ((digit d =? "0")%char = false) as ->.
  { apply Ascii.eqb_neq. intros H0. apply (f_equal digit_val) in H0. rewrite digit_val_digit in H0 by lia.
    change (digit_val "0") with (Some 0) in H0. injection H0. lia. }
  cbn [all_bytes] in Hall. apply andb_true_iff in Hall as [Hc Hs]. rewrite Hc. cbn [span]. by rewrite Hc, span_all.
Qed.

Lemma dec_not_minus n : 0 <= n → ∃ c s, dec n = String c s ∧ (c =? "-")%char = false.
Proof.
  intros Hn. destruct (dec_nonempty n) as (c & s & E). exists c, s. split; [done|]. pose proof (dec_digits n Hn) as Hall.
  rewrite E in Hall. apply andb_true_iff in Hall as [Hc _]. apply Ascii.eqb_neq. by intros ->.
Qed.

Lemma number_tail a b :
  ('(c, s3) ← frac_part EmptyString; '(d, s4) ← exp_part s3; Some (a +:+ b +:+ c +:+ d, s4)) = Some (a +:+ b, EmptyString).
Proof. cbn. by rewrite append_nil. Qed.

#[export] Instance itoa_inj : Inj (=) (=) itoa.
Proof.
  assert (Hdec : ∀ a b, 0 <= a → 0 <= b → dec a = dec b → a = b).
  { intros a b Ha Hb E. apply (f_equal (λ s, digits_val s 0)) in E. rewrite !digits_val_dec in E by done. congruence. }
  intros a b. unfold itoa. destruct (Z.ltb_spec a 0), (Z.ltb_spec b 0); intros E.
  - injection E as E. apply Hdec in E; lia.
  - destruct (dec_not_minus b) as (c & s & Eb & Hc); [lia|]. rewrite Eb in E. injection E as <- _. done.
  - destruct (dec_not_minus a) as (c & s & Ea & Hc); [lia|]. rewrite Ea in E. injection E as -> _. done.
  - apply Hdec in E; lia.
Qed.

Lemma is_number_itoa n : is_number (itoa n) = true.
Proof.
  apply bool_decide_eq_true. unfold itoa, number. destruct (Z.ltb_spec n 0).
  - cbn [sign_part]. change ("-" =? "-")%char with true. cbv iota. rewrite bind_Some_l, int_part_dec, bind_Some_l by lia.
    exact (number_tail (str1 "-") (dec (- n))).
  - destruct (dec_not_minus n ltac:(lia)) as (c & s & E & Hc). rewrite E at 1. cbn [sign_part]. rewrite Hc, bind_Some_l, <- E.
    rewrite int_part_dec, bind_Some_l by lia. exact (number_tail EmptyString (dec n)).
Qed.

(** ** Decoding into Go values *)

(** [unmarshal j old]: the value of [old] after decoding [j] into it; [None] if
    the types do not fit.  Go goes on decoding after a misfit and reports it at
    the end; the callers use nothing of what was decoded then.  null leaves
    basic values and structs as they are. *)
Class Unmarshal (A : Type) := unmarshal : json → A → option A.

#[export] Instance string_zeroed : Zeroed string := EmptyString.
#[export] Instance bool_zeroed : Zeroed bool := false.
#[export] Instance option_zeroed {A} : Zeroed (option A) := None.
#[export] Instance list_zeroed {A} : Zeroed (list A) := [].

#[export] Instance unmarshal_string : Unmarshal string := λ j old,
  match j with JNull => Some old | JStr s => Some s | _ => None end.
#[export] Instance unmarshal_bool : Unmarshal bool := λ j old,
  match j with JNull => Some old | JBool b => Some b | _ => None end.

(** int: the literal has to be a 64-bit integer. *)
#[export] Instance unmarshal_int : Unmarshal Z := λ j old,
  match j with JNull => Some old | JNum lit => Atoi lit | _ => None end.
(** uint32 and uint64. *)
Definition unmarshal_uint (w : Z) : Unmarshal Z := λ j old,
  match j with JNull => Some old | JNum lit => ParseUint lit w | _ => None end.

(** A pointer is set by null to nil and otherwise decoded through. *)
Definition unmarshal_ptr_with {A} `{Zeroed A} (um : json → A → option A) : Unmarshal (option A) := λ j old,
  match j with
  | JNull => Some None
  | _ => v ← um j (default zeroed old); Some (Some v)
  end.
#[export] Instance unmarshal_ptr {A} `{Zeroed A, Unmarshal A} : Unmarshal (option A) := unmarshal_ptr_with unmarshal.

(** A slice; elements are decoded over those the slice had. *)
Fixpoint unmarshal_elems {A} `{Zeroed A} (um : json → A → option A) (vs : list json) (old : list A) : option (list A) :=
  match vs with
  | [] => Some []
  | v :: vs' =>
      x ← um v (default zeroed (head old));
      xs ← unmarshal_elems um vs' (tail old);
      Some (x :: xs)
  end.
Definition unmarshal_slice_with {A} `{Zeroed A} (um : json → A → option A) : Unmarshal (list A) := λ j old,
  match j with
  | JNull => Some []
  | JArr vs => unmarshal_elems um vs old
  | _ => None
  end.
#[export] Instance unmarshal_slice {A} `{Zeroed A, Unmarshal A} : Unmarshal (list A) := unmarshal_slice_with unmarshal.

(** [json.RawMessage]: the text of a value, here the value. *)
Definition RawMessage : Type := option json.
#[export] Instance unmarshal_raw : Unmarshal RawMessage := λ j _, Some (Some j).

(** Case folding of member names: ASCII letters, and the Kelvin sign and the
    long s, the other characters that fold to one. *)
Fixpoint fold_name (s : string) : string :=
  match s with
  | EmptyString => EmptyString
  | String c s1 =>
      let b := byte_of c in
      if (97 <=? b) && (b <=? 122) then String (chr (b - 32)) (fold_name s1)
      else match s1 with
      | String d s2 =>
          if (b =? 0xC5) && (byte_of d =? 0xBF) then String "S" (fold_name s2)
          else match s2 with
          | String e s3 =>
              if (b =? 0xE2) && (byte_of d =? 0x84) && (byte_of e =? 0xAA) then String "K" (fold_name s3)
              else String c (fold_name s1)
          | EmptyString => String c (fold_name s1)
          end
      | EmptyString => String c (fold_name s1)
      end
  end.

(** The struct member a key names: the one with that name, else the first whose
    name is equal up to case. *)
Definition member {A} (fields : list (string * A)) (k : string) : option A :=
  match find (λ f, bool_decide (f.1 = k)) fields with
  | Some f => Some f.2
  | None => snd <$> find (λ f, bool_decide (fold_name f.1 = fold_name k)) fields
  end.

(** A struct, from decoders of its members; unknown keys are ignored. *)
Definition unmarshal_struct {A} (fields : list (string * (json → A → option A))) (j : json) (old : A) : option A :=
  match j with
  | JNull => Some old
  | JObj kvs => foldl (λ oa '(k, v), a ← oa; match member fields k with Some f => f v a | None => Some a end) (Some old) kvs
  | _ => None
  end.

Definition field {A B} (get : A → B) (set : B → A → A) (um : json → B → option B) : json → A → option A :=
  λ j a, b ← um j (get a); Some (set b a).

(** [json.Unmarshal]: the text has to be one JSON value, which has to fit. *)
Definition Unmarshal_text {A} `{Zeroed A, Unmarshal A} (s : string) : option A :=
  j ← json_of s; unmarshal j zeroed.

(** Decoding a raw message: nil is the empty text. *)
Definition Unmarshal_raw {A} `{Zeroed A, Unmarshal A} (m : RawMessage) : option A :=
  j ← m; unmarshal j zeroed.
