(* ===== verification/Base64.v ===== *)
(** * Base64 (encoding/base64, StdEncoding)

    The guest agent sends the output of a process in base64. *)
From S2P Require Import Prelude GoStrings.

(** The value of a byte of the alphabet. *)
Definition b64_val (c : ascii) : option Z :=
  let b := byte_of c in
  if (65 <=? b) && (b <=? 90) then Some (b - 65)
  else if (97 <=? b) && (b <=? 122) then Some (b - 71)
  else if (48 <=? b) && (b <=? 57) then Some (b + 4)
  else if b =? 43 then Some 62
  else if b =? 47 then Some 63
  else None.

Definition is_pad (c : ascii) : bool := (c =? "=")%char.

(** Line ends are skipped wherever they are. *)
Fixpoint drop_nl (s : string) : string :=
  match s with
  | EmptyString => EmptyString
  | String c s' => if (byte_of c =? 10) || (byte_of c =? 13) then drop_nl s' else String c (drop_nl s')
  end.

(** Groups of four; padding only in the last one, and no others incomplete.
    The spare bits before padding are not looked at. *)
Fixpoint decode_groups (s : string) : option string :=
  match s with
  | EmptyString => Some EmptyString
  | String a (String b (String c (String d rest))) =>
      x ← b64_val a;
      y ← b64_val b;
      if is_pad d then
        match rest with
        | EmptyString =>
            if is_pad c then Some (str1 (chr (x * 4 + y / 16)))
            else z ← b64_val c; Some (String (chr (x * 4 + y / 16)) (str1 (chr (y mod 16 * 16 + z / 4))))
        | _ => None
        end
      else
        z ← b64_val c;
        w ← b64_val d;
        t ← decode_groups rest;
        Some (String (chr (x * 4 + y / 16)) (String (chr (y mod 16 * 16 + z / 4)) (String (chr (z mod 4 * 64 + w)) t)))
  | _ => None
  end.

(** [base64.StdEncoding.DecodeString]. *)
Definition DecodeString (s : string) : option string := decode_groups (drop_nl s).

(** ** The encoding it inverts (RFC 4648) *)

Definition b64_char (n : Z) : ascii :=
  if n <? 26 then chr (65 + n) else if n <? 52 then chr (71 + n) else if n <? 62 then chr (n - 4)
  else if n =? 62 then "+"%char else "/"%char.

Fixpoint encode (s : string) : string :=
  match s with
  | EmptyString => EmptyString
  | String a EmptyString =>
      String (b64_char (byte_of a / 4)) (String (b64_char (byte_of a mod 4 * 16)) "==")
  | String a (String b EmptyString) =>
      String (b64_char (byte_of a / 4)) (String (b64_char (byte_of a mod 4 * 16 + byte_of b / 16))
        (String (b64_char (byte_of b mod 16 * 4)) "="))
  | String a (String b (String c rest)) =>
      String (b64_char (byte_of a / 4)) (String (b64_char (byte_of a mod 4 * 16 + byte_of b / 16))
        (String (b64_char (byte_of b mod 16 * 4 + byte_of c / 64)) (String (b64_char (byte_of c mod 64)) (encode rest))))
  end.

(** What the decoder needs to know of an encoded sextet. *)
Lemma b64_char_spec n : 0 <= n < 64 →
  b64_val (b64_char n) = Some n ∧ is_pad (b64_char n) = false ∧
  (byte_of (b64_char n) =? 10) || (byte_of (b64_char n) =? 13) = false.
Proof.
  intros Hn. assert (Hall : Forall (λ n, b64_val (b64_char n) = Some n ∧ is_pad (b64_char n) = false ∧
    (byte_of (b64_char n) =? 10) || (byte_of (b64_char n) =? 13) = false) (seqZ 0 64)).
  { apply (bool_decide_eq_true_1 _). vm_compute. reflexivity. }
  rewrite Forall_forall in Hall. apply Hall, elem_of_seqZ. lia.
Qed.

Definition b64_clean (s : string) : bool := all_bytes (λ c, negb ((byte_of c =? 10) || (byte_of c =? 13))) s.

Lemma drop_nl_clean s : b64_clean s = true → drop_nl s = s.
Proof.
  induction s as [|c s IH]; [done|]. unfold b64_clean. cbn [all_bytes drop_nl]. intros [Hc%negb_true_iff Hs]%andb_true_iff.
  rewrite Hc. by rewrite IH.
Qed.

(** Induction three bytes at a time. *)
Lemma string_ind3 (P : string → Prop) :
  P EmptyString → (∀ a, P (str1 a)) → (∀ a b, P (String a (str1 b))) →
  (∀ a b c s, P s → P (String a (String b (String c s)))) → ∀ s, P s.
Proof.
  intros H0 H1 H2 H3. refine (fix IH s := _). destruct s as [|a [|b [|c s]]]; [exact H0|apply H1|apply H2|apply H3, IH].
Qed.

Ltac sextets a b c :=
  pose proof (byte_of_range a); pose proof (byte_of_range b); pose proof (byte_of_range c);
  assert (0 <= byte_of a / 4 < 64) by (split; [apply Z.div_pos|apply Z.div_lt_upper_bound]; lia);
  assert (0 <= byte_of b / 16 < 16) by (split; [apply Z.div_pos|apply Z.div_lt_upper_bound]; lia);
  assert (0 <= byte_of c / 64 < 4) by (split; [apply Z.div_pos|apply Z.div_lt_upper_bound]; lia);
  pose proof (Z.mod_pos_bound (byte_of a) 4 ltac:(lia)); pose proof (Z.mod_pos_bound (byte_of b) 16 ltac:(lia));
  pose proof (Z.mod_pos_bound (byte_of c) 64 ltac:(lia)).

(** A byte from the sextets it was cut into. *)
Lemma join_bits n k m : 0 < k → 0 <= m < k → (n * k + m) / k = n ∧ (n * k + m) mod k = m.
Proof. intros Hk Hm. rewrite Z.add_comm, Z.div_add, Z.mod_add, Z.div_small, Z.mod_small by lia. lia. Qed.

Lemma byte_join c k : 0 < k → chr (byte_of c / k * k + byte_of c mod k) = c.
Proof. intros Hk. rewrite <- (chr_byte_of c) at 3. f_equal. pose proof (Z.div_mod (byte_of c) k). lia. Qed.

Lemma encode_clean s : b64_clean (encode s) = true.
Proof.
  assert (Hc : ∀ n t, 0 <= n < 64 → b64_clean t = true → b64_clean (String (b64_char n) t) = true).
  { intros n t Hn Ht. unfold b64_clean. cbn [all_bytes]. destruct (b64_char_spec n Hn) as (_ & _ & ->). exact Ht. }
  induction s as [|a|a b|a b c s IH] using string_ind3; [done|..].
  - sextets a a a. cbn [encode str1]. by repeat (apply Hc; [lia|]).
  - sextets a b b. cbn [encode str1]. by repeat (apply Hc; [lia|]).
  - sextets a b c. cbn [encode]. by repeat (apply Hc; [lia|]).
Qed.

Lemma decode_encode s : decode_groups (encode s) = Some s.
Proof.
  assert (Hv : ∀ n, 0 <= n < 64 → b64_val (b64_char n) = Some n) by (intros; by apply b64_char_spec).
  assert (Hp : ∀ n, 0 <= n < 64 → is_pad (b64_char n) = false) by (intros; by apply b64_char_spec).
  assert (Ha : ∀ a x, 0 <= x < 16 → chr (byte_of a / 4 * 4 + (byte_of a mod 4 * 16 + x) / 16) = a).
  { intros a x Hx. destruct (join_bits (byte_of a mod 4) 16 x) as [-> _]; [lia..|]. by apply byte_join. }
  assert (Hb : ∀ a b y, 0 <= y < 4 → 
    chr ((byte_of a mod 4 * 16 + byte_of b / 16) mod 16 * 16 + (byte_of b mod 16 * 4 + y) / 4) = b).
  { intros a b y Hy. sextets a b b. destruct (join_bits (byte_of a mod 4) 16 (byte_of b / 16)) as [_ ->]; [lia..|].
    destruct (join_bits (byte_of b mod 16) 4 y) as [-> _]; [lia..|]. by apply byte_join. }
  induction s as [|a|a b|a b c s IH] using string_ind3; [done|..]; cbn [encode str1 decode_groups].
  - sextets a a a. rewrite !Hv, !bind_Some_l by lia. change (is_pad "=") with true. cbv iota. rewrite <- (Z.add_0_r (_ * 16)). by rewrite Ha.
  - sextets a b b. rewrite !Hv, !bind_Some_l by lia. change (is_pad "=") with true. cbv iota. rewrite !Hp by lia. cbv iota.
    rewrite Ha by lia. rewrite <- (Z.add_0_r (_ * 4)), Hb by lia. done.
  - sextets a b c. rewrite !Hv, !bind_Some_l, !Hp by lia. cbv iota. rewrite IH, !bind_Some_l.
    rewrite Ha, Hb by lia. do 2 f_equal. destruct (join_bits (byte_of b mod 16) 4 (byte_of c / 64)) as [_ ->]; [lia..|].
    do 2 f_equal. by apply byte_join.
Qed.

(** What was encoded is decoded, line ends or not. *)
Lemma DecodeString_encode s t : drop_nl t = encode s → DecodeString t = Some s.
Proof. unfold DecodeString. intros ->. apply decode_encode. Qed.
