(* ===== verification/QgaCsv.v ===== *)
(** * Disk counters as CSV (pkg/qga/types.go, ParseWMICSV)

    The counters arrive as the CSV text PowerShell or wmic prints.  The reader of
    encoding/csv is modelled as an automaton on the text; ParseWMICSV finds the
    columns by their names and turns rows into counters. *)
From S2P Require Import Prelude GoStrings GoFloat QgaMetrics.

Definition LF : ascii := chr 10.
Definition CR : ascii := chr 13.
Definition DQ : ascii := chr 34.

(** ** Lines *)

(** [bytes.ReplaceAll (data, "\r\n", "\n")]. *)
Fixpoint crlf (s : string) : string :=
  match s with
  | EmptyString => EmptyString
  | String c s1 =>
      match s1 with
      | String d s2 => if (c =? CR)%char && (d =? LF)%char then String LF (crlf s2) else String c (crlf s1)
      | EmptyString => s
      end
  end.

(** The reader of lines does the same once more, and drops a carriage return at
    the end of the text. *)
Fixpoint drop_last_cr (s : string) : string :=
  match s with
  | EmptyString => EmptyString
  | String c EmptyString => if (c =? CR)%char then EmptyString else s
  | String c s1 => String c (drop_last_cr s1)
  end.

(** ** The CSV reader *)

(** Where the reader is: before a record (empty lines are skipped), before a
    field with [skip] bytes of a white-space character to go (leading space is
    trimmed), inside a bare field, inside quotes, behind a quote inside quotes. *)
Inductive csv_state := RecordStart | FieldStart (skip : nat) | Bare | Quoted | QuoteEnd.

(** [fields] and [cur] are what was read of the record and of the field. *)
Fixpoint csv_read (st : csv_state) (fields : list string) (cur : string) (s : string) : option (list (list string)) :=
  match s with
  | EmptyString =>
      match st with
      | RecordStart => Some []
      | Quoted => None
      | _ => Some [fields ++ [cur]]
      end
  | String c s1 =>
      let end_record fields cur := rs ← csv_read RecordStart [] EmptyString s1; Some ((fields ++ [cur]) :: rs) in
      let bare fields cur :=
        if (c =? ",")%char then csv_read (FieldStart 0) (fields ++ [cur]) EmptyString s1
        else if (c =? LF)%char then end_record fields cur
        else if (c =? DQ)%char then None
        else csv_read Bare fields (cur +:+ str1 c) s1 in
      let field_start fields :=
        if (c =? LF)%char then end_record fields EmptyString
        else match space_width s with
        | S k => csv_read (FieldStart k) fields EmptyString s1
        | O => if (c =? DQ)%char then csv_read Quoted fields EmptyString s1 else bare fields EmptyString
        end in
      match st with
      | RecordStart => if (c =? LF)%char then csv_read RecordStart [] EmptyString s1 else field_start []
      | FieldStart (S k) => csv_read (FieldStart k) fields EmptyString s1
      | FieldStart O => field_start fields
      | Bare => bare fields cur
      | Quoted =>
          if (c =? DQ)%char then csv_read QuoteEnd fields cur s1 else csv_read Quoted fields (cur +:+ str1 c) s1
      | QuoteEnd =>
          if (c =? DQ)%char then csv_read Quoted fields (cur +:+ str1 c) s1
          else if (c =? ",")%char then csv_read (FieldStart 0) (fields ++ [cur]) EmptyString s1
          else if (c =? LF)%char then end_record fields cur
          else None
      end
  end.

(** [csv.NewReader (data).ReadAll ()] with TrimLeadingSpace and records of any
    length. *)
Definition ReadAll (data : string) : option (list (list string)) :=
  csv_read RecordStart [] EmptyString (drop_last_cr (crlf data)).

(** ** Case *)

(** [strings.ToLower], as far as it makes ASCII letters: of the other characters
    only U+0130 and the Kelvin sign have an ASCII letter as lower case.  The
    column names looked up are ASCII. *)
Fixpoint ToLower (s : string) : string :=
  match s with
  | EmptyString => EmptyString
  | String c s1 =>
      let b := byte_of c in
      if (65 <=? b) && (b <=? 90) then String (chr (b + 32)) (ToLower s1)
      else match s1 with
      | String d s2 =>
          if (b =? 0xC4) && (byte_of d =? 0xB0) then String "i" (ToLower s2)
          else match s2 with
          | String e s3 =>
              if (b =? 0xE2) && (byte_of d =? 0x84) && (byte_of e =? 0xAA) then String "k" (ToLower s3)
              else String c (ToLower s1)
          | EmptyString => String c (ToLower s1)
          end
      | EmptyString => String c (ToLower s1)
      end
  end.

(** [strings.EqualFold (name, "_Total")]: no character beyond ASCII folds to one
    of these letters. *)
Fixpoint ascii_lower (s : string) : string :=
  match s with
  | EmptyString => EmptyString
  | String c s1 => String (if (65 <=? byte_of c) && (byte_of c <=? 90) then chr (byte_of c + 32) else c) (ascii_lower s1)
  end.
Definition is_total (name : string) : bool := bool_decide (ascii_lower name = "_total").

(** ** ParseWMICSV *)

Definition requiredColumns : list string :=
  ["name"; "avgdiskreadqueuelength"; "avgdiskwritequeuelength"; "diskreadspersec"; "diskwritespersec"; "timestamp_sys100ns"].

(** The column of each name; the last one wins. *)
Definition colMap (header : list string) : gmap string nat :=
  list_to_map (reverse (imap (λ i name, (ToLower (TrimSpace name), i)) header)).

Record columns := Columns { nameIdx : nat; rdQIdx : nat; wrQIdx : nat; rdOpsIdx : nat; wrOpsIdx : nat; tsIdx : nat }.

Definition find_columns (header : list string) : option columns :=
  let m := colMap header in
  name ← m !! "name";
  rdQ ← m !! "avgdiskreadqueuelength";
  wrQ ← m !! "avgdiskwritequeuelength";
  rdOps ← m !! "diskreadspersec";
  wrOps ← m !! "diskwritespersec";
  ts ← m !! "timestamp_sys100ns";
  Some (Columns name rdQ wrQ rdOps wrOps ts).

Definition cell (row : list string) (i : nat) : string := TrimSpace (default EmptyString (row !! i)).

(** What becomes of a row: skipped, an error, or counters. *)
Inductive row_result := Skip | BadRow | Row (dc : DiskCounters).

Definition maxIdx (cs : columns) : nat :=
  foldr Nat.max 0%nat [nameIdx cs; rdQIdx cs; wrQIdx cs; rdOpsIdx cs; wrOpsIdx cs; tsIdx cs].

Definition parse_row (cs : columns) (row : list string) : row_result :=
  if (length row <=? maxIdx cs)%nat then Skip else
  let name := cell row (nameIdx cs) in
  if bool_decide (name = EmptyString) || is_total name then Skip else
  match (rdQ ← ParseUint (cell row (rdQIdx cs)) 64;
         wrQ ← ParseUint (cell row (wrQIdx cs)) 64;
         rdOps ← ParseUint (cell row (rdOpsIdx cs)) 64;
         wrOps ← ParseUint (cell row (wrOpsIdx cs)) 64;
         ts ← ParseUint (cell row (tsIdx cs)) 64;
         Some (Counters name rdQ wrQ rdOps wrOps ts)) with
  | Some dc => Row dc
  | None => BadRow
  end.

(** The loop over the rows stops at the first error. *)
Fixpoint parse_rows (cs : columns) (rows : list (list string)) : option (list DiskCounters) :=
  match rows with
  | [] => Some []
  | row :: rows' =>
      match parse_row cs row with
      | Skip => parse_rows cs rows'
      | BadRow => None
      | Row dc => dcs ← parse_rows cs rows'; Some (dc :: dcs)
      end
  end.

Definition ParseWMICSV (data : string) : option (list DiskCounters) :=
  records ← ReadAll (TrimSpace (crlf data));
  match records with
  | header :: ((_ :: _) as rows) =>
      cs ← find_columns header;
      results ← parse_rows cs rows;
      match results with [] => None | _ => Some results end
  | _ => None
  end.

(** ** What PowerShell prints *)

(** Quotes are doubled inside quotes. *)
Fixpoint double_dq (s : string) : string :=
  match s with
  | EmptyString => EmptyString
  | String c s1 => if (c =? DQ)%char then String DQ (String DQ (double_dq s1)) else String c (double_dq s1)
  end.
Definition quote_field (s : string) : string := String DQ (double_dq s +:+ str1 DQ).

(** Strings separated by the byte [sep]. *)
Fixpoint join_sep (sep : ascii) (l : list string) : string :=
  match l with
  | [] => EmptyString
  | [x] => x
  | x :: l' => x +:+ String sep (join_sep sep l')
  end.

Definition csv_row (fs : list string) : string := join_sep "," (quote_field <$> fs).
(** [ConvertTo-Csv]: every field quoted, every line ended by CR LF. *)
Definition print_csv (rows : list (list string)) : string :=
  foldr (λ row text, csv_row row +:+ String CR (String LF text)) EmptyString rows.

Definition no_cr (s : string) : bool := all_bytes (λ c, negb (c =? CR)%char) s.

(** ** Line ends *)

Lemma crlf_app s t : no_cr s = true → crlf (s +:+ t) = s +:+ crlf t.
Proof.
  induction s as [|c s IH]; [done|]. unfold no_cr. cbn [all_bytes]. intros [Hc%negb_true_iff Hs]%andb_true_iff.
  rewrite !append_cons. specialize (IH Hs). cbn [crlf]. rewrite Hc. cbn [andb].
  destruct (s +:+ t) as [|d u] eqn:E; [|by rewrite IH].
  destruct s as [|x s]; [|done]. rewrite append_nil_l in E. by subst t.
Qed.

Lemma crlf_no_cr s : no_cr s = true → crlf s = s.
Proof. intros H. rewrite <- (append_nil s) at 1. by rewrite crlf_app, append_nil. Qed.

Lemma drop_last_cr_no_cr s : no_cr s = true → drop_last_cr s = s.
Proof.
  induction s as [|c s IH]; [done|]. unfold no_cr. cbn [all_bytes]. intros [Hc%negb_true_iff Hs]%andb_true_iff.
  specialize (IH Hs). cbn [drop_last_cr]. rewrite Hc. destruct s; [done|]. by rewrite IH.
Qed.

Lemma no_cr_double s : no_cr s = true → no_cr (double_dq s) = true.
Proof.
  induction s as [|c s IH]; [done|]. unfold no_cr. cbn [all_bytes double_dq]. intros [Hc Hs]%andb_true_iff.
  destruct (c =? DQ)%char; cbn [all_bytes]; rewrite ?Hc; by apply IH.
Qed.

Lemma no_cr_join sep l : (sep =? CR)%char = false → Forall (λ s, no_cr s = true) l → no_cr (join_sep sep l) = true.
Proof.
  intros Hsep. induction 1 as [|x l Hx Hl IH]; [done|]. destruct l as [|y l]; [done|].
  change (join_sep sep (x :: y :: l)) with (x +:+ String sep (join_sep sep (y :: l))). unfold no_cr in *. rewrite all_bytes_app, Hx.
  cbn [all_bytes andb]. by rewrite Hsep, IH.
Qed.

Lemma no_cr_row fs : Forall (λ s, no_cr s = true) fs → no_cr (csv_row fs) = true.
Proof.
  intros H. apply no_cr_join; [done|]. apply Forall_fmap. eapply Forall_impl; [exact H|]. intros s Hs.
  pose proof (no_cr_double s Hs) as Hd. unfold quote_field, no_cr in *. cbn [compose all_bytes]. by rewrite all_bytes_app, Hd.
Qed.

Lemma crlf_print rows :
  rows ≠ [] → Forall (Forall (λ s, no_cr s = true)) rows →
  crlf (print_csv rows) = join_sep LF (csv_row <$> rows) +:+ str1 LF ∧ no_cr (join_sep LF (csv_row <$> rows)) = true.
Proof.
  intros Hne Hall. split; [|apply no_cr_join; [done|]; apply Forall_fmap; eapply Forall_impl; [exact Hall|]; intros; by apply no_cr_row].
  revert Hne. induction Hall as [|row rows Hrow Hall IH]; intros Hne; [done|]. clear Hne.
  cbn [print_csv foldr]. fold (print_csv rows). rewrite crlf_app by (by apply no_cr_row).
  assert (Hcr : ∀ t, crlf (String CR (String LF t)) = String LF (crlf t)) by done. rewrite Hcr.
  destruct rows as [|row' rows]; [done|]. rewrite IH by done.
  change (join_sep LF (csv_row <$> row :: row' :: rows)) with (csv_row row +:+ String LF (join_sep LF (csv_row <$> row' :: rows))).
  by rewrite append_assoc, append_cons.
Qed.

(** ** The reader on quoted fields *)

Lemma read_quoted fields cur f rest :
  csv_read Quoted fields cur (double_dq f +:+ String DQ rest) = csv_read QuoteEnd fields (cur +:+ f) rest.
Proof.
  revert cur. induction f as [|c f IH]; intros cur; cbn [double_dq].
  - rewrite append_nil_l, append_nil. reflexivity.
  - destruct (c =? DQ)%char eqn:Hc.
    + apply Ascii.eqb_eq in Hc as ->. rewrite !append_cons. change (csv_read Quoted fields cur (String DQ (String DQ ?x)))
        with (csv_read Quoted fields (cur +:+ str1 DQ) x). by rewrite IH, append_assoc.
    + rewrite append_cons. cbn [csv_read]. rewrite Hc. by rewrite IH, append_assoc.
Qed.

Lemma read_dq fields x :
  csv_read (FieldStart 0) fields EmptyString (String DQ x) = csv_read Quoted fields EmptyString x ∧
  csv_read RecordStart [] EmptyString (String DQ x) = csv_read Quoted [] EmptyString x.
Proof. split; cbn [csv_read]; by rewrite space_width_plain. Qed.

Lemma read_field fields f rest :
  csv_read (FieldStart 0) fields EmptyString (quote_field f +:+ rest) = csv_read QuoteEnd fields f rest.
Proof.
  unfold quote_field. rewrite append_cons, append_assoc. change (str1 DQ +:+ rest) with (String DQ rest).
  by rewrite (proj1 (read_dq fields _)), read_quoted, append_nil_l.
Qed.

Lemma read_row fields fs rest :
  fs ≠ [] →
  csv_read (FieldStart 0) fields EmptyString (csv_row fs +:+ rest) =
  csv_read QuoteEnd (fields ++ removelast fs) (List.last fs EmptyString) rest.
Proof.
  intros Hne. revert fields. induction fs as [|f fs IH]; intros fields; [done|]. destruct fs as [|g fs].
  - unfold csv_row. cbn [fmap list_fmap join_sep removelast List.last]. by rewrite read_field, app_nil_r.
  - change (csv_row (f :: g :: fs)) with (quote_field f +:+ String "," (csv_row (g :: fs))). rewrite append_assoc, append_cons, read_field.
    change (csv_read QuoteEnd fields f (String "," ?x)) with (csv_read (FieldStart 0) (fields ++ [f]) EmptyString x).
    rewrite IH by done. by rewrite <- app_assoc.
Qed.

(** Before a record the reader is before a field, if the line has a quote. *)
Lemma read_record_start f x :
  csv_read RecordStart [] EmptyString (quote_field f +:+ x) = csv_read (FieldStart 0) [] EmptyString (quote_field f +:+ x).
Proof. unfold quote_field. rewrite append_cons. by rewrite (proj1 (read_dq [] _)), (proj2 (read_dq [] _)). Qed.

Lemma csv_row_head fs x : fs ≠ [] → ∃ f y, csv_row fs +:+ x = quote_field f +:+ y.
Proof.
  intros Hne. destruct fs as [|f fs]; [done|]. exists f. unfold csv_row. destruct fs as [|g fs]; [by exists x|].
  cbn [fmap list_fmap join_sep]. eexists. by rewrite append_assoc.
Qed.

Lemma read_rows rows :
  rows ≠ [] → Forall (λ r, r ≠ []) rows →
  csv_read RecordStart [] EmptyString (join_sep LF (csv_row <$> rows)) = Some rows.
Proof.
  intros Hne Hall. revert Hne. induction Hall as [|row rows Hrow Hall IH]; intros Hne; [done|]. clear Hne.
  assert (Hlast : removelast row ++ [List.last row EmptyString] = row) by (symmetry; by apply app_removelast_last).
  assert (Hgo : ∀ x, csv_read RecordStart [] EmptyString (csv_row row +:+ x) =
    csv_read QuoteEnd (removelast row) (List.last row EmptyString) x).
  { intros x. rewrite <- (app_nil_l (removelast row)), <- read_row by done. destruct (csv_row_head row x Hrow) as (f & y & ->).
    apply read_record_start. }
  destruct rows as [|row' rows].
  - cbn [fmap list_fmap join_sep]. rewrite <- (append_nil (csv_row row)), Hgo. cbn [csv_read]. by rewrite Hlast.
  - change (join_sep LF (csv_row <$> row :: row' :: rows)) with (csv_row row +:+ String LF (join_sep LF (csv_row <$> row' :: rows))).
    rewrite Hgo. cbn [csv_read]. change (LF =? DQ)%char with false. change (LF =? ",")%char with false. change (LF =? LF)%char with true.
    cbv iota. rewrite IH by done. rewrite bind_Some_l. by rewrite Hlast.
Qed.

(** ** Tables round trip *)

(** A text between quotes. *)
Definition quoted (t : string) : Prop := ∃ x, t = String DQ (x +:+ str1 DQ).

Lemma quoted_join sep l : l ≠ [] → Forall quoted l → quoted (join_sep sep l).
Proof.
  intros Hne Hall. revert Hne. induction Hall as [|t l [x ->] Hall IH]; intros Hne; [done|]. destruct l as [|u l]; [by exists x|].
  destruct (IH ltac:(done)) as [y E]. change (quoted (String DQ (x +:+ str1 DQ) +:+ String sep (join_sep sep (u :: l)))). rewrite E.
  exists (x +:+ str1 DQ +:+ String sep (String DQ y)). by rewrite append_cons, !append_assoc, !append_cons.
Qed.

Lemma quoted_row fs : fs ≠ [] → quoted (csv_row fs).
Proof.
  intros Hne. apply quoted_join; [by intros H%fmap_nil_inv|]. apply Forall_fmap, Forall_forall. intros s _. by eexists.
Qed.

Lemma TrimSpace_quoted t : quoted t → TrimSpace (t +:+ str1 LF) = t.
Proof.
  intros [x ->]. rewrite append_cons, append_assoc. rewrite <- append_cons. exact (TrimSpace_visible DQ (x +:+ String DQ (str1 LF)) (String DQ x) DQ (str1 LF) eq_refl eq_refl eq_refl eq_refl).
Qed.

(** The reader gives back any table ConvertTo-Csv prints. *)
Lemma ReadAll_print rows :
  rows ≠ [] → Forall (λ r, r ≠ []) rows → Forall (Forall (λ s, no_cr s = true)) rows →
  ReadAll (TrimSpace (crlf (print_csv rows))) = Some rows.
Proof.
  intros Hne Hr Hcr. destruct (crlf_print rows Hne Hcr) as [-> Hno]. rewrite TrimSpace_quoted.
  - unfold ReadAll. rewrite crlf_no_cr, drop_last_cr_no_cr by done. by apply read_rows.
  - apply quoted_join; [by intros H%fmap_nil_inv|]. apply Forall_fmap. eapply Forall_impl; [exact Hr|]. intros r. apply quoted_row.
Qed.

(** The command's columns, and a row of counters under them. *)
Definition powershell_header : list string :=
  ["Name"; "AvgDiskReadQueueLength"; "AvgDiskWriteQueueLength"; "DiskReadsPerSec"; "DiskWritesPerSec"; "Timestamp_Sys100NS"].
Definition counter_row (dc : DiskCounters) : list string :=
  [dc_Name dc; dec (RdQueueLen dc); dec (WrQueueLen dc); dec (RdOps dc); dec (WrOps dc); dec (Timestamp100ns dc)].

(** Counters as Windows keeps them: 64-bit values and a trimmed name. *)
Record reportable (dc : DiskCounters) : Prop := {
  rp_name : dc_Name dc ≠ EmptyString ∧ TrimSpace (dc_Name dc) = dc_Name dc ∧ no_cr (dc_Name dc) = true;
  rp_vals : Forall is_u64 [RdQueueLen dc; WrQueueLen dc; RdOps dc; WrOps dc; Timestamp100ns dc];
}.

Lemma parse_counter_row dc :
  reportable dc →
  parse_row (Columns 0 1 2 3 4 5) (counter_row dc) = (if is_total (dc_Name dc) then Skip else Row dc).
Proof.
  intros [(Hne & Htrim & _) Hv]. unfold parse_row. change (length (counter_row dc) <=? _)%nat with false. cbv iota zeta.
  unfold cell. cbn [counter_row lookup list_lookup nameIdx rdQIdx wrQIdx rdOpsIdx wrOpsIdx tsIdx default from_option id].
  rewrite Htrim, bool_decide_eq_false_2 by done. cbn [orb]. destruct (is_total (dc_Name dc)); [done|].
  rewrite !Forall_cons in Hv. destruct Hv as (H1 & H2 & H3 & H4 & H5 & _). unfold is_u64 in *.
  rewrite !TrimSpace_dec, !ParseUint_dec, !bind_Some_l by lia. by destruct dc.
Qed.

Lemma parse_counter_rows dcs :
  Forall reportable dcs →
  parse_rows (Columns 0 1 2 3 4 5) (counter_row <$> dcs) = Some (filter (λ dc, is_total (dc_Name dc) = false) dcs).
Proof.
  induction 1 as [|dc dcs Hdc Hdcs IH]; [done|]. cbn [fmap list_fmap parse_rows]. rewrite parse_counter_row, filter_cons by done.
  destruct (is_total (dc_Name dc)); [by rewrite decide_False|]. rewrite IH, decide_True by done. done.
Qed.

Lemma ParseWMICSV_print dcs :
  dcs ≠ [] → Forall reportable dcs →
  ParseWMICSV (print_csv (powershell_header :: (counter_row <$> dcs))) =
  match filter (λ dc, is_total (dc_Name dc) = false) dcs with [] => None | kept => Some kept end.
Proof.
  intros Hne Hall. unfold ParseWMICSV. rewrite ReadAll_print; [|done|..].
  - rewrite bind_Some_l. destruct dcs as [|dc dcs]; [done|]. cbn [fmap list_fmap].
    change (find_columns powershell_header) with (Some (Columns 0 1 2 3 4 5)). rewrite bind_Some_l.
    pose proof (parse_counter_rows (dc :: dcs) Hall) as Hp. cbn [fmap list_fmap] in Hp. rewrite Hp, bind_Some_l. by destruct (filter _ _).
  - constructor; [done|]. apply Forall_fmap, Forall_forall. by intros.
  - constructor; [by repeat constructor|]. apply Forall_fmap. eapply Forall_impl; [exact Hall|]. intros dc [(_ & _ & Hn) Hv].
    rewrite !Forall_cons in Hv. destruct Hv as (H1 & H2 & H3 & H4 & H5 & _). unfold is_u64 in *.
    assert (Hd : ∀ n, 0 <= n → no_cr (dec n) = true).
    { intros n Hn'. eapply all_bytes_impl; [|by apply dec_digits]. intros c Hc. apply negb_true_iff, Ascii.eqb_neq. by intros ->. }
    cbn [compose]. unfold counter_row. repeat (constructor; [first [done|apply Hd; lia]|]). constructor.
Qed.

(** C31.  The counters of a guest arrive as they are: parsing the table PowerShell
    prints for a list of disks (every field quoted, CR LF line ends, names trimmed
    and not empty, with any characters but CR) yields the counters of exactly these disks in order,
    without the row of totals; if only totals are left, that is an error. *)
Theorem wmi_csv_roundtrip dcs :
  dcs ≠ [] → Forall reportable dcs →
  ParseWMICSV (print_csv (powershell_header :: (counter_row <$> dcs))) =
  match filter (λ dc, is_total (dc_Name dc) = false) dcs with [] => None | kept => Some kept end.
Proof. apply ParseWMICSV_print. Qed.

(** A drive whose label has a quote and a comma, and the totals. *)
Definition example_counters : list DiskCounters :=
  [Counters "0 C:" 336223056 161462865009 42946 752955 134280977011680000;
   Counters (String "1" (String DQ ", E:")) 63287115 9573783964885 63 610780 134280977011680000;
   Counters "_Total" 399510171 9735246829894 43009 1363735 134280977011680000].

Lemma wmi_csv_roundtrip_witness :
  ParseWMICSV (print_csv (powershell_header :: (counter_row <$> example_counters))) = Some (take 2 example_counters).
Proof.
  rewrite (wmi_csv_roundtrip example_counters); [vm_compute; reflexivity|discriminate|].
  repeat constructor; vm_compute; try reflexivity; discriminate.
Defined.
