(* ===== verification/GoEffect.v ===== *)
(** * Effects of the collectors

    The collectors of pkg/qmp and pkg/qga talk to libvirt, to the container
    runtime, to the Kubernetes API and to the operating system.  What these
    answer is the class [Environment]; the state of a computation is a [world]:
    the environment's own state, the connections that are open, the clients that
    were closed, and a trace of what was done.  A Go function with effects is a
    function in the state monad [M]; a Go error result is a sum with [err]. *)
From S2P Require Import Prelude GoStrings GoJson DiskMap.

(** Errors, by where they come from; wrapping keeps the operation's name. *)
Inductive err :=
  | ErrCommandBlacklisted
  | ErrClosed
  | ErrSystem (op msg : string)
  | ErrDecode (op : string)
  | ErrOther (what : string).

#[export] Instance err_eq_dec : EqDecision err.
Proof. solve_decision. Defined.

(** What is done to the outside. *)
Inductive event :=
  | Sleep (d : Z)
  | Dialled (id : nat)
  | Disconnected (id : nat)
  | Agent (id : nat) (cmd : string) (timeout : Z)
  | Monitor (id : nat) (cmd : string)
  | DomainXML (id : nat)
  | FetchVMI (ns vmi : string).

(** What the libraries and the system answer, in a state of theirs that every
    call may change.  Iteration over a Go map is in an order they choose. *)
Class Environment (G : Type) := {
  os_Stat : string → G → bool * G;
  net_Dial : string → G → bool * G;
  ConnectToURI : nat → G → bool * G;
  DomainLookupByName : nat → string → G → bool * G;
  QEMUDomainAgentCommand : nat → string → Z → G → (string + list string) * G;
  QEMUDomainMonitorCommand : nat → string → G → (string + string) * G;
  lv_DomainGetXMLDesc : nat → G → (string + string) * G;
  xml_Unmarshal : string → option xmlDomain;
  ListContainers : string → string → G → option (list string) * G;
  ContainerStatus : string → G → option (gmap string string) * G;
  GetVMI : string → string → G → option json * G;
  time_Sleep : Z → G → G;
  time_Now : G → Z;
  map_order : G → list string → list string;
  map_order_perm g l : map_order g l ≡ₚ l;
}.

Record world (G : Type) := World {
  env : G;
  conns : gset nat;       (** open connections *)
  closed : gset nat;      (** clients whose Close was called *)
  fresh : nat;            (** number of connections made so far *)
  trace : list event;
}.
Arguments World {G}.
Arguments env {G}.
Arguments conns {G}.
Arguments closed {G}.
Arguments fresh {G}.
Arguments trace {G}.

Definition M (G A : Type) : Type := world G → A * world G.

Definition ret {G A} (a : A) : M G A := λ w, (a, w).
Definition bind {G A B} (m : M G A) (k : A → M G B) : M G B := λ w, let '(a, w') := m w in k a w'.
(** Go on with the value, or return the error. *)
Definition try {G A B} (m : M G (err + A)) (k : A → M G (err + B)) : M G (err + B) :=
  bind m (λ r, match r with inl e => ret (inl e) | inr a => k a end).
Definition fail {G A} (e : err) : M G (err + A) := ret (inl e).
Definition of_option {G A} (e : err) (o : option A) : M G (err + A) :=
  match o with Some a => ret (inr a) | None => fail e end.

Declare Scope eff_scope.
Delimit Scope eff_scope with eff.
Notation "'let*' x ':=' m 'in' k" := (bind m (λ x, k)) (at level 10, x pattern, k at level 200) : eff_scope.
Notation "'try*' x ':=' m 'in' k" := (try m (λ x, k)) (at level 10, x pattern, k at level 200) : eff_scope.
#[global] Open Scope eff_scope.

Section Primitives.
Context {G : Type} `{Environment G}.

(** A call to the outside. *)
Definition lift {A} (f : G → A * G) : M G A := λ w,
  let '(a, g) := f (env w) in (a, World g (conns w) (closed w) (fresh w) (trace w)).
Definition log (e : event) : M G unit := λ w, (tt, World (env w) (conns w) (closed w) (fresh w) (trace w ++ [e])).
Definition call {A} (e : event) (f : G → A * G) : M G A := let* _ := log e in lift f.
Definition sleep (d : Z) : M G unit := call (Sleep d) (λ g, (tt, time_Sleep d g)).

(** A new connection, and its end. *)
Definition conn_open : M G nat := λ w,
  (fresh w, World (env w) (conns w ∪ {[fresh w]}) (closed w) (S (fresh w)) (trace w ++ [Dialled (fresh w)])).
Definition conn_close (id : nat) : M G unit := λ w,
  (tt, World (env w) (conns w ∖ {[id]}) (closed w) (fresh w) (trace w ++ [Disconnected id])).

(** Ranging over a Go map with string keys. *)
Definition range {A} (m : gmap string A) : M G (list (string * A)) := λ w,
  (omap (λ k, v ← m !! k; Some (k, v)) (map_order (env w) (map_to_list m).*1), w).
End Primitives.

(** A loop with effects. *)
Fixpoint for_each {G A S} (body : S → A → M G S) (s : S) (l : list A) : M G S :=
  match l with
  | [] => ret s
  | x :: l' => let* s' := body s x in for_each body s' l'
  end.

(** ** Computations that leave the connections alone *)

(** Only the environment changes and the trace grows. *)
Definition quiet_step {G} (w w' : world G) : Prop :=
  conns w' = conns w ∧ closed w' = closed w ∧ fresh w' = fresh w ∧ ∃ es, trace w' = trace w ++ es.

Definition quiet {G A} (m : M G A) : Prop := ∀ w, quiet_step w (m w).2.

Lemma quiet_step_refl {G} (w : world G) : quiet_step w w.
Proof. split_and!; [done..|]. exists []. by rewrite app_nil_r. Qed.

Lemma quiet_step_trans {G} (w1 w2 w3 : world G) : quiet_step w1 w2 → quiet_step w2 w3 → quiet_step w1 w3.
Proof.
  intros (Hc & Hd & Hf & es & Ht) (Hc' & Hd' & Hf' & es' & Ht'). split_and!; [congruence..|].
  exists (es ++ es'). by rewrite Ht', Ht, app_assoc.
Qed.

Lemma quiet_ret {G A} (a : A) : quiet (G := G) (ret a).
Proof. intros w. apply quiet_step_refl. Qed.

Lemma quiet_bind {G A B} (m : M G A) (k : A → M G B) : quiet m → (∀ a, quiet (k a)) → quiet (bind m k).
Proof.
  intros Hm Hk w. unfold bind. specialize (Hm w). destruct (m w) as [a w']. eapply quiet_step_trans; [exact Hm|]. apply Hk.
Qed.

Lemma quiet_try {G A B} (m : M G (err + A)) (k : A → M G (err + B)) : quiet m → (∀ a, quiet (k a)) → quiet (try m k).
Proof. intros Hm Hk. apply quiet_bind; [done|]. intros [e|a]; [apply quiet_ret|apply Hk]. Qed.

Lemma quiet_of_option {G A} e (o : option A) : quiet (G := G) (of_option e o).
Proof. destruct o; apply quiet_ret. Qed.

Lemma quiet_for_each {G A S} (body : S → A → M G S) s l : (∀ s x, quiet (body s x)) → quiet (for_each body s l).
Proof.
  intros Hb. revert s. induction l as [|x l IH]; intros s; cbn [for_each]; [apply quiet_ret|].
  apply quiet_bind; [apply Hb|]. intros s'. apply IH.
Qed.

Create HintDb quiet.
#[export] Hint Resolve quiet_ret quiet_of_option : quiet.

Section QuietPrimitives.
Context {G : Type} `{Environment G}.

Lemma quiet_lift {A} (f : G → A * G) : quiet (lift f).
Proof. intros w. unfold lift. destruct (f (env w)). split_and!; [done..|]. exists []. by rewrite app_nil_r. Qed.

Lemma quiet_log e : quiet (G := G) (log e).
Proof. intros w. split_and!; [done..|]. by exists [e]. Qed.

Lemma quiet_call {A} e (f : G → A * G) : quiet (call e f).
Proof. apply quiet_bind; [apply quiet_log|]. intros _. apply quiet_lift. Qed.

Lemma quiet_sleep d : quiet (sleep d).
Proof. apply quiet_call. Qed.

Lemma quiet_range {A} (m : gmap string A) : quiet (range m).
Proof. intros w. apply quiet_step_refl. Qed.
End QuietPrimitives.
#[export] Hint Resolve quiet_lift quiet_log quiet_call quiet_sleep quiet_range : quiet.

(** Split a computation into its parts. *)
Ltac solve_quiet :=
  repeat first
    [ progress intros
    | solve [eauto 2 with quiet]
    | apply quiet_bind | apply quiet_try | apply quiet_for_each
    | match goal with
      | |- quiet (if ?b then _ else _) => destruct b
      | |- quiet (match ?x with _ => _ end) => destruct x
      end ].

(** Ranging over a map visits every entry once. *)
Lemma range_spec {G} `{Environment G} {A} (m : gmap string A) w :
  (range m w).1 ≡ₚ map_to_list m ∧ (range m w).2 = w.
Proof.
  split; [|done]. unfold range. cbn [fst]. rewrite map_order_perm.
  assert (Hl : ∀ l : list (string * A), (∀ k v, (k, v) ∈ l → m !! k = Some v) → omap (λ k, v ← m !! k; Some (k, v)) l.*1 = l).
  { induction l as [|[k v] l IH]; intros Hin; [done|]. cbn [fmap list_fmap omap list_omap fst].
    rewrite (Hin k v), bind_Some_l by apply list_elem_of_here. f_equal. apply IH. intros. by apply Hin, list_elem_of_further. }
  rewrite Hl; [done|]. intros k v. apply elem_of_map_to_list.
Qed.

(** ** Loops *)

(** An invariant of a loop that knows what is left to visit. *)
Lemma for_each_ind {G A S} (body : S → A → M G S) (I : S → list A → world G → Prop) :
  (∀ s x l w, I s (x :: l) w → I (body s x w).1 l (body s x w).2) →
  ∀ l s w, I s l w → I (for_each body s l w).1 [] (for_each body s l w).2.
Proof.
  intros Hbody. induction l as [|x l IH]; intros s w HI; [done|]. cbn [for_each]. unfold bind.
  pose proof (Hbody s x l w HI) as Hx. destruct (body s x w) as [s' w']. by apply IH.
Qed.

(** Connections kept, others perhaps opened and closed in between. *)
Definition calm {G} (w w' : world G) : Prop := conns w' = conns w ∧ closed w' = closed w ∧ (fresh w <= fresh w')%nat.

Lemma quiet_calm {G} (w w' : world G) : quiet_step w w' → calm w w'.
Proof. intros (Hc & Hd & Hf & _). split_and!; [done..|lia]. Qed.

Lemma calm_trans {G} (w1 w2 w3 : world G) : calm w1 w2 → calm w2 w3 → calm w1 w3.
Proof. intros (?&?&?) (?&?&?). split_and!; [congruence..|lia]. Qed.

(** ** Who commands are sent to *)

Definition command_to (i : nat) (e : event) : Prop := match e with Agent j _ _ | Monitor j _ => j = i | _ => False end.

(** Nothing was sent over connection [i]. *)
Definition spared {G} (i : nat) (w w' : world G) : Prop :=
  (fresh w <= fresh w')%nat ∧ ∃ es, trace w' = trace w ++ es ∧ Forall (λ e, ¬ command_to i e) es.

(** A computation that sends nothing over the older connection [i]. *)
Definition spares {G A} (i : nat) (m : M G A) : Prop := ∀ w, (i < fresh w)%nat → spared i w (m w).2.

Lemma spared_refl {G} i (w : world G) : spared i w w.
Proof. split; [done|]. exists []. by rewrite app_nil_r. Qed.

Lemma spared_trans {G} i (w1 w2 w3 : world G) : spared i w1 w2 → spared i w2 w3 → spared i w1 w3.
Proof.
  intros (Hf & es & Ht & He) (Hf' & es' & Ht' & He'). split; [lia|]. exists (es ++ es'). rewrite Ht', Ht, app_assoc.
  split; [done|]. by apply Forall_app.
Qed.

Lemma spares_ret {G A} i (a : A) : spares (G := G) i (ret a).
Proof. intros w _. apply spared_refl. Qed.

Lemma spares_bind {G A B} i (m : M G A) (k : A → M G B) : spares i m → (∀ a, spares i (k a)) → spares i (bind m k).
Proof.
  intros Hm Hk w Hi. unfold bind. specialize (Hm w Hi). destruct (m w) as [a w']. cbn [snd] in Hm.
  eapply spared_trans; [exact Hm|]. apply Hk. destruct Hm as [Hf _]. lia.
Qed.

Lemma spares_try {G A B} i (m : M G (err + A)) (k : A → M G (err + B)) : spares i m → (∀ a, spares i (k a)) → spares i (try m k).
Proof. intros Hm Hk. apply spares_bind; [done|]. intros [e|a]; [apply spares_ret|apply Hk]. Qed.

Lemma spares_of_option {G A} i e (o : option A) : spares (G := G) i (of_option e o).
Proof. destruct o; apply spares_ret. Qed.

Lemma spares_for_each {G A S} i (body : S → A → M G S) s l :
  (∀ s x, x ∈ l → spares i (body s x)) → spares i (for_each body s l).
Proof.
  revert s. induction l as [|x l IH]; intros s Hb; cbn [for_each]; [apply spares_ret|].
  apply spares_bind; [apply Hb, list_elem_of_here|]. intros s'. apply IH. intros. by apply Hb, list_elem_of_further.
Qed.

Create HintDb spares.
#[export] Hint Resolve spares_ret spares_of_option : spares.

Section SparesPrimitives.
Context {G : Type} `{Environment G}.

Lemma spares_lift {A} i (f : G → A * G) : spares i (lift f).
Proof. intros w _. unfold lift. destruct (f (env w)). split; [done|]. exists []. by rewrite app_nil_r. Qed.

Lemma spares_call {A} i e (f : G → A * G) : ¬ command_to i e → spares i (call e f).
Proof.
  intros He. apply spares_bind; [|intros _; apply spares_lift]. intros w _. split; [done|]. exists [e]. split; [done|]. by constructor.
Qed.

Lemma spares_sleep i d : spares i (sleep d).
Proof. apply spares_call. by intros []. Qed.

Lemma spares_range {A} i (m : gmap string A) : spares i (range m).
Proof. intros w _. apply spared_refl. Qed.
End SparesPrimitives.
#[export] Hint Resolve spares_lift spares_sleep spares_range : spares.

Ltac solve_spares :=
  repeat first
    [ progress intros
    | solve [eauto 2 with spares]
    | apply spares_bind | apply spares_try
    | match goal with
      | |- spares _ (if ?b then _ else _) => destruct b
      | |- spares _ (match ?x with _ => _ end) => destruct x
      end ].
