(* ===== verification/Script.v ===== *)
(** * A scripted environment

    An instance of [Environment] whose answers are written down in advance; the
    examples and witnesses of the collectors run in it. *)
From S2P Require Import Prelude GoStrings GoJson DiskMap GoEffect.

Record script := Script {
  sc_agent : list (string + list string);        (** answers of the guest agent to come *)
  sc_monitor : list (string + string);           (** answers of the QEMU monitor to come *)
  sc_pods : list (string * string);              (** pods and their running compute containers *)
  sc_pids : list (string * Z);                   (** containers and their processes *)
  sc_vmi : option json;                          (** the machine's object *)
  sc_xml : option xmlDomain;                     (** the decoded domain description *)
  sc_clock : Z;
}.

Definition set_agent (l : list (string + list string)) (s : script) : script :=
  Script l (sc_monitor s) (sc_pods s) (sc_pids s) (sc_vmi s) (sc_xml s) (sc_clock s).
Definition set_monitor (l : list (string + string)) (s : script) : script :=
  Script (sc_agent s) l (sc_pods s) (sc_pids s) (sc_vmi s) (sc_xml s) (sc_clock s).
Definition set_clock (t : Z) (s : script) : script :=
  Script (sc_agent s) (sc_monitor s) (sc_pods s) (sc_pids s) (sc_vmi s) (sc_xml s) t.

Definition assoc {A} (k : string) (l : list (string * A)) : option A := snd <$> find (λ kv, bool_decide (kv.1 = k)) l.

#[export] Instance script_env : Environment script := {|
  os_Stat _ s := (true, s);
  net_Dial _ s := (true, s);
  ConnectToURI _ s := (true, s);
  DomainLookupByName _ _ s := (true, s);
  QEMUDomainAgentCommand _ _ _ s :=
    match sc_agent s with a :: l => (a, set_agent l s) | [] => (inl "agent not connected", s) end;
  QEMUDomainMonitorCommand _ _ s :=
    match sc_monitor s with a :: l => (a, set_monitor l s) | [] => (inl "monitor closed", s) end;
  lv_DomainGetXMLDesc _ s := (inr EmptyString, s);
  xml_Unmarshal _ := None;
  ListContainers pod _ s := (Some (option_list (assoc pod (sc_pods s))), s);
  ContainerStatus c s :=
    (p ← assoc c (sc_pids s); Some {[ "info" := marshal (JObj [("pid", JInt p)]) ]}, s);
  GetVMI _ _ s := (sc_vmi s, s);
  time_Sleep d s := set_clock (sc_clock s + d) s;
  time_Now s := sc_clock s;
  map_order _ l := l;
  map_order_perm _ l := Permutation_refl l;
|}.

(** A world that starts in a script, with [n] connections made before. *)
Definition start (s : script) (n : nat) : world script := World s (set_seq 0 n) ∅ n [].

Definition script0 : script := Script [] [] [] [] None None 0.
