(* ===== verification/QmpTypes.v ===== *)
(** * QEMU block statistics and devices (pkg/qmp/types.go)

    The answers of the QEMU monitor as Go values, decoded from JSON, and the
    names of disks and controllers in device paths. *)
From S2P Require Import Prelude GoStrings GoFloat GoJson.

(** ** Floating-point numbers *)

(** [m * 10 ^ e], rounded once to a float64. *)
Definition f64_decimal (neg : bool) (m e : Z) : float64 :=
  match m with
  | Zpos p =>
      if 0 <=? e then binary_normalize 53 1024 (if neg then - (m * 10 ^ e) else m * 10 ^ e) 0 neg
      else f64_div (S754_finite neg p 0) (S754_finite false (Z.to_pos (10 ^ (- e))) 0)
  | _ => S754_zero neg
  end.

Definition exponent (x : string) : option Z :=
  match x with
  | EmptyString => Some 0
  | String _ EmptyString => None
  | String _ (String c s as t) =>
      if (c =? "-")%char then v ← digits_val s 0; Some (- v)
      else if (c =? "+")%char then digits_val s 0
      else digits_val t 0
  end.

(** [strconv.ParseFloat] on a JSON number; a number too large is an error. *)
Definition ParseFloat (lit : string) : option float64 :=
  '(sg, s1) ← sign_part lit;
  '(i, s2) ← int_part s1;
  '(f, s3) ← frac_part s2;
  '(x, _) ← exp_part s3;
  let digits := match f with String _ ds => ds | EmptyString => EmptyString end in
  m ← digits_val (i +:+ digits) 0;
  e ← exponent x;
  match f64_decimal (bool_decide (sg ≠ EmptyString)) m (e - Z.of_nat (String.length digits)) with
  | S754_infinity _ => None
  | v => Some v
  end.

#[export] Instance float64_zeroed : Zeroed float64 := S754_zero false.
Definition unmarshal_float : Unmarshal float64 := λ j old,
  match j with JNull => Some old | JNum lit => ParseFloat lit | _ => None end.

(** ** Block statistics *)

Record LatencyHist := Hist { Boundaries : list float64; Bins : list Z }.
#[export] Instance hist_zeroed : Zeroed LatencyHist := Hist [] [].
#[export] Instance unmarshal_hist : Unmarshal LatencyHist := unmarshal_struct [
  ("boundaries", field Boundaries (λ v h, Hist v (Bins h)) (unmarshal_slice_with unmarshal_float));
  ("bins", field Bins (λ v h, Hist (Boundaries h) v) (unmarshal_slice_with (unmarshal_uint 64)))].

Record BlockStats := Stats {
  RdOperations : Z; WrOperations : Z; FlushOperations : Z;
  RdTotalTimeNs : Z; WrTotalTimeNs : Z; FlushTotalTimeNs : Z;
  RdLatencyHistogram : option LatencyHist; WrLatencyHistogram : option LatencyHist; FlushLatencyHistogram : option LatencyHist;
}.
#[export] Instance stats_zeroed : Zeroed BlockStats := Stats 0 0 0 0 0 0 None None None.
#[export] Instance unmarshal_stats : Unmarshal BlockStats := unmarshal_struct [
  ("rd_operations", field RdOperations (λ v '(Stats a b c d e f x y z), Stats v b c d e f x y z) (unmarshal_uint 64));
  ("wr_operations", field WrOperations (λ v '(Stats a b c d e f x y z), Stats a v c d e f x y z) (unmarshal_uint 64));
  ("flush_operations", field FlushOperations (λ v '(Stats a b c d e f x y z), Stats a b v d e f x y z) (unmarshal_uint 64));
  ("rd_total_time_ns", field RdTotalTimeNs (λ v '(Stats a b c d e f x y z), Stats a b c v e f x y z) (unmarshal_uint 64));
  ("wr_total_time_ns", field WrTotalTimeNs (λ v '(Stats a b c d e f x y z), Stats a b c d v f x y z) (unmarshal_uint 64));
  ("flush_total_time_ns", field FlushTotalTimeNs (λ v '(Stats a b c d e f x y z), Stats a b c d e v x y z) (unmarshal_uint 64));
  ("rd_latency_histogram", field RdLatencyHistogram (λ v '(Stats a b c d e f x y z), Stats a b c d e f v y z) unmarshal);
  ("wr_latency_histogram", field WrLatencyHistogram (λ v '(Stats a b c d e f x y z), Stats a b c d e f x v z) unmarshal);
  ("flush_latency_histogram", field FlushLatencyHistogram (λ v '(Stats a b c d e f x y z), Stats a b c d e f x y v) unmarshal)].

Inductive BlockDevice := Device (QDev : string) (dev_Stats : BlockStats) (Backing : option BlockDevice).
Definition QDev (d : BlockDevice) : string := let '(Device q _ _) := d in q.
Definition dev_Stats (d : BlockDevice) : BlockStats := let '(Device _ s _) := d in s.
Definition Backing (d : BlockDevice) : option BlockDevice := let '(Device _ _ b) := d in b.
#[export] Instance device_zeroed : Zeroed BlockDevice := Device EmptyString zeroed None.

Inductive device_field := FQDev | FStats | FBacking.
Definition device_fields : list (string * device_field) := [("qdev", FQDev); ("stats", FStats); ("backing", FBacking)].

#[export] Instance unmarshal_device : Unmarshal BlockDevice :=
  fix dec (j : json) (old : BlockDevice) : option BlockDevice :=
    match j with
    | JNull => Some old
    | JObj kvs =>
        (fix members kvs old : option BlockDevice :=
          match kvs with
          | [] => Some old
          | (k, v) :: kvs' =>
              d ← match member device_fields k with
                  | Some FQDev => q ← unmarshal v (QDev old); Some (Device q (dev_Stats old) (Backing old))
                  | Some FStats => s ← unmarshal v (dev_Stats old); Some (Device (QDev old) s (Backing old))
                  | Some FBacking =>
                      match v with
                      | JNull => Some (Device (QDev old) (dev_Stats old) None)
                      | _ => b ← dec v (default zeroed (Backing old)); Some (Device (QDev old) (dev_Stats old) (Some b))
                      end
                  | None => Some old
                  end;
              members kvs' d
          end) kvs old
    | _ => None
    end.

(** The first device name on the way down the backing chain. *)
Fixpoint EffectiveQDev (d : BlockDevice) : string :=
  match d with
  | Device q _ b =>
      if bool_decide (q ≠ EmptyString) then q
      else match b with Some b' => EffectiveQDev b' | None => EmptyString end
  end.

Definition HasHistograms (d : BlockDevice) : bool := match RdLatencyHistogram (dev_Stats d) with Some _ => true | None => false end.

(** [ParseBlockStats]. *)
Definition ParseBlockStats (data : string) : option (list BlockDevice) :=
  j ← json_of data; unmarshal_struct [("return", field id (λ v _, v) unmarshal)] j [].

(** ** Device paths *)

(** [.] of a regular expression: any character but the end of a line. *)
Definition no_lf (s : string) : bool := all_bytes (λ c, negb (c =? chr 10)%char) s.

(** ^/machine/peripheral/(ua-(.+?)/.+)$ , its second and its first group: the
    shortest name that is followed by a slash and more. *)
Definition virtioRegex (qdev : string) : option (string * string) :=
  id ← strip "/machine/peripheral/" qdev;
  r ← strip "ua-" id;
  match r with
  | EmptyString => None
  | String c s =>
      '(a, b) ← cut "/" s;
      if negb (bool_decide (b = EmptyString)) && no_lf r then Some (String c a, id) else None
  end.

(** ^ua-(.+)$ *)
Definition flatRegex (qdev : string) : option string :=
  r ← strip "ua-" qdev;
  if negb (bool_decide (r = EmptyString)) && no_lf r then Some r else None.

(** ^/machine/peripheral/([^/]+)/ *)
Definition peripheralNameRegex (path : string) : option string :=
  r ← strip "/machine/peripheral/" path;
  '(name, _) ← cut "/" r;
  if bool_decide (name = EmptyString) then None else Some name.

(** Alias and device identifier. *)
Definition ExtractDiskInfo (qdev : string) : option (string * string) :=
  match virtioRegex qdev with
  | Some m => Some m
  | None => r ← flatRegex qdev; Some (r, qdev)
  end.

Definition ExtractControllerName (path : string) : option string :=
  m ← peripheralNameRegex path; Some (TrimPrefix m "ua-").

Record VirtioDevice := VDevice { vd_Path : string; vd_Name : string }.
#[export] Instance vdevice_zeroed : Zeroed VirtioDevice := VDevice EmptyString EmptyString.
#[export] Instance unmarshal_vdevice : Unmarshal VirtioDevice := unmarshal_struct [
  ("path", field vd_Path (λ v d, VDevice v (vd_Name d)) unmarshal);
  ("name", field vd_Name (λ v d, VDevice (vd_Path d) v) unmarshal)].

Record VirtioStatus := VStatus { vs_Name : string; NumVqs : Z }.
#[export] Instance vstatus_zeroed : Zeroed VirtioStatus := VStatus EmptyString 0.
#[export] Instance unmarshal_vstatus : Unmarshal VirtioStatus := unmarshal_struct [
  ("name", field vs_Name (λ v d, VStatus v (NumVqs d)) unmarshal);
  ("num-vqs", field NumVqs (λ v d, VStatus (vs_Name d) v) unmarshal)].

Record VirtQueueStatus := QStatus { qs_Name : string; QueueIdx : Z; qs_Inuse : Z; qs_VringNum : Z }.
#[export] Instance qstatus_zeroed : Zeroed VirtQueueStatus := QStatus EmptyString 0 0 0.
#[export] Instance unmarshal_qstatus : Unmarshal VirtQueueStatus := unmarshal_struct [
  ("name", field qs_Name (λ v '(QStatus a b c d), QStatus v b c d) unmarshal);
  ("queue-index", field QueueIdx (λ v '(QStatus a b c d), QStatus a v c d) unmarshal);
  ("inuse", field qs_Inuse (λ v '(QStatus a b c d), QStatus a b v d) (unmarshal_uint 32));
  ("vring-num", field qs_VringNum (λ v '(QStatus a b c d), QStatus a b c v) (unmarshal_uint 32))].

(** [strings.HasPrefix]. *)
Definition HasPrefix (s pre : string) : bool := match strip pre s with Some _ => true | None => false end.

Definition IsVirtioBlk (d : VirtioDevice) : bool := HasPrefix (vd_Name d) "virtio-blk".
Definition IsVirtioScsi (d : VirtioDevice) : bool := HasPrefix (vd_Name d) "virtio-scsi".

(** ** The expressions *)

Lemma cut_first sep p q :
  ∃ a b, cut sep (p +:+ String sep q) = Some (a, b) ∧ (String.length a <= String.length p)%nat ∧ (String.length q <= String.length b)%nat.
Proof.
  induction p as [|c p (a & b & E & Ha & Hb)].
  - exists EmptyString, q. rewrite append_nil_l. cbn [cut]. by rewrite Ascii.eqb_refl.
  - rewrite append_cons. cbn [cut]. destruct (c =? sep)%char.
    + exists EmptyString, (p +:+ String sep q). split_and!; [done|cbn; lia|]. rewrite length_append. cbn. lia.
    + exists (String c a), b. rewrite E. split_and!; [done|cbn; lia|done].
Qed.

(** A match of the virtio expression with [x] as name and [y] as the rest. *)
Definition virtio_match (qdev x y : string) : Prop :=
  qdev = "/machine/peripheral/" +:+ "ua-" +:+ x +:+ String "/" y ∧ x ≠ EmptyString ∧ y ≠ EmptyString ∧
  no_lf x = true ∧ no_lf y = true.

Lemma no_lf_match x y : no_lf (x +:+ String "/" y) = no_lf x && no_lf y.
Proof. unfold no_lf. by rewrite all_bytes_app. Qed.

Lemma virtioRegex_complete qdev x y :
  virtio_match qdev x y → ∃ a, virtioRegex qdev = Some (a, "ua-" +:+ x +:+ String "/" y) ∧ (String.length a <= String.length x)%nat.
Proof.
  intros (-> & Hx & Hy & Hlx & Hly). unfold virtioRegex. rewrite (proj2 (strip_Some _ _ _) eq_refl), bind_Some_l.
  rewrite (proj2 (strip_Some _ _ _) eq_refl), bind_Some_l. pose proof (no_lf_match x y) as Hno. rewrite Hlx, Hly in Hno.
  destruct x as [|c x]; [done|]. rewrite append_cons in *. destruct (cut_first "/" x y) as (a & b & -> & Ha & Hb).
  rewrite bind_Some_l. rewrite bool_decide_eq_false_2 by (intros ->; destruct y; [done|]; cbn in Hb; lia).
  cbn [negb andb]. rewrite Hno. eexists. split; [done|]. cbn. lia.
Qed.

Lemma virtioRegex_sound qdev x i : virtioRegex qdev = Some (x, i) → ∃ y, virtio_match qdev x y ∧ i = "ua-" +:+ x +:+ String "/" y.
Proof.
  unfold virtioRegex. intros H. apply bind_Some in H as (r & ->%strip_Some & H). apply bind_Some in H as (r' & ->%strip_Some & H).
  destruct r' as [|c s]; [done|]. apply bind_Some in H as ([a b] & [-> _]%cut_inv & H).
  destruct (negb _ && _) eqn:Hc; [|done]. apply andb_true_iff in Hc as [Hb%negb_true_iff%bool_decide_eq_false Hno]. simplify_eq.
  rewrite <- append_cons in *. rewrite no_lf_match in Hno. apply andb_true_iff in Hno as [Hx Hy]. exists b. by split_and!.
Qed.

Lemma flatRegex_spec qdev r : flatRegex qdev = Some r ↔ qdev = "ua-" +:+ r ∧ r ≠ EmptyString ∧ no_lf r = true.
Proof.
  unfold flatRegex. split.
  - intros H. inv_bind H. apply strip_Some in E as ->. destruct (negb _ && _) eqn:Hc; [|done]. simplify_eq.
    by apply andb_true_iff in Hc as [Hb%negb_true_iff%bool_decide_eq_false Hno].
  - intros (-> & Hr & Hno). rewrite (proj2 (strip_Some _ _ _) eq_refl), bind_Some_l. by rewrite bool_decide_eq_false_2, Hno.
Qed.

(** C28.  Disk names are read from device paths as the two expressions say: under
    /machine/peripheral/ua-NAME/REST the alias is the shortest non-empty name and
    the identifier is everything behind peripheral/; otherwise ua-NAME is its own
    identifier; nothing else is a disk, and [.] never matches a line end. *)
Theorem extract_disk_info_regexp qdev :
  match ExtractDiskInfo qdev with
  | Some (alias, i) =>
      (∃ y, virtio_match qdev alias y ∧ i = "ua-" +:+ alias +:+ String "/" y ∧
         ∀ x' y', virtio_match qdev x' y' → (String.length alias <= String.length x')%nat) ∨
      ((∀ x y, ¬ virtio_match qdev x y) ∧ i = qdev ∧ qdev = "ua-" +:+ alias ∧ alias ≠ EmptyString ∧ no_lf alias = true)
  | None => (∀ x y, ¬ virtio_match qdev x y) ∧ ∀ r, ¬ (qdev = "ua-" +:+ r ∧ r ≠ EmptyString ∧ no_lf r = true)
  end.
Proof.
  unfold ExtractDiskInfo. destruct (virtioRegex qdev) as [[alias i]|] eqn:E.
  - left. destruct (virtioRegex_sound _ _ _ E) as (y & Hm & ->). exists y. split_and!; [done..|]. intros x' y' Hm'.
    destruct (virtioRegex_complete _ _ _ Hm') as (a & Ha & Hlen). congruence.
  - assert (Hno : ∀ x y, ¬ virtio_match qdev x y) by (intros x y (a & Ha & _)%virtioRegex_complete; congruence).
    destruct (flatRegex qdev) as [r|] eqn:Ef.
    + rewrite bind_Some_l. right. by apply flatRegex_spec in Ef as (? & ? & ?).
    + cbn. split; [done|]. intros r Hr%flatRegex_spec. congruence.
Qed.
