(* ===== verification/QmpClient.v ===== *)
(** * The libvirt client and the container lookup (pkg/qmp/client.go, pkg/qmp/cri.go)

    A client is one connection to a virtqemud socket, known by the number of the
    connection; it carries monitor commands to QEMU and commands to the guest
    agent.  The mutex that serialises the calls of one client is left out, and
    deadlines are among the reasons for which the environment may answer with an
    error. *)
From S2P Require Import Prelude GoStrings GoFloat GoJson DiskMap GoEffect QmpTypes.

Record qmpError := QmpError { Class_ : string; Desc : string }.
Record qmpResponse := QmpResponse { resp_Return : RawMessage; resp_Error : option qmpError }.
#[export] Instance qmperror_zeroed : Zeroed qmpError := QmpError EmptyString EmptyString.
#[export] Instance unmarshal_qmperror : Unmarshal qmpError := unmarshal_struct [
  ("class", field Class_ (λ v e, QmpError v (Desc e)) unmarshal);
  ("desc", field Desc (λ v e, QmpError (Class_ e) v) unmarshal)].
#[export] Instance qmpresponse_zeroed : Zeroed qmpResponse := QmpResponse None None.
#[export] Instance unmarshal_qmpresponse : Unmarshal qmpResponse := unmarshal_struct [
  ("return", field resp_Return (λ v r, QmpResponse v (resp_Error r)) unmarshal_raw);
  ("error", field resp_Error (λ v r, QmpResponse (resp_Return r) v) unmarshal)].

Section Client.
Context {G : Type} `{Environment G}.

Definition Dial (sockPath domainName : string) : M G (err + nat) :=
  let* ok := lift (net_Dial sockPath) in
  if negb ok then fail (ErrSystem "dialing virtqemud" sockPath) else
  let* id := conn_open in
  let* ok := lift (ConnectToURI id) in
  if negb ok then
    let* _ := conn_close id in fail (ErrSystem "connecting to libvirt session" EmptyString)
  else
  let* ok := lift (DomainLookupByName id domainName) in
  if negb ok then
    let* _ := conn_close id in fail (ErrSystem "looking up domain" domainName)
  else ret (inr id).

Definition Close (id : nat) : M G unit := λ w,
  if bool_decide (id ∈ closed w) then (tt, w)
  else conn_close id (World (env w) (conns w) (closed w ∪ {[id]}) (fresh w) (trace w)).

(** Every call first checks that the client is not closed. *)
Definition when_open {A} (id : nat) (k : M G (err + A)) : M G (err + A) := λ w,
  if bool_decide (id ∈ closed w) then (inl ErrClosed, w) else k w.

Definition AgentCommand (id : nat) (cmd : string) (timeoutSec : Z) : M G (err + string) :=
  when_open id
  (let* result := call (Agent id cmd timeoutSec) (QEMUDomainAgentCommand id cmd timeoutSec) in
   match result with
   | inl msg => fail (ErrSystem "agent" msg)
   | inr [] => fail (ErrOther "empty response from guest agent")
   | inr (r :: _) => ret (inr r)
   end).

Definition qmpCommand (command : string) (args : option json) : json :=
  JObj (("execute", JStr command) :: match args with Some a => [("arguments", a)] | None => [] end).

Definition execQMP (id : nat) (command : string) (args : option json) : M G (err + RawMessage) :=
  let cmd := marshal (qmpCommand command args) in
  let* result := call (Monitor id cmd) (QEMUDomainMonitorCommand id cmd) in
  match result with
  | inl msg => fail (ErrSystem command msg)
  | inr text =>
      match Unmarshal_text (A := qmpResponse) text with
      | None => fail (ErrDecode command)
      | Some resp =>
          match resp_Error resp with
          | Some e => fail (ErrSystem command (Class_ e +:+ ": " +:+ Desc e))
          | None => ret (inr (resp_Return resp))
          end
      end
  end.

(** Run a command and decode what it returns. *)
Definition query {A} `{Zeroed A, Unmarshal A} (id : nat) (command : string) (args : option json) : M G (err + A) :=
  when_open id
  (try* result := execQMP id command args in
   of_option (ErrDecode command) (Unmarshal_raw result)).

Definition QueryBlockStats (id : nat) : M G (err + list BlockDevice) := query id "query-blockstats" None.

Definition EnableHistogram (id : nat) (deviceID : string) (boundariesNs : list Z) : M G (err + unit) :=
  when_open id
  (try* _ := execQMP id "block-latency-histogram-set"
     (Some (JObj [("boundaries", JArr (JInt <$> boundariesNs)); ("id", JStr deviceID)])) in
   ret (inr tt)).

Definition QueryVirtio (id : nat) : M G (err + list VirtioDevice) := query id "x-query-virtio" None.

Definition QueryVirtioStatus (id : nat) (path : string) : M G (err + VirtioStatus) :=
  query id "x-query-virtio-status" (Some (JObj [("path", JStr path)])).

Definition QueryVirtioQueueStatus (id : nat) (path : string) (queue : Z) : M G (err + VirtQueueStatus) :=
  query id "x-query-virtio-queue-status" (Some (JObj [("path", JStr path); ("queue", JInt queue)])).

Definition DomainGetXMLDesc (id : nat) : M G (err + string) :=
  when_open id
  (let* result := call (DomainXML id) (lv_DomainGetXMLDesc id) in
   match result with
   | inl msg => fail (ErrSystem "DomainGetXMLDesc" msg)
   | inr text => ret (inr text)
   end).

(** ** The container runtime *)

Record ContainerInfo := Container { ContainerID : string; PID : Z }.

(** The process of a container, from the JSON under "info": at the top level
    (CRI-O), else as init_pid (containerd). *)
Definition parsePID (info : gmap string string) : option Z :=
  infoJSON ← info !! "info";
  j ← json_of infoJSON;
  pid ← unmarshal_struct [("pid", field id (λ v _, v) unmarshal_int)] j 0;
  if 0 <? pid then Some pid
  else match j with
  | JObj kvs =>
      initPID ← (list_to_map (reverse kvs) : gmap string json) !! "init_pid";
      p ← unmarshal_int initPID 0;
      if 0 <? p then Some p else None
  | _ => None
  end.

Definition extractPID (containerID : string) : M G (err + Z) :=
  let* resp := lift (ContainerStatus containerID) in
  match resp with
  | None => fail (ErrSystem "getting container status" containerID)
  | Some info => of_option (ErrDecode "container info") (parsePID info)
  end.

Definition FindComputePID (podName namespace : string) : M G (err + ContainerInfo) :=
  let* resp := lift (ListContainers podName namespace) in
  match resp with
  | None => fail (ErrSystem "listing containers" podName)
  | Some [] => fail (ErrOther "no running compute container found")
  | Some (container :: _) =>
      try* pid := extractPID container in
      ret (inr (Container container pid))
  end.

(** ** Claims of a machine (pkg/qmp/collector.go, FetchPVCMap) *)

(** A member of a decoded object. *)
Definition member_of (k : string) (j : json) : option json :=
  match j with JObj kvs => (list_to_map (reverse kvs) : gmap string json) !! k | _ => None end.
Definition object_at (k : string) (j : json) : option json :=
  v ← member_of k j; match v with JObj _ => Some v | _ => None end.
Definition string_at (k : string) (j : json) : string :=
  match member_of k j with Some (JStr s) => s | _ => EmptyString end.

Definition volume_claim (entry : json) : option (string * string) :=
  match entry with
  | JObj _ =>
      let name := string_at "name" entry in
      if bool_decide (name = EmptyString) then None else
      pvcInfo ← object_at "persistentVolumeClaimInfo" entry;
      let claimName := string_at "claimName" pvcInfo in
      if bool_decide (claimName = EmptyString) then None else Some (name, claimName)
  | _ => None
  end.

(** [haveClient]: whether there is a client of the Kubernetes API. *)
Definition FetchPVCMap (haveClient : bool) (ns vmiName : string) : M G (gmap string string) :=
  if negb haveClient then ret ∅ else
  let* obj := call (FetchVMI ns vmiName) (GetVMI ns vmiName) in
  ret (default ∅ (
    obj ← obj;
    status ← object_at "status" obj;
    vs ← member_of "volumeStatus" status;
    match vs with JArr volumeStatuses => Some (build_map volume_claim volumeStatuses) | _ => None end)).
End Client.

(** ** What the calls do to the connections *)

Section Connections.
Context {G : Type} `{Environment G}.

Lemma quiet_when_open {A} i (k : M G (err + A)) : quiet k → quiet (when_open i k).
Proof. intros Hk w. unfold when_open. case_bool_decide; [apply quiet_step_refl|apply Hk]. Qed.
#[local] Hint Resolve quiet_when_open : quiet.

Lemma quiet_AgentCommand i cmd t : quiet (AgentCommand i cmd t).
Proof. apply quiet_when_open. solve_quiet. Qed.

Lemma quiet_execQMP i c a : quiet (execQMP i c a).
Proof. unfold execQMP. cbv zeta. solve_quiet. Qed.
#[local] Hint Resolve quiet_execQMP : quiet.

Lemma quiet_query {A} `{Zeroed A, Unmarshal A} i c a : quiet (query (A := A) i c a).
Proof. apply quiet_when_open. solve_quiet. Qed.

Lemma quiet_EnableHistogram i d b : quiet (EnableHistogram i d b).
Proof. apply quiet_when_open. solve_quiet. Qed.

Lemma quiet_DomainGetXMLDesc i : quiet (DomainGetXMLDesc i).
Proof. apply quiet_when_open. solve_quiet. Qed.

Lemma quiet_FindComputePID p n : quiet (FindComputePID p n).
Proof. unfold FindComputePID, extractPID. solve_quiet. Qed.

Lemma quiet_FetchPVCMap b n v : quiet (FetchPVCMap b n v).
Proof. unfold FetchPVCMap. solve_quiet. Qed.
End Connections.
#[export] Hint Resolve quiet_when_open quiet_AgentCommand quiet_execQMP quiet_query quiet_EnableHistogram quiet_DomainGetXMLDesc
  quiet_FindComputePID quiet_FetchPVCMap : quiet.

Lemma FetchPVCMap_trace {G} `{Environment G} haveClient ns vmi (w : world G) :
  trace (FetchPVCMap haveClient ns vmi w).2 = trace w ++ (if haveClient then [FetchVMI ns vmi] else []).
Proof.
  unfold FetchPVCMap. destruct haveClient; cbn; [|by rewrite app_nil_r].
  unfold bind, call, bind, log, lift. cbn. by destruct (GetVMI _ _ _).
Qed.

(** Numbers of connections are used once. *)
Definition numbered {G} (w : world G) : Prop := ∀ n, n ∈ conns w ∨ n ∈ closed w → (n < fresh w)%nat.

Section Dialling.
Context {G : Type} `{Environment G}.

(** A dial that fails leaves no connection behind; one that succeeds leaves one. *)
Lemma Dial_spec sock dom w :
  numbered w →
  match Dial sock dom w with
  | (inl _, w') => calm w w'
  | (inr i, w') => i = fresh w ∧ conns w' = conns w ∪ {[i]} ∧ closed w' = closed w ∧ fresh w' = S (fresh w)
  end.
Proof.
  intros Hn. unfold Dial, bind, lift, conn_open, conn_close, fail, ret. cbn [env conns closed fresh trace].
  assert (Hdel : (conns w ∪ {[fresh w]}) ∖ {[fresh w]} = conns w).
  { apply set_eq. intros n. pose proof (Hn n). set_unfold. split; [tauto|]. intros Hc. specialize (Hn n (or_introl Hc)). split; [by left|lia]. }
  destruct (net_Dial sock (env w)) as [[] g]; cbn [negb env conns closed fresh trace]; [|by split_and!].
  destruct (ConnectToURI (fresh w) g) as [[] g']; cbn [negb env conns closed fresh trace]; [|split_and!; [done..|cbn; lia]].
  destruct (DomainLookupByName (fresh w) dom g') as [[] g'']; cbn [negb env conns closed fresh trace]; [done|].
  split_and!; [done..|cbn; lia].
Qed.

Lemma Close_open i (w : world G) :
  i ∉ closed w →
  conns (Close i w).2 = conns w ∖ {[i]} ∧ closed (Close i w).2 = closed w ∪ {[i]} ∧ fresh (Close i w).2 = fresh w.
Proof. intros Hi. unfold Close. rewrite bool_decide_eq_false_2 by done. done. Qed.
End Dialling.

(** ** Which connection a call uses *)

Section Spares.
Context {G : Type} `{Environment G}.

Lemma spares_when_open {A} i j (k : M G (err + A)) : spares i k → spares i (when_open j k).
Proof. intros Hk w Hi. unfold when_open. case_bool_decide; [apply spared_refl|by apply Hk]. Qed.

Lemma spares_AgentCommand i j cmd t : j ≠ i → spares i (AgentCommand j cmd t).
Proof. intros Hne. apply spares_when_open, spares_bind; [apply spares_call; exact Hne|]. solve_spares. Qed.

Lemma spares_execQMP i j c a : j ≠ i → spares i (execQMP j c a).
Proof. intros Hne. unfold execQMP. cbv zeta. apply spares_bind; [by apply spares_call|]. solve_spares. Qed.

Lemma spares_query {A} `{Zeroed A, Unmarshal A} i j c a : j ≠ i → spares i (query (A := A) j c a).
Proof. intros Hne. apply spares_when_open, spares_try; [by apply spares_execQMP|]. solve_spares. Qed.

Lemma spares_DomainGetXMLDesc i j : spares i (DomainGetXMLDesc j).
Proof. apply spares_when_open, spares_bind; [apply spares_call; by intros []|]. solve_spares. Qed.

Lemma spares_FindComputePID i p n : spares i (FindComputePID p n).
Proof. unfold FindComputePID, extractPID. solve_spares. Qed.

Lemma spares_FetchPVCMap i b n v : spares i (FetchPVCMap b n v).
Proof. unfold FetchPVCMap. destruct (negb b); [apply spares_ret|]. apply spares_bind; [apply spares_call; by intros []|]. solve_spares. Qed.

Lemma spares_Close i j : spares (G := G) i (Close j).
Proof.
  intros w _. unfold Close. case_bool_decide; [apply spared_refl|]. unfold conn_close. cbn. split; [done|].
  exists [Disconnected j]. split; [done|]. apply Forall_singleton. by intros [].
Qed.

(** A dial sends no command, and a new connection gets the next number. *)
Lemma Dial_spares i sock dom : spares i (Dial sock dom).
Proof.
  assert (Hopen : spares (G := G) i conn_open).
  { intros w Hi. unfold conn_open. cbn. split; [cbn; lia|]. exists [Dialled (fresh w)]. split; [done|]. apply Forall_singleton. by intros []. }
  assert (Hclose : ∀ j, spares (G := G) i (conn_close j)).
  { intros j w Hi. unfold conn_close. cbn. split; [done|]. exists [Disconnected j]. split; [done|]. apply Forall_singleton. by intros []. }
  unfold Dial. solve_spares; auto.
Qed.

Lemma Dial_number sock dom (w : world G) j : (Dial sock dom w).1 = inr j → j = fresh w.
Proof.
  unfold Dial, bind, lift, conn_open, conn_close, fail, ret. cbn [env conns closed fresh trace].
  destruct (net_Dial sock (env w)) as [[] g]; cbn [negb env conns closed fresh trace]; [|done].
  destruct (ConnectToURI (fresh w) g) as [[] g']; cbn [negb env conns closed fresh trace]; [|done].
  destruct (DomainLookupByName (fresh w) dom g') as [[] g'']; cbn; congruence.
Qed.
End Spares.
#[export] Hint Resolve spares_DomainGetXMLDesc spares_FindComputePID spares_FetchPVCMap spares_Close Dial_spares : spares.
