(* ===== verification/QgaClient.v ===== *)
(** * Guest-agent commands (pkg/qga/client.go)

    Running a process in the guest and collecting its output, listing the
    guest's disks, and collecting the disk counters. *)
From S2P Require Import Prelude GoStrings GoFloat GoJson Base64 QgaMetrics DiskMap QgaCsv GoEffect Script QmpTypes QmpClient.

(** [strings.Contains]. *)
Fixpoint Contains (s sub : string) : bool :=
  match strip sub s with
  | Some _ => true
  | None => match s with String _ s' => Contains s' sub | EmptyString => false end
  end.

(** What follows the last occurrence of [pre]. *)
Fixpoint after_last (pre s : string) : option string :=
  match s with
  | String _ s' => match after_last pre s' with Some r => Some r | None => strip pre s end
  | EmptyString => strip pre s
  end.

Definition isBlacklistError (e : err) : bool :=
  match e with
  | ErrSystem _ msg => Contains msg "has been disabled" && Contains msg "the command is not allowed"
  | _ => false
  end.

Record ExecResult := Exec {
  Exited : bool; ExitCode : Z; Signal : Z; Stdout : string; Stderr : string; OutTruncated : bool; ErrTruncated : bool;
}.

(** The returned object of guest-exec-status. *)
Record execStatus := ExecStatus {
  st_exited : bool; st_exitcode : option Z; st_signal : option Z; st_out : string; st_err : string;
  st_out_truncated : bool; st_err_truncated : bool;
}.
#[export] Instance execstatus_zeroed : Zeroed execStatus := ExecStatus false None None EmptyString EmptyString false false.
#[export] Instance unmarshal_execstatus : Unmarshal execStatus := unmarshal_struct [
  ("exited", field st_exited (λ v '(ExecStatus a b c d e f g), ExecStatus v b c d e f g) unmarshal);
  ("exitcode", field st_exitcode (λ v '(ExecStatus a b c d e f g), ExecStatus a v c d e f g) unmarshal);
  ("signal", field st_signal (λ v '(ExecStatus a b c d e f g), ExecStatus a b v d e f g) unmarshal);
  ("out-data", field st_out (λ v '(ExecStatus a b c d e f g), ExecStatus a b c v e f g) unmarshal);
  ("err-data", field st_err (λ v '(ExecStatus a b c d e f g), ExecStatus a b c d v f g) unmarshal);
  ("out-truncated", field st_out_truncated (λ v '(ExecStatus a b c d e f g), ExecStatus a b c d e v g) unmarshal);
  ("err-truncated", field st_err_truncated (λ v '(ExecStatus a b c d e f g), ExecStatus a b c d e f v) unmarshal)].

(** An answer is an object whose member "return" is decoded. *)
Definition unmarshal_return {A} `{Zeroed A} (um : json → A → option A) (text : string) : option A :=
  j ← json_of text; unmarshal_struct [("return", field id (λ v _, v) um)] j zeroed.

Definition exec_pid (text : string) : option Z :=
  unmarshal_return (unmarshal_struct [("pid", field id (λ v _, v) unmarshal_int)]) text.

(** The outputs are decoded when there are any. *)
Definition exec_result (st : execStatus) : err + ExecResult :=
  match (if bool_decide (st_out st = EmptyString) then Some EmptyString else DecodeString (st_out st)) with
  | None => inl (ErrDecode "stdout")
  | Some out =>
      match (if bool_decide (st_err st = EmptyString) then Some EmptyString else DecodeString (st_err st)) with
      | None => inl (ErrDecode "stderr")
      | Some serr =>
          inr (Exec (st_exited st) (default 0 (st_exitcode st)) (default 0 (st_signal st)) out serr
                 (st_out_truncated st) (st_err_truncated st))
      end
  end.

(** ** guest-get-disks *)

Record guestPCIController := GuestPCI { pc_domain : Z; pc_bus : Z; pc_slot : Z; pc_function : Z }.
#[export] Instance guestpci_zeroed : Zeroed guestPCIController := GuestPCI 0 0 0 0.
#[export] Instance unmarshal_guestpci : Unmarshal guestPCIController := unmarshal_struct [
  ("domain", field pc_domain (λ v '(GuestPCI a b c d), GuestPCI v b c d) unmarshal);
  ("bus", field pc_bus (λ v '(GuestPCI a b c d), GuestPCI a v c d) unmarshal);
  ("slot", field pc_slot (λ v '(GuestPCI a b c d), GuestPCI a b v d) unmarshal);
  ("function", field pc_function (λ v '(GuestPCI a b c d), GuestPCI a b c v) unmarshal)].

Record guestDiskAddress := GuestAddr {
  ga_bustype : string; ga_serial : string; ga_pci : option guestPCIController; ga_bus : Z; ga_target : Z; ga_unit : Z;
}.
#[export] Instance guestaddr_zeroed : Zeroed guestDiskAddress := GuestAddr EmptyString EmptyString None 0 0 0.
#[export] Instance unmarshal_guestaddr : Unmarshal guestDiskAddress := unmarshal_struct [
  ("bus-type", field ga_bustype (λ v '(GuestAddr a b c d e f), GuestAddr v b c d e f) unmarshal);
  ("serial", field ga_serial (λ v '(GuestAddr a b c d e f), GuestAddr a v c d e f) unmarshal);
  ("pci-controller", field ga_pci (λ v '(GuestAddr a b c d e f), GuestAddr a b v d e f) unmarshal);
  ("bus", field ga_bus (λ v '(GuestAddr a b c d e f), GuestAddr a b c v e f) unmarshal);
  ("target", field ga_target (λ v '(GuestAddr a b c d e f), GuestAddr a b c d v f) unmarshal);
  ("unit", field ga_unit (λ v '(GuestAddr a b c d e f), GuestAddr a b c d e v) unmarshal)].

Record guestDiskEntry := GuestEntry { ge_name : string; ge_address : option guestDiskAddress }.
#[export] Instance guestentry_zeroed : Zeroed guestDiskEntry := GuestEntry EmptyString None.
#[export] Instance unmarshal_guestentry : Unmarshal guestDiskEntry := unmarshal_struct [
  ("name", field ge_name (λ v e, GuestEntry v (ge_address e)) unmarshal);
  ("address", field ge_address (λ v e, GuestEntry (ge_name e) v) unmarshal)].

Definition parsePhysicalDriveIndex (name : string) : option Z :=
  numStr ← after_last "PhysicalDrive" name; Atoi numStr.

(** The loop body: entries without a PCI address or a drive number are skipped. *)
Definition guest_disk (e : guestDiskEntry) : option GuestDisk :=
  a ← ge_address e;
  pci ← ga_pci a;
  idx ← parsePhysicalDriveIndex (ge_name e);
  Some (Guest (ge_name e) idx (ga_serial a)
    (Location (PCI (pc_domain pci) (pc_bus pci) (pc_slot pci) (pc_function pci)) (ga_bus a) (ga_target a) (ga_unit a))).

Definition parseGuestGetDisks (data : string) : option (list GuestDisk) :=
  (λ entries : list guestDiskEntry, omap guest_disk entries) <$> unmarshal_return unmarshal data.

Definition diskCounterPath : string := "powershell.exe".
Definition diskCounterArgs : list string :=
  ["-NoProfile"; "-NonInteractive"; "-Command";
   "Get-CimInstance Win32_PerfRawData_PerfDisk_PhysicalDisk | Select-Object Name,AvgDiskReadQueueLength,AvgDiskWriteQueueLength,DiskReadsPerSec,DiskWritesPerSec,Timestamp_Sys100NS | ConvertTo-Csv -NoTypeInformation"].

Definition maxAttempts : nat := 6.

Section Commands.
Context {G : Type} `{Environment G}.

(** Send a command; a refusal by configuration is reported as such. *)
Definition agent (op : string) (client : nat) (cmd : string) (timeout : Z) : M G (err + string) :=
  let* result := AgentCommand client cmd timeout in
  match result with
  | inl e => fail (if isBlacklistError e then ErrCommandBlacklisted else match e with ErrSystem _ msg => ErrSystem op msg | _ => e end)
  | inr text => ret (inr text)
  end.

Definition guest_exec_cmd (path : string) (args : list string) : string :=
  marshal (JObj [("arguments", JObj [("arg", JArr (JStr <$> args)); ("capture-output", JBool true); ("path", JStr path)]);
                 ("execute", JStr "guest-exec")]).

Definition GuestExec (client : nat) (path : string) (args : list string) (timeout : Z) : M G (err + Z) :=
  try* result := agent "guest-exec" client (guest_exec_cmd path args) timeout in
  match exec_pid result with
  | None => fail (ErrDecode "guest-exec")
  | Some pid => if pid =? 0 then fail (ErrOther "guest-exec returned PID 0") else ret (inr pid)
  end.

Definition guest_exec_status_cmd (pid : Z) : string :=
  marshal (JObj [("arguments", JObj [("pid", JInt pid)]); ("execute", JStr "guest-exec-status")]).

Definition GuestExecStatus (client : nat) (pid : Z) (timeout : Z) : M G (err + ExecResult) :=
  try* result := agent "guest-exec-status" client (guest_exec_status_cmd pid) timeout in
  match unmarshal_return (A := execStatus) unmarshal result with
  | None => fail (ErrDecode "guest-exec-status")
  | Some st => ret (exec_result st)
  end.

(** The loop with [n] attempts left; it sleeps between attempts.  A truncated
    output is an error (Go also returns the result, which is not used). *)
Fixpoint wait_loop (client : nat) (pid timeout execWait : Z) (n : nat) : M G (err + ExecResult) :=
  match n with
  | O => fail (ErrOther "guest-exec did not exit")
  | S n' =>
      try* result := GuestExecStatus client pid timeout in
      if Exited result then
        if OutTruncated result then fail (ErrOther "guest-exec output truncated") else ret (inr result)
      else
        let* _ := if (0 <? n')%nat then sleep execWait else ret tt in
        wait_loop client pid timeout execWait n'
  end.

Definition GuestExecWait (client : nat) (pid timeout execWait : Z) : M G (err + ExecResult) :=
  let* _ := sleep execWait in
  wait_loop client pid timeout execWait maxAttempts.

Definition guest_get_disks_cmd : string := marshal (JObj [("execute", JStr "guest-get-disks")]).

Definition GuestGetDisks (client : nat) (timeout : Z) : M G (err + list GuestDisk) :=
  try* result := agent "guest-get-disks" client guest_get_disks_cmd timeout in
  of_option (ErrDecode "guest-get-disks") (parseGuestGetDisks result).

Definition CollectDiskCounters (client : nat) (timeout execWait : Z) : M G (err + list DiskCounters) :=
  try* pid := GuestExec client diskCounterPath diskCounterArgs timeout in
  try* result := GuestExecWait client pid timeout execWait in
  if negb (ExitCode result =? 0) then fail (ErrOther "powershell exited with an error") else
  if bool_decide (Stdout result = EmptyString) then fail (ErrOther "powershell produced no output") else
  of_option (ErrDecode "CSV") (ParseWMICSV (Stdout result)).
End Commands.

(** ** The wait loop *)

Section Wait.
Context {G : Type} `{Environment G}.
Context (client : nat) (pid timeout execWait : Z).

Lemma agent_trace op cmd w :
  client ∉ closed w → trace (agent op client cmd timeout w).2 = trace w ++ [Agent client cmd timeout] ∧ closed (agent op client cmd timeout w).2 = closed w.
Proof.
  intros Hop. unfold agent, AgentCommand, when_open, bind. rewrite bool_decide_eq_false_2 by done.
  unfold call, bind, log, lift. cbn [env conns closed fresh trace].
  destruct (QEMUDomainAgentCommand client cmd timeout (env w)) as [[msg|[|r rs]] g]; done.
Qed.

Lemma quiet_agent op cmd t : quiet (agent op client cmd t).
Proof. unfold agent. solve_quiet. Qed.

(** One round: sleep, then ask. *)
Definition round (w : world G) : (err + ExecResult) * world G :=
  GuestExecStatus client pid timeout (sleep execWait w).2.

(** The answer in round [i], counted from 0, and the world behind it. *)
Fixpoint nth_round (i : nat) (w : world G) : (err + ExecResult) * world G :=
  match i with O => round w | S i' => nth_round i' (round w).2 end.

Definition round_events : list event := [Sleep execWait; Agent client (guest_exec_status_cmd pid) timeout].

Lemma round_trace w : client ∉ closed w → trace (round w).2 = trace w ++ round_events ∧ client ∉ closed (round w).2.
Proof.
  intros Hop. unfold round, GuestExecStatus, try, bind. set (w1 := (sleep execWait w).2).
  assert (Hw1 : trace w1 = trace w ++ [Sleep execWait] ∧ closed w1 = closed w) by done. destruct Hw1 as [Ht Hc].
  destruct (agent_trace "guest-exec-status" (guest_exec_status_cmd pid) w1) as [Ht' Hc']; [by rewrite Hc|].
  destruct (agent _ _ _ _ w1) as [[e|text] w2]; cbn [snd] in *.
  - cbn. by rewrite Ht', Ht, Hc', Hc, <- app_assoc.
  - destruct (unmarshal_return _ text) as [st|]; cbn; by rewrite Ht', Ht, Hc', Hc, <- app_assoc.
Qed.

(** The loop with [S n] attempts, entered after a sleep, in rounds. *)
Lemma wait_loop_round n w :
  wait_loop client pid timeout execWait (S n) (sleep execWait w).2 =
  match round w with
  | (inl e, w') => (inl e, w')
  | (inr r, w') =>
      if Exited r then (if OutTruncated r then inl (ErrOther "guest-exec output truncated") else inr r, w')
      else match n with
           | O => (inl (ErrOther "guest-exec did not exit"), w')
           | S _ => wait_loop client pid timeout execWait n (sleep execWait w').2
           end
  end.
Proof.
  cbn [wait_loop]. unfold try at 1, bind at 1. fold (round w). destruct (round w) as [[e|r] w']; [done|].
  destruct (Exited r); [by destruct (OutTruncated r)|]. by destruct n.
Qed.

(** What the loop returns after the last of [S k] rounds. *)
Definition outcome_of (last : bool) (r : err + ExecResult) : option (err + ExecResult) :=
  match r with
  | inl e => Some (inl e)
  | inr r =>
      if Exited r then Some (if OutTruncated r then inl (ErrOther "guest-exec output truncated") else inr r)
      else if last then Some (inl (ErrOther "guest-exec did not exit")) else None
  end.

Lemma wait_loop_spec n w :
  client ∉ closed w →
  ∃ k, (k <= n)%nat ∧
    (∀ i, (i < k)%nat → outcome_of false (nth_round i w).1 = None) ∧
    trace (nth_round k w).2 = trace w ++ concat (replicate (S k) round_events) ∧
    ∃ res, outcome_of (k =? n)%nat (nth_round k w).1 = Some res ∧
      wait_loop client pid timeout execWait (S n) (sleep execWait w).2 = (res, (nth_round k w).2).
Proof.
  revert w. induction n as [|n IH]; intros w Hop; rewrite wait_loop_round; destruct (round_trace w Hop) as [Ht Hop'].
  - exists 0%nat. cbn [nth_round replicate concat Nat.eqb]. rewrite app_nil_r. split_and!; [done|lia|done|].
    destruct (round w) as [[e|r] w']; cbn [fst snd outcome_of]; [by eexists|]. destruct (Exited r); by eexists.
  - destruct (outcome_of false (round w).1) as [res|] eqn:Ho.
    + exists 0%nat. cbn [nth_round replicate concat Nat.eqb]. rewrite app_nil_r. split_and!; [lia..|done|]. exists res. split; [done|].
      destruct (round w) as [[e|r] w']; cbn [fst snd outcome_of] in *; [by simplify_eq|]. destruct (Exited r); by simplify_eq.
    + destruct (IH _ Hop') as (k & Hk & Hbefore & Htr & res & Hres & Hloop). exists (S k). cbn [nth_round]. split_and!; [lia|..].
      * intros [|i] Hi; [done|]. apply Hbefore. lia.
      * rewrite Htr, Ht. cbn [replicate concat]. by rewrite <- app_assoc.
      * exists res. split; [exact Hres|]. destruct (round w) as [[e|r] w']; cbn [fst snd outcome_of] in *; [done|].
        by destruct (Exited r).
Qed.
End Wait.

(** C8.  Waiting for a guest process ends: after one sleep and at most six status
    queries with a sleep between two of them, whatever the guest agent answers.
    The result is that of the first query that fails or finds the process exited
    (an error if its output was truncated); if six queries find it running, that
    is an error. *)
Theorem guest_exec_wait_terminates {G} `{Environment G} client pid timeout execWait (w : world G) :
  client ∉ closed w →
  ∃ k res, (1 <= k <= 6)%nat ∧
    let round i := (nth_round client pid timeout execWait i w).1 in
    let w' := (nth_round client pid timeout execWait (k - 1) w).2 in
    GuestExecWait client pid timeout execWait w = (res, w') ∧
    trace w' = trace w ++ concat (replicate k [Sleep execWait; Agent client (guest_exec_status_cmd pid) timeout]) ∧
    (∀ i, (i < k - 1)%nat → ∃ r, round i = inr r ∧ Exited r = false) ∧
    match round (k - 1)%nat with
    | inl e => res = inl e
    | inr r =>
        if Exited r then res = if OutTruncated r then inl (ErrOther "guest-exec output truncated") else inr r
        else k = 6%nat ∧ res = inl (ErrOther "guest-exec did not exit")
    end.
Proof.
  intros Hop. destruct (wait_loop_spec client pid timeout execWait 5 w Hop) as (k & Hk & Hbefore & Htr & res & Hres & Hloop).
  exists (S k), res. cbv zeta. rewrite Nat.sub_1_r. cbn [Nat.pred]. split_and!; [lia|lia|..].
  - unfold GuestExecWait, bind. by rewrite <- Hloop.
  - exact Htr.
  - intros i Hi. specialize (Hbefore i Hi). destruct (nth_round _ _ _ _ i w).1 as [e|r]; [done|]. exists r. split; [done|].
    cbn in Hbefore. by destruct (Exited r).
  - destruct (nth_round _ _ _ _ k w).1 as [e|r]; cbn [outcome_of] in Hres; [congruence|]. destruct (Exited r); [congruence|].
    destruct (Nat.eqb_spec k 5); [|done]. split; [lia|congruence].
Qed.

(** ** From the guest to the counters *)

Section Collect.
Context {G : Type} `{Environment G}.
Context (client : nat) (timeout execWait : Z).

(** What the status query makes of an answer. *)
Definition status_of (answer : string + list string) : err + ExecResult :=
  match answer with
  | inl msg =>
      inl (if Contains msg "has been disabled" && Contains msg "the command is not allowed" then ErrCommandBlacklisted
           else ErrSystem "guest-exec-status" msg)
  | inr [] => inl (ErrOther "empty response from guest agent")
  | inr (text :: _) =>
      match unmarshal_return (A := execStatus) unmarshal text with
      | None => inl (ErrDecode "guest-exec-status")
      | Some st => exec_result st
      end
  end.

(** The environment's answer to a query after a sleep. *)
Definition ask (pid : Z) (g : G) : (string + list string) * G :=
  QEMUDomainAgentCommand client (guest_exec_status_cmd pid) timeout (time_Sleep execWait g).
Fixpoint env_after (pid : Z) (i : nat) (g : G) : G :=
  match i with O => g | S i' => env_after pid i' (ask pid g).2 end.

Lemma round_env pid w :
  client ∉ closed w →
  (round client pid timeout execWait w).1 = status_of (ask pid (env w)).1 ∧
  env (round client pid timeout execWait w).2 = (ask pid (env w)).2.
Proof.
  intros Hop. unfold round, GuestExecStatus, agent, AgentCommand, when_open, try, bind, sleep, call, bind, log, lift, ask.
  cbn [env conns closed fresh trace snd]. rewrite bool_decide_eq_false_2 by done. cbn [env conns closed fresh trace snd].
  destruct (QEMUDomainAgentCommand _ _ _ _) as [[msg|[|text rest]] g]; cbn.
  - by destruct (_ && _).
  - done.
  - by case_match.
Qed.

Lemma nth_round_env pid i w :
  client ∉ closed w → (nth_round client pid timeout execWait i w).1 = status_of (ask pid (env_after pid i (env w))).1.
Proof.
  revert w. induction i as [|i IH]; intros w Hop; destruct (round_env pid w Hop) as [Hr He]; [done|].
  cbn [nth_round env_after]. rewrite IH; [by rewrite He|]. by apply round_trace.
Qed.

(** A process found running [n] times and then exited with result [r]. *)
Lemma wait_finds pid n r w :
  client ∉ closed w → (n <= 5)%nat →
  (∀ i, (i < n)%nat → ∃ r', status_of (ask pid (env_after pid i (env w))).1 = inr r' ∧ Exited r' = false) →
  status_of (ask pid (env_after pid n (env w))).1 = inr r → Exited r = true → OutTruncated r = false →
  (GuestExecWait client pid timeout execWait w).1 = inr r.
Proof.
  intros Hop Hn Hrun Hr Hex Htr.
  destruct (wait_loop_spec client pid timeout execWait 5 w Hop) as (k & Hk & Hbefore & _ & res & Hres & Hloop).
  assert (k = n) as ->.
  { destruct (Nat.lt_trichotomy k n) as [Hlt|[->|Hlt]]; [|done|].
    - destruct (Hrun k Hlt) as (r' & Hr' & He). rewrite nth_round_env, Hr' in Hres by done. cbn in Hres. rewrite He in Hres.
      destruct (Nat.eqb_spec k 5); [lia|done].
    - specialize (Hbefore n Hlt). rewrite nth_round_env, Hr in Hbefore by done. cbn in Hbefore. by rewrite Hex in Hbefore. }
  rewrite nth_round_env, Hr in Hres by done. cbn in Hres. rewrite Hex, Htr in Hres.
  unfold GuestExecWait, bind. change (sleep execWait w) with (tt, (sleep execWait w).2). cbv iota beta. unfold maxAttempts.
  rewrite Hloop. cbn. congruence.
Qed.

(** The answers of a guest that starts the process, lets it run and ends it
    with [text] as output, as JSON. *)
Record guest_runs (g : G) (pid : Z) (n : nat) (text : string) : Prop := {
  gr_pid : 0 < pid < 2 ^ 63;
  gr_rounds : (n <= 5)%nat;
  gr_start : ∃ answer rest g', QEMUDomainAgentCommand client (guest_exec_cmd diskCounterPath diskCounterArgs) timeout g = (inr (answer :: rest), g') ∧
    json_of answer = Some (JObj [("return", JObj [("pid", JInt pid)])]) ∧
    (∀ i, (i < n)%nat → ∃ answer rest, (ask pid (env_after pid i g')).1 = inr (answer :: rest) ∧
       json_of answer = Some (JObj [("return", JObj [("exited", JBool false)])])) ∧
    ∃ answer rest data, (ask pid (env_after pid n g')).1 = inr (answer :: rest) ∧
       json_of answer = Some (JObj [("return", JObj [("exitcode", JInt 0); ("out-data", JStr data); ("exited", JBool true)])]) ∧
       drop_nl data = encode text;
}.

Lemma Atoi_itoa n : 0 <= n < 2 ^ 63 → Atoi (itoa n) = Some n.
Proof. intros Hn. unfold itoa. destruct (Z.ltb_spec n 0); [lia|]. by apply Atoi_dec. Qed.

Lemma exec_pid_answer answer pid :
  0 < pid < 2 ^ 63 → json_of answer = Some (JObj [("return", JObj [("pid", JInt pid)])]) → exec_pid answer = Some pid.
Proof.
  intros Hp Hj. unfold exec_pid, unmarshal_return. rewrite Hj, bind_Some_l.
  transitivity (v ← (v ← Atoi (itoa pid); Some v); Some v); [reflexivity|]. by rewrite Atoi_itoa by lia.
Qed.

Lemma status_running answer rest :
  json_of answer = Some (JObj [("return", JObj [("exited", JBool false)])]) →
  ∃ r, status_of (inr (answer :: rest)) = inr r ∧ Exited r = false.
Proof. intros Hj. unfold status_of, unmarshal_return. rewrite Hj. eexists. split; reflexivity. Qed.

Lemma encode_nonempty s : s ≠ EmptyString → encode s ≠ EmptyString.
Proof. by destruct s as [|a [|b [|c s]]]. Qed.

Lemma status_exited answer rest data text :
  json_of answer = Some (JObj [("return", JObj [("exitcode", JInt 0); ("out-data", JStr data); ("exited", JBool true)])]) →
  drop_nl data = encode text → text ≠ EmptyString →
  status_of (inr (answer :: rest)) = inr (Exec true 0 0 text EmptyString false false).
Proof.
  intros Hj Hd Hne. unfold status_of, unmarshal_return. rewrite Hj, bind_Some_l.
  transitivity (exec_result (ExecStatus true (Some 0) None data EmptyString false false)); [reflexivity|].
  unfold exec_result. cbn [st_out st_err st_exited st_exitcode st_signal st_out_truncated st_err_truncated].
  rewrite bool_decide_eq_false_2 by (intros ->; by apply (encode_nonempty text Hne)). by rewrite (DecodeString_encode _ _ Hd).
Qed.
End Collect.

(** C12.  Collecting counters end to end: if the agent starts the process, reports
    it running at most five times and then exited with code 0, its output being
    the table PowerShell prints for the guest's disks (in base64, with or without
    line ends), then the counters returned are exactly those of the disks, without
    the totals, through JSON, base64 and CSV. *)
Theorem collect_disk_counters_exact {G} `{Environment G} client timeout execWait (w : world G) pid n dcs :
  client ∉ closed w → dcs ≠ [] → Forall reportable dcs →
  guest_runs client timeout execWait (env w) pid n (print_csv (powershell_header :: (counter_row <$> dcs))) →
  (CollectDiskCounters client timeout execWait w).1 =
  match filter (λ dc, is_total (dc_Name dc) = false) dcs with
  | [] => inl (ErrDecode "CSV")
  | kept => inr kept
  end.
Proof.
  intros Hop Hne Hall [Hpid Hn (answer & rest & g' & Hstart & Hj & Hrun & answer' & rest' & data & Hend & Hj' & Hd)].
  unfold CollectDiskCounters, try at 1, bind at 1. unfold GuestExec, try at 1, bind at 1.
  assert (Ha : ∃ w1, agent "guest-exec" client (guest_exec_cmd diskCounterPath diskCounterArgs) timeout w = (inr answer, w1) ∧
    env w1 = g' ∧ closed w1 = closed w).
  { unfold agent, AgentCommand, when_open, bind. rewrite bool_decide_eq_false_2 by done. unfold call, bind, log, lift.
    cbn [env conns closed fresh trace]. rewrite Hstart. by eexists. }
  destruct Ha as (w1 & -> & <- & Hcl). rewrite (exec_pid_answer _ _ Hpid Hj).
  destruct (Z.eqb_spec pid 0); [lia|]. cbn [ret]. unfold try, bind.
  assert (Htext : print_csv (powershell_header :: (counter_row <$> dcs)) ≠ EmptyString) by done.
  pose proof (status_exited answer' rest' data _ Hj' Hd Htext) as Hfinal. rewrite <- Hend in Hfinal.
  assert (Hop1 : client ∉ closed w1) by (by rewrite Hcl).
  pose proof (wait_finds client timeout execWait pid n (Exec true 0 0 (print_csv (powershell_header :: (counter_row <$> dcs))) EmptyString false false) w1 Hop1 Hn) as Hw.
  destruct (GuestExecWait client pid timeout execWait w1) as [res w2]. cbn [fst] in Hw. rewrite Hw; [|..|exact Hfinal|done|done].
  - cbn [ExitCode Stdout]. rewrite Z.eqb_refl. cbn [negb]. rewrite bool_decide_eq_false_2 by done.
    rewrite ParseWMICSV_print by done. by destruct (filter _ dcs).
  - intros i Hi. destruct (Hrun i Hi) as (a & r & Hask & Hja). rewrite Hask. by apply status_running.
Qed.

(** ** Commands keep the connections *)

Section Quiet.
Context {G : Type} `{Environment G}.
#[local] Hint Resolve quiet_agent : quiet.

Lemma quiet_GuestExec c p a t : quiet (GuestExec c p a t).
Proof. unfold GuestExec. solve_quiet. Qed.

Lemma quiet_GuestExecStatus c p t : quiet (GuestExecStatus c p t).
Proof. unfold GuestExecStatus. solve_quiet. Qed.
#[local] Hint Resolve quiet_GuestExec quiet_GuestExecStatus : quiet.

Lemma quiet_wait_loop c p t e n : quiet (wait_loop c p t e n).
Proof.
  induction n as [|n IH]; cbn [wait_loop]; [apply quiet_ret|]. apply quiet_try; [apply quiet_GuestExecStatus|]. intros r.
  destruct (Exited r); [solve_quiet|]. apply quiet_bind; [solve_quiet|]. by intros _.
Qed.
#[local] Hint Resolve quiet_wait_loop : quiet.

Lemma quiet_GuestGetDisks c t : quiet (GuestGetDisks c t).
Proof. unfold GuestGetDisks. solve_quiet. Qed.

Lemma quiet_CollectDiskCounters c t e : quiet (CollectDiskCounters c t e).
Proof. unfold CollectDiskCounters, GuestExecWait. solve_quiet. Qed.
End Quiet.
#[export] Hint Resolve quiet_GuestGetDisks quiet_CollectDiskCounters : quiet.

Section Spares.
Context {G : Type} `{Environment G}.
Context (i client : nat) (Hne : client ≠ i).

Lemma spares_agent op cmd t : spares i (agent op client cmd t).
Proof. unfold agent. apply spares_bind; [by apply spares_AgentCommand|]. solve_spares. Qed.
#[local] Hint Resolve spares_agent : spares.

Lemma spares_GuestExecStatus pid t : spares i (GuestExecStatus client pid t).
Proof. unfold GuestExecStatus. solve_spares. Qed.
#[local] Hint Resolve spares_GuestExecStatus : spares.

Lemma spares_wait_loop pid t e n : spares i (wait_loop client pid t e n).
Proof.
  induction n as [|n IH]; cbn [wait_loop]; [apply spares_ret|]. apply spares_try; [apply spares_GuestExecStatus|]. intros r.
  destruct (Exited r); [solve_spares|]. apply spares_bind; [solve_spares|]. by intros _.
Qed.
#[local] Hint Resolve spares_wait_loop : spares.

Lemma spares_GuestGetDisks t : spares i (GuestGetDisks client t).
Proof. unfold GuestGetDisks. solve_spares. Qed.

Lemma spares_CollectDiskCounters t e : spares i (CollectDiskCounters client t e).
Proof. unfold CollectDiskCounters, GuestExec, GuestExecWait. solve_spares. Qed.
End Spares.

(** ** Examples *)

Definition answer (j : json) : string + list string := inr [marshal (JObj [("return", j)])].
Definition running : string + list string := answer (JObj [("exited", JBool false)]).
Definition finished (out : string) : string + list string :=
  answer (JObj [("exitcode", JInt 0); ("out-data", JStr (encode out)); ("exited", JBool true)]).

(** A process that never ends, and one that ends in the third round. *)
Definition world_hangs : world script := start (set_agent (replicate 9 running) script0) 1.
Definition world_ends : world script := start (set_agent [running; running; finished "done"] script0) 1.

Lemma guest_exec_wait_terminates_witness :
  ∃ k res, (1 <= k <= 6)%nat ∧
    GuestExecWait 0 42 10 1000000000 world_hangs = (res, (nth_round 0 42 10 1000000000 (k - 1) world_hangs).2) ∧
    (GuestExecWait 0 42 10 1000000000 world_hangs).1 = inl (ErrOther "guest-exec did not exit") ∧
    (GuestExecWait 0 42 10 1000000000 world_ends).1 = inr (Exec true 0 0 "done" EmptyString false false).
Proof.
  destruct (guest_exec_wait_terminates 0 42 10 1000000000 world_hangs) as (k & res & Hk & Hw & _); [apply not_elem_of_empty|].
  exists k, res. split; [exact Hk|]. split; [exact Hw|]. split; vm_compute; reflexivity.
Defined.

Definition example_text : string := print_csv (powershell_header :: (counter_row <$> example_counters)).
Definition world_counters : world script :=
  start (set_agent [answer (JObj [("pid", JInt 4711)]); running; finished example_text] script0) 1.

Lemma collect_disk_counters_exact_witness :
  (CollectDiskCounters 0 10 1000000000 world_counters).1 = inr (take 2 example_counters).
Proof.
  rewrite (collect_disk_counters_exact 0 10 1000000000 world_counters 4711 1 example_counters); [reflexivity|apply not_elem_of_empty|discriminate|..].
  - repeat constructor; vm_compute; try reflexivity; discriminate.
  - constructor; [lia|lia|]. do 3 eexists. split; [reflexivity|]. split; [vm_compute; reflexivity|]. split.
    + intros i Hi. replace i with 0%nat by lia. do 2 eexists. split; [reflexivity|vm_compute; reflexivity].
    + do 2 eexists. exists (encode example_text). split; [reflexivity|]. split; vm_compute; reflexivity.
Defined.
