(* ===== verification/PromMetrics.v ===== *)
(** * Prometheus metrics and pods, as the polling collectors use them

    What pkg/qga/collector.go and pkg/qmp/collector.go share: constant metrics of
    client_golang, the selection of virt-launcher pods, and the label filter both
    files define. *)
From S2P Require Import Prelude GoStrings GoFloat GoJson.

(** ** Constant metrics *)

(** [prometheus.NewConstMetric] and [prometheus.NewConstHistogram] make a metric
    when there is a value for each label and the values are valid UTF-8, and
    return an error otherwise. *)
Class ConstMetrics := {
  labels_accepted : list string → list string → bool;
  labels_accepted_spec names values :
    labels_accepted names values = true ↔ length values = length names ∧ Forall (λ v, valid_utf8 0 v = true) values;
}.

#[export] Instance const_metrics_checked : ConstMetrics.
Proof.
  refine {| labels_accepted names values := bool_decide (length values = length names ∧ Forall (λ v, valid_utf8 0 v = true) values) |}.
  intros names values. apply bool_decide_eq_true.
Defined.

Section Metrics.
Context {D : Type}.

Inductive prom_metric :=
  | Const (d : D) (v : float64) (ls : list string)
  | Histo (d : D) (count : Z) (sum : float64) (buckets : list (float64 * Z)) (ls : list string).

(** What Prometheus identifies a metric by: its description and labels. *)
Definition prom_id (m : prom_metric) : D * list string := match m with Const d _ ls | Histo d _ _ _ ls => (d, ls) end.

Context `{!ConstMetrics} (names : D → list string).

(** [prometheus.MustNewConstMetric] panics, here [None], on an error. *)
Definition MustNewConstMetric (d : D) (v : float64) (ls : list string) : option prom_metric :=
  if labels_accepted (names d) ls then Some (Const d v ls) else None.

Lemma MustNewConstMetric_Some d v ls :
  is_Some (MustNewConstMetric d v ls) ↔ length ls = length (names d) ∧ Forall (λ v, valid_utf8 0 v = true) ls.
Proof.
  rewrite <- labels_accepted_spec. unfold MustNewConstMetric. destruct (labels_accepted _ _); split; try done.
  all: first [intros _; by eexists|by intros [? ?]].
Qed.
End Metrics.
Arguments prom_metric : clear implicits.

(** A list of constructions of which one panics is a panic. *)
Fixpoint all_or_panic {A} (l : list (option A)) : option (list A) :=
  match l with
  | [] => Some []
  | x :: l' => a ← x; as_ ← all_or_panic l'; Some (a :: as_)
  end.

Lemma all_or_panic_Some {A} (l : list (option A)) r : all_or_panic l = Some r ↔ l = Some <$> r.
Proof.
  revert r. induction l as [|x l IH]; intros r; cbn [all_or_panic].
  - split; [by intros [= <-]|]. intros E. symmetry in E. by apply fmap_nil_inv in E as ->.
  - split.
    + intros E. inv_bind E. inv_bind E. simplify_eq. apply IH in E1 as ->. done.
    + destruct r as [|a r]; [done|]. intros [= -> ->]. rewrite bind_Some_l. by rewrite (proj2 (IH r) eq_refl).
Qed.

Lemma all_or_panic_is_Some {A} (l : list (option A)) : is_Some (all_or_panic l) ↔ Forall is_Some l.
Proof.
  induction l as [|x l IH]; cbn [all_or_panic].
  - split; [constructor|by eexists].
  - rewrite Forall_cons, <- IH. split.
    + intros [r E]. inv_bind E. inv_bind E. split; by eexists.
    + intros [[a ->] [r ->]]. by eexists.
Qed.

(** ** Pods *)

Record pod := Pod { pod_name : string; pod_namespace : string; pod_running : bool; pod_labels : gmap string string }.
Inductive store_object := PodObject (p : pod) | OtherObject.

Record podInfo := PodInfo { pi_namespace : string; pi_podName : string; pi_vmiName : string }.

(** A missing key of a Go map reads as the empty string. *)
Definition label (labels : gmap string string) (k : string) : string := default EmptyString (labels !! k).

Definition matches_part (labels : gmap string string) (part : string) : bool :=
  match SplitN2 "=" (TrimSpace part) with
  | [k; v] => bool_decide (label labels k = v)
  | _ => true
  end.
Definition matchesLabelFilter (labels : gmap string string) (filter : string) : bool :=
  forallb (matches_part labels) (Split "," filter).

(** The loop over the store: running virt-launcher pods that name a machine and
    pass the label and namespace filters. *)
Definition select_pod (namespaces : list string) (labelFilter : string) (o : store_object) : option podInfo :=
  match o with
  | OtherObject => None
  | PodObject p =>
      if negb (pod_running p) then None else
      if negb (bool_decide (label (pod_labels p) "kubevirt.io" = "virt-launcher")) then None else
      if negb (bool_decide (labelFilter = EmptyString)) && negb (matchesLabelFilter (pod_labels p) labelFilter) then None else
      if negb (bool_decide (namespaces = [])) && negb (bool_decide (pod_namespace p ∈ namespaces)) then None else
      let vmiName := label (pod_labels p) "vm.kubevirt.io/name" in
      if bool_decide (vmiName = EmptyString) then None
      else Some (PodInfo (pod_namespace p) (pod_name p) vmiName)
  end.
Definition select_pods (namespaces : list string) (labelFilter : string) (store : list store_object) : list podInfo :=
  omap (select_pod namespaces labelFilter) store.

(** "/proc/<pid>/root/run/libvirt/virtqemud-sock". *)
Definition sock_path (pid : Z) : string := "/proc/" +:+ itoa pid +:+ "/root/run/libvirt/virtqemud-sock".
