(* ===== verification/ConnPool.v ===== *)
(** * The connections of a polling collector

    The collectors of pkg/qmp and pkg/qga keep one connection per running
    virt-launcher container, in a map from container identifiers, and bring the
    map up to date at the start of a poll with the same code.  That code and the
    invariant of the map are here, for any type of connection state. *)
From S2P Require Import Prelude GoStrings GoFloat GoJson DiskMap GoEffect QmpTypes QmpClient PromMetrics.

(** A connection state: its client, and whether it was closed. *)
Class PoolEntry (S : Type) := {
  pe_client : S → nat;
  pe_closed : S → bool;
  pe_set_closed : S → S;
}.

Section Pool.
Context {G : Type} `{Environment G} {S : Type} `{PoolEntry S}.

(** [close]: once. *)
Definition close (s : S) : M G S :=
  if pe_closed s then ret s else
  let* _ := Close (pe_client s) in ret (pe_set_closed s).

(** The container of a pod, if it can be found. *)
Definition find_target (ts : list (podInfo * string)) (p : podInfo) : M G (list (podInfo * string)) :=
  let* info := FindComputePID (pi_podName p) (pi_namespace p) in
  match info with
  | inl _ => ret ts
  | inr i => ret (ts ++ [(p, ContainerID i)])
  end.

(** Machines whose container is gone are closed and forgotten. *)
Definition remove_departed (active : gset string) (m : gmap string S) (e : string * S) : M G (gmap string S) :=
  let '(id, s) := e in
  if bool_decide (id ∈ active) then ret m else
  let* _ := close s in ret (delete id m).

Section Connect.
Context (connectVM : string → string → string → Z → M G (err + S)).

(** New containers are connected to; a second connection to one is closed. *)
Definition connect_target (existing : gset string) (m : gmap string S) (t : podInfo * string) : M G (gmap string S) :=
  let '(p, containerID) := t in
  if bool_decide (containerID ∈ existing) then ret m else
  let* info := FindComputePID (pi_podName p) (pi_namespace p) in
  match info with
  | inl _ => ret m
  | inr i =>
      let* conn := connectVM (pi_namespace p) (pi_vmiName p) (pi_podName p) (PID i) in
      match conn with
      | inl _ => ret m
      | inr s =>
          match m !! containerID with
          | None => ret (<[containerID := s]> m)
          | Some _ => let* _ := close s in ret m
          end
      end
  end.

(** The first half of a poll. *)
Definition refresh (allPods : list podInfo) (m : gmap string S) : M G (gmap string S) :=
  let* targets := for_each find_target [] allPods in
  let active : gset string := list_to_set targets.*2 in
  let* entries := range m in
  let* m1 := for_each (remove_departed active) m entries in
  let existing : gset string := dom m1 in
  for_each (connect_target existing) m1 targets.
End Connect.

Definition close_and_delete (m : gmap string S) (e : string * S) : M G (gmap string S) :=
  let '(id, s) := e in let* _ := close s in ret (delete id m).
Definition closeAll (m : gmap string S) : M G (gmap string S) :=
  let* entries := range m in for_each close_and_delete m entries.

(** ** The invariant *)

(** Every connection is owned by exactly one container, none is closed, and no
    connection is open that is not in the map. *)
Record pool_inv (m : gmap string S) (w : world G) : Prop := {
  pi_open id s : m !! id = Some s → pe_closed s = false ∧ pe_client s ∈ conns w ∧ pe_client s ∉ closed w;
  pi_inj id1 id2 s1 s2 : m !! id1 = Some s1 → m !! id2 = Some s2 → pe_client s1 = pe_client s2 → id1 = id2;
  pi_owned n : n ∈ conns w → ∃ id s, m !! id = Some s ∧ pe_client s = n;
  pi_numbered : numbered w;
}.

Lemma numbered_calm (w w' : world G) : numbered w → calm w w' → numbered w'.
Proof. intros Hn (Hc & Hd & Hf) n. rewrite Hc, Hd. intros Hin. specialize (Hn n Hin). lia. Qed.

Lemma pool_calm m w w' : pool_inv m w → calm w w' → pool_inv m w'.
Proof.
  intros [Ho Hi Hw Hn] Hcalm. pose proof (numbered_calm _ _ Hn Hcalm). destruct Hcalm as (Hc & Hd & _).
  split; [|done| |done].
  - intros id s Hs. rewrite Hc, Hd. by apply (Ho id).
  - intros n. rewrite Hc. apply Hw.
Qed.

Lemma pool_quiet {A} m (k : M G A) w : quiet k → pool_inv m w → pool_inv m (k w).2.
Proof. intros Hk Hinv. eapply pool_calm; [done|]. apply quiet_calm, Hk. Qed.

(** The state of a machine changes, its connection stays. *)
Lemma pool_update m w id s s' :
  pool_inv m w → m !! id = Some s → pe_client s' = pe_client s → pe_closed s' = false → pool_inv (<[id := s']> m) w.
Proof.
  intros [Ho Hi Hw Hn] Hs Hc Hd. destruct (Ho _ _ Hs) as (_ & Hin & Hcl). split; [|intros id1 id2 s1 s2|intros n Hn'|done].
  - intros id' s0. rewrite lookup_insert. case_decide; [|apply Ho]. intros [= <-]. by rewrite Hd, Hc.
  - rewrite !lookup_insert. repeat case_decide; intros E1 E2 Ec; simplify_eq; [done|..|by eapply Hi].
    + by apply (Hi id1 id2 s s2); [..|congruence].
    + by apply (Hi id1 id2 s1 s); [..|congruence].
  - destruct (Hw n Hn') as (id' & s0 & E & Ec). destruct (decide (id = id')) as [->|Hne].
    + exists id', s'. rewrite lookup_insert_eq. split; [done|congruence].
    + exists id', s0. by rewrite lookup_insert_ne.
Qed.

(** What closing an open connection does. *)
Lemma close_open s (w : world G) :
  pe_closed s = false → pe_client s ∉ closed w →
  conns (close s w).2 = conns w ∖ {[pe_client s]} ∧ closed (close s w).2 = closed w ∪ {[pe_client s]} ∧ fresh (close s w).2 = fresh w.
Proof.
  intros Hc Hcl. unfold close. rewrite Hc. unfold bind. pose proof (Close_open (pe_client s) w Hcl) as HC.
  by destruct (Close (pe_client s) w).
Qed.

Lemma pool_close m w id s :
  pool_inv m w → m !! id = Some s → pool_inv (delete id m) (close s w).2.
Proof.
  intros [Ho Hi Hw Hn] Hs. destruct (Ho _ _ Hs) as (Hc & Hin & Hcl). destruct (close_open s w Hc Hcl) as (Hcs & Hcd & Hf).
  split.
  - intros id' s0. rewrite lookup_delete. case_decide; [done|]. intros E. destruct (Ho _ _ E) as (? & ? & ?).
    assert (pe_client s0 ≠ pe_client s) by (intros Heq; by rewrite (Hi _ _ _ _ Hs E) in *). rewrite Hcs, Hcd. set_solver.
  - intros id1 id2 s1 s2. rewrite !lookup_delete. repeat case_decide; try done. apply Hi.
  - intros n. rewrite Hcs. intros [Hn' Hne]%elem_of_difference. destruct (Hw n Hn') as (id' & s0 & E & <-). exists id', s0.
    rewrite lookup_delete_ne; [done|]. intros ->. set_solver.
  - intros n. rewrite Hcs, Hcd, Hf. intros Hnn. apply Hn. set_solver.
Qed.

(** A connection that was just made. *)
Definition fresh_entry (w : world G) (s : S) (w' : world G) : Prop :=
  pe_client s = fresh w ∧ pe_closed s = false ∧ conns w' = conns w ∪ {[fresh w]} ∧ closed w' = closed w ∧ (fresh w < fresh w')%nat.

Lemma pool_insert m w id s w' :
  pool_inv m w → m !! id = None → fresh_entry w s w' → pool_inv (<[id := s]> m) w'.
Proof.
  intros [Ho Hi Hw Hn] Hid (Hc & Hd & Hcs & Hcd & Hf).
  assert (Hold : ∀ id' s', m !! id' = Some s' → pe_client s' ≠ fresh w).
  { intros id' s' E Heq. destruct (Ho _ _ E) as (_ & Hin & _). rewrite Heq in Hin. specialize (Hn _ (or_introl Hin)). lia. }
  split.
  - intros id' s0. rewrite lookup_insert. case_decide.
    + intros [= <-]. split; [done|]. rewrite Hc, Hcs, Hcd. split; [set_solver|]. intros Hin. specialize (Hn _ (or_intror Hin)). lia.
    + intros E. destruct (Ho _ _ E) as (? & ? & ?). rewrite Hcs, Hcd. set_solver.
  - intros id1 id2 s1 s2. rewrite !lookup_insert. repeat case_decide; intros E1 E2 Ec; simplify_eq; [done|..|by eapply Hi].
    + by destruct (Hold _ _ E2); congruence.
    + by destruct (Hold _ _ E1); congruence.
  - intros n. rewrite Hcs. intros [Hn'| ->%elem_of_singleton]%elem_of_union.
    + destruct (Hw n Hn') as (id' & s0 & E & <-). exists id', s0. rewrite lookup_insert_ne; [done|congruence].
    + exists id, s. by rewrite lookup_insert_eq.
  - intros n. rewrite Hcs, Hcd. intros Hnn. destruct (decide (n = fresh w)) as [->|Hne]; [done|].
    assert (n < fresh w)%nat; [|lia]. apply Hn. set_solver.
Qed.

(** A new connection that is not needed is closed again. *)
Lemma pool_close_fresh m w s w' : pool_inv m w → fresh_entry w s w' → pool_inv m (close s w').2.
Proof.
  intros Hinv Hfr.
  destruct Hinv as [Ho Hi Hw Hn], Hfr as (Hc & Hd & Hcs & Hcd & Hf).
  assert (Hncl : pe_client s ∉ closed w') by (rewrite Hc, Hcd; intros Hin; specialize (Hn _ (or_intror Hin)); lia).
  destruct (close_open s w' Hd Hncl) as (Hcs' & Hcd' & Hf').
  assert (Hcs'' : conns (close s w').2 = conns w).
  { rewrite Hcs', Hcs, Hc. apply set_eq. intros n. pose proof (Hn n). set_unfold. split; [tauto|]. intros Hin. split; [by left|].
    specialize (Hn _ (or_introl Hin)). lia. }
  split; [|done| |].
  - intros id' s0 E. destruct (Ho _ _ E) as (? & Hin & ?). rewrite Hcs'', Hcd', Hcd, Hc. split_and!; [done..|].
    apply not_elem_of_union. split; [done|]. intros Heq%elem_of_singleton. rewrite Heq in Hin. specialize (Hn _ (or_introl Hin)). lia.
  - intros n. rewrite Hcs''. apply Hw.
  - intros n. rewrite Hcs'', Hcd', Hcd, Hc, Hf'. intros Hnn. destruct (decide (n = fresh w)) as [->|Hne]; [done|].
    assert (n < fresh w)%nat; [|lia]. apply Hn. set_solver.
Qed.
End Pool.

Lemma range_entries {G} `{Environment G} {A} (m : gmap string A) w :
  NoDup (range m w).1.*1 ∧ ∀ id s, (id, s) ∈ (range m w).1 ↔ m !! id = Some s.
Proof.
  destruct (range_spec m w) as [Hp _]. split.
  - rewrite Hp. apply NoDup_fst_map_to_list.
  - intros id s. rewrite Hp. apply elem_of_map_to_list.
Qed.

Section Refresh.
Context {G : Type} `{Environment G} {S : Type} `{PoolEntry S}.
Context (connectVM : string → string → string → Z → M G (err + S)).

(** Connecting leaves one connection behind, or none. *)
Definition connects : Prop :=
  ∀ ns vmi pod pid w, numbered w →
    match connectVM ns vmi pod pid w with
    | (inl _, w') => calm w w'
    | (inr s, w') => fresh_entry w s w'
    end.

(** What is left to visit of a map is as it was. *)
Definition to_visit (m : gmap string S) (l : list (string * S)) : Prop :=
  NoDup l.*1 ∧ ∀ id s, (id, s) ∈ l → m !! id = Some s.

Lemma to_visit_cons m id s l :
  to_visit m ((id, s) :: l) → m !! id = Some s ∧ to_visit m l ∧ id ∉ l.*1.
Proof.
  intros [Hnd Hin]. cbn [fmap list_fmap fst] in Hnd. apply NoDup_cons in Hnd as [Hid Hnd]. split_and!; [apply Hin, list_elem_of_here| |done].
  split; [done|]. intros id' s' Hs. apply Hin. by apply list_elem_of_further.
Qed.

Lemma to_visit_other m m' l id :
  to_visit m l → id ∉ l.*1 → (∀ id', id' ≠ id → m' !! id' = m !! id') → to_visit m' l.
Proof.
  intros [Hnd Hin] Hid Hm. split; [done|]. intros id' s Hs. rewrite Hm; [by apply Hin|]. intros ->. apply Hid.
  apply list_elem_of_fmap. by exists (id, s).
Qed.

(** The loop that removes departed machines, with [l] left to visit. *)
Definition removing (n0 : nat) (active : gset string) (m0 m : gmap string S) (l : list (string * S)) (w : world G) : Prop :=
  (n0 <= fresh w)%nat ∧ pool_inv m w ∧ to_visit m l ∧ (∀ id, id ∈ dom m → id ∈ active ∨ id ∈ l.*1) ∧
  (∀ id s, m !! id = Some s → m0 !! id = Some s) ∧ (∀ id s, m0 !! id = Some s → id ∈ active → m !! id = Some s).

Lemma close_fresh s (w : world G) : fresh (close s w).2 = fresh w.
Proof. unfold close. destruct (pe_closed s); [done|]. unfold bind, Close. by case_bool_decide. Qed.

Lemma remove_step n0 active m0 m x l w :
  removing n0 active m0 m (x :: l) w → removing n0 active m0 (remove_departed active m x w).1 l (remove_departed active m x w).2.
Proof.
  destruct x as [id s]. intros (Hn0 & Hinv & Hv & Hdom & Hsub & Hkeep). apply to_visit_cons in Hv as (Hs & Hv & Hid). cbn [remove_departed].
  assert (Hrest : ∀ id', id' ∈ dom m → id' = id ∨ id' ∈ active ∨ id' ∈ l.*1).
  { intros id' Hd. destruct (Hdom _ Hd) as [|Hl]; [auto|]. cbn in Hl. apply elem_of_cons in Hl as [->|]; auto. }
  case_bool_decide as Ha.
  - unfold removing. cbn. split_and!; [done..| |done|done]. intros id' [->|Hd]%Hrest; [by left|done].
  - unfold bind. pose proof (pool_close m w id s Hinv Hs) as Hc. pose proof (close_fresh s w) as Hf.
    destruct (close s w) as [s' w'']. cbn [snd] in Hf. unfold removing. cbn. rewrite Hf. split_and!; [done|done|..].
    + eapply to_visit_other; [done|exact Hid|]. intros id' Hne. by rewrite lookup_delete_ne.
    + intros id'. rewrite dom_delete. intros [Hd Hne]%elem_of_difference. destruct (Hrest _ Hd) as [->|]; [set_solver|done].
    + intros id' s0 E. apply lookup_delete_Some in E as [_ E]. by apply Hsub.
    + intros id' s0 E Ha'. rewrite lookup_delete_ne; [by apply Hkeep|]. by intros ->.
Qed.

Lemma remove_loop active m (w : world G) l :
  pool_inv m w → to_visit m l → (∀ id, id ∈ dom m → id ∈ active ∨ id ∈ l.*1) →
  let '(m', w') := for_each (remove_departed active) m l w in
  (fresh w <= fresh w')%nat ∧ pool_inv m' w' ∧ (∀ id s, m' !! id = Some s ↔ m !! id = Some s ∧ id ∈ active).
Proof.
  intros Hinv Hv Hdom. pose proof (for_each_ind (remove_departed active) (removing (fresh w) active m) (remove_step (fresh w) active m) l m w) as Hind.
  destruct (for_each _ m l w) as [m' w']. cbn [fst snd] in Hind.
  destruct Hind as (Hf & Hinv' & _ & Hact & Hsub & Hkeep); [by split_and!|]. split; [done|]. split; [done|]. intros id s. split.
  - intros Hs. split; [by apply Hsub|]. destruct (Hact id) as [|Hnil]; [by eapply elem_of_dom_2|done|by apply elem_of_nil in Hnil].
  - intros [Hs Ha]. by apply Hkeep.
Qed.

(** The loop that connects to new machines. *)
Definition connecting (n0 : nat) (l0 : list (podInfo * string)) (m0 m : gmap string S) (l : list (podInfo * string)) (w : world G) : Prop :=
  pool_inv m w ∧ (∀ id s, m0 !! id = Some s → m !! id = Some s) ∧ (∀ id, id ∈ dom m → id ∈ dom m0 ∨ id ∈ l0.*2) ∧
  (∀ x, x ∈ l → x ∈ l0) ∧ (n0 <= fresh w)%nat ∧ (∀ id s, m !! id = Some s → m0 !! id = Some s ∨ (n0 <= pe_client s)%nat).

Lemma connect_step n0 l0 m0 m x l w :
  connects → connecting n0 l0 m0 m (x :: l) w →
  connecting n0 l0 m0 (connect_target connectVM (dom m0) m x w).1 l (connect_target connectVM (dom m0) m x w).2.
Proof.
  intros Hcon. destruct x as [p cid]. intros (Hinv & Hkeep & Hdom & Hsub & Hf0 & Hnew). cbn [connect_target].
  assert (Hsub' : ∀ x, x ∈ l → x ∈ l0) by (intros x Hx; by apply Hsub, list_elem_of_further).
  case_bool_decide as He; [by split_and!|]. unfold bind.
  pose proof (quiet_FindComputePID (pi_podName p) (pi_namespace p) w) as (Hq1 & Hq2 & Hq3 & _).
  pose proof (pool_quiet m (FindComputePID (pi_podName p) (pi_namespace p)) w (quiet_FindComputePID _ _) Hinv) as H1.
  destruct (FindComputePID _ _ w) as [[e|i] w1]; cbn [snd] in *; rewrite <- Hq3 in Hf0; [by split_and!|].
  pose proof (Hcon (pi_namespace p) (pi_vmiName p) (pi_podName p) (PID i) w1 (pi_numbered _ _ H1)) as Hc.
  destruct (connectVM _ _ _ _ w1) as [[e|s] w2].
  { unfold connecting. cbn. split_and!; [by eapply pool_calm|done..| |done]. destruct Hc as (_ & _ & Hf). lia. }
  destruct (m !! cid) as [s0|] eqn:Hm.
  - pose proof (pool_close_fresh m w1 s w2 H1 Hc) as H2. pose proof (close_fresh s w2) as Hf. destruct (close s w2) as [s' w3]. cbn [snd] in *.
    unfold connecting. cbn. split_and!; [done..| |done]. destruct Hc as (_ & _ & _ & _ & Hlt). lia.
  - unfold connecting. cbn. pose proof Hc as (Hcl & _ & _ & _ & Hlt). split_and!; [by eapply pool_insert| | |done|lia|].
    + intros id s0 E. rewrite lookup_insert_ne; [by apply Hkeep|]. intros ->. apply He. by eapply elem_of_dom_2.
    + intros id. rewrite dom_insert. intros [->%elem_of_singleton|Hd]%elem_of_union; [|by apply Hdom].
      right. apply list_elem_of_fmap. exists (p, cid). split; [done|]. apply Hsub, list_elem_of_here.
    + intros id s0. rewrite lookup_insert. case_decide; [|apply Hnew]. intros [= <-]. right. lia.
Qed.

Lemma connect_loop n0 m (w : world G) l :
  connects → pool_inv m w → (n0 <= fresh w)%nat →
  let '(m', w') := for_each (connect_target connectVM (dom m)) m l w in
  pool_inv m' w' ∧ (∀ id s, m !! id = Some s → m' !! id = Some s) ∧ (∀ id, id ∈ dom m' → id ∈ dom m ∨ id ∈ l.*2) ∧
  (∀ id s, m' !! id = Some s → m !! id = Some s ∨ (n0 <= pe_client s)%nat).
Proof.
  intros Hcon Hinv Hn.
  pose proof (for_each_ind (connect_target connectVM (dom m)) (connecting n0 l m) (λ m' x l' w', connect_step n0 l m m' x l' w' Hcon) l m w) as Hind.
  destruct (for_each _ m l w) as [m' w']. cbn [fst snd] in Hind. destruct Hind as (Hi & Hk & Hd & _ & _ & Hnew); [split_and!; auto|].
  split_and!; [done| | |]; auto.
Qed.

(** Bringing the pool up to date keeps the invariant; machines whose container
    still runs keep their state, and only running containers have one. *)
Lemma refresh_spec pods m (w : world G) :
  connects → pool_inv m w →
  let targets := (for_each find_target [] pods w).1 in
  let '(m', w') := refresh connectVM pods m w in
  pool_inv m' w' ∧
  (∀ id s, m !! id = Some s → id ∈ targets.*2 → m' !! id = Some s) ∧
  (∀ id, id ∈ dom m' → id ∈ targets.*2) ∧
  (∀ id s, m' !! id = Some s → m !! id = Some s ∨ (fresh w <= pe_client s)%nat).
Proof.
  intros Hcon Hinv. cbv zeta. unfold refresh. unfold bind at 1.
  assert (Hq : quiet (for_each find_target [] pods)) by (unfold find_target; solve_quiet).
  pose proof (pool_quiet m _ w Hq Hinv) as H1. destruct (Hq w) as (_ & _ & Hfr & _). destruct (for_each find_target [] pods w) as [targets w1]. cbn [fst snd] in *.
  unfold bind at 1. destruct (range_entries m w1) as [Hnd Hin]. destruct (range_spec m w1) as [_ Hw].
  destruct (range m w1) as [entries w1']. cbn [fst snd] in *. subst w1'. unfold bind.
  pose proof (remove_loop (list_to_set targets.*2) m w1 entries H1) as Hrm.
  destruct (for_each (remove_departed _) m entries w1) as [m1 w2]. destruct Hrm as (Hf & H2 & Hm1).
  { split; [done|]. intros id s. by rewrite Hin. }
  { intros id [s Hs]%elem_of_dom. right. apply list_elem_of_fmap. exists (id, s). by rewrite Hin. }
  pose proof (connect_loop (fresh w) m1 w2 targets Hcon H2 ltac:(lia)) as Hc. destruct (for_each _ m1 targets w2) as [m2 w3].
  destruct Hc as (H3 & Hk & Hd & Hnew). split_and!; [done|..].
  - intros id s Hs Ht. apply Hk, Hm1. split; [done|]. by apply elem_of_list_to_set.
  - intros id [[s Hs]%elem_of_dom|]%Hd; [|done]. apply Hm1 in Hs as [_ Ha]. by apply elem_of_list_to_set in Ha.
  - intros id s [Hs|]%Hnew; [|by right]. left. by apply Hm1 in Hs as [? _].
Qed.

Lemma closeAll_spec m (w : world G) :
  pool_inv m w → let '(m', w') := closeAll m w in m' = ∅ ∧ conns w' = ∅ ∧ numbered w'.
Proof.
  intros Hinv. unfold closeAll, bind. destruct (range_entries m w) as [Hnd Hin]. destruct (range_spec m w) as [_ Hw].
  destruct (range m w) as [entries w1]. cbn [fst snd] in *. subst w1.
  pose proof (for_each_ind close_and_delete (removing 0 ∅ m)) as Hind.
  specialize (Hind ltac:(intros m' [id s] l w'; exact (remove_step 0 ∅ m m' (id, s) l w')) entries m w).
  destruct (for_each _ m entries w) as [m' w']. cbn [fst snd] in Hind. destruct Hind as (_ & Hi & _ & Hact & _).
  { split_and!; [lia|done|by split; [|intros id s; rewrite Hin]| |done|set_solver].
    intros id [s Hs]%elem_of_dom. right. apply list_elem_of_fmap. exists (id, s). by rewrite Hin. }
  assert (m' = ∅) as ->.
  { apply map_empty. intros id. destruct (m' !! id) as [s|] eqn:E; [|done]. destruct (Hact id) as [Hx|Hx]; [by eapply elem_of_dom_2|set_solver|].
    by apply elem_of_nil in Hx. }
  split_and!; [done| |apply Hi]. apply set_eq. intros n. split; [|set_solver]. intros Hn. apply Hi in Hn as (id & s & E & _).
  by rewrite lookup_empty in E.
Qed.

Lemma spares_close i s : spares i (close (G := G) s).
Proof. unfold close. destruct (pe_closed s); [apply spares_ret|]. apply spares_bind; [apply spares_Close|]. intros. apply spares_ret. Qed.

(** Bringing the pool up to date sends nothing over old connections, if
    connecting does not. *)
Lemma spares_refresh i pods m :
  (∀ ns vmi pod pid, spares i (connectVM ns vmi pod pid)) → spares i (refresh connectVM pods m).
Proof.
  intros Hcon. unfold refresh. apply spares_bind.
  { apply spares_for_each. intros ts p _. unfold find_target. solve_spares. }
  intros targets. apply spares_bind; [apply spares_range|]. intros entries. apply spares_bind.
  { apply spares_for_each. intros m' [id s] _. unfold remove_departed. case_bool_decide; [apply spares_ret|].
    apply spares_bind; [apply spares_close|]. intros. apply spares_ret. }
  intros m1. apply spares_for_each. intros m' [p cid] _. unfold connect_target. case_bool_decide; [apply spares_ret|].
  apply spares_bind; [apply spares_FindComputePID|]. intros [e|inf]; [apply spares_ret|]. apply spares_bind; [apply Hcon|].
  intros [e|s]; [apply spares_ret|]. destruct (m' !! cid); [|apply spares_ret]. apply spares_bind; [apply spares_close|]. intros. apply spares_ret.
Qed.
End Refresh.

(** ** The life of a collector *)

(** How a poll or a run ends: with the collector's new state, with a panic (a
    channel of negative size, a ticker without a period), or never (a channel of
    size zero that nobody reads). *)
Inductive poll_outcome (C : Type) := Polled (c : C) | PollPanics | PollHangs.
Arguments Polled {C}.
Arguments PollPanics {C}.
Arguments PollHangs {C}.

Section Run.
Context {G : Type} `{Environment G} {C : Type}.
Context (poll : list store_object → C → M G (poll_outcome C)) (stop : C → M G C).

(** A poll per tick, over the pods there are then, until the context is done. *)
Fixpoint poll_loop (ticks : list (list store_object)) (c : C) : M G (poll_outcome C) :=
  match ticks with
  | [] => let* c' := stop c in ret (Polled c')
  | store :: ticks' =>
      let* r := poll store c in
      match r with Polled c' => poll_loop ticks' c' | _ => ret r end
  end.

(** [Run]: a first poll, then [time.NewTicker], which panics without a period. *)
Definition Run (interval : Z) (store : list store_object) (ticks : list (list store_object)) (c : C) : M G (poll_outcome C) :=
  let* r := poll store c in
  match r with
  | Polled c' => if interval <=? 0 then ret PollPanics else poll_loop ticks c'
  | _ => ret r
  end.

Lemma Run_ends (I : C → world G → Prop) interval store ticks c w :
  (∀ store c w, I c w → ∃ c' w', poll store c w = (Polled c', w') ∧ I c' w') →
  (∀ c w, I c w → conns (stop c w).2 = ∅) → 0 < interval → I c w →
  ∃ c' w', Run interval store ticks c w = (Polled c', w') ∧ conns w' = ∅.
Proof.
  intros Hpoll Hstop Hi HI. assert (Hloop : ∀ c w, I c w → ∃ c' w', poll_loop ticks c w = (Polled c', w') ∧ conns w' = ∅).
  { clear c w HI. induction ticks as [|s ticks IH]; intros c w HI; cbn [poll_loop]; unfold bind.
    - specialize (Hstop c w HI). destruct (stop c w) as [c' w']. by exists c', w'.
    - destruct (Hpoll s c w HI) as (c' & w' & -> & HI'). by apply IH. }
  unfold Run, bind. destruct (Hpoll store c w HI) as (c' & w' & -> & HI'). destruct (Z.leb_spec interval 0); [lia|]. by apply Hloop.
Qed.
End Run.
