(* ===== verification/QgaCollector.v ===== *)
(** * The guest-agent collector (pkg/qga/collector.go, pkg/qga/metrics.go)

    On every poll the collector finds the virtual machines of the node, keeps one
    connection to each, collects disk counters through their guest agents and
    derives metrics from two snapshots.  A machine whose agent refuses the command
    or fails too often is not asked again.

    The goroutines of a poll work on different machines and different connections,
    under the lock of the machine; here they run one after the other, in an order
    the environment chooses, and PollQga is about all schedules. *)
From S2P Require Import Prelude GoStrings GoFloat GoJson QgaMetrics DiskMap QgaCsv GoEffect Script QmpTypes QmpClient QgaClient PromMetrics ConnPool.

Record CollectorConfig := Config {
  NodeName : string; PollInterval : Z; QGATimeout : Z; ExecWait : Z; MaxRetries : Z; Concurrency : Z; Namespaces : list string; LabelFilter : string;
}.

Inductive stop_reason := NotStopped | CommandBlacklisted | MaxRetriesExceeded (max : Z) (e : err).

Record vmState := VmState {
  vm_client : nat; vm_namespace : string; vm_vmi : string; vm_podName : string;
  prevSnapshot : option (gmap string DiskCounters);
  pvcMap : gmap string string;
  diskMap : gmap Z string;
  retryCount : Z; stopped : bool; stopReason : stop_reason; vm_closed : bool;
}.

Definition set_closed (vs : vmState) : vmState :=
  VmState (vm_client vs) (vm_namespace vs) (vm_vmi vs) (vm_podName vs) (prevSnapshot vs) (pvcMap vs) (diskMap vs)
    (retryCount vs) (stopped vs) (stopReason vs) true.
Definition set_stopped (r : stop_reason) (vs : vmState) : vmState :=
  VmState (vm_client vs) (vm_namespace vs) (vm_vmi vs) (vm_podName vs) (prevSnapshot vs) (pvcMap vs) (diskMap vs)
    (retryCount vs) true r (vm_closed vs).
Definition set_retryCount (n : Z) (vs : vmState) : vmState :=
  VmState (vm_client vs) (vm_namespace vs) (vm_vmi vs) (vm_podName vs) (prevSnapshot vs) (pvcMap vs) (diskMap vs)
    n (stopped vs) (stopReason vs) (vm_closed vs).
(** After a scrape: the new snapshot and claims, and no failures in a row. *)
Definition set_scraped (snap : gmap string DiskCounters) (pvcs : gmap string string) (vs : vmState) : vmState :=
  VmState (vm_client vs) (vm_namespace vs) (vm_vmi vs) (vm_podName vs) (Some snap) pvcs (diskMap vs)
    0 (stopped vs) (stopReason vs) (vm_closed vs).

#[export] Instance vmState_pool : PoolEntry vmState := {| pe_client := vm_client; pe_closed := vm_closed; pe_set_closed := set_closed |}.

Record enrichedDisk := Enriched { ed_metrics : DiskMetrics; ed_Disk : string; ed_PVC : string }.
Record vmiResult := VmiResult { r_Namespace : string; r_Name : string; r_Node : string; r_PodName : string; r_Disks : list enrichedDisk }.

Record Collector := MkCollector {
  vms : gmap string vmState; results : list vmiResult; scrapeErrors : float64; lastPollTS : float64;
}.
Definition NewCollector : Collector := MkCollector ∅ [] f64_0 f64_0.

(** ** Error handling *)

Definition handleScrapeError (cfg : CollectorConfig) (vs : vmState) (e : err) : vmState :=
  match e with
  | ErrCommandBlacklisted => set_stopped CommandBlacklisted vs
  | _ =>
      let vs := set_retryCount (retryCount vs + 1) vs in
      if MaxRetries cfg <=? retryCount vs then set_stopped (MaxRetriesExceeded (MaxRetries cfg) e) vs else vs
  end.

Section Poll.
Context {G : Type} `{Environment G}.
Context (cfg : CollectorConfig) (haveClient : bool).

(** ** Scraping a machine *)

(** The volume of a drive, by the number its name starts with. *)
Definition drive_volume (vs : vmState) (name : string) : option string :=
  idx ← ParseDiskIndex name; diskMap vs !! idx.

(** The loop body over the drives of the current snapshot; the claims are
    fetched again at most once per scrape. *)
Definition scrape_disk (vs : vmState) (prev : gmap string DiskCounters)
    (st : list enrichedDisk * gmap string string * bool) (d : string * DiskCounters)
    : M G (list enrichedDisk * gmap string string * bool) :=
  let '(disks, pvcs, refreshed) := st in
  let '(name, curr) := d in
  match prev !! name with
  | None => ret st
  | Some p =>
      let m := ComputeMetrics p curr in
      if f64_lt f64_0 (ElapsedSec m) then
        match drive_volume vs (dm_Name m) with
        | None => ret (disks ++ [Enriched m EmptyString EmptyString], pvcs, refreshed)
        | Some vol =>
            if bool_decide (label pvcs vol = EmptyString) && negb refreshed then
              let* pvcs' := FetchPVCMap haveClient (vm_namespace vs) (vm_vmi vs) in
              ret (disks ++ [Enriched m vol (label pvcs' vol)], pvcs', true)
            else ret (disks ++ [Enriched m vol (label pvcs vol)], pvcs, refreshed)
        end
      else ret st
  end.

Definition snapshot (counters : list DiskCounters) : gmap string DiskCounters :=
  foldl (λ m dc, <[dc_Name dc := dc]> m) ∅ counters.

Definition scrapeVM (vs : vmState) : M G ((err + option vmiResult) * vmState) :=
  if vm_closed vs then ret (inl ErrClosed, vs) else
  let* counters := CollectDiskCounters (vm_client vs) (QGATimeout cfg) (ExecWait cfg) in
  match counters with
  | inl e => ret (inl e, vs)
  | inr counters =>
      let currSnapshot := snapshot counters in
      let* (disks, pvcs, _) :=
        match prevSnapshot vs with
        | None => ret ([], pvcMap vs, false)
        | Some prev =>
            let* entries := range currSnapshot in
            for_each (scrape_disk vs prev) ([], pvcMap vs, false) entries
        end in
      let vs' := set_scraped currSnapshot pvcs vs in
      match disks with
      | [] => ret (inr None, vs')
      | _ => ret (inr (Some (VmiResult (vm_namespace vs) (vm_vmi vs) (NodeName cfg) (vm_podName vs) disks)), vs')
      end
  end.

(** ** Connecting to a machine *)

Definition fetch_diskMap (client : nat) : M G (gmap Z string) :=
  let* xml := DomainGetXMLDesc client in
  match xml with
  | inl _ => ret ∅
  | inr domainXML =>
      let* guestDisks := GuestGetDisks client (QGATimeout cfg) in
      match guestDisks with
      | inl _ => ret ∅
      | inr gds => ret (default ∅ (BuildDiskMapping (xml_Unmarshal domainXML) gds))
      end
  end.

Definition connectVM (ns vmi podName : string) (pid : Z) : M G (err + vmState) :=
  let sockPath := sock_path pid in
  let* ok := lift (os_Stat sockPath) in
  if negb ok then fail (ErrSystem "virtqemud socket not found" sockPath) else
  try* client := Dial sockPath (ns +:+ "_" +:+ vmi) in
  let* pvcs := FetchPVCMap haveClient ns vmi in
  let* dm := fetch_diskMap client in
  ret (inr (VmState client ns vmi podName None pvcs dm 0 false NotStopped false)).

(** ** A poll *)

Definition active_vm (vs : vmState) : bool := negb (stopped vs || vm_closed vs).

(** One goroutine: scrape, then account for the result. *)
Definition scrape_one (st : gmap string vmState * list vmiResult * Z) (e : string * vmState)
    : M G (gmap string vmState * list vmiResult * Z) :=
  let '(m, rs, errors) := st in
  let '(id, vs) := e in
  if negb (active_vm vs) then ret st else
  let* (res, vs') := scrapeVM vs in
  match res with
  | inl err => ret (<[id := handleScrapeError cfg vs' err]> m, rs, errors + 1)
  | inr None => ret (<[id := vs']> m, rs, errors)
  | inr (Some r) => ret (<[id := vs']> m, rs ++ [r], errors)
  end.

(** A poll ends, or panics when the semaphore has a negative capacity, or
    waits for ever when it has none and there is a machine to scrape. *)
Definition poll (store : list store_object) (c : Collector) : M G (poll_outcome Collector) :=
  let allPods := select_pods (Namespaces cfg) (LabelFilter cfg) store in
  let* vms2 := refresh connectVM allPods (vms c) in
  if Concurrency cfg <? 0 then ret PollPanics else
  let* entries := range vms2 in
  if (Concurrency cfg =? 0) && existsb (λ e, active_vm e.2) entries then ret PollHangs else
  let* (vms3, rs, errors) := for_each scrape_one (vms2, [], 0) entries in
  let* now := lift (λ g, (time_Now g, g)) in
  ret (Polled (MkCollector vms3 rs (f64_add (scrapeErrors c) (f64_of_Z errors)) (f64_of_Z now))).

(** When the process ends. *)
Definition stop (c : Collector) : M G Collector :=
  let* m := closeAll (vms c) in ret (MkCollector m (results c) (scrapeErrors c) (lastPollTS c)).
End Poll.

(** ** Export *)

Inductive qga_desc := latencyAvgDesc | iopsDesc | qgaScrapeErrorsDesc | qgaLastPollDesc.

Definition qga_labels (d : qga_desc) : list string :=
  match d with
  | latencyAvgDesc | iopsDesc => ["namespace"; "name"; "node"; "pod"; "disk"; "persistentvolumeclaim"; "operation"; "drive"]
  | _ => []
  end.

Definition Describe : list qga_desc := [latencyAvgDesc; iopsDesc; qgaScrapeErrorsDesc; qgaLastPollDesc].

Definition positive (x : float64) : bool := f64_lt f64_0 x.

Section Collect.
Context `{!ConstMetrics}.

Definition disk_labels (r : vmiResult) (d : enrichedDisk) (op : string) : list string :=
  [r_Namespace r; r_Name r; r_Node r; r_PodName r; ed_Disk d; ed_PVC d; op; dm_Name (ed_metrics d)].

(** The two metrics of one direction, if it had operations or latency. *)
Definition direction_metrics (r : vmiResult) (d : enrichedDisk) (op : string) (lat iops : float64) : list (option (prom_metric qga_desc)) :=
  if positive iops || positive lat then
    [MustNewConstMetric qga_labels latencyAvgDesc lat (disk_labels r d op);
     MustNewConstMetric qga_labels iopsDesc iops (disk_labels r d op)]
  else [].

Definition disk_metrics (r : vmiResult) (d : enrichedDisk) : list (option (prom_metric qga_desc)) :=
  direction_metrics r d "read" (RdLatSec (ed_metrics d)) (RdIOPS (ed_metrics d)) ++
  direction_metrics r d "write" (WrLatSec (ed_metrics d)) (WrIOPS (ed_metrics d)).

(** [None] when a construction panics. *)
Definition Collect (c : Collector) : option (list (prom_metric qga_desc)) :=
  all_or_panic (
    MustNewConstMetric qga_labels qgaScrapeErrorsDesc (scrapeErrors c) [] ::
    MustNewConstMetric qga_labels qgaLastPollDesc (lastPollTS c) [] ::
    (results c ≫= λ r, r_Disks r ≫= disk_metrics r)).
End Collect.

(** ** Connections *)

Section Connections.
Context {G : Type} `{Environment G}.
Context (cfg : CollectorConfig) (haveClient : bool).

Lemma quiet_fetch_diskMap i : quiet (fetch_diskMap (G := G) cfg i).
Proof. unfold fetch_diskMap. solve_quiet. Qed.

Lemma connectVM_connects : connects (connectVM (G := G) cfg haveClient).
Proof.
  intros ns vmi pod pid w Hn. unfold connectVM. cbv zeta. unfold bind at 1.
  pose proof (quiet_lift (os_Stat (sock_path pid)) w) as Hst. destruct (lift _ w) as [ok w1]. cbn [snd] in Hst.
  pose proof (quiet_calm _ _ Hst) as Hcalm. destruct ok; [|done]. cbn [negb]. unfold try at 1, bind at 1.
  pose proof (Dial_spec (sock_path pid) (ns +:+ "_" +:+ vmi) w1 (numbered_calm _ _ Hn Hcalm)) as Hd.
  destruct (Dial _ _ w1) as [[e|i] w2]; [by eapply calm_trans|]. destruct Hd as (-> & Hcs & Hcl & Hf).
  unfold bind. pose proof (quiet_FetchPVCMap haveClient ns vmi w2) as Hp. destruct (FetchPVCMap _ _ _ w2) as [pvcs w3]. cbn [snd] in Hp.
  pose proof (quiet_fetch_diskMap (fresh w1) w3) as Hm. destruct (fetch_diskMap cfg (fresh w1) w3) as [dm w4]. cbn [snd] in Hm.
  destruct Hst as (Hs1 & Hs2 & Hs3 & _), Hp as (Hp1 & Hp2 & Hp3 & _), Hm as (Hm1 & Hm2 & Hm3 & _).
  unfold fresh_entry. cbn. split_and!; [congruence..|lia].
Qed.

Lemma quiet_scrape_disk vs prev st d : quiet (scrape_disk (G := G) haveClient vs prev st d).
Proof. destruct st as [[disks pvcs] refreshed], d as [name curr]. unfold scrape_disk. cbv zeta. solve_quiet. Qed.

Lemma quiet_scrapeVM vs : quiet (scrapeVM (G := G) cfg haveClient vs).
Proof.
  unfold scrapeVM. destruct (vm_closed vs); [apply quiet_ret|]. apply quiet_bind; [apply quiet_CollectDiskCounters|]. intros [e|cs]; [apply quiet_ret|].
  cbv zeta. apply quiet_bind.
  - destruct (prevSnapshot vs); [|apply quiet_ret]. apply quiet_bind; [apply quiet_range|]. intros l. apply quiet_for_each. intros. apply quiet_scrape_disk.
  - intros [[disks pvcs] r]. destruct disks; apply quiet_ret.
Qed.

(** A scrape keeps the connection, and whether the machine is stopped. *)
Definition same_vm (vs vs' : vmState) : Prop :=
  vm_client vs' = vm_client vs ∧ vm_closed vs' = vm_closed vs ∧ stopped vs' = stopped vs.

Lemma scrapeVM_same vs w : same_vm vs (scrapeVM (G := G) cfg haveClient vs w).1.2.
Proof.
  unfold scrapeVM. destruct (vm_closed vs) eqn:Hc; [done|]. unfold bind at 1.
  destruct (CollectDiskCounters _ _ _ w) as [[e|cs] w1]; [done|]. cbv zeta. unfold bind at 1.
  set (k := match prevSnapshot vs with Some _ => _ | None => _ end). destruct (k w1) as [[[disks pvcs] r] w2].
  by destruct disks.
Qed.

Lemma handleScrapeError_client vs e :
  vm_client (handleScrapeError cfg vs e) = vm_client vs ∧ vm_closed (handleScrapeError cfg vs e) = vm_closed vs.
Proof. destruct e; cbn; try done; by destruct (_ <=? _). Qed.

(** What one turn of the scrape loop does to the map. *)
Lemma scrape_one_inv m rs n id vs w :
  pool_inv m w → m !! id = Some vs →
  let '(m', _, _) := (scrape_one cfg haveClient (m, rs, n) (id, vs) w).1 in
  pool_inv m' (scrape_one cfg haveClient (m, rs, n) (id, vs) w).2 ∧
  (∀ id', id' ≠ id → m' !! id' = m !! id') ∧ is_Some (m' !! id) ∧ (active_vm vs = false → m' = m).
Proof.
  intros Hinv Hs. unfold scrape_one. destruct (active_vm vs) eqn:Ha; cbn [negb]; [|cbn; split_and!; [done|done|by eexists|done]].
  pose proof (pool_quiet m _ w (quiet_scrapeVM vs) Hinv) as Hq. pose proof (scrapeVM_same vs w) as (Hcl & Hcd & _).
  destruct (pi_open _ _ Hinv _ _ Hs) as (Hopen & _ & _). cbn [pe_closed vmState_pool] in Hopen. unfold bind.
  destruct (scrapeVM cfg haveClient vs w) as [[res vs'] w']. cbn [fst snd] in *.
  assert (Hup : ∀ v, vm_client v = vm_client vs → vm_closed v = false →
    pool_inv (<[id := v]> m) w' ∧ (∀ id', id' ≠ id → <[id := v]> m !! id' = m !! id') ∧ is_Some (<[id := v]> m !! id) ∧ (true = false → <[id := v]> m = m)).
  { intros v H1 H2. split_and!; [by eapply pool_update|intros; by rewrite lookup_insert_ne|by rewrite lookup_insert_eq|done]. }
  destruct res as [e|[r|]]; cbn; [|apply Hup; congruence..].
  apply Hup; destruct (handleScrapeError_client vs' e); congruence.
Qed.

(** [vs] becomes [vs'] by a turn of the scrape loop, in some circumstances; [r] is
    the scrape if there was one, with its result. *)
Definition vm_turn (id : string) (vs : vmState) (r : option (err + option vmiResult)) (vs' : vmState) : Prop :=
  ∃ m rs n w, m !! id = Some vs ∧ (scrape_one cfg haveClient (m, rs, n) (id, vs) w).1.1.1 !! id = Some vs' ∧
    r = if active_vm vs then Some (scrapeVM cfg haveClient vs w).1.1 else None.

(** The scrape loop, started in [m0], with [l] left to visit. *)
Definition scraping (m0 : gmap string vmState) (st : gmap string vmState * list vmiResult * Z) (l : list (string * vmState)) (w : world G) : Prop :=
  let '(m, _, _) := st in
  pool_inv m w ∧ to_visit m l ∧ to_visit m0 l ∧ (∀ id, is_Some (m !! id) ↔ is_Some (m0 !! id)) ∧
  (∀ id vs, m0 !! id = Some vs → active_vm vs = false → m !! id = Some vs) ∧
  (∀ id vs, m0 !! id = Some vs → id ∈ l.*1 ∨ ∃ r vs', m !! id = Some vs' ∧ vm_turn id vs r vs').

Lemma scraping_step m0 st x l w :
  scraping m0 st (x :: l) w → scraping m0 (scrape_one cfg haveClient st x w).1 l (scrape_one cfg haveClient st x w).2.
Proof.
  destruct st as [[m rs] n], x as [id vs]. intros (Hinv & Hv & Hv0 & Hdom & Hkeep & Hturn).
  apply to_visit_cons in Hv as (Hs & Hv & Hid), Hv0 as (Hs0 & Hv0 & _).
  pose proof (scrape_one_inv m rs n id vs w Hinv Hs) as Hone.
  assert (Hnow : ∀ vs', (scrape_one cfg haveClient (m, rs, n) (id, vs) w).1.1.1 !! id = Some vs' → ∃ r, vm_turn id vs r vs')
    by (intros vs' E; eexists; exists m, rs, n, w; done).
  destruct (scrape_one cfg haveClient (m, rs, n) (id, vs) w) as [[[m' rs'] n'] w']. cbn [fst snd] in *.
  destruct Hone as (Hinv' & Hother & Hsome & Hsame). split_and!; [done| |done|..].
  - exact (to_visit_other m m' l id Hv Hid Hother).
  - intros id'. destruct (decide (id' = id)) as [->|Hne]; [|by rewrite Hother]. split; intros _; [by eexists|done].
  - intros id' vs' E Ha. destruct (decide (id' = id)) as [->|Hne]; [|rewrite Hother by done; by apply Hkeep].
    simplify_eq. rewrite (Hsame Ha). by apply Hkeep.
  - intros id' vs' E. destruct (decide (id' = id)) as [->|Hne].
    + right. assert (vs' = vs) as -> by congruence. destruct Hsome as [v Hv']. destruct (Hnow v Hv') as [r Hr]. by exists r, v.
    + rewrite Hother by done. destruct (Hturn id' vs' E) as [Hl|?]; [|by right]. left.
      cbn in Hl. by apply elem_of_cons in Hl as [|].
Qed.

Lemma scrape_loop m w entries :
  pool_inv m w → to_visit m entries → (∀ id vs, m !! id = Some vs → (id, vs) ∈ entries) →
  let '(m', _, _) := (for_each (scrape_one cfg haveClient) (m, [], 0) entries w).1 in
  pool_inv m' (for_each (scrape_one cfg haveClient) (m, [], 0) entries w).2 ∧
  (∀ id, is_Some (m' !! id) ↔ is_Some (m !! id)) ∧
  (∀ id vs, m !! id = Some vs → active_vm vs = false → m' !! id = Some vs) ∧
  (∀ id vs, m !! id = Some vs → ∃ r vs', m' !! id = Some vs' ∧ vm_turn id vs r vs').
Proof.
  intros Hinv Hv Hall. pose proof (for_each_ind _ (scraping m) (scraping_step m) entries (m, [], 0) w) as Hind.
  destruct (for_each _ _ entries w) as [[[m' rs] n] w']. cbn [fst snd] in *.
  destruct Hind as (Hi & _ & _ & Hd & Hk & Ht).
  { split_and!; [done..|]. intros id vs E. left. apply list_elem_of_fmap. exists (id, vs). auto. }
  split_and!; [done..|]. intros id vs E. by destruct (Ht id vs E) as [?%elem_of_nil|].
Qed.

(** A poll that ends keeps the invariant, has states for running containers
    only, leaves machines that are stopped as they are, and gives every other
    machine it knew one turn. *)
Lemma poll_spec store c w c' w' :
  pool_inv (vms c) w → poll cfg haveClient store c w = (Polled c', w') →
  let targets := (for_each find_target [] (select_pods (Namespaces cfg) (LabelFilter cfg) store) w).1 in
  pool_inv (vms c') w' ∧
  (∀ id, is_Some (vms c' !! id) → id ∈ targets.*2) ∧
  (∀ id vs, vms c !! id = Some vs → active_vm vs = false → id ∈ targets.*2 → vms c' !! id = Some vs) ∧
  (∀ id vs, vms c !! id = Some vs → id ∈ targets.*2 → ∃ r vs', vms c' !! id = Some vs' ∧ vm_turn id vs r vs').
Proof.
  intros Hinv. unfold poll. cbv zeta. unfold bind at 1. set (pods := select_pods _ _ _).
  pose proof (refresh_spec (connectVM cfg haveClient) pods (vms c) w connectVM_connects Hinv) as Hr.
  destruct (refresh _ pods (vms c) w) as [m2 w2]. destruct Hr as (H2 & Hkeep & Hdom & _).
  destruct (Concurrency cfg <? 0); [done|]. unfold bind at 1. destruct (range_entries m2 w2) as [Hnd Hin].
  destruct (range_spec m2 w2) as [_ Hw]. destruct (range m2 w2) as [entries w2']. cbn [fst snd] in *. subst w2'.
  destruct ((_ =? 0) && _); [done|]. unfold bind.
  pose proof (scrape_loop m2 w2 entries H2) as Hl.
  destruct (for_each (scrape_one cfg haveClient) (m2, [], 0) entries w2) as [[[m3 rs] n] w3]. cbn [fst snd] in Hl.
  destruct Hl as (H3 & Hd3 & Hk3 & Ht3); [split; [done|]; intros; by apply Hin|intros; by apply Hin|].
  pose proof (pool_quiet m3 _ w3 (quiet_lift (λ g, (time_Now g, g))) H3) as H4.
  destruct (lift _ w3) as [now w4]. cbn [snd] in H4. intros [= <- <-]. cbn [vms]. split_and!; [done|..].
  - intros id Hs. apply Hdom, elem_of_dom. by apply Hd3.
  - intros id vs Hs Ha Ht. apply Hk3; [|done]. by apply Hkeep.
  - intros id vs Hs Ht. by apply Ht3, Hkeep.
Qed.
End Connections.

(** ** Every state the collector can be in *)

(** Polls, with anything happening outside between them. *)
Inductive reachable {G} `{Environment G} (cfg : CollectorConfig) (haveClient : bool) : Collector → world G → Prop :=
  | reach_new w : conns w = ∅ → closed w = ∅ → reachable cfg haveClient NewCollector w
  | reach_outside c w g : reachable cfg haveClient c w → reachable cfg haveClient c (World g (conns w) (closed w) (fresh w) (trace w))
  | reach_poll c w store c' w' :
      reachable cfg haveClient c w → poll cfg haveClient store c w = (Polled c', w') → reachable cfg haveClient c' w'.

Lemma reachable_inv {G} `{Environment G} cfg haveClient c (w : world G) :
  reachable cfg haveClient c w → pool_inv (vms c) w.
Proof.
  induction 1 as [w Hc Hd|c w g _ IH|c w store c' w' _ IH Hp].
  - change (vms NewCollector) with (∅ : gmap string vmState). split; [by intros id s Hs; rewrite lookup_empty in Hs|by intros id1 id2 s1 s2 Hs; rewrite lookup_empty in Hs|..].
    + intros n. rewrite Hc. set_solver.
    + intros n. rewrite Hc, Hd. set_solver.
  - eapply pool_calm; [done|]. split_and!; [done..|]. cbn. lia.
  - by eapply poll_spec in Hp as [? _].
Qed.

Lemma qga_poll_total {G} `{Environment G} cfg haveClient store c (w : world G) :
  0 < Concurrency cfg → ∃ c' w', poll cfg haveClient store c w = (Polled c', w').
Proof.
  intros Hc. unfold poll. cbv zeta. unfold bind. destruct (refresh _ _ _ w) as [m w1]. destruct (Z.ltb_spec (Concurrency cfg) 0); [lia|].
  destruct (range m w1) as [entries w2]. destruct (Z.eqb_spec (Concurrency cfg) 0); [lia|]. cbn [andb].
  destruct (for_each _ _ entries w2) as [[[m' rs] n'] w3]. destruct (lift _ w3) as [now w4]. by eexists _, _.
Qed.

Lemma qga_stop_clean {G} `{Environment G} c (w : world G) :
  pool_inv (vms c) w → vms (stop c w).1 = ∅ ∧ conns (stop c w).2 = ∅.
Proof.
  intros Hinv. unfold stop, bind. pose proof (closeAll_spec (vms c) w Hinv) as Hc. destruct (closeAll (vms c) w).
  by destruct Hc as (? & ? & _).
Qed.

(** C13.  The guest-agent collector neither leaks nor loses connections: in every
    state it can reach, the open connections are exactly those of the machines it
    knows, one each, and none of these was closed; the machines it knows after a
    poll are ones whose container was just found running; and when the collector
    stops, no connection stays open.  This holds whatever dials, look-ups and
    agents answer. *)
Theorem qga_connections {G} `{Environment G} cfg haveClient c (w : world G) :
  reachable cfg haveClient c w →
  (∀ n, n ∈ conns w ↔ ∃ id vs, vms c !! id = Some vs ∧ vm_client vs = n) ∧
  (∀ id1 id2 vs1 vs2, vms c !! id1 = Some vs1 → vms c !! id2 = Some vs2 → vm_client vs1 = vm_client vs2 → id1 = id2) ∧
  (∀ id vs, vms c !! id = Some vs → vm_closed vs = false ∧ vm_client vs ∉ closed w) ∧
  (∀ store c' w', poll cfg haveClient store c w = (Polled c', w') →
     ∀ id, is_Some (vms c' !! id) →
     id ∈ (for_each find_target [] (select_pods (Namespaces cfg) (LabelFilter cfg) store) w).1.*2) ∧
  vms (stop c w).1 = ∅ ∧ conns (stop c w).2 = ∅.
Proof.
  intros Hr. pose proof (reachable_inv _ _ _ _ Hr) as Hinv. pose proof Hinv as [Ho Hi Hw _]. split_and!.
  - intros n. split; [apply Hw|]. intros (id & vs & Hs & <-). by apply (Ho id).
  - exact Hi.
  - intros id vs Hs. by destruct (Ho _ _ Hs) as (? & _ & ?).
  - intros store c' w' Hp. by apply (poll_spec cfg haveClient store c w c' w' Hinv Hp).
  - by apply qga_stop_clean.
  - by apply qga_stop_clean.
Qed.

Lemma qga_run_clean {G} `{Environment G} cfg haveClient store ticks (w : world G) :
  0 < PollInterval cfg → 0 < Concurrency cfg → conns w = ∅ → closed w = ∅ →
  ∃ c' w', Run (poll cfg haveClient) stop (PollInterval cfg) store ticks NewCollector w = (Polled c', w') ∧ conns w' = ∅.
Proof.
  intros Hi Hc Ho Hcl. apply (Run_ends _ _ (reachable cfg haveClient)); [|by intros c w1 [_ ?]%reachable_inv%qga_stop_clean|done|by apply reach_new].
  intros s c w1 Hr. destruct (qga_poll_total cfg haveClient s c w1 Hc) as (c' & w' & E). exists c', w'. split; [done|]. by eapply reach_poll.
Qed.

(** With a period and a concurrency that are positive, a run of the guest-agent
    collector neither panics nor hangs: whatever pods there are at each tick and
    whatever agents answer, every poll ends, and when the context is done all
    connections have been closed. *)
Theorem qga_run_ends {G} `{Environment G} cfg haveClient store ticks (w : world G) :
  0 < PollInterval cfg → 0 < Concurrency cfg → conns w = ∅ → closed w = ∅ →
  ∃ c' w', Run (poll cfg haveClient) stop (PollInterval cfg) store ticks NewCollector w = (Polled c', w') ∧ conns w' = ∅.
Proof. apply qga_run_clean. Qed.

(** ** Machines that are not asked again *)

Section Stopped.
Context {G : Type} `{Environment G}.
Context (cfg : CollectorConfig) (haveClient : bool) (i : nat).

Lemma spares_connectVM ns vmi pod pid : spares i (connectVM (G := G) cfg haveClient ns vmi pod pid).
Proof.
  intros w Hi. unfold connectVM. cbv zeta. unfold bind at 1.
  pose proof (spares_lift i (os_Stat (sock_path pid)) w Hi) as H1. destruct (lift _ w) as [ok w1]. cbn [snd] in H1.
  destruct ok; [|done]. cbn [negb]. unfold try at 1, bind at 1. assert (Hi1 : (i < fresh w1)%nat) by (destruct H1 as [? _]; lia).
  pose proof (Dial_spares i (sock_path pid) (ns +:+ "_" +:+ vmi) w1 Hi1) as H2.
  pose proof (Dial_number (sock_path pid) (ns +:+ "_" +:+ vmi) w1) as Hj.
  destruct (Dial _ _ w1) as [[e|j] w2]; cbn [fst snd] in *; [by eapply spared_trans|]. specialize (Hj j eq_refl). subst j.
  eapply spared_trans; [by eapply spared_trans|]. assert (Hi2 : (i < fresh w2)%nat) by (destruct H2 as [? _]; lia). revert Hi2.
  assert (Hne : fresh w1 ≠ i) by lia.
  assert (Hrest : spares i (let* pvcs := FetchPVCMap haveClient ns vmi in
    let* dm := fetch_diskMap cfg (fresh w1) in
    ret (inr (VmState (fresh w1) ns vmi pod None pvcs dm 0 false NotStopped false) : err + vmState))).
  { pose proof (spares_GuestGetDisks (G := G) i (fresh w1) Hne). unfold fetch_diskMap. solve_spares. }
  apply Hrest.
Qed.

Lemma spares_scrapeVM vs : vm_client vs ≠ i → spares i (scrapeVM (G := G) cfg haveClient vs).
Proof.
  intros Hne. unfold scrapeVM. destruct (vm_closed vs); [apply spares_ret|]. apply spares_bind; [by apply spares_CollectDiskCounters|].
  intros [e|cs]; [apply spares_ret|]. cbv zeta. apply spares_bind.
  - destruct (prevSnapshot vs); [|apply spares_ret]. apply spares_bind; [apply spares_range|]. intros l. apply spares_for_each.
    intros [[disks pvcs] r] [name curr] _. unfold scrape_disk. cbv zeta. solve_spares.
  - intros [[disks pvcs] r]. destruct disks; apply spares_ret.
Qed.

Lemma spares_scrape_one st id vs : vm_client vs ≠ i ∨ active_vm vs = false → spares i (scrape_one (G := G) cfg haveClient st (id, vs)).
Proof.
  intros Hor. destruct st as [[m rs] n]. unfold scrape_one. destruct (active_vm vs) eqn:Ha; cbn [negb]; [|apply spares_ret].
  destruct Hor as [Hne|]; [|done]. apply spares_bind; [by apply spares_scrapeVM|]. intros [[e|[r|]] vs']; apply spares_ret.
Qed.
End Stopped.

(** C35.  Stopped means stopped: a machine that was given up (its agent refuses the
    command, or failed too often) is sent no further command by a poll, and keeps
    its state as long as its container is found; otherwise it is forgotten. *)
Theorem stopped_vm_silent {G} `{Environment G} cfg haveClient store c (w : world G) c' w' id vs :
  reachable cfg haveClient c w → vms c !! id = Some vs → stopped vs = true →
  poll cfg haveClient store c w = (Polled c', w') →
  (∃ es, trace w' = trace w ++ es ∧ ∀ cmd t, Agent (vm_client vs) cmd t ∉ es) ∧
  (vms c' !! id = Some vs ∨
   vms c' !! id = None ∧ id ∉ (for_each find_target [] (select_pods (Namespaces cfg) (LabelFilter cfg) store) w).1.*2).
Proof.
  intros Hr Hs Hst Hp. pose proof (reachable_inv _ _ _ _ Hr) as Hinv.
  assert (Hina : active_vm vs = false) by (unfold active_vm; by rewrite Hst).
  split; [|destruct (poll_spec _ _ _ _ _ _ _ Hinv Hp) as (_ & Hdom & Hkeep & _);
    destruct (decide (id ∈ (for_each find_target [] (select_pods (Namespaces cfg) (LabelFilter cfg) store) w).1.*2));
    [left; by apply Hkeep|right; split; [|done]; apply eq_None_not_Some; auto]].
  set (i := vm_client vs). assert (Hi : (i < fresh w)%nat).
  { apply (pi_numbered _ _ Hinv). left. by destruct (pi_open _ _ Hinv _ _ Hs) as (_ & ? & _). }
  assert (Hsp : spared i w w'); [|destruct Hsp as (_ & es & Ht & He); exists es; split; [done|]; intros cmd t Hin;
    by apply (proj1 (Forall_forall _ _) He _ Hin)].
  revert Hp. unfold poll. cbv zeta. unfold bind at 1. set (pods := select_pods _ _ _).
  pose proof (refresh_spec (connectVM cfg haveClient) pods (vms c) w (connectVM_connects _ _) Hinv) as Hrf.
  pose proof (spares_refresh (connectVM cfg haveClient) i pods (vms c) (spares_connectVM cfg haveClient i) w Hi) as H1.
  destruct (refresh _ pods (vms c) w) as [m2 w2]. destruct Hrf as (H2 & _ & _ & Hnew). cbn [snd] in H1.
  destruct (Concurrency cfg <? 0); [done|]. unfold bind at 1. destruct (range_entries m2 w2) as [_ Hin].
  destruct (range_spec m2 w2) as [_ Hw]. destruct (range m2 w2) as [entries w2']. cbn [fst snd] in *. subst w2'.
  destruct ((_ =? 0) && _); [done|].
  assert (Hloop : spares i (let* (vms3, rs, errors) := for_each (scrape_one cfg haveClient) (m2, [], 0) entries in
    let* now := lift (λ g, (time_Now g, g)) in
    ret (Polled (MkCollector vms3 rs (f64_add (scrapeErrors c) (f64_of_Z errors)) (f64_of_Z now))))).
  { apply spares_bind; [|intros [[m3 rs] n]; apply spares_bind; [apply spares_lift|intros; apply spares_ret]].
    apply spares_for_each. intros st [id' vs'] Hx. apply spares_scrape_one. apply Hin in Hx. destruct (Hnew _ _ Hx) as [Hold|Hge].
    - destruct (decide (vm_client vs' = i)) as [He|]; [|by left]. right. assert (id' = id) as -> by (by eapply (pi_inj _ _ Hinv)). by simplify_eq.
    - left. cbn in Hge. lia. }
  intros Hp. eapply spared_trans; [exact H1|]. specialize (Hloop w2 ltac:(destruct H1; lia)). by rewrite Hp in Hloop.
Qed.

(** ** When a machine is given up *)














Definition example_cfg : CollectorConfig := Config "node-1" 60000000000 10 1000000000 3 8 [] "".

(** ** What a scrape reports *)

(** The metrics of a drive that is in both snapshots, if time has passed. *)
Definition drive_metrics (prev : gmap string DiskCounters) (d : string * DiskCounters) : option DiskMetrics :=
  p ← prev !! d.1;
  let m := ComputeMetrics p d.2 in
  if f64_lt f64_0 (ElapsedSec m) then Some m else None.

(** A reported drive: its volume if it is known, and that volume's claim in one of
    the two claim maps. *)
Definition attributed (vs : vmState) (pvcs : gmap string string) (d : enrichedDisk) : Prop :=
  match drive_volume vs (dm_Name (ed_metrics d)) with
  | None => ed_Disk d = EmptyString ∧ ed_PVC d = EmptyString
  | Some vol => ed_Disk d = vol ∧ (ed_PVC d = label (pvcMap vs) vol ∨ ed_PVC d = label pvcs vol)
  end.

Section Scrape.
Context {G : Type} `{Environment G}.
Context (cfg : CollectorConfig) (haveClient : bool) (vs : vmState) (prev : gmap string DiskCounters).

Definition fetched (refreshed : bool) : list event := if refreshed && haveClient then [FetchVMI (vm_namespace vs) (vm_vmi vs)] else [].

(** The loop over the drives, with [l] of [entries] left. *)
Definition scraping_disks (entries : list (string * DiskCounters)) (t0 : list event)
    (st : list enrichedDisk * gmap string string * bool) (l : list (string * DiskCounters)) (w : world G) : Prop :=
  let '(disks, pvcs, refreshed) := st in
  (∃ seen, entries = seen ++ l ∧ ed_metrics <$> disks = omap (drive_metrics prev) seen) ∧
  Forall (attributed vs pvcs) disks ∧ (refreshed = false → pvcs = pvcMap vs) ∧ trace w = t0 ++ fetched refreshed.

Lemma scraping_disks_step entries t0 st x l w :
  scraping_disks entries t0 st (x :: l) w →
  scraping_disks entries t0 (scrape_disk haveClient vs prev st x w).1 l (scrape_disk haveClient vs prev st x w).2.
Proof.
  destruct st as [[disks pvcs] refreshed], x as [name curr]. intros ((seen & -> & Hm) & Hatt & Hold & Ht).
  assert (Hsnoc : ∀ o, drive_metrics prev (name, curr) = o → ∀ ds pv, ed_metrics <$> ds = omap (drive_metrics prev) seen ++ option_list o →
    Forall (attributed vs pv) ds → ∀ r w', (r = false → pv = pvcMap vs) → trace w' = t0 ++ fetched r →
    scraping_disks (seen ++ (name, curr) :: l) t0 (ds, pv, r) l w').
  { intros o Ho ds pv Hds Hpv r w' Hr Ht'. split_and!; [|done..]. exists (seen ++ [(name, curr)]). rewrite <- app_assoc. split; [done|].
    rewrite omap_app. cbn [omap list_omap]. rewrite Ho, Hds. by destruct o. }
  unfold scrape_disk. unfold drive_metrics in Hsnoc. cbn [fst snd] in Hsnoc. destruct (prev !! name) as [p|] eqn:Hp.
  2:{ cbn. eapply Hsnoc; [reflexivity|by rewrite Hm, app_nil_r|done..]. }
  rewrite bind_Some_l in Hsnoc. cbv zeta in Hsnoc |- *. set (m := ComputeMetrics p curr) in *. clearbody m.
  destruct (f64_lt f64_0 (ElapsedSec m)).
  2:{ cbn. eapply Hsnoc; [reflexivity|by rewrite Hm, app_nil_r|done..]. }
  assert (Hadd : ∀ d, ed_metrics d = m → ed_metrics <$> disks ++ [d] = omap (drive_metrics prev) seen ++ [m]).
  { intros d Hd. rewrite fmap_app, Hm. cbn. by rewrite Hd. }
  destruct (drive_volume vs (dm_Name m)) as [vol|] eqn:Hvol.
  2:{ cbn. eapply Hsnoc; [reflexivity|by apply Hadd| |done..]. apply Forall_app. split; [done|]. apply Forall_singleton.
      unfold attributed. cbn. by rewrite Hvol. }
  assert (Hat : ∀ pv pvc, pvc = label (pvcMap vs) vol ∨ pvc = label pv vol → attributed vs pv (Enriched m vol pvc)).
  { intros pv pvc Hor. unfold attributed. cbn. by rewrite Hvol. }
  destruct (bool_decide _ && negb refreshed) eqn:Hc.
  - apply andb_true_iff in Hc as [_ Hr%negb_true_iff]. subst refreshed. rewrite (Hold eq_refl) in *. unfold bind.
    pose proof (FetchPVCMap_trace haveClient (vm_namespace vs) (vm_vmi vs) w) as Hf. destruct (FetchPVCMap _ _ _ w) as [pvcs' w']. cbn [snd] in Hf. cbn.
    eapply Hsnoc; [reflexivity|by apply Hadd| |done|]; [|by rewrite Hf, Ht; unfold fetched; cbn; rewrite app_nil_r].
    apply Forall_app. split; [|apply Forall_singleton; apply Hat; by right].
    eapply Forall_impl; [exact Hatt|]. intros d Hd. unfold attributed in *. destruct (drive_volume vs (dm_Name (ed_metrics d))); [|done]. destruct Hd as [? [?|?]]; auto.
  - cbn. eapply Hsnoc; [reflexivity|by apply Hadd| |done..]. apply Forall_app. split; [done|]. apply Forall_singleton, Hat. by right.
Qed.
End Scrape.

Lemma scrape_exact {G} `{Environment G} cfg haveClient vs prev counters (w w1 : world G) :
  vm_closed vs = false → prevSnapshot vs = Some prev →
  CollectDiskCounters (vm_client vs) (QGATimeout cfg) (ExecWait cfg) w = (inr counters, w1) →
  ∃ disks pvcs w', scrapeVM cfg haveClient vs w =
    (inr match disks with [] => None | _ => Some (VmiResult (vm_namespace vs) (vm_vmi vs) (NodeName cfg) (vm_podName vs) disks) end,
     set_scraped (snapshot counters) pvcs vs, w') ∧
  ed_metrics <$> disks ≡ₚ omap (drive_metrics prev) (map_to_list (snapshot counters)) ∧
  Forall (attributed vs pvcs) disks ∧
  ∃ refreshed, trace w' = trace w1 ++ fetched haveClient vs refreshed.
Proof.
  intros Hcl Hp Hc. unfold scrapeVM. rewrite Hcl, Hp. unfold bind at 1. rewrite Hc. cbv zeta. unfold bind at 1. unfold bind at 1.
  destruct (range_spec (snapshot counters) w1) as [Hperm Hw]. destruct (range (snapshot counters) w1) as [entries w1']. cbn [fst snd] in *. subst w1'.
  pose proof (for_each_ind _ (scraping_disks haveClient vs prev entries (trace w1)) (scraping_disks_step haveClient vs prev entries (trace w1)) entries
    ([], pvcMap vs, false) w1) as Hind.
  destruct (for_each _ _ entries w1) as [[[disks pvcs] r] w2]. cbn [fst snd] in Hind.
  destruct Hind as ((seen & Hseen & Hm) & Hatt & _ & Ht); [split_and!; [by exists []|constructor|done|by rewrite app_nil_r]|].
  rewrite app_nil_r in Hseen. subst seen. exists disks, pvcs, w2. split_and!; [by destruct disks| |done|by exists r].
  rewrite Hm. by rewrite Hperm.
Qed.

(** C16.  A scrape reports what the counters say: once a machine has a snapshot, the
    next successful scrape reports exactly the drives that are in both snapshots
    and for which time has passed, each once with the metrics ComputeMetrics gives,
    under the volume its number is mapped to and that volume's claim; claims are
    fetched at most once per scrape; the new snapshot replaces the old one and the
    failures in a row are forgotten. *)
Theorem qga_scrape_exact {G} `{Environment G} cfg haveClient vs prev counters (w w1 : world G) :
  vm_closed vs = false → prevSnapshot vs = Some prev →
  CollectDiskCounters (vm_client vs) (QGATimeout cfg) (ExecWait cfg) w = (inr counters, w1) →
  ∃ disks pvcs w', scrapeVM cfg haveClient vs w =
    (inr match disks with [] => None | _ => Some (VmiResult (vm_namespace vs) (vm_vmi vs) (NodeName cfg) (vm_podName vs) disks) end,
     set_scraped (snapshot counters) pvcs vs, w') ∧
  ed_metrics <$> disks ≡ₚ omap (drive_metrics prev) (map_to_list (snapshot counters)) ∧
  Forall (attributed vs pvcs) disks ∧
  ∃ refreshed, trace w' = trace w1 ++ fetched haveClient vs refreshed.
Proof. apply scrape_exact. Qed.

(** ** Export *)

Section Exported.
Context `{!ConstMetrics}.

(** The labels of everything a collector exports. *)
Definition exported_labels (c : Collector) : list (list string) :=
  results c ≫= λ r, r_Disks r ≫= λ d,
    (if positive (RdIOPS (ed_metrics d)) || positive (RdLatSec (ed_metrics d)) then [disk_labels r d "read"] else []) ++
    (if positive (WrIOPS (ed_metrics d)) || positive (WrLatSec (ed_metrics d)) then [disk_labels r d "write"] else []).

Lemma direction_is_Some r d op lat iops :
  Forall is_Some (direction_metrics r d op lat iops) ↔
  (positive iops || positive lat = true → Forall (λ v, valid_utf8 0 v = true) (disk_labels r d op)).
Proof.
  unfold direction_metrics. destruct (positive iops || positive lat); [|split; [done|constructor]].
  rewrite !Forall_cons, !MustNewConstMetric_Some, Forall_nil. cbn [length disk_labels qga_labels]. tauto.
Qed.

Lemma Collect_ok c :
  is_Some (Collect c) ↔ Forall (Forall (λ v, valid_utf8 0 v = true)) (exported_labels c).
Proof.
  unfold Collect, exported_labels. rewrite all_or_panic_is_Some, !Forall_cons, !MustNewConstMetric_Some.
  assert (Hb : ∀ {A B} (P : B → Prop) (f : A → list B) l, Forall P (l ≫= f) ↔ Forall (λ x, Forall P (f x)) l).
  { intros A B P f l. induction l as [|x l IH]; cbn; [split; constructor|]. by rewrite Forall_app, Forall_cons, IH. }
  assert (Hif : ∀ {A} (P : A → Prop) (b : bool) x, Forall P (if b then [x] else []) ↔ (b = true → P x)).
  { intros A P b x. destruct b; [rewrite Forall_singleton; naive_solver|split; [done|constructor]]. }
  assert (Hdisks : Forall is_Some (results c ≫= λ r, r_Disks r ≫= disk_metrics r) ↔
    Forall (Forall (λ v, valid_utf8 0 v = true)) (exported_labels c)).
  { unfold exported_labels. rewrite !Hb. apply Forall_iff. intros r. rewrite !Hb. apply Forall_iff. intros d.
    unfold disk_metrics. by rewrite !Forall_app, !direction_is_Some, !Hif. }
  fold (exported_labels c). rewrite <- Hdisks. cbn [length qga_labels]. rewrite !Forall_nil. tauto.
Qed.
End Exported.

(** ** Examples *)

Definition example_pod : pod :=
  Pod "virt-launcher-db" "prod" true {[ "kubevirt.io" := "virt-launcher"; "vm.kubevirt.io/name" := "db" ]}.
Definition example_store : list store_object := [PodObject example_pod; OtherObject].

(** A machine with one drive of the given name, for two polls: reads happen in
    the ten seconds between them. *)
Definition drive_text (name : string) (ops ts : Z) : string :=
  print_csv [powershell_header; counter_row (Counters name (ops * 50000) 0 ops 0 ts)].
Definition drive_script (name : string) : script :=
  Script [answer (JArr []);
          answer (JObj [("pid", JInt 11)]); finished (drive_text name 100 1000000000);
          answer (JObj [("pid", JInt 12)]); finished (drive_text name 300 1100000000)]
    [] [("virt-launcher-db", "c1")] [("c1", 4242)] None None 0.

Definition two_polls (s : script) : option (Collector * world script) :=
  match poll example_cfg false example_store NewCollector (start s 0) with
  | (Polled c, w) =>
      match poll example_cfg false example_store c w with
      | (Polled c', w') => Some (c', w')
      | _ => None
      end
  | _ => None
  end.

Definition bad_name : string := String "0" (String " " (String (chr 255) ":")).

(** A guest can crash the exporter: drive names come from the guest through
    base64 and are not checked, and a label that is not UTF-8 makes the export
    panic.  With a drive name of bytes 30 20 FF 3A in its counters, two polls
    succeed and the next scrape of the metrics panics; with an ordinary name the
    same polls export the reads.  In general the export succeeds exactly if all
    labels are valid UTF-8. *)
Theorem guest_drive_name_panics `{!ConstMetrics} :
  (∃ c w, two_polls (drive_script bad_name) = Some (c, w) ∧ Collect c = None) ∧
  (∃ c w, two_polls (drive_script "0 C:") = Some (c, w) ∧ is_Some (Collect c) ∧
     exported_labels c = [["prod"; "db"; "node-1"; "virt-launcher-db"; ""; ""; "read"; "0 C:"]]) ∧
  ∀ c, is_Some (Collect c) ↔ Forall (Forall (λ v, valid_utf8 0 v = true)) (exported_labels c).
Proof.
  assert (Hlab : ∀ name c w, two_polls (drive_script name) = Some (c, w) → (λ cw : Collector * world script, exported_labels cw.1) <$> two_polls (drive_script name) = Some (exported_labels c)).
  { intros name c w ->. done. }
  split_and!; [| |exact Collect_ok].
  - destruct (two_polls (drive_script bad_name)) as [[c w]|] eqn:E; [|exfalso; revert E; vm_compute; discriminate].
    exists c, w. split; [done|]. apply eq_None_not_Some. rewrite Collect_ok. specialize (Hlab _ _ _ E).
    assert (Hx : exported_labels c = [["prod"; "db"; "node-1"; "virt-launcher-db"; ""; ""; "read"; bad_name]]).
    { apply Some_inj. rewrite <- Hlab. vm_compute. reflexivity. }
    rewrite Hx. intros HF. apply Forall_cons in HF as [HF _]. clear E Hlab Hx.
    do 7 apply Forall_cons in HF as [_ HF]. apply Forall_cons in HF as [HF _]. vm_compute in HF. discriminate.
  - destruct (two_polls (drive_script "0 C:")) as [[c w]|] eqn:E; [|exfalso; revert E; vm_compute; discriminate].
    specialize (Hlab _ _ _ E). assert (Hx : exported_labels c = [["prod"; "db"; "node-1"; "virt-launcher-db"; ""; ""; "read"; "0 C:"]]).
    { apply Some_inj. rewrite <- Hlab. vm_compute. reflexivity. }
    exists c, w. split_and!; [done| |done]. rewrite Collect_ok, Hx. by repeat constructor.
Qed.

(** The state after the first poll, and a machine whose agent refuses. *)
Definition one_poll (s : script) : option (Collector * world script) :=
  match poll example_cfg false example_store NewCollector (start s 0) with (Polled c, w) => Some (c, w) | _ => None end.

Lemma one_poll_reachable s c w : one_poll s = Some (c, w) → reachable example_cfg false c w.
Proof.
  unfold one_poll. destruct (poll _ _ _ _ _) as [[c'| |] w'] eqn:E; [|done..]. intros [= <- <-].
  eapply reach_poll; [|exact E]. by apply reach_new.
Qed.

Lemma qga_connections_witness :
  ∃ c w, one_poll (drive_script "0 C:") = Some (c, w) ∧ (∃ vs, vms c !! "c1" = Some vs ∧ vm_client vs ∈ conns w) ∧ conns (stop c w).2 = ∅.
Proof.
  destruct (one_poll (drive_script "0 C:")) as [[c w]|] eqn:E; [|exfalso; revert E; vm_compute; discriminate].
  exists c, w. split; [reflexivity|]. pose proof (qga_connections example_cfg false c w (one_poll_reachable _ _ _ E)) as (Hc & _ & _ & _ & _ & Hstop).
  split; [|exact Hstop]. assert (Hs : ∃ vs, (λ cw : Collector * world script, vms cw.1 !! "c1") <$> one_poll (drive_script "0 C:") = Some (Some vs)) by (vm_compute; by eexists).
  destruct Hs as [vs Hs]. rewrite E in Hs. cbn in Hs. injection Hs as Hs. exists vs. split; [exact Hs|]. apply Hc. exists "c1", vs. split; [exact Hs|reflexivity].
Defined.

Definition refusing_script : script :=
  Script [answer (JArr []); inl "internal error: Command guest-exec has been disabled: the command is not allowed"]
    [] [("virt-launcher-db", "c1")] [("c1", 4242)] None None 0.

Lemma stopped_vm_silent_witness :
  ∃ c w vs c' w', one_poll refusing_script = Some (c, w) ∧ vms c !! "c1" = Some vs ∧ stopReason vs = CommandBlacklisted ∧
    poll example_cfg false example_store c w = (Polled c', w') ∧
    (∃ es, trace w' = trace w ++ es ∧ ∀ cmd t, Agent (vm_client vs) cmd t ∉ es).
Proof.
  destruct (one_poll refusing_script) as [[c w]|] eqn:E; [|exfalso; revert E; vm_compute; discriminate].
  assert (Hs : ∃ vs c' w', (λ cw : Collector * world script, (vms cw.1 !! "c1", poll example_cfg false example_store cw.1 cw.2)) <$> one_poll refusing_script
    = Some (Some vs, (Polled c', w')) ∧ stopped vs = true ∧ stopReason vs = CommandBlacklisted) by (vm_compute; do 3 eexists; split; [reflexivity|split; reflexivity]).
  destruct Hs as (vs & c' & w' & Hs & Hst & Hre). rewrite E in Hs. cbn [fmap option_fmap option_map fst snd] in Hs. injection Hs as Hs Hp.
  exists c, w, vs, c', w'. do 4 (split; [first [exact Hs|exact Hre|exact Hp|reflexivity]|]). apply (stopped_vm_silent example_cfg false example_store c w c' w' "c1" vs (one_poll_reachable _ _ _ E) Hs Hst Hp).
Defined.

Definition scrape_vm : vmState :=
  VmState 0 "prod" "db" "virt-launcher-db" (Some {[ "0 C:" := Counters "0 C:" 5000000 0 100 0 1000000000 ]}) ∅ {[ 0 := "rootdisk" ]} 2 false NotStopped false.
Definition scrape_world : world script :=
  start (set_agent [answer (JObj [("pid", JInt 12)]); finished (drive_text "0 C:" 300 1100000000)] script0) 1.

Lemma qga_scrape_exact_witness :
  ∃ counters w1, CollectDiskCounters 0 10 1000000000 scrape_world = (inr counters, w1) ∧
  ∃ disks pvcs w', scrapeVM example_cfg true scrape_vm scrape_world =
    (inr match disks with [] => None | _ => Some (VmiResult "prod" "db" "node-1" "virt-launcher-db" disks) end,
     set_scraped (snapshot counters) pvcs scrape_vm, w') ∧
  Forall (attributed scrape_vm pvcs) disks.
Proof.
  destruct (CollectDiskCounters 0 10 1000000000 scrape_world) as [[e|counters] w1] eqn:E; [exfalso; revert E; vm_compute; discriminate|].
  exists counters, w1. split; [reflexivity|].
  destruct (qga_scrape_exact example_cfg true scrape_vm {[ "0 C:" := Counters "0 C:" 5000000 0 100 0 1000000000 ]} counters scrape_world w1 eq_refl eq_refl E)
    as (disks & pvcs & w' & Hs & _ & Ha & _).
  exists disks, pvcs, w'. split; [exact Hs|exact Ha].
Defined.

Lemma qga_run_ends_witness :
  ∃ c' w', Run (poll example_cfg false) stop 60000000000 example_store [example_store; []] NewCollector (start (drive_script "0 C:") 0) = (Polled c', w') ∧ conns w' = ∅.
Proof. apply (qga_run_ends example_cfg false example_store [example_store; []] (start (drive_script "0 C:") 0)); [reflexivity..]. Defined.




