(* ===== verification/QmpCollector.v ===== *)
(** * The QMP collector (pkg/qmp/collector.go)

    On every poll the collector finds the virtual machines of the node, keeps one
    connection to each, makes QEMU keep latency histograms for their disks, and
    reads block statistics and the state of storage virtqueues.  A machine whose
    statistics cannot be read is disconnected and tried afresh in the next poll.

    As in the guest-agent collector, the goroutines of a poll run here one after
    the other in an order the environment chooses; PollQmp is about all schedules. *)
From S2P Require Import Prelude GoStrings GoFloat Histogram GoJson DiskMap GoEffect Script QmpTypes QmpClient PromMetrics ConnPool.

Record PollerConfig := Poller {
  NodeName : string; PollInterval : Z; BoundariesNs : list Z; QMPTimeout : Z; Concurrency : Z; Namespaces : list string; LabelFilter : string;
}.

Record vmConnection := Conn {
  vc_client : nat; vc_namespace : string; vc_vmi : string; vc_podName : string;
  armed : gset string;               (** device identifiers *)
  numQueues : gmap string Z;         (** by device path *)
  vc_pvcMap : gmap string string;
  vc_closed : bool;
}.
Definition set_vc_closed (c : vmConnection) : vmConnection :=
  Conn (vc_client c) (vc_namespace c) (vc_vmi c) (vc_podName c) (armed c) (numQueues c) (vc_pvcMap c) true.
Definition set_scraped (a : gset string) (nq : gmap string Z) (pvcs : gmap string string) (c : vmConnection) : vmConnection :=
  Conn (vc_client c) (vc_namespace c) (vc_vmi c) (vc_podName c) a nq pvcs (vc_closed c).

#[export] Instance vmConnection_pool : PoolEntry vmConnection :=
  {| pe_client := vc_client; pe_closed := vc_closed; pe_set_closed := set_vc_closed |}.

Record DeviceResult := DevResult { d_Disk : string; d_PVC : string; d_Stats : BlockStats }.
Record VirtqueueResult := VqResult { vq_Disk : string; vq_PVC : string; vq_Bus : string; vq_Queue : Z; vq_Inuse : Z; vq_VringNum : Z }.
Record VMIResult := MkResult {
  m_Namespace : string; m_Name : string; m_Node : string; m_PodName : string;
  Devices : list DeviceResult; Virtqueues : list VirtqueueResult;
}.

Record Collector := MkCollector { connections : gmap string vmConnection; results : list VMIResult; scrapeErrors : float64; lastPollTS : float64 }.
Definition NewCollector : Collector := MkCollector ∅ [] (S754_zero false) (S754_zero false).

(** [Update]. *)
Definition Update (rs : list VMIResult) (errors : Z) (ts : float64) (c : Collector) : Collector :=
  MkCollector (connections c) rs (f64_add (scrapeErrors c) (f64_of_Z errors)) ts.

Section Poll.
Context {G : Type} `{Environment G}.
Context (cfg : PollerConfig) (haveClient : bool).

Definition connectVM (ns vmi podName : string) (pid : Z) : M G (err + vmConnection) :=
  let sockPath := sock_path pid in
  let* ok := lift (os_Stat sockPath) in
  if negb ok then fail (ErrSystem "virtqemud socket not found" sockPath) else
  try* client := Dial sockPath (ns +:+ "_" +:+ vmi) in
  let* pvcs := FetchPVCMap haveClient ns vmi in
  ret (inr (Conn client ns vmi podName ∅ ∅ pvcs false)).

(** ** Scraping a machine *)

(** Histograms are switched on once per device. *)
Definition arm (client : nat) (a : gset string) (dev : BlockDevice) : M G (gset string) :=
  match ExtractDiskInfo (EffectiveQDev dev) with
  | None => ret a
  | Some (_, deviceID) =>
      if bool_decide (deviceID ∈ a) then ret a else
      if HasHistograms dev then ret (a ∪ {[deviceID]}) else
      let* r := EnableHistogram client deviceID (BoundariesNs cfg) in
      match r with
      | inl _ => ret a
      | inr _ => ret (a ∪ {[deviceID]})
      end
  end.

(** The claim of a disk; the claims are fetched again at most once per scrape. *)
Definition refreshPVC (c : vmConnection) (alias : string) (st : gmap string string * bool) : M G (string * (gmap string string * bool)) :=
  let '(pvcs, refreshed) := st in
  if bool_decide (label pvcs alias = EmptyString) && negb refreshed then
    let* pvcs' := FetchPVCMap haveClient (vc_namespace c) (vc_vmi c) in
    ret (label pvcs' alias, (pvcs', true))
  else ret (label pvcs alias, st).

Definition read_device (c : vmConnection) (st : list DeviceResult * (gmap string string * bool)) (dev : BlockDevice)
    : M G (list DeviceResult * (gmap string string * bool)) :=
  let '(devices, pv) := st in
  match ExtractDiskInfo (EffectiveQDev dev) with
  | None => ret st
  | Some (alias, _) =>
      if negb (HasHistograms dev) then ret st else
      let* (pvc, pv') := refreshPVC c alias pv in
      ret (devices ++ [DevResult alias pvc (dev_Stats dev)], pv')
  end.

(** The number of queues of a device, asked once. *)
Definition queue_count (client : nat) (path : string) (nqs : gmap string Z) : M G (option Z * gmap string Z) :=
  match nqs !! path with
  | Some nq => ret (Some nq, nqs)
  | None =>
      let* vs := QueryVirtioStatus client path in
      match vs with
      | inl _ => ret (None, nqs)
      | inr s => ret (Some (NumVqs s), if 0 <? NumVqs s then <[path := NumVqs s]> nqs else nqs)
      end
  end.

(** One queue of a disk or, without an alias, of a SCSI controller. *)
Definition read_queue (c : vmConnection) (path : string) (alias : option string)
    (st : list VirtqueueResult * (gmap string string * bool)) (qi : Z) : M G (list VirtqueueResult * (gmap string string * bool)) :=
  let '(vqs, pv) := st in
  let* qs := QueryVirtioQueueStatus (vc_client c) path qi in
  match qs with
  | inl _ => ret st
  | inr q =>
      match alias with
      | Some alias =>
          let* (pvc, pv') := refreshPVC c alias pv in
          ret (vqs ++ [VqResult alias pvc "virtio" qi (qs_Inuse q) (qs_VringNum q)], pv')
      | None => ret (vqs ++ [VqResult EmptyString EmptyString "scsi" qi (qs_Inuse q) (qs_VringNum q)], pv)
      end
  end.

Definition read_virtqueues (c : vmConnection) (alias : VirtioDevice → option (option string))
    (st : list VirtqueueResult * (gmap string string * bool) * gmap string Z) (vdev : VirtioDevice)
    : M G (list VirtqueueResult * (gmap string string * bool) * gmap string Z) :=
  let '(vqs, pv, nqs) := st in
  match alias vdev with
  | None => ret st
  | Some al =>
      let* (nq, nqs') := queue_count (vc_client c) (vd_Path vdev) nqs in
      match nq with
      | None => ret (vqs, pv, nqs')
      | Some nq =>
          let* (vqs', pv') := for_each (read_queue c (vd_Path vdev) al) (vqs, pv) (seqZ 0 nq) in
          ret (vqs', pv', nqs')
      end
  end.

Definition blk_alias (vdev : VirtioDevice) : option (option string) :=
  if IsVirtioBlk vdev then '(alias, _) ← ExtractDiskInfo (vd_Path vdev); Some (Some alias) else None.
(** SCSI controllers; anonymous devices are skipped. *)
Definition scsi_alias (vdev : VirtioDevice) : option (option string) :=
  if IsVirtioScsi vdev then _ ← ExtractControllerName (vd_Path vdev); Some None else None.

(** The disks' queues, then those of the controllers. *)
Definition collect_virtqueues (c : vmConnection) (pv : gmap string string * bool) (vdevs : list VirtioDevice)
    : M G (list VirtqueueResult * (gmap string string * bool) * gmap string Z) :=
  let* st := for_each (read_virtqueues c blk_alias) ([], pv, numQueues c) vdevs in
  for_each (read_virtqueues c scsi_alias) st vdevs.

Definition scrapeVM (c : vmConnection) : M G ((err + VMIResult) * vmConnection) :=
  if vc_closed c then ret (inl ErrClosed, c) else
  let* resp := QueryBlockStats (vc_client c) in
  match resp with
  | inl e => ret (inl e, c)
  | inr devs =>
      let* a := for_each (arm (vc_client c)) (armed c) devs in
      let* (devices, pv) := for_each (read_device c) ([], (vc_pvcMap c, false)) devs in
      let* virtio := QueryVirtio (vc_client c) in
      let* (vqs, pv', nqs) :=
        match virtio with
        | inl _ => ret ([], pv, numQueues c)
        | inr vdevs => collect_virtqueues c pv vdevs
        end in
      ret (inr (MkResult (vc_namespace c) (vc_vmi c) (NodeName cfg) (vc_podName c) devices vqs),
           set_scraped a nqs (fst pv') c)
  end.

(** ** A poll *)

(** One goroutine: scrape; on an error disconnect and forget the machine. *)
Definition scrape_one (st : gmap string vmConnection * list VMIResult * Z) (e : string * vmConnection)
    : M G (gmap string vmConnection * list VMIResult * Z) :=
  let '(m, rs, errors) := st in
  let '(id, c) := e in
  let* (res, c') := scrapeVM c in
  match res with
  | inl _ => let* _ := close c' in ret (delete id m, rs, errors + 1)
  | inr r => ret (<[id := c']> m, rs ++ [r], errors)
  end.

Definition poll (store : list store_object) (c : Collector) : M G (poll_outcome Collector) :=
  let allPods := select_pods (Namespaces cfg) (LabelFilter cfg) store in
  let* m := refresh connectVM allPods (connections c) in
  if Concurrency cfg <? 0 then ret PollPanics else
  let* entries := range m in
  if (Concurrency cfg =? 0) && negb (bool_decide (entries = [])) then ret PollHangs else
  let* (m', rs, errors) := for_each scrape_one (m, [], 0) entries in
  let* now := lift (λ g, (time_Now g, g)) in
  ret (Polled (MkCollector m' rs (f64_add (scrapeErrors c) (f64_of_Z errors)) (f64_of_Z now))).

Definition stop (c : Collector) : M G Collector :=
  let* m := closeAll (connections c) in ret (MkCollector m (results c) (scrapeErrors c) (lastPollTS c)).
End Poll.

(** ** Export *)

Inductive qmp_desc := latencyDesc | scrapeErrorsDesc | lastPollDesc | virtqueueInuseDesc | virtqueueSizeDesc.

#[export] Instance qmp_desc_eq_dec : EqDecision qmp_desc.
Proof. solve_decision. Defined.

Definition qmp_labels (d : qmp_desc) : list string :=
  match d with
  | latencyDesc => ["namespace"; "name"; "node"; "pod"; "disk"; "persistentvolumeclaim"; "operation"]
  | virtqueueInuseDesc | virtqueueSizeDesc => ["namespace"; "name"; "node"; "pod"; "disk"; "persistentvolumeclaim"; "queue"; "bus"]
  | _ => []
  end.

Definition Describe : list qmp_desc := [latencyDesc; scrapeErrorsDesc; lastPollDesc; virtqueueInuseDesc; virtqueueSizeDesc].

Definition f64_1e9 : float64 := f64_of_Z 1000000000.

(** The loop of [ConvertBuckets], from the bins and boundaries that are left. *)
Fixpoint convert (bins : list Z) (bounds : list float64) (buckets : list (float64 * Z)) (cumulative : Z) : list (float64 * Z) * Z :=
  match bins with
  | [] => (buckets, cumulative)
  | count :: bins' =>
      let cumulative := u64 (cumulative + count) in
      match bounds with
      | [] => convert bins' [] buckets cumulative
      | b :: bounds' => convert bins' bounds' (bucket_set (f64_div b f64_1e9) cumulative buckets) cumulative
      end
  end.
Definition ConvertBuckets (hist : LatencyHist) : list (float64 * Z) * Z := convert (Bins hist) (Boundaries hist) [] 0.

Section Collect.
Context `{!ConstMetrics}.

(** The histogram of one operation; [None] where nothing is exported.  The three
    operations are visited in an order Go does not specify. *)
Definition op_metric (r : VMIResult) (d : DeviceResult) (op : string) (hist : option LatencyHist) (totalNs : Z) : option (prom_metric qmp_desc) :=
  h ← hist;
  let '(buckets, count) := ConvertBuckets h in
  if count =? 0 then None else
  let ls := [m_Namespace r; m_Name r; m_Node r; m_PodName r; d_Disk d; d_PVC d; op] in
  if labels_accepted (qmp_labels latencyDesc) ls then Some (Histo latencyDesc count (f64_div (f64_of_Z totalNs) f64_1e9) buckets ls) else None.

Definition device_metrics (r : VMIResult) (d : DeviceResult) : list (prom_metric qmp_desc) :=
  option_list (op_metric r d "read" (RdLatencyHistogram (d_Stats d)) (RdTotalTimeNs (d_Stats d))) ++
  option_list (op_metric r d "write" (WrLatencyHistogram (d_Stats d)) (WrTotalTimeNs (d_Stats d))) ++
  option_list (op_metric r d "flush" (FlushLatencyHistogram (d_Stats d)) (FlushTotalTimeNs (d_Stats d))).

Definition queue_labels (r : VMIResult) (q : VirtqueueResult) : list string :=
  [m_Namespace r; m_Name r; m_Node r; m_PodName r; vq_Disk q; vq_PVC q; itoa (vq_Queue q); vq_Bus q].

Definition queue_metrics (r : VMIResult) (q : VirtqueueResult) : list (option (prom_metric qmp_desc)) :=
  [MustNewConstMetric qmp_labels virtqueueInuseDesc (f64_of_Z (vq_Inuse q)) (queue_labels r q);
   MustNewConstMetric qmp_labels virtqueueSizeDesc (f64_of_Z (vq_VringNum q)) (queue_labels r q)].

(** [None] when a construction panics. *)
Definition Collect (c : Collector) : option (list (prom_metric qmp_desc)) :=
  all_or_panic (
    MustNewConstMetric qmp_labels scrapeErrorsDesc (scrapeErrors c) [] ::
    MustNewConstMetric qmp_labels lastPollDesc (lastPollTS c) [] ::
    (results c ≫= λ r, (Some <$> (Devices r ≫= device_metrics r)) ++ (Virtqueues r ≫= queue_metrics r))).
End Collect.

(** ** Connections *)

Section Connections.
Context {G : Type} `{Environment G}.
Context (cfg : PollerConfig) (haveClient : bool).

Lemma qmp_connectVM_connects : connects (connectVM (G := G) haveClient).
Proof.
  intros ns vmi pod pid w Hn. unfold connectVM. cbv zeta. unfold bind at 1.
  pose proof (quiet_lift (os_Stat (sock_path pid)) w) as Hst. destruct (lift _ w) as [ok w1]. cbn [snd] in Hst.
  pose proof (quiet_calm _ _ Hst) as Hcalm. destruct ok; [|done]. cbn [negb]. unfold try at 1, bind at 1.
  pose proof (Dial_spec (sock_path pid) (ns +:+ "_" +:+ vmi) w1 (numbered_calm _ _ Hn Hcalm)) as Hd.
  destruct (Dial _ _ w1) as [[e|i] w2]; [by eapply calm_trans|]. destruct Hd as (-> & Hcs & Hcl & Hf).
  unfold bind. pose proof (quiet_FetchPVCMap haveClient ns vmi w2) as Hp. destruct (FetchPVCMap _ _ _ w2) as [pvcs w3]. cbn [snd] in Hp.
  destruct Hst as (Hs1 & Hs2 & Hs3 & _), Hp as (Hp1 & Hp2 & Hp3 & _). unfold fresh_entry. cbn. split_and!; [congruence..|lia].
Qed.

Lemma quiet_refreshPVC c alias st : quiet (refreshPVC (G := G) haveClient c alias st).
Proof. destruct st. unfold refreshPVC. solve_quiet. Qed.
#[local] Hint Resolve quiet_refreshPVC : quiet.

Lemma quiet_arm i a dev : quiet (arm (G := G) cfg i a dev).
Proof. unfold arm. solve_quiet. Qed.

Lemma quiet_read_device c st dev : quiet (read_device (G := G) haveClient c st dev).
Proof. destruct st. unfold read_device. solve_quiet. Qed.

Lemma quiet_QueryVirtioStatus i p : quiet (QueryVirtioStatus (G := G) i p).
Proof. apply quiet_query. Qed.
Lemma quiet_QueryVirtioQueueStatus i p q : quiet (QueryVirtioQueueStatus (G := G) i p q).
Proof. apply quiet_query. Qed.
#[local] Hint Resolve quiet_QueryVirtioStatus quiet_QueryVirtioQueueStatus : quiet.

Lemma quiet_read_virtqueues c al st vdev : quiet (read_virtqueues (G := G) haveClient c al st vdev).
Proof.
  destruct st as [[vqs pv] nqs]. unfold read_virtqueues. destruct (al vdev) as [a|]; [|apply quiet_ret].
  apply quiet_bind; [unfold queue_count; solve_quiet|]. intros [[nq|] nqs']; [|apply quiet_ret]. apply quiet_bind.
  - apply quiet_for_each. intros [v p] qi. unfold read_queue. solve_quiet.
  - intros [vqs' pv']. apply quiet_ret.
Qed.

Lemma quiet_collect_virtqueues c pv vdevs : quiet (collect_virtqueues (G := G) haveClient c pv vdevs).
Proof. apply quiet_bind; intros; apply quiet_for_each; intros; apply quiet_read_virtqueues. Qed.

Lemma qmp_quiet_scrapeVM c : quiet (scrapeVM (G := G) cfg haveClient c).
Proof.
  unfold scrapeVM. destruct (vc_closed c); [apply quiet_ret|]. apply quiet_bind; [apply quiet_query|]. intros [e|devs]; [apply quiet_ret|].
  apply quiet_bind; [apply quiet_for_each; intros; apply quiet_arm|]. intros a.
  apply quiet_bind; [apply quiet_for_each; intros; apply quiet_read_device|]. intros [devices pv].
  apply quiet_bind; [apply quiet_query|]. intros virtio. apply quiet_bind; [|intros [[vqs pv'] nqs]; apply quiet_ret].
  destruct virtio; [apply quiet_ret|apply quiet_collect_virtqueues].
Qed.

(** A scrape keeps the connection. *)
Lemma qmp_scrapeVM_same c w :
  let c' := (scrapeVM (G := G) cfg haveClient c w).1.2 in vc_client c' = vc_client c ∧ vc_closed c' = vc_closed c.
Proof.
  unfold scrapeVM. destruct (vc_closed c) eqn:Hc; [done|]. unfold bind. destruct (QueryBlockStats _ w) as [[e|devs] w1]; [done|].
  destruct (for_each (arm _ _) _ _ w1) as [a w2]. destruct (for_each (read_device _ _) _ _ w2) as [[devices pv] w3].
  destruct (QueryVirtio _ w3) as [[e|vdevs] w4]; [done|].
  by destruct (collect_virtqueues _ _ _ vdevs w4) as [[[vqs pv'] nqs] w5].
Qed.

Lemma qmp_scrape_one_inv m rs n id c w :
  pool_inv m w → m !! id = Some c →
  let '(m', _, _) := (scrape_one cfg haveClient (m, rs, n) (id, c) w).1 in
  pool_inv m' (scrape_one cfg haveClient (m, rs, n) (id, c) w).2 ∧
  (∀ id', id' ≠ id → m' !! id' = m !! id').
Proof.
  intros Hinv Hs. unfold scrape_one. pose proof (pool_quiet m _ w (qmp_quiet_scrapeVM c) Hinv) as Hq. pose proof (qmp_scrapeVM_same c w) as [Hcl Hcd].
  destruct (pi_open _ _ Hinv _ _ Hs) as (Hopen & _ & _). cbn [pe_closed vmConnection_pool] in Hopen. unfold bind.
  destruct (scrapeVM cfg haveClient c w) as [[res c'] w']. cbn [fst snd] in *.
  assert (Hup : pool_inv (<[id := c']> m) w') by (eapply pool_update; [done..|cbn; congruence]).
  destruct res as [e|r]; cbn.
  - pose proof (pool_close _ _ id c' Hup ltac:(by rewrite lookup_insert_eq)) as Hclose. rewrite delete_insert_eq in Hclose.
    destruct (close c' w') as [c'' w'']. cbn. split; [exact Hclose|]. intros id' Hne. by rewrite lookup_delete_ne.
  - split; [done|]. intros id' Hne. by rewrite lookup_insert_ne.
Qed.

Definition scraping (st : gmap string vmConnection * list VMIResult * Z) (l : list (string * vmConnection)) (w : world G) : Prop :=
  let '(m, _, _) := st in pool_inv m w ∧ to_visit m l.

Lemma qmp_scraping_step st x l w :
  scraping st (x :: l) w → scraping (scrape_one cfg haveClient st x w).1 l (scrape_one cfg haveClient st x w).2.
Proof.
  destruct st as [[m rs] n], x as [id c]. intros (Hinv & Hv). apply to_visit_cons in Hv as (Hs & Hv & Hid).
  pose proof (qmp_scrape_one_inv m rs n id c w Hinv Hs) as Hone.
  destruct (scrape_one cfg haveClient (m, rs, n) (id, c) w) as [[[m' rs'] n'] w']. cbn [fst snd] in *.
  destruct Hone as (Hinv' & Hother). split; [done|]. exact (to_visit_other m m' l id Hv Hid Hother).
Qed.

Lemma poll_inv store c w c' w' :
  pool_inv (connections c) w → poll cfg haveClient store c w = (Polled c', w') → pool_inv (connections c') w'.
Proof.
  intros Hinv. unfold poll. cbv zeta. unfold bind at 1. set (pods := select_pods _ _ _).
  pose proof (refresh_spec (connectVM haveClient) pods (connections c) w qmp_connectVM_connects Hinv) as Hr.
  destruct (refresh _ pods (connections c) w) as [m2 w2]. destruct Hr as (H2 & _).
  destruct (Concurrency cfg <? 0); [done|]. unfold bind at 1. destruct (range_entries m2 w2) as [Hnd Hin].
  destruct (range_spec m2 w2) as [_ Hw]. destruct (range m2 w2) as [entries w2']. cbn [fst snd] in *. subst w2'.
  destruct ((_ =? 0) && _); [done|]. unfold bind.
  pose proof (for_each_ind _ scraping qmp_scraping_step entries (m2, [], 0) w2) as Hl.
  destruct (for_each (scrape_one cfg haveClient) (m2, [], 0) entries w2) as [[[m3 rs] n] w3]. cbn [fst snd] in Hl.
  destruct Hl as (H3 & _); [split; [done|]; split; [done|]; intros; by apply Hin|].
  pose proof (pool_quiet m3 _ w3 (quiet_lift (λ g, (time_Now g, g))) H3) as H4.
  destruct (lift _ w3) as [now w4]. cbn [snd] in H4. by intros [= <- <-].
Qed.
End Connections.

Inductive reachable {G} `{Environment G} (cfg : PollerConfig) (haveClient : bool) : Collector → world G → Prop :=
  | reach_new w : conns w = ∅ → closed w = ∅ → reachable cfg haveClient NewCollector w
  | reach_outside c w g : reachable cfg haveClient c w → reachable cfg haveClient c (World g (conns w) (closed w) (fresh w) (trace w))
  | reach_poll c w store c' w' :
      reachable cfg haveClient c w → poll cfg haveClient store c w = (Polled c', w') → reachable cfg haveClient c' w'.

Lemma qmp_reachable_inv {G} `{Environment G} cfg haveClient c (w : world G) :
  reachable cfg haveClient c w → pool_inv (connections c) w.
Proof.
  induction 1 as [w Hc Hd|c w g _ IH|c w store c' w' _ IH Hp].
  - change (connections NewCollector) with (∅ : gmap string vmConnection).
    split; [by intros id s Hs; rewrite lookup_empty in Hs|by intros id1 id2 s1 s2 Hs; rewrite lookup_empty in Hs|..].
    + intros n. rewrite Hc. set_solver.
    + intros n. rewrite Hc, Hd. set_solver.
  - eapply pool_calm; [done|]. split_and!; [done..|]. cbn. lia.
  - by eapply poll_inv.
Qed.

Lemma qmp_poll_total {G} `{Environment G} cfg haveClient store c (w : world G) :
  0 < Concurrency cfg → ∃ c' w', poll cfg haveClient store c w = (Polled c', w').
Proof.
  intros Hc. unfold poll. cbv zeta. unfold bind. destruct (refresh _ _ _ w) as [m w1]. destruct (Z.ltb_spec (Concurrency cfg) 0); [lia|].
  destruct (range m w1) as [entries w2]. destruct (Z.eqb_spec (Concurrency cfg) 0); [lia|]. cbn [andb].
  destruct (for_each _ _ entries w2) as [[[m' rs] n'] w3]. destruct (lift _ w3) as [now w4]. by eexists _, _.
Qed.

Lemma qmp_stop_clean {G} `{Environment G} c (w : world G) :
  pool_inv (connections c) w → connections (stop c w).1 = ∅ ∧ conns (stop c w).2 = ∅.
Proof.
  intros Hinv. unfold stop, bind. pose proof (closeAll_spec (connections c) w Hinv) as Hc. destruct (closeAll (connections c) w).
  by destruct Hc as (? & ? & _).
Qed.

(** C14.  The QMP collector neither leaks nor loses connections: in every state it
    can reach, through failing scrapes that drop a machine and machines that come
    and go, the open connections are exactly those of the machines it knows, one
    each, none of them closed; when it stops, none stays open. *)
Theorem qmp_connections {G} `{Environment G} cfg haveClient c (w : world G) :
  reachable cfg haveClient c w →
  (∀ n, n ∈ conns w ↔ ∃ id vc, connections c !! id = Some vc ∧ vc_client vc = n) ∧
  (∀ id1 id2 vc1 vc2, connections c !! id1 = Some vc1 → connections c !! id2 = Some vc2 → vc_client vc1 = vc_client vc2 → id1 = id2) ∧
  (∀ id vc, connections c !! id = Some vc → vc_closed vc = false ∧ vc_client vc ∉ closed w) ∧
  connections (stop c w).1 = ∅ ∧ conns (stop c w).2 = ∅.
Proof.
  intros Hr. pose proof (qmp_reachable_inv _ _ _ _ Hr) as Hinv. pose proof Hinv as [Ho Hi Hw _]. split_and!.
  - intros n. split; [apply Hw|]. intros (id & vs & Hs & <-). by apply (Ho id).
  - exact Hi.
  - intros id vs Hs. by destruct (Ho _ _ Hs) as (? & _ & ?).
  - by apply qmp_stop_clean.
  - by apply qmp_stop_clean.
Qed.

Lemma qmp_run_clean {G} `{Environment G} cfg haveClient store ticks (w : world G) :
  0 < PollInterval cfg → 0 < Concurrency cfg → conns w = ∅ → closed w = ∅ →
  ∃ c' w', Run (poll cfg haveClient) stop (PollInterval cfg) store ticks NewCollector w = (Polled c', w') ∧ conns w' = ∅.
Proof.
  intros Hi Hc Ho Hcl. apply (Run_ends _ _ (reachable cfg haveClient)); [|by intros c w1 [_ ?]%qmp_reachable_inv%qmp_stop_clean|done|by apply reach_new].
  intros s c w1 Hr. destruct (qmp_poll_total cfg haveClient s c w1 Hc) as (c' & w' & E). exists c', w'. split; [done|]. by eapply reach_poll.
Qed.

(** With a period and a concurrency that are positive, a run of the collector
    neither panics nor hangs: whatever pods there are at each tick and whatever
    the outside answers, every poll ends, and when the context is done all
    connections have been closed. *)
Theorem qmp_run_ends {G} `{Environment G} cfg haveClient store ticks (w : world G) :
  0 < PollInterval cfg → 0 < Concurrency cfg → conns w = ∅ → closed w = ∅ →
  ∃ c' w', Run (poll cfg haveClient) stop (PollInterval cfg) store ticks NewCollector w = (Polled c', w') ∧ conns w' = ∅.
Proof. apply qmp_run_clean. Qed.
