(* ===== verification/QmpScrape.v ===== *)
(** * What the QMP collector reports

    Properties of one scrape and of the export of pkg/qmp/collector.go: the
    buckets of a histogram, the disks reported, when histograms are switched on,
    the commands as QEMU reads them; and two cases in which disks or the whole
    page of metrics are lost. *)
From S2P Require Import Prelude GoStrings GoFloat Histogram GoJson DiskMap GoEffect Script QmpTypes QmpClient PromMetrics ConnPool QmpCollector.

(** ** Buckets *)

(** The key of a boundary. *)
Definition seconds (b : float64) : float64 := f64_div b f64_1e9.

Lemma u64_add_l a b : u64 (u64 a + b) = u64 (a + b).
Proof. unfold u64. by rewrite Zplus_mod_idemp_l. Qed.

Lemma convert_spec bins bounds m0 c0 m n :
  convert bins bounds m0 (u64 c0) = (m, n) →
  n = u64 (c0 + zsum bins) ∧
  (∀ k, (∀ j b, (j < length bins)%nat → bounds !! j = Some b → f64_eq (seconds b) k = false) → bucket_get m k = bucket_get m0 k) ∧
  (∀ i b, (i < length bins)%nat → bounds !! i = Some b → is_nan (seconds b) = false →
     (∀ j b', (i < j < length bins)%nat → bounds !! j = Some b' → f64_eq (seconds b') (seconds b) = false) →
     bucket_get m (seconds b) = Some (u64 (c0 + zsum (take (S i) bins)))).
Proof.
  revert bounds m0 c0. induction bins as [|x bins IH]; intros bounds m0 c0; cbn [convert]; cbv zeta.
  - intros [= <- <-]. cbn. rewrite Z.add_0_r. split_and!; [done..|]. intros; lia.
  - rewrite u64_add_l. destruct bounds as [|b0 bounds]; try fold (seconds b0); intros E; apply IH in E as (Hn & Hother & Hget);
      cbn [zsum foldr] in *; fold (zsum bins); rewrite Z.add_assoc; (split; [done|]); split.
    + intros k _. apply Hother. done.
    + done.
    + intros k Hk. rewrite Hother, bucket_get_set, (Hk 0%nat b0); [done|cbn; lia|done|].
      intros j b Hj. apply (Hk (S j)). cbn. lia.
    + intros [|i] b Hi Hb Hnan Hlast; cbn in Hb, Hi.
      * simplify_eq. rewrite Hother, bucket_get_set.
        -- rewrite f64_eq_refl by done. cbn. by rewrite Z.add_0_r.
        -- intros j b' Hj. apply (Hlast (S j)). cbn. lia.
      * rewrite (Hget i b); [|lia|done|done|].
        -- cbn [take zsum foldr]. by rewrite Z.add_assoc.
        -- intros j b' Hj. apply (Hlast (S j)). cbn. lia.
Qed.

(** QEMU's bins become the cumulative buckets Prometheus wants: the count is
    the sum of all bins, and the bucket of the i-th boundary, in seconds, is the
    sum of the bins up to the i-th, both modulo 2^64; of boundaries that are equal
    as floats in seconds the last decides, and no other key is in the map. *)
Theorem convert_buckets_cumulative hist m n :
  ConvertBuckets hist = (m, n) →
  n = u64 (zsum (Bins hist)) ∧
  (∀ i b, (i < length (Bins hist))%nat → Boundaries hist !! i = Some b → is_nan (seconds b) = false →
     (∀ j b', (i < j < length (Bins hist))%nat → Boundaries hist !! j = Some b' → f64_eq (seconds b') (seconds b) = false) →
     bucket_get m (seconds b) = Some (u64 (zsum (take (S i) (Bins hist))))) ∧
  (∀ k v, bucket_get m k = Some v →
     ∃ i b, (i < length (Bins hist))%nat ∧ Boundaries hist !! i = Some b ∧ f64_eq (seconds b) k = true).
Proof.
  unfold ConvertBuckets. intros E. apply (convert_spec _ _ _ 0) in E as (Hn & Hother & Hget). split_and!; [done|done|].
  intros k v Hk.
  destruct (decide (Exists (λ b, f64_eq (seconds b) k = true) (take (length (Bins hist)) (Boundaries hist)))) as [Hex|Hno].
  - apply Exists_exists in Hex as (b & Hb & Heq). apply list_elem_of_lookup in Hb as [i Hi]. apply lookup_take_Some in Hi as [Hi Hlt]. eauto.
  - rewrite Hother in Hk; [done|]. intros j b Hj Hb. apply not_true_is_false. intros Heq. apply Hno, Exists_exists.
    exists b. split; [|done]. apply list_elem_of_lookup. exists j. by rewrite lookup_take_lt.
Qed.

(** The reads of the documentation's example. *)
Definition example_hist : LatencyHist := Hist (f64_of_Z <$> [10000000; 100000000; 1000000000]) [500; 800; 150; 50].

Lemma convert_buckets_cumulative_witness :
  let '(m, n) := ConvertBuckets example_hist in n = 1500 ∧ bucket_get m (f64_ratio 1 10) = Some 1300.
Proof.
  destruct (ConvertBuckets example_hist) as [m n] eqn:E.
  destruct (convert_buckets_cumulative example_hist m n E) as (-> & Hget & _). split; [vm_compute; reflexivity|].
  change (f64_ratio 1 10) with (seconds (f64_of_Z 100000000)).
  apply (Hget 1%nat); [cbn; lia|reflexivity|vm_compute; reflexivity|].
  intros [|[|[|[|j]]]] b' Hj Hb; cbn in Hj; try lia; cbn in Hb; [injection Hb as <-; vm_compute; reflexivity|discriminate].
Defined.

(** ** Disks *)

(** What a device of QEMU's answer is reported as. *)
Definition reported (dev : BlockDevice) : option (string * BlockStats) :=
  '(alias, _) ← ExtractDiskInfo (EffectiveQDev dev);
  if HasHistograms dev then Some (alias, dev_Stats dev) else None.


Section Devices.
Context {G : Type} `{Environment G}.
Context (haveClient : bool) (c : vmConnection).



End Devices.

(** ** Switching histograms on *)

(** The text QEMU is sent to keep histograms for a device. *)
Definition arm_command (boundaries : list Z) (deviceID : string) : string :=
  marshal (JObj [("execute", JStr "block-latency-histogram-set");
    ("arguments", JObj [("boundaries", JArr (JInt <$> boundaries)); ("id", JStr deviceID)])]).

Definition device_id (dev : BlockDevice) : option string := snd <$> ExtractDiskInfo (EffectiveQDev dev).

(** A command is sent once, whatever comes back. *)
Lemma execQMP_trace {G} `{Environment G} i command args (w : world G) :
  trace (execQMP i command args w).2 = trace w ++ [Monitor i (marshal (qmpCommand command args))].
Proof.
  unfold execQMP. cbv zeta. generalize (marshal (qmpCommand command args)). intros cmd.
  unfold call, bind, log, lift, fail, ret. cbn [env conns closed fresh trace].
  destruct (QEMUDomainMonitorCommand i cmd (env w)) as [[msg|text] g]; cbn [fst snd trace]; [done|].
  destruct (Unmarshal_text (A := qmpResponse) text) as [resp|]; cbn [fst snd trace]; [|done]. by destruct (resp_Error resp).
Qed.













Section Arming.
Context {G : Type} `{Environment G}.
Context (cfg : PollerConfig) (i : nat) (a0 : gset string) (devs : list BlockDevice) (w0 : world G).





End Arming.







(** ** Virtqueues *)

(** What tells the metrics of one machine's virtqueues apart. *)
Definition vq_key (q : VirtqueueResult) : string * string * Z := (vq_Disk q, vq_Bus q, vq_Queue q).

Definition place (al : option string) : string * string :=
  match al with Some alias => (alias, "virtio") | None => (EmptyString, "scsi") end.

#[export] Instance place_inj : Inj (=) (=) place.
Proof. intros [x|] [y|] E; cbn in E; congruence. Qed.

Section Queues.
Context {G : Type} `{Environment G}.
Context (haveClient : bool) (c : vmConnection).

(** The queues of one device: at most one report each. *)
Lemma read_queues path al nq vqs pv w :
  ∃ new, (for_each (read_queue (G := G) haveClient c path al) (vqs, pv) (seqZ 0 nq) w).1.1 = vqs ++ new ∧
    Forall (λ q, (vq_Disk q, vq_Bus q) = place al) new ∧ vq_Queue <$> new `sublist_of` seqZ 0 nq.
Proof.
  pose (I := λ (st : list VirtqueueResult * (gmap string string * bool)) (l : list Z) (_ : world G),
    ∃ seen new, seqZ 0 nq = seen ++ l ∧ st.1 = vqs ++ new ∧ Forall (λ q, (vq_Disk q, vq_Bus q) = place al) new ∧ vq_Queue <$> new `sublist_of` seen).
  assert (Hi : I (for_each (read_queue haveClient c path al) (vqs, pv) (seqZ 0 nq) w).1 [] (for_each (read_queue haveClient c path al) (vqs, pv) (seqZ 0 nq) w).2).
  { apply for_each_ind; [|exists [], []; rewrite app_nil_r; split_and!; [done..|constructor]].
    clear w pv. intros [v pv] qi l w (seen & new & Hs & Hv & Hf & Hq). cbn in Hv. subst v.
    assert (Hskip : ∀ pv' w', I (vqs ++ new, pv') l w').
    { intros pv' w'. exists (seen ++ [qi]), new. rewrite <- app_assoc. split_and!; [done..|]. by apply sublist_inserts_r. }
    assert (Hadd : ∀ q pv' w', (vq_Disk q, vq_Bus q) = place al → vq_Queue q = qi → I ((vqs ++ new) ++ [q], pv') l w').
    { intros q pv' w' Hp Hqi. exists (seen ++ [qi]), (new ++ [q]). rewrite <- !app_assoc. split_and!; [done..|by apply Forall_app_2; [|constructor]|].
      rewrite fmap_app. cbn. rewrite Hqi. by apply sublist_app. }
    unfold read_queue, bind. destruct (QueryVirtioQueueStatus _ _ _ w) as [[e|q] w']; [by apply Hskip|].
    destruct al as [alias|]; [|by apply Hadd].
    destruct (refreshPVC haveClient c alias pv w') as [[pvc pv'] w'']. by apply Hadd. }
  unfold I in Hi. destruct (for_each _ _ _ w) as [[v pv'] w']. cbn in *. destruct Hi as (seen & new & Hs & -> & Hf & Hq).
  rewrite app_nil_r in Hs. subst. eauto.
Qed.

Definition places (alias : VirtioDevice → option (option string)) (vdevs : list VirtioDevice) : list (string * string) :=
  place <$> omap alias vdevs.

Definition queue_place (q : VirtqueueResult) : string * string := (vq_Disk q, vq_Bus q).

Lemma read_virtqueues_spec alias vqs pv nqs vdev w :
  ∃ new, (read_virtqueues (G := G) haveClient c alias (vqs, pv, nqs) vdev w).1.1.1 = vqs ++ new ∧
    Forall (λ q, queue_place q ∈ places alias [vdev]) new ∧ NoDup (vq_Queue <$> new).
Proof.
  unfold read_virtqueues, places. cbn. destruct (alias vdev) as [al|]; [|exists []; rewrite app_nil_r; split_and!; [done|done|constructor]].
  unfold bind. destruct (queue_count (vc_client c) (vd_Path vdev) nqs w) as [[nq nqs'] w'].
  destruct nq as [nq|]; [|exists []; rewrite app_nil_r; split_and!; [done|done|constructor]].
  destruct (read_queues (vd_Path vdev) al nq vqs pv w') as (new & E & Hf & Hq). exists new.
  destruct (for_each _ _ _ w') as [[vqs' pv'] w'']. cbn in *. split_and!; [done| |].
  - eapply Forall_impl; [exact Hf|]. intros q Hq'. unfold queue_place. rewrite Hq'. apply list_elem_of_here.
  - eapply sublist_NoDup; [|exact Hq]. apply NoDup_seqZ.
Qed.

Lemma vq_key_place q q' : vq_key q = vq_key q' → queue_place q = queue_place q' ∧ vq_Queue q = vq_Queue q'.
Proof. unfold vq_key, queue_place. intros [= -> -> ->]. done. Qed.

(** One loop over the devices adds queues of distinct keys. *)
Lemma read_all_virtqueues alias vdevs vqs pv nqs w :
  NoDup (omap alias vdevs) →
  ∃ new, (for_each (read_virtqueues (G := G) haveClient c alias) (vqs, pv, nqs) vdevs w).1.1.1 = vqs ++ new ∧
    Forall (λ q, queue_place q ∈ places alias vdevs) new ∧ NoDup (vq_key <$> new).
Proof.
  revert vqs pv nqs w. induction vdevs as [|vdev vdevs IH]; intros vqs pv nqs w Hnd; cbn [for_each].
  { exists []. rewrite app_nil_r. split_and!; [done..|constructor]. }
  change (vdev :: vdevs) with ([vdev] ++ vdevs) in Hnd |- *. rewrite omap_app in Hnd. apply NoDup_app in Hnd as (_ & Hne & Hnd).
  destruct (read_virtqueues_spec alias vqs pv nqs vdev w) as (new & E & Hf & Hq). unfold bind.
  destruct (read_virtqueues _ _ _ _ _ w) as [[[vqs' pv'] nqs'] w']. cbn in E. subst vqs'.
  destruct (IH (vqs ++ new) pv' nqs' w' Hnd) as (new' & -> & Hf' & Hk'). exists (new ++ new'). rewrite <- app_assoc. unfold places in *.
  rewrite omap_app, fmap_app. rewrite Forall_forall in Hf, Hf'. split_and!; [done| |].
  - apply Forall_app. rewrite !Forall_forall. split; intros q Hin; apply elem_of_app; auto.
  - rewrite fmap_app. apply NoDup_app. split_and!; [|intros k Hk Hk''|done].
    + eapply (NoDup_fmap_1 snd). by rewrite <- list_fmap_compose.
    + apply list_elem_of_fmap in Hk as (q & -> & Hin), Hk'' as (q' & Hkey & Hin'). apply vq_key_place in Hkey as [Hpl _].
      specialize (Hf q Hin). specialize (Hf' q' Hin'). rewrite <- Hpl in Hf'. apply list_elem_of_fmap in Hf as (al & Hal & Hin1), Hf' as (al' & Hal' & Hin2).
      rewrite Hal in Hal'. apply (inj place) in Hal' as <-. by apply (Hne al).
Qed.

Lemma scsi_places vdevs p : p ∈ places scsi_alias vdevs → p = (EmptyString, "scsi").
Proof.
  intros (al & -> & Hin)%list_elem_of_fmap. apply list_elem_of_omap in Hin as (vdev & _ & E). unfold scsi_alias in E.
  destruct (IsVirtioScsi vdev); [|done]. destruct (ExtractControllerName _); [|done]. cbn in E. by simplify_eq.
Qed.

Lemma blk_places vdevs p : p ∈ places blk_alias vdevs → p.2 = "virtio".
Proof.
  intros (al & -> & Hin)%list_elem_of_fmap. apply list_elem_of_omap in Hin as (vdev & _ & E). unfold blk_alias in E.
  destruct (IsVirtioBlk vdev); [|done]. destruct (ExtractDiskInfo _) as [[]|]; [|done]. cbn in E. by simplify_eq.
Qed.

Lemma collect_virtqueues_keys pv vdevs w :
  NoDup (omap blk_alias vdevs) → (length (omap scsi_alias vdevs) <= 1)%nat →
  let vqs := (collect_virtqueues (G := G) haveClient c pv vdevs w).1.1.1 in
  NoDup (vq_key <$> vqs) ∧ Forall (λ q, queue_place q ∈ places blk_alias vdevs ++ places scsi_alias vdevs) vqs.
Proof.
  intros Hb Hs. unfold collect_virtqueues, bind. destruct (read_all_virtqueues blk_alias vdevs [] pv (numQueues c) w Hb) as (new & E & Hf & Hk).
  destruct (for_each (read_virtqueues _ _ blk_alias) _ vdevs w) as [[[vqs pv'] nqs] w']. cbn in E. subst vqs.
  assert (Hs' : NoDup (omap scsi_alias vdevs)) by (destruct (omap scsi_alias vdevs) as [|x [|y l]]; cbn in Hs; [constructor|apply NoDup_singleton|lia]).
  destruct (read_all_virtqueues scsi_alias vdevs new pv' nqs w' Hs') as (new' & -> & Hf' & Hk'). cbv zeta. rewrite Forall_forall in Hf, Hf'. split.
  - rewrite fmap_app. apply NoDup_app. split_and!; [done| |done]. intros k Hk1 Hk2.
    apply list_elem_of_fmap in Hk1 as (q & -> & Hin), Hk2 as (q' & [Hpl _]%vq_key_place & Hin').
    specialize (Hf q Hin). specialize (Hf' q' Hin'). apply blk_places in Hf. apply scsi_places in Hf'. rewrite Hpl, Hf' in Hf. done.
  - apply Forall_app. rewrite !Forall_forall. split; intros q Hin; apply elem_of_app; auto.
Qed.
End Queues.

Lemma queue_labels_key r q q' : queue_labels r q = queue_labels r q' → vq_key q = vq_key q'.
Proof. unfold queue_labels, vq_key. intros [= -> _ ->%(inj itoa) ->]. done. Qed.

(** If the disks of a machine have distinct names and it has at most one SCSI
    controller, the virtqueue metrics of a scrape have distinct labels, whichever
    of the queries fail. *)
Theorem virtqueue_metrics_distinct {G} `{Environment G} haveClient c pv vdevs (w : world G) r :
  NoDup (omap blk_alias vdevs) → (length (omap scsi_alias vdevs) <= 1)%nat →
  Virtqueues r = (collect_virtqueues haveClient c pv vdevs w).1.1.1 →
  NoDup (queue_labels r <$> Virtqueues r).
Proof.
  intros Hb Hs ->. destruct (collect_virtqueues_keys haveClient c pv vdevs w Hb Hs) as [Hk _]. cbv zeta in Hk.
  apply NoDup_fmap_2_strong; [|by eapply NoDup_fmap_1]. intros q q' Hin Hin' E%queue_labels_key.
  apply list_elem_of_lookup in Hin as [i Hi], Hin' as [j Hj].
  assert (i = j) as ->; [|congruence]. eapply NoDup_lookup; [exact Hk|rewrite list_lookup_fmap, Hi; reflexivity|rewrite list_lookup_fmap, Hj; by rewrite E].
Qed.

(** ** Scripted runs *)

Definition example_pod : pod :=
  Pod "virt-launcher-db" "prod" true {[ "kubevirt.io" := "virt-launcher"; "vm.kubevirt.io/name" := "db" ]}.
Definition example_store : list store_object := [PodObject example_pod; OtherObject].
Definition example_cfg : PollerConfig := Poller "node-1" 60000000000 [10000000; 100000000; 1000000000] 5 8 [] EmptyString.

(** Answers of QEMU. *)
Definition returns (j : json) : string + string := inr (marshal (JObj [("return", j)])).
Definition refuses : string + string := inr (marshal (JObj [("error", JObj [("class", JStr "CommandNotFound"); ("desc", JStr "no such command")])])).

Definition json_hist : json :=
  JObj [("boundaries", JArr (JInt <$> [10000000; 100000000; 1000000000])); ("bins", JArr (JInt <$> [500; 800; 150; 50]))].
Definition json_disk (name : string) (hist : bool) : json :=
  JObj [("qdev", JStr ("/machine/peripheral/ua-" +:+ name +:+ "/virtio-backend"));
        ("stats", JObj (("rd_operations", JInt 1500) :: if hist then [("rd_latency_histogram", json_hist)] else []))].
Definition json_virtio (path name : string) : json := JObj [("path", JStr path); ("name", JStr name)].

Definition qmp_script (answers : list (string + string)) : script :=
  Script [] answers [("virt-launcher-db", "c1")] [("c1", 4242)] None None 0.

(** [n] polls in a row, as long as they go through. *)
Fixpoint polls (n : nat) (c : Collector) (w : world script) : option (Collector * world script) :=
  match n with
  | O => Some (c, w)
  | S n' => match poll example_cfg false example_store c w with (Polled c', w') => polls n' c' w' | _ => None end
  end.
Definition run (n : nat) (answers : list (string + string)) : option (Collector * world script) := polls n NewCollector (start (qmp_script answers) 0).

Lemma polls_reachable n c w c' w' : reachable example_cfg false c w → polls n c w = Some (c', w') → reachable example_cfg false c' w'.
Proof.
  revert c w. induction n as [|n IH]; intros c w Hr; cbn [polls]; [by intros [= <- <-]|].
  destruct (poll _ _ _ _ w) as [[c1| |] w1] eqn:E; [|done..]. apply IH. by eapply reach_poll.
Qed.

Lemma run_reachable n answers c w : run n answers = Some (c, w) → reachable example_cfg false c w.
Proof. apply polls_reachable. by apply reach_new. Qed.

(** A disk that is armed in the first poll and has its histogram in the second. *)
Definition plain_run : list (string + string) :=
  [returns (JArr [json_disk "rootdisk" false]); returns (JObj []); refuses;
   returns (JArr [json_disk "rootdisk" true]); refuses].

Lemma qmp_connections_witness :
  ∃ c w, run 2 plain_run = Some (c, w) ∧ (∃ vc, connections c !! "c1" = Some vc ∧ vc_client vc ∈ conns w) ∧ conns (stop c w).2 = ∅.
Proof.
  destruct (run 2 plain_run) as [[c w]|] eqn:E; [|exfalso; revert E; vm_compute; discriminate].
  exists c, w. split; [reflexivity|]. pose proof (qmp_connections example_cfg false c w (run_reachable _ _ _ _ E)) as (Hc & _ & _ & _ & Hstop).
  split; [|exact Hstop].
  assert (Hs : ∃ vc, (λ cw : Collector * world script, connections cw.1 !! "c1") <$> run 2 plain_run = Some (Some vc)) by (vm_compute; by eexists).
  destruct Hs as [vc Hs]. rewrite E in Hs. cbn in Hs. injection Hs as Hs. exists vc. split; [exact Hs|]. apply Hc. exists "c1", vc. split; [exact Hs|reflexivity].
Defined.

Lemma qmp_run_ends_witness :
  ∃ c' w', Run (poll example_cfg false) stop 60000000000 example_store [example_store; []] NewCollector (start (qmp_script plain_run) 0) = (Polled c', w') ∧ conns w' = ∅.
Proof. apply (qmp_run_ends example_cfg false example_store [example_store; []] (start (qmp_script plain_run) 0)); [reflexivity..]. Defined.

Definition scrape_conn : vmConnection := Conn 0 "prod" "db" "virt-launcher-db" ∅ ∅ {[ "rootdisk" := "claim" ]} false.
Definition scrape_answers : world script :=
  start (qmp_script [returns (JArr [json_disk "rootdisk" true; json_disk "data" false]); returns (JObj []); refuses]) 1.


Definition scsi_path (n : string) : string := "/machine/peripheral/scsi" +:+ n +:+ "/virtio-backend".
Definition disk_path : string := "/machine/peripheral/ua-rootdisk/virtio-backend".
Definition json_status (nq : Z) : string + string := returns (JObj [("name", JStr "virtio"); ("num-vqs", JInt nq)]).
Definition json_queue (inuse : Z) : string + string := returns (JObj [("inuse", JInt inuse); ("vring-num", JInt 256)]).

(** A disk with two queues, and a controller with one. *)
Definition one_controller : list VirtioDevice := [VDevice (scsi_path "0") "virtio-scsi"; VDevice disk_path "virtio-blk"].
Definition queue_answers : world script := start (qmp_script [json_status 2; json_queue 3; json_queue 0; json_status 1; json_queue 7]) 1.

Lemma virtqueue_metrics_distinct_witness :
  let r := MkResult "prod" "db" "node-1" "virt-launcher-db" [] (collect_virtqueues true scrape_conn ({[ "rootdisk" := "claim" ]}, false) one_controller queue_answers).1.1.1 in
  (vq_Inuse <$> Virtqueues r) = [3; 0; 7] ∧ NoDup (queue_labels r <$> Virtqueues r).
Proof.
  intros r. split; [vm_compute; reflexivity|].
  apply (virtqueue_metrics_distinct true scrape_conn ({[ "rootdisk" := "claim" ]}, false) one_controller queue_answers r).
  - apply (bool_decide_eq_true_1 (NoDup (omap blk_alias one_controller))). vm_compute. reflexivity.
  - vm_compute. lia.
  - reflexivity.
Defined.

(** ** A machine with two SCSI controllers *)

Definition controllers_run (ns : list string) : list (string + string) :=
  [returns (JArr []); returns (JArr ((λ n, json_virtio (scsi_path n) "virtio-scsi") <$> ns))]
  ++ concat ((λ _, [json_status 1; json_queue 7]) <$> ns).

(** The controller's name is looked up and then dropped, so that the queues of
    two SCSI controllers of one machine are exported with the same labels, which
    makes Prometheus reject everything that is gathered with them; with one
    controller all identities differ. *)
Theorem scsi_controllers_collide :
  (∃ c w ms, run 1 (controllers_run ["0"; "1"]) = Some (c, w) ∧ Collect c = Some ms ∧ ¬ NoDup (prom_id <$> ms)) ∧
  (∃ c w ms, run 1 (controllers_run ["0"]) = Some (c, w) ∧ Collect c = Some ms ∧ NoDup (prom_id <$> ms)).
Proof.
  assert (Hgo : ∀ ns b, ((λ cw : Collector * world script, (λ ms, bool_decide (NoDup (prom_id <$> ms))) <$> Collect cw.1) <$> run 1 (controllers_run ns)) = Some (Some b) →
    ∃ c w ms, run 1 (controllers_run ns) = Some (c, w) ∧ Collect c = Some ms ∧ bool_decide (NoDup (prom_id <$> ms)) = b).
  { intros ns b. destruct (run 1 _) as [[c w]|]; [|done]. cbn [fmap option_fmap option_map fst].
    destruct (Collect c) as [ms|] eqn:E; [|by intros [=]]. intros [= <-]. by exists c, w, ms. }
  split.
  - destruct (Hgo ["0"; "1"] false) as (c & w & ms & Hr & Hc & Hn); [vm_compute; reflexivity|]. exists c, w, ms.
    split; [exact Hr|]. split; [exact Hc|]. exact (proj1 (bool_decide_eq_false _) Hn).
  - destruct (Hgo ["0"] true) as (c & w & ms & Hr & Hc & Hn); [vm_compute; reflexivity|]. exists c, w, ms.
    split; [exact Hr|]. split; [exact Hc|]. exact (proj1 (bool_decide_eq_true _) Hn).
Qed.

(** ** A disk that is plugged in again *)

(** A disk is armed, then has its histogram, then is replaced by one that has none. *)
Definition replug_run : list (string + string) :=
  plain_run ++ [returns (JArr [json_disk "rootdisk" false]); refuses].

Definition is_arm_command (e : event) : bool :=
  match e with Monitor _ cmd => bool_decide (cmd = arm_command [10000000; 100000000; 1000000000] "ua-rootdisk/virtio-backend") | _ => false end.

(** What a run reports, and how often histograms were switched on. *)
Definition outcome (cw : Collector * world script) : list (list string) * nat :=
  ((λ r, d_Disk <$> Devices r) <$> results cw.1, length (filter is_arm_command (trace cw.2))).

(** A disk that is unplugged and plugged in again under its name while the
    connection lasts is never armed again, and so is not reported any more: an
    armed name stays armed in every scrape, nothing is sent for it, and a disk
    without histograms is not reported.  In the run below the disk is armed in
    the first of three polls, reported in the second, and lost in the third. *)
Theorem replugged_disk_lost :
  (∀ G `(Environment G) cfg i a dev (w : world G) d,
     device_id dev = Some d → d ∈ a → arm cfg i a dev w = (a, w)) ∧
  (∀ dev, HasHistograms dev = false → reported dev = None) ∧
  outcome <$> run 1 replug_run = Some ([[]], 1%nat) ∧
  outcome <$> run 2 replug_run = Some ([["rootdisk"]], 1%nat) ∧
  outcome <$> run 3 replug_run = Some ([[]], 1%nat).
Proof.
  split; [|split; [|vm_compute; done]].
  - intros G H cfg i a dev w d Hd Hin. unfold arm. unfold device_id in Hd.
    destruct (ExtractDiskInfo _) as [[alias d']|]; cbn in Hd; simplify_eq. by rewrite bool_decide_eq_true_2.
  - intros dev Hh. unfold reported. destruct (ExtractDiskInfo _) as [[]|]; cbn; [by rewrite Hh|done].
Qed.

(** ** The commands *)

(** One text is sent to the monitor of [i], and it is JSON for [j]. *)
Definition sends {G A} (m : M G A) (i : nat) (j : json) (w : world G) : Prop :=
  ∃ text, trace (m w).2 = trace w ++ [Monitor i text] ∧ json_of text = Some j.

Lemma execQMP_sends {G} `{Environment G} i command args (w : world G) :
  valid_utf8 0 command = true →
  match args with Some a => wf_json a = true ∧ nesting a < maxNestingDepth | None => True end →
  sends (execQMP i command args) i (JObj (("execute", JStr command) :: match args with Some a => [("arguments", a)] | None => [] end)) w.
Proof.
  intros Hc Ha. exists (marshal (qmpCommand command args)). split; [apply execQMP_trace|]. unfold qmpCommand. apply json_of_marshal.
  - destruct args as [a|]; cbn; rewrite Hc; [by destruct Ha as [-> _]|done].
  - destruct args as [a|]; cbn [nesting fmap list_fmap foldr]; [|unfold maxNestingDepth; lia].
    destruct Ha as [_ Ha]. unfold maxNestingDepth in *. lia.
Qed.

(** A call of the client sends the command it runs, when the client is open. *)
Lemma open_sends {G} `{Environment G} {B} i command args (k : RawMessage → M G (err + B)) (w : world G) :
  (i ∉ closed w) → valid_utf8 0 command = true →
  match args with Some a => wf_json a = true ∧ nesting a < maxNestingDepth | None => True end →
  (∀ x w', trace (k x w').2 = trace w') →
  sends (when_open i (try (execQMP i command args) k)) i
    (JObj (("execute", JStr command) :: match args with Some a => [("arguments", a)] | None => [] end)) w.
Proof.
  intros Hi Hc Ha Hk. destruct (execQMP_sends i command args w Hc Ha) as (text & Ht & Hj). exists text. split; [|exact Hj].
  unfold when_open. rewrite bool_decide_eq_false_2 by done. unfold try, bind.
  destruct (execQMP _ _ _ w) as [[e|x] w']; [exact Ht|]. cbn [snd] in Ht. by rewrite Hk.
Qed.

Lemma of_option_trace {G A} e (o : option A) (w : world G) : trace (of_option e o w).2 = trace w.
Proof. by destruct o. Qed.

Lemma wf_json_ints ns : wf_json (JArr (JInt <$> ns)) = true ∧ nesting (JArr (JInt <$> ns)) = 1.
Proof.
  split; cbn [wf_json nesting]; [by induction ns as [|n ns IH]; [|cbn; rewrite is_number_itoa]|].
  assert (foldr Z.max 0 (nesting <$> (JInt <$> ns)) = 0) as ->; [|done]. by induction ns as [|n ns IH]; [|cbn; rewrite IH].
Qed.

(** C32.  QEMU reads what the collector means.  Each call of an open client sends
    the monitor one text, and that text parses as the JSON object of the command
    with its arguments: the boundaries and the identifier of the device for
    block-latency-histogram-set, the path, or the path and the queue, for the
    queries of virtqueues, no arguments for the two others; and so does any command
    whose arguments are valid UTF-8 and nested within the limit of the decoder. *)
Theorem qmp_command_roundtrip {G} `{Environment G} i (w : world G) :
  (i ∉ closed w) →
  (∀ command args, valid_utf8 0 command = true → wf_json args = true → nesting args < maxNestingDepth →
     sends (execQMP i command (Some args)) i (JObj [("execute", JStr command); ("arguments", args)]) w) ∧
  sends (QueryBlockStats i) i (JObj [("execute", JStr "query-blockstats")]) w ∧
  sends (QueryVirtio i) i (JObj [("execute", JStr "x-query-virtio")]) w ∧
  (∀ d bs, valid_utf8 0 d = true →
     sends (EnableHistogram i d bs) i
       (JObj [("execute", JStr "block-latency-histogram-set");
              ("arguments", JObj [("boundaries", JArr (JInt <$> bs)); ("id", JStr d)])]) w) ∧
  (∀ path, valid_utf8 0 path = true →
     sends (QueryVirtioStatus i path) i (JObj [("execute", JStr "x-query-virtio-status"); ("arguments", JObj [("path", JStr path)])]) w) ∧
  (∀ path queue, valid_utf8 0 path = true →
     sends (QueryVirtioQueueStatus i path queue) i
       (JObj [("execute", JStr "x-query-virtio-queue-status"); ("arguments", JObj [("path", JStr path); ("queue", JInt queue)])]) w).
Proof.
  intros Hi. split; [intros command args Hc Hw Hn; by apply (execQMP_sends i command (Some args))|].
  split; [by apply (open_sends i _ None); intros; try apply of_option_trace|].
  split; [by apply (open_sends i _ None); intros; try apply of_option_trace|]. split_and!.
  - intros d bs Hd. apply (open_sends i _ (Some _)); [done|done| |done].
    destruct (wf_json_ints bs) as [Hw Hn]. cbn [wf_json nesting fmap list_fmap foldr forallb]. cbn [wf_json nesting] in Hw, Hn. rewrite Hw, Hd, Hn. done.
  - intros path Hp. apply (open_sends i _ (Some _)); [done|done| |by intros; apply of_option_trace].
    cbn [wf_json nesting fmap list_fmap foldr forallb]. by rewrite Hp.
  - intros path q Hp. apply (open_sends i _ (Some _)); [done|done| |by intros; apply of_option_trace].
    cbn [wf_json nesting fmap list_fmap foldr forallb JInt]. by rewrite Hp, is_number_itoa.
Qed.

Lemma qmp_command_roundtrip_witness :
  ∃ text, trace (QueryVirtioQueueStatus 0 disk_path 3 scrape_answers).2 = [Monitor 0 text] ∧
    json_of text = Some (JObj [("execute", JStr "x-query-virtio-queue-status");
      ("arguments", JObj [("path", JStr disk_path); ("queue", JNum "3")])]).
Proof. apply (qmp_command_roundtrip 0 scrape_answers); [set_solver|vm_compute; reflexivity]. Defined.
