(* ===== verification/PollConcurrency.v ===== *)
(** * The goroutines of a poll

    Both polling collectors scrape the machines they know in parallel: the poll
    starts one goroutine per machine, a channel of size [Concurrency] is the
    semaphore that limits how many scrape at a time, a mutex guards the list of
    results and the count of errors, a wait group tells the poll when all are
    done, and a read-write lock guards what is published to [Collect], which
    Prometheus calls at any time.  Here the goroutines take turns in any order:
    a configuration is where each of them stands, and [turn] lets one of them
    take its next step.  The machine is stated over a class [Scraper] of what the
    two collectors do differently. *)
From stdpp Require Import relations.
From S2P Require Import Prelude GoFloat GoEffect QmpClient ConnPool.

(** ** The code of a goroutine *)

(** What follows an error, done to the goroutine's own machine. *)
Inductive machine_action (S : Type) := CloseConn | ForgetConn | UpdateConn (f : S → S).
Arguments CloseConn {S}.
Arguments ForgetConn {S}.
Arguments UpdateConn {S}.

(** The statements between Lock and Unlock of resultsMu.  A variable that is
    read and then written takes two of them, by way of a register. *)
Inductive action (S R : Type) :=
  | LoadErrors | StoreErrors
  | LoadResults | StoreResults (r : R)
  | OnMachine (a : machine_action S).
Arguments LoadErrors {S R}.
Arguments StoreErrors {S R}.
Arguments LoadResults {S R}.
Arguments StoreResults {S R}.
Arguments OnMachine {S R}.

(** A collector: which machines it scrapes, how a scrape of a machine can end
    (with an error, a result or nothing, and the state the machine is left in),
    and what it does to a machine whose scrape failed. *)
Class Scraper (S R : Type) := {
  sc_active : S → bool;
  sc_scrapes : S → (err + option R) * S → Prop;
  sc_on_error : err → list (machine_action S);
  sc_scrape_ends s : ∃ o, sc_scrapes s o;
  sc_on_error_short e : (length (sc_on_error e) <= 2)%nat;
}.

(** ** Configurations *)

Section Machine.
Context {S R : Type} `{PoolEntry S} `{Scraper S R}.

(** How a scrape ended. *)
Definition outcome : Type := (err + option R) * S.

(** What the goroutines share.  A machine's state is reached through the map; of
    the world only connections count. *)
Record shared := Shared { sh_machines : gmap string S; sh_results : list R; sh_errors : Z; sh_world : world unit }.
Record regs := Regs { reg_errors : Z; reg_results : list R }.
Definition regs0 : regs := Regs 0 [].

Definition set_machines (m : gmap string S) (sh : shared) : shared := Shared m (sh_results sh) (sh_errors sh) (sh_world sh).

Definition critical (res : err + option R) : list (action S R) :=
  match res with
  | inl e => [LoadErrors; StoreErrors] ++ (OnMachine <$> sc_on_error e)
  | inr (Some r) => [LoadResults; StoreResults r]
  | inr None => []
  end.

Definition machine_act (id : string) (a : machine_action S) (sh : shared) : shared :=
  match a with
  | CloseConn =>
      match sh_machines sh !! id with
      | Some s => let '(s', w') := close s (sh_world sh) in Shared (<[id := s']> (sh_machines sh)) (sh_results sh) (sh_errors sh) w'
      | None => sh
      end
  | ForgetConn => set_machines (delete id (sh_machines sh)) sh
  | UpdateConn f => set_machines (alter f id (sh_machines sh)) sh
  end.

Definition act (id : string) (x : regs * shared) (a : action S R) : regs * shared :=
  let '(rg, sh) := x in
  match a with
  | LoadErrors => (Regs (sh_errors sh) (reg_results rg), sh)
  | StoreErrors => (rg, Shared (sh_machines sh) (sh_results sh) (reg_errors rg + 1) (sh_world sh))
  | LoadResults => (Regs (reg_errors rg) (sh_results sh), sh)
  | StoreResults r => (rg, Shared (sh_machines sh) (reg_results rg ++ [r]) (sh_errors sh) (sh_world sh))
  | OnMachine a => (rg, machine_act id a sh)
  end.

(** The scrape writes to the machine's state itself. *)
Definition settle (id : string) (s : S) (sh : shared) : shared := set_machines (alter (λ _, s) id (sh_machines sh)) sh.

(** Where a goroutine stands.  The deferred calls run last to first: Unlock, the
    receive that leaves the semaphore, Done. *)
Inductive phase :=
  | AtSem                                                    (** at [sem <- struct{}{}] *)
  | Scraping
  | AtLock (o : outcome)                                     (** at [resultsMu.Lock()] *)
  | Critical (o : outcome) (k : list (action S R)) (rg : regs)  (** the statements left *)
  | AtLeave (o : outcome)                                    (** at [<-sem] *)
  | AtDone (o : outcome)                                     (** at [wg.Done()] *)
  | Exited (o : outcome).

Record worker := Worker { wk_id : string; wk_phase : phase }.

(** What [Collect] reads. *)
Record published := Pub { p_results : list R; p_errors : float64; p_ts : float64 }.

(** The three assignments under [c.mu.Lock()], and the three reads under
    [c.mu.RLock()] in the order of Collect. *)
Inductive field := FResults | FErrors | FTS.
Definition store (sh : shared) (now : Z) (f : field) (p : published) : published :=
  match f with
  | FResults => Pub (sh_results sh) (p_errors p) (p_ts p)
  | FErrors => Pub (p_results p) (f64_add (p_errors p) (f64_of_Z (sh_errors sh))) (p_ts p)
  | FTS => Pub (p_results p) (p_errors p) (f64_of_Z now)
  end.
Definition load (p : published) (f : field) (a : published) : published :=
  match f with
  | FResults => Pub (p_results p) (p_errors a) (p_ts a)
  | FErrors => Pub (p_results a) (p_errors p) (p_ts a)
  | FTS => Pub (p_results a) (p_errors a) (p_ts p)
  end.
Definition stores : list field := [FResults; FErrors; FTS].
Definition loads : list field := [FErrors; FTS; FResults].

(** Where the poll stands, once the connections are up to date. *)
Inductive poller :=
  | Spawning (todo : list string)
  | Waiting                              (** at [wg.Wait()] *)
  | AtMu                                 (** at [c.mu.Lock()] *)
  | Publishing (k : list field)
  | Returned.

(** Where a call of Collect stands, with what it has read so far. *)
Inductive collecting := AtRLock (a : published) | Reading (k : list field) (a : published) | Collected (a : published).

Record config := Conf {
  main : poller;
  workers : list worker;
  sem : nat;               (** values in the channel *)
  wg : nat;
  resultsMu : bool;        (** held *)
  sh : shared;
  pub : published;
  readers : list collecting;
}.

(** Start: the machines of the snapshot in the order of the range loop, and the
    calls of Collect that come during the poll. *)
Definition poll_start (m : gmap string S) (w : world unit) (ids : list string) (p : published) (rs : list published) : config :=
  Conf (Spawning ids) [] 0 0 false (Shared m [] 0 w) p (AtRLock <$> rs).

Definition set_main (x : poller) (c : config) : config :=
  Conf x (workers c) (sem c) (wg c) (resultsMu c) (sh c) (pub c) (readers c).
Definition set_worker (i : nat) (id : string) (x : phase) (c : config) : config :=
  Conf (main c) (<[i := Worker id x]> (workers c)) (sem c) (wg c) (resultsMu c) (sh c) (pub c) (readers c).
Definition set_sem (n : nat) (c : config) : config := Conf (main c) (workers c) n (wg c) (resultsMu c) (sh c) (pub c) (readers c).
Definition set_wg (n : nat) (c : config) : config := Conf (main c) (workers c) (sem c) n (resultsMu c) (sh c) (pub c) (readers c).
Definition set_mu (b : bool) (c : config) : config := Conf (main c) (workers c) (sem c) (wg c) b (sh c) (pub c) (readers c).
Definition set_shared (x : shared) (c : config) : config := Conf (main c) (workers c) (sem c) (wg c) (resultsMu c) x (pub c) (readers c).
Definition set_pub (p : published) (c : config) : config := Conf (main c) (workers c) (sem c) (wg c) (resultsMu c) (sh c) p (readers c).
Definition set_reader (i : nat) (x : collecting) (c : config) : config :=
  Conf (main c) (workers c) (sem c) (wg c) (resultsMu c) (sh c) (pub c) (<[i := x]> (readers c)).

Definition is_reading (r : collecting) : bool := match r with Reading _ _ => true | _ => false end.
Definition writing (x : poller) : bool := match x with Publishing _ => true | _ => false end.

(** ** Turns *)

(** The poll's next step at time [now]; [None] where it has to wait. *)
Definition main_turn (now : Z) (c : config) : option config :=
  match main c with
  | Spawning [] => Some (set_main Waiting c)
  | Spawning (id :: l) =>
      if default false (sc_active <$> sh_machines (sh c) !! id) then
        Some (Conf (Spawning l) (workers c ++ [Worker id AtSem]) (sem c) (wg c + 1)%nat (resultsMu c) (sh c) (pub c) (readers c))
      else Some (set_main (Spawning l) c)
  | Waiting => if decide (wg c = 0%nat) then Some (set_main AtMu c) else None
  | AtMu => if existsb is_reading (readers c) then None else Some (set_main (Publishing stores) c)
  | Publishing (f :: k) => Some (set_main (Publishing k) (set_pub (store (sh c) now f (pub c)) c))
  | Publishing [] => Some (set_main Returned c)
  | Returned => None
  end.

(** A goroutine's next step; [o] is how its scrape ends, where that is the step. *)
Definition worker_turn (cap : nat) (i : nat) (o : outcome) (c : config) : option config :=
  '(Worker id x) ← workers c !! i;
  match x with
  | AtSem => if decide (sem c < cap)%nat then Some (set_sem (sem c + 1)%nat (set_worker i id Scraping c)) else None
  | Scraping => Some (set_shared (settle id o.2 (sh c)) (set_worker i id (AtLock o) c))
  | AtLock o' => if resultsMu c then None else Some (set_mu true (set_worker i id (Critical o' (critical o'.1) regs0) c))
  | Critical o' (a :: k) rg =>
      let '(rg', sh') := act id (rg, sh c) a in Some (set_shared sh' (set_worker i id (Critical o' k rg') c))
  | Critical o' [] rg => Some (set_mu false (set_worker i id (AtLeave o') c))
  | AtLeave o' => Some (set_sem (sem c - 1)%nat (set_worker i id (AtDone o') c))
  | AtDone o' => Some (set_wg (wg c - 1)%nat (set_worker i id (Exited o') c))
  | Exited _ => None
  end.

Definition reader_turn (i : nat) (c : config) : option config :=
  r ← readers c !! i;
  match r with
  | AtRLock a => if writing (main c) then None else Some (set_reader i (Reading loads a) c)
  | Reading (f :: k) a => Some (set_reader i (Reading k (load (pub c) f a)) c)
  | Reading [] a => Some (set_reader i (Collected a) c)
  | Collected _ => None
  end.

Inductive turn_of := Main (now : Z) | Goroutine (i : nat) (o : outcome) | CollectCall (i : nat).

Definition turn (cap : nat) (t : turn_of) (c : config) : option config :=
  match t with
  | Main now => main_turn now c
  | Goroutine i o => worker_turn cap i o c
  | CollectCall i => reader_turn i c
  end.

(** A scrape ends in a way it can end for the machine as it is then. *)
Definition legal (t : turn_of) (c : config) : Prop :=
  match t with
  | Goroutine i o => ∀ id, workers c !! i = Some (Worker id Scraping) → ∃ s, sh_machines (sh c) !! id = Some s ∧ sc_scrapes s o
  | _ => True
  end.

Definition step (cap : nat) (c c' : config) : Prop := ∃ t, legal t c ∧ turn cap t c = Some c'.

(** A schedule of turns. *)
Fixpoint turns (cap : nat) (ts : list turn_of) (c : config) : option config :=
  match ts with
  | [] => Some c
  | t :: ts' => c' ← turn cap t c; turns cap ts' c'
  end.

(** All have ended. *)
Definition ended (c : config) : Prop :=
  main c = Returned ∧ Forall (λ w, ∃ o, wk_phase w = Exited o) (workers c) ∧ Forall (λ r, ∃ a, r = Collected a) (readers c).

(** How many goroutines are past the semaphore and have not left it, how many
    are between Lock and Unlock, and how many have not called Done. *)
Definition in_sem (w : worker) : nat := match wk_phase w with AtSem | AtDone _ | Exited _ => 0 | _ => 1 end.
Definition in_critical (w : worker) : nat := match wk_phase w with Critical _ _ _ => 1 | _ => 0 end.
Definition not_done (w : worker) : nat := match wk_phase w with Exited _ => 0 | _ => 1 end.

(** How the scrapes ended whose goroutines are done. *)
Definition scrapes_of (c : config) : list (string * outcome) :=
  omap (λ w, match wk_phase w with Exited o => Some (wk_id w, o) | _ => None end) (workers c).
Definition count (f : worker → nat) (c : config) : nat := sum_list_with f (workers c).
End Machine.
Arguments outcome : clear implicits.
Arguments shared : clear implicits.
Arguments regs : clear implicits.
Arguments worker : clear implicits.
Arguments phase : clear implicits.
Arguments published : clear implicits.
Arguments collecting : clear implicits.
Arguments config : clear implicits.
Arguments turn_of : clear implicits.

(** ** Counting goroutines *)

Create Rewrite HintDb poll_count.

Lemma sum_list_with_insert {A} (f : A → nat) (l : list A) i x y :
  l !! i = Some x → (sum_list_with f (<[i := y]> l) + f x = sum_list_with f l + f y)%nat.
Proof.
  revert i. induction l as [|z l IH]; intros [|i] Hi; [done..| |].
  - simplify_eq/=. lia.
  - specialize (IH i Hi). change (<[S i := y]> (z :: l)) with (z :: <[i := y]> l). cbn [sum_list_with]. lia.
Qed.

Lemma sum_list_with_pos {A} (f : A → nat) (l : list A) i x : l !! i = Some x → (f x <= sum_list_with f l)%nat.
Proof. revert i. induction l as [|z l IH]; intros [|i] Hi; cbn in *; [done..|simplify_eq; lia|]. specialize (IH i Hi). lia. Qed.

Lemma sum_list_with_zero {A} (f : A → nat) (l : list A) : sum_list_with f l = 0%nat → Forall (λ x, f x = 0%nat) l.
Proof. induction l as [|z l IH]; cbn; [done|]. intros. constructor; [|apply IH]; lia. Qed.

Section Invariants.
Context {S R : Type} `{PoolEntry S} `{Scraper S R}.

(** Take the next step of a goroutine apart. *)
Ltac worker_cases E Hc :=
  match goal with
  | |- worker_turn _ ?i _ ?c = Some _ → _ =>
      unfold worker_turn; destruct (workers c !! i) as [[id x]|] eqn:E; [|done]; cbn [mbind option_bind];
      destruct x as [| |o'|o' [|a k] rg|o'|o'|o']; try (case_decide; [|done]);
      try (destruct (resultsMu c) eqn:Hc; [done|]);
      try match goal with |- context [act ?id ?x ?a] => destruct (act id x a) as [rg' sh'] eqn:Hact end;
      intros [= <-]
  end.

(** The counters say what they are meant to say. *)
Record counted (cap : nat) (c : config S R) : Prop := {
  ct_sem : sem c = count in_sem c;
  ct_cap : (sem c <= cap)%nat;
  ct_wg : wg c = count not_done c;
  ct_mu : count in_critical c = if resultsMu c then 1%nat else 0%nat;
  ct_wait : match main c with Spawning _ | Waiting => True | _ => wg c = 0%nat end;
}.

Lemma counted_start cap m w ids p rs : counted cap (poll_start (R := R) m w ids p rs).
Proof. split; cbn; try done. lia. Qed.

Lemma counted_main cap now c c' : counted cap c → main_turn now c = Some c' → counted cap c'.
Proof.
  intros [Hs Hc Hw Hm Hwt]. unfold main_turn.
  destruct (main c) as [[|id l]| | |[|f k]|] eqn:Em; try done.
  - intros [= <-]. by split.
  - destruct (default false _); intros [= <-]; [|by split]. split; cbn; unfold count; cbn; rewrite ?sum_list_with_app; cbn; try done;
      unfold count in *; rewrite <- ?Hs, <- ?Hw, <- ?Hm; lia.
  - case_decide; [|done]. intros [= <-]. by split.
  - destruct (existsb _ _); [done|]. intros [= <-]. by split.
  - intros [= <-]. by split.
  - intros [= <-]. by split.
Qed.

Lemma count_set_worker f i id x y (c : config S R) :
  workers c !! i = Some (Worker id x) → (count f (set_worker i id y c) + f (Worker id x) = count f c + f (Worker id y))%nat.
Proof. apply sum_list_with_insert. Qed.
Lemma count_set_sem f n (c : config S R) : count f (set_sem n c) = count f c.
Proof. done. Qed.
Lemma count_set_wg f n (c : config S R) : count f (set_wg n c) = count f c.
Proof. done. Qed.
Lemma count_set_mu f b (c : config S R) : count f (set_mu b c) = count f c.
Proof. done. Qed.
Lemma count_set_shared f x (c : config S R) : count f (set_shared x c) = count f c.
Proof. done. Qed.
#[local] Hint Rewrite count_set_sem count_set_wg count_set_mu count_set_shared : poll_count.

Lemma counted_worker cap i o (c c' : config S R) : counted cap c → worker_turn cap i o c = Some c' → counted cap c'.
Proof.
  intros [Hs Hc Hw Hm Hwt]. worker_cases E Hmu;
  match goal with E : _ !! _ = Some (Worker ?id _) |- context [set_worker i ?id ?y c] =>
    pose proof (count_set_worker in_sem i id _ y c E) as Is; pose proof (count_set_worker not_done i id _ y c E) as Id;
    pose proof (count_set_worker in_critical i id _ y c E) as Ic
  end; cbn [in_sem not_done in_critical wk_phase] in Is, Id, Ic;
  (split; autorewrite with poll_count; cbn [sem wg resultsMu main set_sem set_wg set_mu set_shared set_worker];
   try (destruct (resultsMu c)); try (destruct (main c)); try done; lia).
Qed.

Lemma counted_step cap (c c' : config S R) : counted cap c → step cap c c' → counted cap c'.
Proof.
  intros Hc (t & _ & Ht). destruct t as [now|i o|i]; cbn in Ht; [by eapply counted_main|by eapply counted_worker|].
  destruct Hc as [Hs Hcp Hw Hm Hwt]. revert Ht. unfold reader_turn. destruct (readers c !! i) as [[a|[|f k] a|a]|]; cbn; try done.
  - destruct (writing _) eqn:Ew; [done|]. intros [= <-]. by split.
  - intros [= <-]. by split.
  - intros [= <-]. by split.
Qed.

Lemma counted_steps cap (c c' : config S R) : counted cap c → rtc (step cap) c c' → counted cap c'.
Proof. intros Hc Hr. induction Hr; [done|]. eauto using counted_step. Qed.
End Invariants.

(** ** Critical sections are atomic *)

Section Atomic.
Context {S R : Type} `{PoolEntry S} `{Scraper S R}.
Implicit Types (sh : shared S R) (ov : gmap string S).

(** What a goroutine does to the shared state, as one step. *)
Definition account (sh : shared S R) (e : string * outcome S R) : shared S R :=
  let '(id, (res, s)) := e in (foldl (act id) (regs0, settle id s sh) (critical res)).2.

(** The states of machines whose scrape has ended and is not accounted for. *)
Definition overlay ov sh : shared S R :=
  set_machines (map_imap (λ k v, Some (default v (ov !! k))) (sh_machines sh)) sh.

Lemma overlay_lookup ov sh k : sh_machines (overlay ov sh) !! k = (λ v, default v (ov !! k)) <$> sh_machines sh !! k.
Proof. cbn. rewrite map_lookup_imap. by destruct (sh_machines sh !! k). Qed.

Lemma overlay_empty sh : overlay ∅ sh = sh.
Proof.
  destruct sh as [m rs n w]. unfold overlay, set_machines. cbn. f_equal. apply map_eq. intros k.
  rewrite map_lookup_imap, lookup_empty. by destruct (m !! k).
Qed.

Lemma settle_overlay id s ov sh : settle id s (overlay ov sh) = overlay (<[id := s]> ov) sh.
Proof.
  unfold settle, overlay, set_machines. cbn. f_equal. apply map_eq. intros k. rewrite lookup_alter, !map_lookup_imap, lookup_insert.
  case_decide; subst; by destruct (sh_machines sh !! _).
Qed.

Lemma settle_as_overlay id s sh : settle id s sh = overlay {[id := s]} sh.
Proof.
  rewrite <- (overlay_empty sh) at 1. rewrite settle_overlay. by rewrite insert_empty.
Qed.

(** The goroutine of one machine does not touch the others. *)
Lemma machine_act_overlay id a ov sh : ov !! id = None → machine_act id a (overlay ov sh) = overlay ov (machine_act id a sh).
Proof.
  intros Hid. destruct a as [| |f]; unfold machine_act.
  - rewrite overlay_lookup, Hid. destruct (sh_machines sh !! id) as [s|] eqn:E; cbn [fmap option_fmap option_map default]; [|done].
    cbn [sh_world overlay set_machines]. destruct (close s (sh_world sh)) as [s' w']. unfold overlay, set_machines. cbn. f_equal.
    apply map_eq. intros k. rewrite lookup_insert, !map_lookup_imap, lookup_insert. case_decide; subst; cbn; [by rewrite Hid|done].
  - unfold overlay, set_machines. cbn. f_equal. apply map_eq. intros k. rewrite lookup_delete, !map_lookup_imap, lookup_delete.
    by case_decide.
  - unfold overlay, set_machines. cbn. f_equal. apply map_eq. intros k. rewrite lookup_alter, !map_lookup_imap, lookup_alter.
    case_decide; subst; [rewrite Hid|]; by destruct (sh_machines sh !! _).
Qed.

Lemma act_overlay id a rg ov sh :
  ov !! id = None → act id (rg, overlay ov sh) a = ((act id (rg, sh) a).1, overlay ov (act id (rg, sh) a).2).
Proof. intros Hid. destruct a; cbn [act fst snd]; try done. by rewrite machine_act_overlay. Qed.

Lemma acts_overlay id k (rg : regs R) ov sh :
  ov !! id = None → foldl (act id) (rg, overlay ov sh) k = ((foldl (act id) (rg, sh) k).1, overlay ov (foldl (act id) (rg, sh) k).2).
Proof.
  intros Hid. revert rg sh. induction k as [|a k IH]; intros rg sh; [done|]. cbn [foldl]. rewrite act_overlay by done.
  rewrite IH. by destruct (act id (rg, sh) a).
Qed.

Lemma settle_apart id s ov sh : ov !! id = None → settle id s (overlay ov sh) = overlay ov (settle id s sh).
Proof.
  intros Hid. unfold settle, overlay, set_machines. cbn. f_equal. apply map_eq. intros k.
  rewrite lookup_alter, !map_lookup_imap, lookup_alter. case_decide; subst; [rewrite Hid|]; by destruct (sh_machines sh !! _).
Qed.

Lemma account_overlay id o ov sh : ov !! id = None → account (overlay ov sh) (id, o) = overlay ov (account sh (id, o)).
Proof.
  intros Hid. destruct o as [res s]. unfold account. rewrite settle_apart by done.
  by rewrite acts_overlay.
Qed.

Lemma machine_act_other id k a sh : k ≠ id → sh_machines (machine_act id a sh) !! k = sh_machines sh !! k.
Proof.
  intros Hk. destruct a as [| |f]; cbn.
  - destruct (sh_machines sh !! id) as [s|]; [|done]. destruct (close s (sh_world sh)). cbn. by rewrite lookup_insert_ne.
  - by rewrite lookup_delete_ne.
  - by rewrite lookup_alter_ne.
Qed.

Lemma acts_other id k l (x : regs R * shared S R) : k ≠ id → sh_machines (foldl (act id) x l).2 !! k = sh_machines x.2 !! k.
Proof.
  intros Hk. revert x. induction l as [|a l IH]; intros [rg sh]; [done|]. cbn [foldl]. rewrite IH.
  destruct a; cbn; try done. by apply machine_act_other.
Qed.

Lemma account_other id o k sh : k ≠ id → sh_machines (account sh (id, o)) !! k = sh_machines sh !! k.
Proof. intros Hk. destruct o as [res s]. unfold account. rewrite acts_other by done. cbn. by rewrite lookup_alter_ne. Qed.

Lemma accounts_other (log : list (string * outcome S R)) k sh : k ∉ log.*1 → sh_machines (foldl account sh log) !! k = sh_machines sh !! k.
Proof.
  revert sh. induction log as [|[id o] log IH]; intros sh Hk; [done|]. cbn in Hk. apply not_elem_of_cons in Hk as [Hid Hk].
  cbn [foldl]. rewrite IH by done. by apply account_other.
Qed.
End Atomic.
