(* ===== verification/PollRefine.v ===== *)
(** * What a poll's goroutines achieve together

    However the goroutines of PollConcurrency take their turns, the shared state
    is at any time that of scrapes accounted for one after the other: [explained]
    says by which, and which scrapes are still on their way.  From this follow
    what a poll leaves behind, that it always ends, and what Collect sees. *)
From stdpp Require Import relations.
From S2P Require Import Prelude GoFloat GoEffect QmpClient ConnPool PollConcurrency.

Section Explained.
Context {S R : Type} `{PoolEntry S} `{Scraper S R}.
Context (m0 : gmap string S) (w0 : world unit) (ids : list string).

Definition shared0 : shared S R := Shared m0 [] 0 w0.
Definition active_id (id : string) : Prop := default false (sc_active <$> m0 !! id) = true.
#[local] Instance active_id_dec id : Decision (active_id id).
Proof. unfold active_id. apply _. Defined.

(** A scrape of the machine as it was when the poll began. *)
Definition scraped (e : string * outcome S R) : Prop := ∃ s, m0 !! e.1 = Some s ∧ sc_scrapes s e.2.

Definition todo (x : poller) : list string := match x with Spawning l => l | _ => [] end.
Definition accounted (x : phase S R) : option (outcome S R) := match x with AtLeave o | AtDone o | Exited o => Some o | _ => None end.
Definition ended_with (x : phase S R) : option (outcome S R) := match x with AtLock o | Critical o _ _ => Some o | _ => None end.

(** The scrapes in [log] have been accounted for, in that order; those of [ov]
    have ended; [crit] is in its critical section. *)
Record explained_by (log : list (string * outcome S R)) (ov : gmap string S)
    (crit : option (string * outcome S R * list (action S R) * regs R)) (c : config S R) : Prop := {
  ex_ids : ∃ pre, ids = pre ++ todo (main c) ∧ wk_id <$> workers c = filter active_id pre;
  ex_nodup : NoDup log.*1;
  ex_log id o : (id, o) ∈ log ↔ ∃ x, Worker id x ∈ workers c ∧ accounted x = Some o;
  ex_scraped : Forall scraped log;
  ex_ended id x o : Worker id x ∈ workers c → ended_with x = Some o → scraped (id, o);
  ex_ov id s : ov !! id = Some s ↔ ∃ o, Worker id (AtLock o) ∈ workers c ∧ o.2 = s;
  ex_crit id o k rg : Worker id (Critical o k rg) ∈ workers c ↔ crit = Some (id, o, k, rg);
  ex_mu : resultsMu c = bool_decide (is_Some crit);
  ex_shared :
    match crit with
    | None => sh c = overlay ov (foldl account shared0 log)
    | Some (id, o, k, rg) =>
        ∃ dn, critical o.1 = dn ++ k ∧
          (rg, sh c) = foldl (act id) (regs0, settle id o.2 (overlay ov (foldl account shared0 log))) dn
    end;
}.
Definition explained (c : config S R) : Prop := ∃ log ov crit, explained_by log ov crit c.

Context (Hnd : NoDup ids).

Lemma explained_start p rs : explained (poll_start m0 w0 ids p rs).
Proof.
  exists [], ∅, None. split; cbn; try done.
  - by exists [].
  - constructor.
  - intros id o. split; [by intros ?%elem_of_nil|]. by intros (x & ?%elem_of_nil & _).
  - intros id x o ?%elem_of_nil. done.
  - intros id s. rewrite lookup_empty. split; [done|]. by intros (o & ?%elem_of_nil & _).
  - intros. split; [by intros ?%elem_of_nil|done].
  - by rewrite overlay_empty.
Qed.

Lemma explained_workers_nodup log ov crit c : explained_by log ov crit c → NoDup (wk_id <$> workers c).
Proof.
  intros [(pre & Hids & ->) _ _ _ _ _ _ _ _]. apply NoDup_filter. rewrite Hids in Hnd. by apply NoDup_app in Hnd as [? _].
Qed.

(** A machine has one goroutine. *)
Lemma worker_unique (ws : list (worker S R)) id x y :
  NoDup (wk_id <$> ws) → Worker id x ∈ ws → Worker id y ∈ ws → x = y.
Proof.
  intros Hd [i Hi]%list_elem_of_lookup [j Hj]%list_elem_of_lookup.
  assert (i = j) as ->; [|congruence].
  eapply NoDup_lookup; [exact Hd|..]; rewrite list_lookup_fmap; [by rewrite Hi|by rewrite Hj].
Qed.

Lemma elem_set_worker i id x y c id' x' :
  NoDup (wk_id <$> workers c) → workers c !! i = Some (Worker id x) →
  Worker id' x' ∈ workers (set_worker i id y c) ↔ (id' = id ∧ x' = y) ∨ (id' ≠ id ∧ Worker (S := S) (R := R) id' x' ∈ workers c).
Proof.
  intros Hd Hi. cbn [workers set_worker]. rewrite !list_elem_of_lookup. split.
  - intros [j Hj]. destruct (decide (i = j)) as [->|Hne].
    + rewrite list_lookup_insert_eq in Hj by (by eapply lookup_lt_Some). left. by simplify_eq.
    + rewrite list_lookup_insert_ne in Hj by done. right. split; [|by exists j]. intros ->. apply Hne.
      eapply NoDup_lookup; [exact Hd|..]; rewrite list_lookup_fmap; [by rewrite Hi|by rewrite Hj].
  - intros [[-> ->]|[Hne [j Hj]]].
    + exists i. by rewrite list_lookup_insert_eq by (by eapply lookup_lt_Some).
    + exists j. rewrite list_lookup_insert_ne; [done|]. intros ->. rewrite Hi in Hj. by simplify_eq.
Qed.

Lemma set_worker_ids i id x y c :
  workers c !! i = Some (Worker id x) → wk_id <$> workers (set_worker i id y c) = wk_id (S := S) (R := R) <$> workers c.
Proof.
  intros Hi. cbn [workers set_worker]. rewrite list_fmap_insert. cbn. apply list_insert_id. by rewrite list_lookup_fmap, Hi.
Qed.

(** A machine whose goroutine has not finished its scrape is as it was. *)
Lemma explained_lookup log ov crit c id :
  explained_by log ov crit c →
  (∀ x, Worker id x ∈ workers c → x = AtSem ∨ x = Scraping) →
  sh_machines (sh c) !! id = m0 !! id.
Proof.
  intros Hex Hx. pose proof Hex as [_ _ Hlog _ _ Hov Hcrit _ Hsh].
  assert (Hl : id ∉ log.*1) by (intros ([id1 o] & -> & (x & [->| ->]%Hx & ?)%Hlog)%list_elem_of_fmap; done).
  assert (Ho : ov !! id = None).
  { destruct (ov !! id) as [s|] eqn:E; [|done]. apply Hov in E as (o & [?|?]%Hx & _); done. }
  assert (Hb : sh_machines (overlay ov (foldl account shared0 log)) !! id = m0 !! id).
  { rewrite overlay_lookup, accounts_other, Ho by done. cbn. by destruct (m0 !! id). }
  destruct crit as [[[[id' o] k] rg]|]; [|by rewrite Hsh].
  destruct Hsh as (dn & _ & Hsh). assert (id ≠ id') as Hne.
  { intros ->. destruct (Hx (Critical o k rg)) as [?|?]; [by apply Hcrit|done..]. }
  apply (f_equal snd) in Hsh. cbn in Hsh. rewrite Hsh, acts_other by done. cbn -[overlay]. by rewrite lookup_alter_ne.
Qed.

Lemma explained_spawn now c c' : explained c → main_turn now c = Some c' → explained c'.
Proof.
  intros (log & ov & crit & Hex). pose proof Hex as [(pre & Hids & Hws) Hn Hlog Hsc Hend Hov Hcrit Hmu Hsh]. unfold main_turn.
  assert (Hgo : ∀ x p, todo x = todo (main c) → explained (set_main x (set_pub p c))).
  { intros x p Hx. exists log, ov, crit. split; cbn; try done. exists pre. by rewrite Hx. }
  destruct (main c) as [[|id l]| | |[|f k]|] eqn:Em; cbn in Hids; try done.
  - intros [= <-]. by apply (Hgo Waiting (pub c)).
  - assert (Hid : id ∉ pre) by (rewrite Hids in Hnd; apply NoDup_app in Hnd as (_ & Hd & _); intros Hp; apply (Hd _ Hp), list_elem_of_here).
    assert (Hnew : ∀ x, Worker id x ∉ workers c).
    { intros x Hx. apply Hid. apply (list_elem_of_fmap_2 wk_id) in Hx. rewrite Hws in Hx. by apply list_elem_of_filter in Hx as [_ ?]. }
    rewrite (explained_lookup _ _ _ _ _ Hex) by (intros x Hx; by destruct (Hnew x)).
    destruct (default false _) eqn:Ha; intros [= <-]; exists log, ov, crit.
    + assert (Hel : ∀ id' x, Worker id' x ∈ workers c ++ [Worker id AtSem] ↔ Worker id' x ∈ workers c ∨ (id' = id ∧ x = AtSem)).
      { intros id' x. rewrite elem_of_app, list_elem_of_singleton. naive_solver. }
      split; cbn [workers main resultsMu sh todo]; try done.
      * exists (pre ++ [id]). rewrite <- app_assoc. split; [done|]. rewrite fmap_app, Hws, filter_app, filter_cons_True, filter_nil; [done|exact Ha].
      * intros id' o. rewrite Hlog. split; intros (x & Hx & Hac); exists x; (split; [|done]); apply Hel in Hx || apply Hel; [by left|].
        destruct Hx as [|[-> ->]]; done.
      * intros id' x o [Hx|[-> ->]]%Hel; [by apply Hend|done].
      * intros id' s. rewrite Hov. split; intros (o & Ho & Hs); exists o; (split; [|done]); apply Hel in Ho || apply Hel; [by left|].
        destruct Ho as [|[_ ?]]; done.
      * intros id' o k rg. rewrite <- Hcrit, Hel. split; [intros [|[_ ?]]; done|by left].
    + split; cbn [workers main resultsMu sh todo set_main]; try done. exists (pre ++ [id]). rewrite <- app_assoc. split; [done|].
      rewrite filter_app, filter_cons_False, filter_nil, app_nil_r; [done|]. unfold active_id. by rewrite Ha.
  - case_decide; [|done]. intros [= <-]. by apply (Hgo AtMu (pub c)).
  - destruct (existsb _ _); [done|]. intros [= <-]. by apply (Hgo (Publishing stores) (pub c)).
  - intros [= <-]. by apply (Hgo Returned (pub c)).
  - intros [= <-]. by apply (Hgo (Publishing k) (store (sh c) now f (pub c))).
Qed.

Section Moves.
Context (log : list (string * outcome S R)) (ov : gmap string S) (crit : option (string * outcome S R * list (action S R) * regs R)).
Context (c : config S R) (Hex : explained_by log ov crit c) (i : nat) (id : string) (x : phase S R).
Context (Hi : workers c !! i = Some (Worker id x)).

Lemma moved y id' x' : Worker id' x' ∈ workers (set_worker i id y c) ↔ (id' = id ∧ x' = y) ∨ (id' ≠ id ∧ Worker id' x' ∈ workers c).
Proof. eapply elem_set_worker; [|exact Hi]. by eapply explained_workers_nodup. Qed.

Lemma own_phase y : Worker id y ∈ workers c → y = x.
Proof.
  intros Hy. eapply worker_unique; [by eapply explained_workers_nodup|exact Hy|]. by eapply list_elem_of_lookup_2.
Qed.

Lemma own_here : Worker id x ∈ workers c.
Proof. by eapply list_elem_of_lookup_2. Qed.

Lemma moved_ids y : ∃ pre, ids = pre ++ todo (main c) ∧ wk_id <$> workers (set_worker i id y c) = filter active_id pre.
Proof. destruct Hex as [(pre & Hids & Hws) _ _ _ _ _ _ _ _]. exists pre. by rewrite (set_worker_ids _ _ _ _ _ Hi), Hws. Qed.

(** The goroutine passes a point that concerns nobody's scrape. *)
Lemma explained_silent y :
  accounted y = accounted x → ended_with x = None → ended_with y = None → explained_by log ov crit (set_worker i id y c).
Proof.
  intros Hac Hx Hy. pose proof Hex as [_ Hn Hlog Hsc Hend Hov Hcrit Hmu Hsh]. split; [apply moved_ids|done| |done|..|exact Hmu|exact Hsh].
  - intros id' o. rewrite Hlog. destruct (decide (id' = id)) as [->|Hne].
    + split; intros (z & Hz & Ha).
      * apply own_phase in Hz as ->. exists y. split; [apply moved; by left|congruence].
      * apply moved in Hz as [[_ ->]|[? _]]; [|done]. exists x. split; [apply own_here|congruence].
    + split; intros (z & Hz & Ha); exists z; (split; [|done]).
      * apply moved. by right.
      * by apply moved in Hz as [[? _]|[_ ?]].
  - intros id' z o Hz. apply moved in Hz as [[-> ->]|[_ Hz]]; [by rewrite Hy|by apply Hend].
  - intros id' s'. rewrite Hov. split; intros (o & Ho & Hs); exists o; (split; [|done]).
    + apply moved. right. split; [|done]. intros ->. apply own_phase in Ho as <-. done.
    + apply moved in Ho as [[_ <-]|[_ ?]]; [done|done].
  - intros id' o k rg. rewrite <- Hcrit. split.
    + intros Hz. apply moved in Hz as [[_ <-]|[_ ?]]; [done|done].
    + intros Hz. apply moved. right. split; [|done]. intros ->. apply own_phase in Hz as <-. done.
Qed.

Lemma own_ov : (∀ o, x ≠ AtLock o) → ov !! id = None.
Proof.
  intros Hx. pose proof Hex as [_ _ _ _ _ Hov _ _ _]. destruct (ov !! id) as [s|] eqn:E; [|done].
  apply Hov in E as (o & Ho & _). apply own_phase in Ho as <-. by destruct (Hx o).
Qed.

Lemma other_crit id' o k rg : crit = Some (id', o, k, rg) → (∀ o k rg, x ≠ Critical o k rg) → id' ≠ id.
Proof.
  intros Hc Hx ->. pose proof Hex as [_ _ _ _ _ _ Hcrit _ _]. apply Hcrit in Hc. apply own_phase in Hc as <-. by eapply Hx.
Qed.

Lemma explained_scraped o :
  x = Scraping → scraped (id, o) → explained (set_shared (settle id o.2 (sh c)) (set_worker i id (AtLock o) c)).
Proof.
  intros Hx Hs. pose proof own_here as Hh. rewrite Hx in Hh. exists log, (<[id := o.2]> ov), crit. pose proof Hex as [_ Hn Hlog Hsc Hend Hov Hcrit Hmu Hsh].
  assert (Hoc := λ id' o k rg Hc, other_crit id' o k rg Hc ltac:(by rewrite Hx)).
  split; [apply moved_ids|done| |done|..|exact Hmu|].
  - intros id' o1. rewrite Hlog. split; intros (z & Hz & HA); exists z; (split; [|done]).
    + apply moved. right. split; [|done]. intros ->. apply own_phase in Hz. subst z. by rewrite Hx in HA.
    + apply moved in Hz as [[_ ->]|[_ ?]]; done.
  - intros id' z o' [[-> ->]|[_ Hz]]%moved; [by intros [= <-]|by apply Hend].
  - intros id' s'. rewrite lookup_insert. case_decide as Hd; [subst id'|].
    + split; [intros [= <-]; exists o; split; [apply moved; by left|done]|]. intros (o' & [[_ [= <-]]|[? _]]%moved & <-); done.
    + rewrite Hov. split; intros (o' & Ho & E); exists o'; (split; [|done]); [apply moved; auto|by apply moved in Ho as [[? _]|[_ ?]]].
  - intros id' o' k rg. rewrite <- Hcrit. split; [by intros [[_ ?]|[_ ?]]%moved|]. intros Hz. apply moved. right.
    split; [|done]. apply Hcrit in Hz. by eapply Hoc.
  - cbn [sh set_shared]. clear Hmu. revert Hsh Hoc. generalize crit. intros [[[[id' o'] k] rg]|] Hsh Hoc; [|by rewrite Hsh, settle_overlay]. destruct Hsh as (dn & Hdn & Hsh).
    exists dn. split; [done|]. specialize (Hoc _ _ _ _ eq_refl).
    assert (Hap : ({[id := o.2]} : gmap string S) !! id' = None) by (by rewrite lookup_singleton_ne).
    rewrite <- settle_overlay, (settle_as_overlay id o.2 (overlay ov _)), settle_apart, acts_overlay, <- Hsh by done.
    by rewrite settle_as_overlay.
Qed.

Lemma explained_lock o :
  x = AtLock o → resultsMu c = false → explained (set_mu true (set_worker i id (Critical o (critical o.1) regs0) c)).
Proof.
  intros Hx Hf. pose proof own_here as Hh. rewrite Hx in Hh. pose proof Hex as [_ Hn Hlog Hsc Hend Hov Hcrit Hmu Hsh]. rewrite Hf in Hmu. symmetry in Hmu. apply bool_decide_eq_false in Hmu.
  assert (Hcr : crit = None) by (destruct crit; [by destruct Hmu|done]). rewrite Hcr in Hsh. exists log, (delete id ov), (Some (id, o, critical o.1, regs0)).
  assert (Hown : ov !! id = Some o.2) by (apply Hov; exists o; split; [exact Hh|done]).
  split; [apply moved_ids|done| |done|..|done|].
  - intros id' o1. rewrite Hlog. split; intros (z & Hz & HA); exists z; (split; [|done]).
    + apply moved. right. split; [|done]. intros ->. apply own_phase in Hz. subst z. by rewrite Hx in HA.
    + apply moved in Hz as [[_ ->]|[_ ?]]; done.
  - intros id' z o' [[-> ->]|[_ Hz]]%moved; [|by apply Hend]. intros [= <-]. by eapply Hend; [exact Hh|].
  - intros id' s'. rewrite lookup_delete. case_decide as Hd; [subst id'|].
    + split; [done|]. intros (o' & [[_ ?]|[? _]]%moved & _); done.
    + rewrite Hov. split; intros (o' & Ho & E); exists o'; (split; [|done]); [apply moved; auto|by apply moved in Ho as [[? _]|[_ ?]]].
  - intros id' o' k rg. split.
    + intros [[-> [= -> -> ->]]|[_ Hz]]%moved; [done|]. apply Hcrit in Hz. congruence.
    + intros [= <- <- <- <-]. apply moved. by left.
  - exists []. split; [done|]. cbn [foldl sh set_mu set_worker]. by rewrite settle_overlay, insert_delete_id, Hsh.
Qed.

Lemma explained_act o a k rg rg' sh' :
  x = Critical o (a :: k) rg → act id (rg, sh c) a = (rg', sh') → explained (set_shared sh' (set_worker i id (Critical o k rg') c)).
Proof.
  intros Hx Ha. pose proof own_here as Hh. rewrite Hx in Hh. pose proof Hex as [_ Hn Hlog Hsc Hend Hov Hcrit Hmu Hsh].
  pose proof (proj1 (Hcrit _ _ _ _) Hh) as Hc. rewrite Hc in Hsh, Hmu. exists log, ov, (Some (id, o, k, rg')).
  split; [apply moved_ids|done| |done|..|exact Hmu|].
  - intros id' o1. rewrite Hlog. split; intros (z & Hz & HA); exists z; (split; [|done]).
    + apply moved. right. split; [|done]. intros ->. apply own_phase in Hz. subst z. by rewrite Hx in HA.
    + apply moved in Hz as [[_ ->]|[_ ?]]; done.
  - intros id' z o' [[-> ->]|[_ Hz]]%moved; [|by apply Hend]. intros [= <-]. by eapply Hend; [exact Hh|].
  - intros id' s'. rewrite Hov. split; intros (o' & Ho & E); exists o'; (split; [|done]).
    + apply moved. right. split; [|done]. intros ->. apply own_phase in Ho. congruence.
    + by apply moved in Ho as [[_ ?]|[_ ?]].
  - intros id' o' k' rg0. split.
    + intros [[-> [= -> -> ->]]|[? Hz]]%moved; [done|]. apply Hcrit in Hz. rewrite Hc in Hz. by simplify_eq.
    + intros [= <- <- <- <-]. apply moved. by left.
  - destruct Hsh as (dn & Hdn & Hsh). exists (dn ++ [a]). rewrite <- app_assoc. split; [done|].
    rewrite foldl_app, <- Hsh. cbn [foldl]. by rewrite Ha.
Qed.

Lemma explained_unlock o rg :
  x = Critical o [] rg → explained (set_mu false (set_worker i id (AtLeave o) c)).
Proof.
  intros Hx. pose proof own_here as Hh. rewrite Hx in Hh. pose proof Hex as [_ Hn Hlog Hsc Hend Hov Hcrit Hmu Hsh].
  pose proof (proj1 (Hcrit _ _ _ _) Hh) as Hc. rewrite Hc in Hsh, Hmu. exists (log ++ [(id, o)]), ov, None.
  assert (Hnot : id ∉ log.*1).
  { intros ([id1 o1] & E & (z & Hz & HA)%Hlog)%list_elem_of_fmap. cbn in E. rewrite <- E in Hz. apply own_phase in Hz. subst z. by rewrite Hx in HA. }
  split; [apply moved_ids|..|done|].
  - rewrite fmap_app. apply NoDup_app. split_and!; [done| |apply NoDup_singleton]. intros z Hz ->%list_elem_of_singleton. done.
  - intros id' o1. rewrite elem_of_app, list_elem_of_singleton, Hlog. split.
    + intros [(z & Hz & Hac)|[= -> ->]]; [|exists (AtLeave o); split; [apply moved; by left|done]]. exists z. split; [|done].
      apply moved. right. split; [|done]. intros ->. apply own_phase in Hz. subst z. by rewrite Hx in Hac.
    + intros (z & [[-> ->]|[_ Hz]]%moved & Hac); [right; by simplify_eq/=|]. left. by exists z.
  - apply Forall_app. split; [done|]. apply Forall_singleton. by eapply Hend; [exact Hh|].
  - intros id' z o' [[-> ->]|[_ Hz]]%moved; [done|by apply Hend].
  - intros id' s'. rewrite Hov. split; intros (o' & Ho & E); exists o'; (split; [|done]).
    + apply moved. right. split; [|done]. intros ->. apply own_phase in Ho. congruence.
    + by apply moved in Ho as [[_ ?]|[_ ?]].
  - intros id' o' k' rg0. split; [|done]. intros [[_ ?]|[? Hz]]%moved; [done|]. apply Hcrit in Hz. rewrite Hc in Hz. by simplify_eq.
  - destruct Hsh as (dn & Hdn & Hsh). rewrite app_nil_r in Hdn. cbn [sh set_mu set_worker]. rewrite foldl_app. cbn [foldl].
    rewrite <- account_overlay by (apply own_ov; by rewrite Hx). destruct o as [res s]. cbn in Hdn. subst dn. by apply (f_equal snd) in Hsh.
Qed.
End Moves.

Lemma explained_worker cap i o c c' : legal (Goroutine i o) c → explained c → worker_turn cap i o c = Some c' → explained c'.
Proof.
  intros Hlg (log & ov & crit & Hex). unfold worker_turn. destruct (workers c !! i) as [[id x]|] eqn:Hi; [|done]. cbn [mbind option_bind].
  assert (Hquiet : ∀ c1 y, workers c1 = workers (set_worker i id y c) → main c1 = main c → resultsMu c1 = resultsMu c → sh c1 = sh c →
    accounted y = accounted x → ended_with x = None → ended_with y = None → explained c1).
  { intros c1 y H1 H2 H3 H4 Ha Hx Hy. exists log, ov, crit. pose proof (explained_silent _ _ _ _ Hex _ _ _ Hi y Ha Hx Hy) as [].
    split; rewrite ?H1, ?H2, ?H3, ?H4; done. }
  destruct x as [| |o'|o' [|a k] rg|o'|o'|o'].
  - case_decide; [|done]. intros [= <-]. by eapply Hquiet.
  - intros [= <-]. eapply explained_scraped; [done..|]. destruct (Hlg id Hi) as (s & Hs & Ho). exists s. split; [|done].
    rewrite <- Hs. symmetry. apply (explained_lookup _ _ _ _ _ Hex). intros y Hy. right. by eapply own_phase.
  - destruct (resultsMu c) eqn:Hmu; [done|]. intros [= <-]. by eapply explained_lock.
  - intros [= <-]. by eapply explained_unlock.
  - destruct (act id (rg, sh c) a) as [rg' sh'] eqn:Ha. intros [= <-]. by eapply explained_act.
  - intros [= <-]. by eapply Hquiet.
  - intros [= <-]. by eapply Hquiet.
  - done.
Qed.

Lemma explained_step cap c c' : explained c → step cap c c' → explained c'.
Proof.
  intros Hex (t & Hlg & Ht). destruct t as [now|i o|i]; cbn in Ht; [by eapply explained_spawn|by eapply explained_worker|].
  assert (Hr : ∀ y, explained (set_reader i y c)).
  { intros y. destruct Hex as (log & ov & crit & []). exists log, ov, crit. by split. }
  revert Ht. unfold reader_turn. destruct (readers c !! i) as [[a|[|f k] a|a]|]; cbn; try done; [|intros [= <-]; apply Hr..].
  destruct (writing _); [done|]. intros [= <-]. apply Hr.
Qed.

Lemma explained_steps cap p rs c : rtc (step cap) (poll_start m0 w0 ids p rs) c → explained c.
Proof.
  intros Hr. assert (Hs := explained_start p rs). induction Hr; [done|]. eauto using explained_step.
Qed.
End Explained.

(** ** A poll ends *)

Section Ends.
Context {S R : Type} `{PoolEntry S} `{Scraper S R}.

(** Steps a goroutine, the poll and a call of Collect can still take. *)
Definition worker_left (w : worker S R) : nat :=
  match wk_phase w with
  | AtSem => 10 | Scraping => 9 | AtLock o => 4 + length (critical o.1) | Critical _ k _ => 3 + length k
  | AtLeave _ => 2 | AtDone _ => 1 | Exited _ => 0
  end.
Definition main_left (x : poller) : nat :=
  match x with Spawning l => 7 + 11 * length l | Waiting => 6 | AtMu => 5 | Publishing k => 1 + length k | Returned => 0 end.
Definition reader_left (r : collecting R) : nat :=
  match r with AtRLock _ => 5 | Reading k _ => 1 + length k | Collected _ => 0 end.
Definition left_of (c : config S R) : nat :=
  main_left (main c) + sum_list_with worker_left (workers c) + sum_list_with reader_left (readers c).

Lemma critical_short (res : err + option R) : (length (critical (S := S) res) <= 4)%nat.
Proof. destruct res as [e|[r|]]; cbn; [|lia..]. rewrite length_fmap. pose proof (sc_on_error_short (S := S) (R := R) e). lia. Qed.

Lemma left_set_worker i id x y (c : config S R) :
  workers c !! i = Some (Worker id x) →
  (left_of (set_worker i id y c) + worker_left (Worker id x) = left_of c + worker_left (Worker id y))%nat.
Proof.
  intros Hi. unfold left_of. cbn [main workers readers set_worker].
  pose proof (sum_list_with_insert worker_left _ _ _ (Worker id y) Hi). lia.
Qed.

Lemma left_step cap (c c' : config S R) : step cap c c' → (left_of c' < left_of c)%nat.
Proof.
  intros (t & _ & Ht). destruct t as [now|i o|i]; cbn in Ht.
  - revert Ht. unfold main_turn, left_of.
    destruct (main c) as [[|id l]| | |[|f k]|] eqn:Em; try done; try (case_decide; [|done]); try (destruct (existsb _ _); [done|]);
      try destruct (default false _); intros [= <-]; cbn; rewrite ?sum_list_with_app; cbn; lia.
  - revert Ht. unfold worker_turn. destruct (workers c !! i) as [[id x]|] eqn:Hi; [|done]. cbn [mbind option_bind].
    assert (Hlt : ∀ y c1, main c1 = main c → workers c1 = workers (set_worker i id y c) → readers c1 = readers c →
      (worker_left (Worker id y) < worker_left (Worker id x))%nat → (left_of c1 < left_of c)%nat).
    { intros y c1 H1 H2 H3 Hy. pose proof (left_set_worker i id x y c Hi) as Hl. unfold left_of in *. rewrite H1, H2, H3.
      cbn [main workers readers set_worker] in *. lia. }
    destruct x as [| |o'|o' [|a k] rg|o'|o'|o']; try (case_decide; [|done]); try (destruct (resultsMu c); [done|]);
      try match goal with |- context [act ?id ?x ?a] => destruct (act id x a) end; intros [= <-]; (eapply Hlt; [done..|]); cbn; try lia.
    pose proof (critical_short o.1). lia.
  - revert Ht. unfold reader_turn. destruct (readers c !! i) as [r|] eqn:Hr; [|done]. cbn [mbind option_bind].
    assert (Hlt : ∀ y, (reader_left y < reader_left r)%nat → (left_of (set_reader i y c) < left_of c)%nat).
    { intros y Hy. unfold left_of. cbn [main workers readers set_reader]. pose proof (sum_list_with_insert reader_left _ _ _ y Hr). lia. }
    destruct r as [a|[|f k] a|a]; try (destruct (writing _); [done|]); intros [= <-]; apply Hlt; cbn; lia.
Qed.

Lemma left_nsteps cap n (c c' : config S R) : nsteps (step cap) n c c' → (n + left_of c' <= left_of c)%nat.
Proof. induction 1 as [|n c c1 c' Hs _ IH]; [lia|]. apply left_step in Hs. lia. Qed.

(** A goroutine that waits for nobody. *)
Definition free_to_go (x : phase S R) : bool := match x with AtSem | Exited _ | AtLock _ => false | _ => true end.

Section Progress.
Context (m0 : gmap string S) (w0 : world unit) (ids : list string).
Context (Hnd : NoDup ids) (Hin : ∀ id, id ∈ ids → is_Some (m0 !! id)).
Context (cap : nat) (Hcap : (0 < cap)%nat).
Context (c : config S R) (Hct : counted cap c) (Hex : explained m0 w0 ids c).

Lemma scrape_possible i id x : workers c !! i = Some (Worker id x) → ∃ o, legal (Goroutine i o) c.
Proof.
  intros Hi. destruct Hex as (log & ov & crit & He). assert (Hid : id ∈ ids).
  { destruct He as [(pre & -> & Hws) _ _ _ _ _ _ _ _]. apply elem_of_app. left. eapply list_elem_of_filter. rewrite <- Hws.
    apply list_elem_of_fmap. by exists (Worker id x); split; [|eapply list_elem_of_lookup_2]. }
  destruct (Hin id Hid) as [s Hs]. destruct (sc_scrape_ends s) as [o Hs']. exists o. intros id' Hi'. rewrite Hi in Hi'. simplify_eq.
  exists s. split; [|done]. rewrite <- Hs. eapply explained_lookup; [done|]. intros y Hy. right. by eapply own_phase.
Qed.

Lemma free_steps i id x : workers c !! i = Some (Worker id x) → free_to_go x = true → ∃ c', step cap c c'.
Proof.
  intros Hi Hx. destruct (scrape_possible _ _ _ Hi) as [o Ho].
  assert (Ht : ∃ c', worker_turn cap i o c = Some c'); [|by destruct Ht as [c' Ht]; exists c', (Goroutine i o)].
  unfold worker_turn. rewrite Hi. cbn [mbind option_bind]. destruct x as [| |o'|o' [|a k] rg|o'|o'|o']; try done; eauto.
  destruct (act id (rg, sh c) a). eauto.
Qed.

Lemma count_pos f : (0 < count f c)%nat → ∃ i w, workers c !! i = Some w ∧ (0 < f w)%nat.
Proof.
  unfold count. induction (workers c) as [|w l IH]; cbn; [lia|]. intros Hp. destruct (decide (0 < f w)%nat) as [Hw|Hw].
  - by exists 0%nat, w.
  - destruct IH as (i & w' & Hi & Hf); [lia|]. by exists (Datatypes.S i), w'.
Qed.

Lemma locked_steps i id o : workers c !! i = Some (Worker id (AtLock o)) → ∃ c', step cap c c'.
Proof.
  intros Hi. destruct (resultsMu c) eqn:Hmu.
  - pose proof (ct_mu _ _ Hct) as Hc. rewrite Hmu in Hc. destruct (count_pos in_critical) as (j & [id' x] & Hj & Hx); [lia|].
    eapply free_steps; [exact Hj|]. by destruct x; cbn in Hx; try lia.
  - eexists _, (Goroutine i o). split; [intros id' Hi'; by simplify_eq|]. cbn. unfold worker_turn. rewrite Hi. cbn. by rewrite Hmu.
Qed.

Lemma worker_progress i id x : workers c !! i = Some (Worker id x) → (∀ o, x ≠ Exited o) → ∃ c', step cap c c'.
Proof.
  intros Hi Hx. destruct x as [| |o|o k rg|o|o|o]; try (by eapply free_steps); [|by eapply locked_steps|by destruct (Hx o)].
  destruct (decide (sem c < cap)%nat) as [Hs|Hs].
  - destruct (scrape_possible _ _ _ Hi) as [o Ho]. eexists _, (Goroutine i o). split; [done|]. cbn. unfold worker_turn. rewrite Hi. cbn.
    by rewrite decide_True.
  - pose proof (ct_sem _ _ Hct) as Hc. destruct (count_pos in_sem) as (j & [id' x] & Hj & Hx'); [lia|].
    destruct x; cbn in Hx'; try lia; [by eapply free_steps|by eapply locked_steps|by eapply free_steps..].
Qed.

(** Nobody waits for ever: unless all have ended, somebody can go on. *)
Lemma poll_progress : ended c ∨ ∃ c', step cap c c'.
Proof.
  destruct (decide (count not_done c = 0%nat)) as [Hz|Hz].
  2: { right. destruct (count_pos not_done) as (i & [id x] & Hi & Hx); [lia|]. eapply worker_progress; [exact Hi|]. intros o ->. cbn in Hx. lia. }
  destruct (decide (Exists (λ r, is_reading r = true) (readers c))) as [Hr|Hr].
  { right. apply Exists_exists in Hr as (r & [i Hi]%list_elem_of_lookup & Hr). assert (Ht : ∃ c', reader_turn i c = Some c').
    { unfold reader_turn. rewrite Hi. destruct r as [|[|f k] a|]; try done; eauto. }
    destruct Ht as [c' Ht]. by exists c', (CollectCall i). }
  assert (Hmain : main c = Returned ∨ ∃ c', main_turn 0 c = Some c').
  { unfold main_turn. destruct (main c) as [[|id l]| | |[|f k]|]; eauto.
    - right. destruct (default false _); eauto.
    - right. rewrite decide_True by (by rewrite (ct_wg _ _ Hct)). eauto.
    - right. assert (existsb is_reading (readers c) = false) as ->; [|eauto]. apply not_true_is_false. intros He%existsb_exists. apply Hr, Exists_exists.
      destruct He as (r & ?%list_elem_of_In & ?). by exists r. }
  destruct Hmain as [Hm|[c' Ht]]; [|right; by exists c', (Main 0)].
  destruct (decide (Exists (λ r, reader_left r = 5%nat) (readers c))) as [Ha|Ha].
  { right. apply Exists_exists in Ha as (r & Hin' & Ha). destruct r as [a|k a|a]; [|by destruct Hr; apply Exists_exists; exists (Reading k a)|done].
    apply list_elem_of_lookup in Hin' as [i Hi]. eexists _, (CollectCall i). split; [done|]. cbn. unfold reader_turn. by rewrite Hi, Hm. }
  left. split_and!; [done|..]; apply Forall_forall.
  - intros [id x] Hw. apply sum_list_with_zero in Hz. rewrite Forall_forall in Hz. specialize (Hz _ Hw). destruct x; try done. by eexists.
  - intros r Hi. destruct r as [a|k a|a]; [|..|by exists a].
    + destruct Ha. apply Exists_exists. by exists (AtRLock a).
    + destruct Hr. apply Exists_exists. by exists (Reading k a).
Qed.
End Progress.
End Ends.

(** ** What is published *)

Section Published.
Context {S R : Type} `{PoolEntry S} `{Scraper S R}.
Context (p0 : published R).

Definition publish (sh : shared S R) (now : Z) : published R :=
  Pub (sh_results sh) (f64_add (p_errors p0) (f64_of_Z (sh_errors sh))) (f64_of_Z now).

Definition read_ok (c : config S R) (r : collecting R) : Prop :=
  match r with
  | AtRLock _ => True
  | Reading k a => writing (main c) = false ∧ ∃ dn, loads = dn ++ k ∧ Forall (λ f, load (pub c) f a = a) dn
  | Collected a => a = p0 ∨ (main c = Returned ∧ a = pub c)
  end.

Definition pub_ok (c : config S R) : Prop :=
  match main c with
  | Spawning _ | Waiting | AtMu => pub c = p0
  | Publishing k => ∃ dn now, stores = dn ++ k ∧ pub c = foldl (λ p f, store (sh c) now f p) p0 dn
  | Returned => ∃ now, pub c = publish (sh c) now
  end.

Definition consistent (c : config S R) : Prop := pub_ok c ∧ Forall (read_ok c) (readers c).

Lemma load_all (p a : published R) : Forall (λ f, load p f a = a) loads → a = p.
Proof. destruct p, a. unfold loads. rewrite !Forall_cons. cbn. intros ([=] & [=] & [=] & _). by subst. Qed.

Lemma load_load (p a : published R) f g : load p f a = a → load p f (load p g a) = load p g a.
Proof. destruct p, a, f, g; cbn; by intros [=]; subst. Qed.

Lemma load_same (p a : published R) f : load p f (load p f a) = load p f a.
Proof. by destruct p, a, f. Qed.

Lemma consistent_main now c c' : consistent c → main_turn now c = Some c' → consistent c'.
Proof.
  intros [Hp Hr]. unfold main_turn.
  assert (Hkeep : ∀ x, writing x = false → main c ≠ Returned → pub_ok (set_main x c) → consistent (set_main x c)).
  { intros x Hx Hnr Hp'. split; [done|]. eapply Forall_impl; [exact Hr|]. intros [a|k a|a]; cbn; [done|by intros [_ ?]|]. intros [?|[? _]]; [by left|done]. }
  destruct (main c) as [[|id l]| | |[|f k]|] eqn:Em; unfold pub_ok in Hp; rewrite Em in Hp; try done.
  - intros [= <-]. by apply Hkeep.
  - destruct (default false _); intros [= <-]; [|by apply Hkeep]. destruct (Hkeep (Spawning l)) as [_ Hr']; [done..|]. by split.
  - case_decide; [|done]. intros [= <-]. by apply Hkeep.
  - destruct (existsb _ _) eqn:He; [done|]. intros [= <-]. split; [by exists [], 0%Z|]. apply Forall_forall. intros r Hin. rewrite Forall_forall in Hr.
    specialize (Hr r Hin). destruct r as [a|k a|a]; cbn; [done| |].
    + exfalso. apply (not_true_iff_false (existsb is_reading (readers c))) in He. apply He, existsb_exists. exists (Reading k a).
      by split; [apply list_elem_of_In|].
    + destruct Hr as [?|[Hx _]]; [by left|by rewrite Em in Hx].
  - intros [= <-]. apply Hkeep; [done..|]. destruct Hp as (dn & now' & Hdn & Hp). rewrite app_nil_r in Hdn. subst dn. exists now'. exact Hp.
  - intros [= <-]. split.
    + destruct Hp as (dn & now' & Hdn & Hp). exists (dn ++ [f]), now. rewrite <- app_assoc. split; [done|]. cbn [pub set_main set_pub sh].
      rewrite foldl_app, Hp. cbn [foldl]. unfold stores in Hdn.
      by destruct dn as [|f1 [|f2 [|f3 [|f4 dn]]]]; simplify_eq/=.
    + eapply Forall_impl; [exact Hr|]. intros [a|k' a|a]; unfold read_ok; cbn [main pub set_main set_pub]; rewrite ?Em; [done| |].
      * by intros [? _].
      * intros [?|[? _]]; [by left|done].
Qed.

Lemma consistent_worker cap i o c c' : counted cap c → consistent c → worker_turn cap i o c = Some c' → consistent c'.
Proof.
  intros Hct [Hp Hr] Ht.
  assert (Hsame : main c' = main c ∧ pub c' = pub c ∧ readers c' = readers c).
  { revert Ht. unfold worker_turn. destruct (workers c !! i) as [[id x]|]; [|done]. cbn [mbind option_bind].
    destruct x as [| |o'|o' [|a k] rg|o'|o'|o']; try (case_decide; [|done]); try (destruct (resultsMu c); [done|]);
      try match goal with |- context [act ?id ?x ?a] => destruct (act id x a) end; by intros [= <-]. }
  destruct Hsame as (H1 & H2 & H3).
  assert (Hno : wg c ≠ 0%nat).
  { intros Hz. rewrite (ct_wg _ _ Hct) in Hz. apply sum_list_with_zero in Hz. revert Ht. unfold worker_turn.
    destruct (workers c !! i) as [[id x]|] eqn:Hi; [|done]. rewrite Forall_lookup in Hz. specialize (Hz _ _ Hi). by destruct x. }
  split.
  - unfold pub_ok in *. rewrite H1, H2. pose proof (ct_wait _ _ Hct). by destruct (main c).
  - rewrite H3. eapply Forall_impl; [exact Hr|]. intros [a|k a|a]; unfold read_ok; by rewrite ?H1, ?H2.
Qed.

Lemma consistent_reader i c c' : consistent c → reader_turn i c = Some c' → consistent c'.
Proof.
  intros [Hp Hr]. unfold reader_turn. destruct (readers c !! i) as [r|] eqn:Hi; [|done]. cbn [mbind option_bind].
  assert (Hok := proj1 (Forall_lookup _ _) Hr _ _ Hi).
  assert (Hset : ∀ y, read_ok c y → consistent (set_reader i y c)).
  { intros y Hy. split; [done|]. cbn [readers set_reader]. by apply Forall_insert. }
  destruct r as [a|[|f k] a|a]; [| | |done].
  - destruct (writing (main c)) eqn:Ew; [done|]. intros [= <-]. apply Hset. split; [done|]. by exists [].
  - intros [= <-]. apply Hset. destruct Hok as (Hw & dn & Hdn & Hl). rewrite app_nil_r in Hdn. subst dn. apply load_all in Hl as ->.
    unfold read_ok. unfold pub_ok in Hp. destruct (main c); auto. done.
  - intros [= <-]. apply Hset. destruct Hok as (Hw & dn & Hdn & Hl). split; [done|]. exists (dn ++ [f]). rewrite <- app_assoc. split; [done|].
    apply Forall_app. split; [|apply Forall_singleton, load_same]. eapply Forall_impl; [exact Hl|]. intros g. apply load_load.
Qed.

Lemma consistent_steps cap m w ids rs c :
  rtc (step cap) (poll_start m w ids p0 rs) c → counted cap c ∧ consistent c.
Proof.
  intros Hr. assert (Hs : consistent (poll_start (R := R) m w ids p0 rs)).
  { split; [done|]. cbn. apply Forall_fmap, Forall_true. done. }
  assert (Hct := counted_start (R := R) cap m w ids p0 rs). revert Hct Hs.
  induction Hr as [|c1 c2 c3 Hst _ IH]; [done|]. intros Hct Hc. apply IH; [by eapply counted_step|].
  destruct Hst as (t & _ & Ht). destruct t as [now|i o|i]; cbn in Ht; [by eapply consistent_main|by eapply consistent_worker|by eapply consistent_reader].
Qed.
End Published.
