(* ===== verification/PollOutcome.v ===== *)
(** * What a poll leaves behind

    A poll that has returned has accounted for one scrape of every machine to be
    scraped, in some order, and has published the results; the order matters only
    for the order of the results.  What accounting for scrapes amounts to is
    computed here. *)
From stdpp Require Import relations.
From S2P Require Import Prelude GoFloat GoEffect QmpClient ConnPool PollConcurrency PollRefine.

Section Returned.
Context {S R : Type} `{PoolEntry S} `{Scraper S R}.

Lemma poll_returned cap m w ids p rs (c : config S R) :
  NoDup ids → rtc (step cap) (poll_start m w ids p rs) c → main c = Returned →
  ∃ log now, log ≡ₚ scrapes_of c ∧ (scrapes_of c).*1 = filter (λ id, default false (sc_active <$> m !! id) = true) ids ∧
    NoDup log.*1 ∧ Forall (scraped m) log ∧ sh c = foldl account (shared0 m w) log ∧ pub c = publish p (sh c) now.
Proof.
  intros Hnd Hr Hm. destruct (explained_steps m w ids Hnd cap p rs c Hr) as (log & ov & crit & Hex).
  destruct (consistent_steps p cap m w ids rs c Hr) as [Hct [Hp _]]. unfold pub_ok in Hp. rewrite Hm in Hp. destruct Hp as [now Hp].
  pose proof (ct_wait _ _ Hct) as Hz. rewrite Hm, (ct_wg _ _ Hct) in Hz. apply sum_list_with_zero in Hz.
  assert (Hall : ∀ id x, Worker id x ∈ workers c → ∃ o, x = Exited o).
  { rewrite Forall_forall in Hz. intros id x Hw. specialize (Hz _ Hw). destruct x; try done. eauto. }
  pose proof (explained_workers_nodup m w ids Hnd log ov crit c Hex) as Hwn.
  destruct Hex as [(pre & Hids & Hws) Hn Hlog Hsc _ Hov Hcrit _ Hsh]. rewrite Hm in Hids. cbn in Hids. rewrite app_nil_r in Hids. subst pre.
  destruct crit as [[[[id o] k] rg]|]; [by destruct (Hall _ _ (proj2 (Hcrit _ _ _ _) eq_refl))|].
  assert (ov = ∅) as ->.
  { apply map_empty. intros id. destruct (ov !! id) as [s|] eqn:E; [|done]. apply Hov in E as (o & [? Ho]%Hall & _). done. }
  rewrite overlay_empty in Hsh.
  assert (Hfst : (scrapes_of c).*1 = wk_id <$> workers c).
  { unfold scrapes_of. clear -Hz. induction Hz as [|[id x] l Hx _ IH]; [done|]. destruct x; try done. cbn. by rewrite IH. }
  exists log, now. split_and!; [| |done..].
  - apply NoDup_Permutation; [by eapply NoDup_fmap_1|eapply NoDup_fmap_1; by rewrite Hfst|]. intros [id o]. rewrite Hlog.
    unfold scrapes_of. rewrite list_elem_of_omap. split.
    + intros (x & Hx & Ho). exists (Worker id x). split; [done|]. destruct (Hall _ _ Hx) as [o' ->]. cbn in *. congruence.
    + intros ([id' x] & Hx & Ho). destruct (Hall _ _ Hx) as [o' ->]. cbn in Ho. simplify_eq. by exists (Exited o).
  - rewrite Hfst, Hws. by apply list_filter_iff.
Qed.

Lemma poll_always_ends cap m w ids p rs (c : config S R) :
  NoDup ids → (∀ id, id ∈ ids → is_Some (m !! id)) → (0 < cap)%nat → rtc (step cap) (poll_start m w ids p rs) c →
  ∃ c', rtc (step cap) c c' ∧ ended c'.
Proof.
  intros Hnd Hin Hcap. remember (left_of c) as n eqn:En. revert c En. induction n as [n IH] using lt_wf_ind. intros c -> Hr.
  destruct (poll_progress m w ids Hnd Hin cap Hcap c) as [?|[c1 Hs]].
  - by apply (consistent_steps p cap m w ids rs).
  - by eapply explained_steps.
  - by exists c.
  - destruct (IH _ (left_step _ _ _ Hs) c1 eq_refl) as (c' & Hr' & He); [by eapply rtc_r|]. exists c'. split; [by eapply rtc_l|done].
Qed.

Lemma poll_length cap m w ids p rs n (c : config S R) :
  nsteps (step cap) n (poll_start m w ids p rs) c → (n <= 7 + 11 * length ids + 5 * length rs)%nat.
Proof.
  intros Hn%left_nsteps. unfold left_of at 2 in Hn. cbn [main workers readers poll_start main_left sum_list_with] in Hn.
  assert (Hs : sum_list_with reader_left (AtRLock <$> rs) = (5 * length rs)%nat); [|lia].
  clear. induction rs as [|r rs IH]; cbn; lia.
Qed.
End Returned.

(** ** Accounting for scrapes in another order *)

Section Order.
Context {S R : Type} `{PoolEntry S} `{Scraper S R}.
Implicit Types (sh : shared S R) (w : world unit).

(** The same but for the order of the results and of the disconnections. *)
Definition same_world w w' : Prop := conns w = conns w' ∧ closed w = closed w' ∧ fresh w = fresh w'.
Definition same_effect sh sh' : Prop :=
  sh_machines sh = sh_machines sh' ∧ sh_results sh ≡ₚ sh_results sh' ∧ sh_errors sh = sh_errors sh' ∧ same_world (sh_world sh) (sh_world sh').

#[export] Instance same_effect_equiv : Equivalence same_effect.
Proof.
  unfold same_effect, same_world. split.
  - by intros sh.
  - intros sh sh' (? & ? & ? & ? & ? & ?). by split_and!.
  - intros s1 s2 s3 (? & ? & ? & ? & ? & ?) (? & ? & ? & ? & ? & ?). split_and!; [congruence|by etrans|congruence..].
Qed.

Lemma close_value (s : S) w : (close s w).1 = if pe_closed s then s else pe_set_closed s.
Proof. unfold close. destruct (pe_closed s); [done|]. unfold bind, Close, conn_close. by case_bool_decide. Qed.

Lemma close_same (s : S) w w' : same_world w w' → same_world (close s w).2 (close s w').2.
Proof.
  intros (Hc & Hd & Hf). unfold close. destruct (pe_closed s); [done|]. unfold bind, Close, conn_close. rewrite Hd. case_bool_decide; [done|].
  unfold same_world. cbn. by rewrite Hc, Hf.
Qed.

Lemma close_comm (s s' : S) w : same_world (close s (close s' w).2).2 (close s' (close s w).2).2.
Proof.
  unfold close. destruct (pe_closed s), (pe_closed s'); try done. unfold bind, Close, conn_close, same_world.
  repeat (case_bool_decide; cbn in *); split_and!; try done; set_solver.
Qed.

(** A machine action changes the entry of the machine, and perhaps the world. *)
Definition entry_effect (a : machine_action S) (e : option S) : option S :=
  match a with
  | CloseConn => (λ s, if pe_closed s then s else pe_set_closed s) <$> e
  | ForgetConn => None
  | UpdateConn f => f <$> e
  end.
Definition world_effect (a : machine_action S) (e : option S) w : world unit :=
  match a, e with CloseConn, Some s => (close s w).2 | _, _ => w end.

Lemma machine_act_effect id a sh :
  machine_act id a sh =
    Shared (partial_alter (entry_effect a) id (sh_machines sh)) (sh_results sh) (sh_errors sh) (world_effect a (sh_machines sh !! id) (sh_world sh)).
Proof.
  destruct sh as [m rs n w], a as [| |f]; cbn; [|done..]. destruct (m !! id) as [s|] eqn:E.
  - pose proof (close_value s w) as Hv. destruct (close s w) as [s' w']. cbn in *. subst s'. f_equal. apply map_eq. intros k.
    rewrite lookup_insert, lookup_partial_alter. by case_decide; subst; rewrite ?E.
  - f_equal. apply map_eq. intros k. rewrite lookup_partial_alter. by case_decide; subst; rewrite ?E.
Qed.

Lemma world_effect_same a e w w' : same_world w w' → same_world (world_effect a e w) (world_effect a e w').
Proof. destruct a, e; try done. apply close_same. Qed.

Lemma world_effect_comm a b e e' w : same_world (world_effect a e (world_effect b e' w)) (world_effect b e' (world_effect a e w)).
Proof. destruct a, b, e, e'; try done. apply close_comm. Qed.

#[export] Instance machine_act_proper id a : Proper (same_effect ==> same_effect) (machine_act (S := S) (R := R) id a).
Proof.
  intros sh sh' (Hm & Hr & He & Hw). rewrite !machine_act_effect. unfold same_effect. cbn. rewrite Hm. split_and!; try done.
  by apply world_effect_same.
Qed.

Lemma machine_act_comm id id' a b sh :
  id ≠ id' → same_effect (machine_act id a (machine_act id' b sh)) (machine_act id' b (machine_act id a sh)).
Proof.
  intros Hne. rewrite !machine_act_effect. unfold same_effect. cbn. rewrite !lookup_partial_alter_ne by done. split_and!; try done.
  - by apply partial_alter_partial_alter_ne.
  - apply world_effect_comm.
Qed.

(** What the goroutine of a machine does to it, with the scrape's own writes. *)
Definition machine_acts (o : outcome S R) : list (machine_action S) :=
  UpdateConn (λ _, o.2) :: match o.1 with inl e => sc_on_error (R := R) e | inr _ => [] end.
Definition acts_on (id : string) (l : list (machine_action S)) sh : shared S R := foldl (λ sh a, machine_act id a sh) sh l.
Definition counts (res : err + option R) : Z := match res with inl _ => 1 | inr _ => 0 end.
Definition yields (res : err + option R) : list R := match res with inr (Some r) => [r] | _ => [] end.
Definition record_result (res : err + option R) sh : shared S R :=
  Shared (sh_machines sh) (sh_results sh ++ yields res) (sh_errors sh + counts res) (sh_world sh).

Lemma machine_act_record id a res sh : machine_act id a (record_result res sh) = record_result res (machine_act id a sh).
Proof. by rewrite !machine_act_effect. Qed.

Lemma foldl_on_machine id l rg sh : foldl (act id) (rg, sh) (OnMachine <$> l) = (rg, acts_on id l sh).
Proof. revert sh. induction l as [|a l IH]; intros sh; [done|]. apply (IH (machine_act id a sh)). Qed.

Lemma acts_on_record id l res sh : acts_on id l (record_result res sh) = record_result res (acts_on id l sh).
Proof. revert sh. induction l as [|a l IH]; intros sh; [done|]. cbn [acts_on foldl]. rewrite machine_act_record. apply IH. Qed.

Lemma account_eq sh id o : account sh (id, o) = record_result o.1 (acts_on id (machine_acts o) sh).
Proof.
  destruct o as [res s]. unfold account, machine_acts, settle. cbn [fst snd]. set (sh1 := set_machines _ sh).
  change (acts_on id (UpdateConn (λ _, s) :: ?l) sh) with (acts_on id l sh1).
  destruct res as [e|[r|]]; cbn [critical foldl snd].
  - cbn [app foldl act]. rewrite foldl_on_machine. cbn [snd].
    rewrite <- acts_on_record. unfold record_result, yields, counts. cbn. by rewrite app_nil_r.
  - cbn [act snd]. unfold record_result. cbn. by rewrite Z.add_0_r.
  - unfold record_result. cbn. rewrite app_nil_r, Z.add_0_r. by destruct sh.
Qed.

#[export] Instance acts_on_proper id l : Proper (same_effect ==> same_effect) (acts_on id l).
Proof. induction l as [|a l IH]; intros sh sh' Hs; [done|]. apply IH. by apply machine_act_proper. Qed.

Lemma acts_on_act_comm id id' l a sh : id ≠ id' → same_effect (acts_on id l (machine_act id' a sh)) (machine_act id' a (acts_on id l sh)).
Proof.
  intros Hne. revert sh. induction l as [|b l IH]; intros sh; [done|]. cbn [acts_on foldl]. etrans; [|apply IH].
  apply acts_on_proper. by apply machine_act_comm.
Qed.

Lemma acts_on_comm id id' l l' sh : id ≠ id' → same_effect (acts_on id l (acts_on id' l' sh)) (acts_on id' l' (acts_on id l sh)).
Proof.
  intros Hne. revert sh. induction l' as [|a l' IH]; intros sh; [done|]. cbn [acts_on foldl]. etrans; [apply IH|].
  apply acts_on_proper. by apply acts_on_act_comm.
Qed.

Lemma record_result_proper res sh sh' : same_effect sh sh' → same_effect (record_result res sh) (record_result res sh').
Proof. intros (? & Hr & He & ?). unfold same_effect, record_result. cbn. split_and!; [done|by rewrite Hr|congruence|done]. Qed.

Lemma record_result_comm res res' sh : same_effect (record_result res (record_result res' sh)) (record_result res' (record_result res sh)).
Proof.
  unfold same_effect, record_result. cbn. split_and!; try done; [|lia]. rewrite <- !app_assoc. f_equiv. by rewrite Permutation_app_comm.
Qed.

#[export] Instance account_proper : Proper (same_effect ==> eq ==> same_effect) account.
Proof. intros sh sh' Hs [id o] ? <-. rewrite !account_eq. by apply record_result_proper, acts_on_proper. Qed.

Lemma account_comm id id' o o' sh :
  id ≠ id' → same_effect (account (account sh (id, o)) (id', o')) (account (account sh (id', o')) (id, o)).
Proof.
  intros Hne. rewrite !account_eq, !acts_on_record. etrans; [apply record_result_comm|]. do 2 apply record_result_proper.
  by apply acts_on_comm.
Qed.

Lemma accounts_permute (log log' : list (string * outcome S R)) :
  log ≡ₚ log' → NoDup log.*1 → ∀ sh sh', same_effect sh sh' → same_effect (foldl account sh log) (foldl account sh' log').
Proof.
  induction 1 as [|x l l' _ IH|[id o] [id' o'] l|l1 l2 l3 H1 IH1 _ IH2]; intros Hnd sh sh' Hs; [done|..].
  - apply NoDup_cons in Hnd as [_ Hnd]. apply IH; [done|]. by rewrite Hs.
  - assert (Hl : ∀ l s s', same_effect s s' → same_effect (foldl account s l) (foldl account s' l)).
    { clear. induction l as [|x l IH]; intros s s' Hs; [done|]. apply IH. by rewrite Hs. }
    cbn in Hnd. apply NoDup_cons in Hnd as [Hne _]. cbn [foldl]. apply Hl. rewrite Hs. apply account_comm. intros ->. apply Hne, list_elem_of_here.
  - etrans; [by apply (IH1 Hnd)|]. apply IH2; [|reflexivity]. by rewrite <- H1.
Qed.

(** ** What accounting amounts to *)

Definition entry_after (o : outcome S R) (e : option S) : option S := foldl (λ e a, entry_effect a e) e (machine_acts o).

Lemma acts_on_entry id l sh : sh_machines (acts_on id l sh) !! id = foldl (λ e a, entry_effect a e) (sh_machines sh !! id) l.
Proof.
  revert sh. induction l as [|a l IH]; intros sh; [done|]. change (acts_on id (a :: l) sh) with (acts_on id l (machine_act id a sh)).
  rewrite IH. cbn [foldl]. f_equal.
  rewrite machine_act_effect. cbn. by rewrite lookup_partial_alter_eq.
Qed.

Lemma accounts_entry (log : list (string * outcome S R)) id o sh :
  NoDup log.*1 → (id, o) ∈ log → sh_machines (foldl account sh log) !! id = entry_after o (sh_machines sh !! id).
Proof.
  revert sh. induction log as [|[id' o'] log IH]; intros sh Hnd Hin; [by apply elem_of_nil in Hin|]. cbn in Hnd. apply NoDup_cons in Hnd as [Hne Hnd].
  cbn [foldl]. apply elem_of_cons in Hin as [[= <- <-]|Hin].
  - rewrite accounts_other by done. rewrite account_eq. cbn -[machine_acts]. apply acts_on_entry.
  - rewrite IH by done. f_equal. apply account_other. intros ->. apply Hne, list_elem_of_fmap. by exists (id', o).
Qed.

Lemma accounts_results (log : list (string * outcome S R)) sh :
  sh_results (foldl account sh log) = sh_results sh ++ (log ≫= λ e, yields e.2.1) ∧
  sh_errors (foldl account sh log) = sh_errors sh + Z.of_nat (length (filter (λ e, counts e.2.1 = 1) log)).
Proof.
  assert (Hacts : ∀ id l sh, sh_results (acts_on id l sh) = sh_results sh ∧ sh_errors (acts_on id l sh) = sh_errors sh).
  { intros id l. induction l as [|a l IHl]; intros s; [done|]. change (acts_on id (a :: l) s) with (acts_on id l (machine_act id a s)).
    destruct (IHl (machine_act id a s)) as [-> ->]. by rewrite machine_act_effect. }
  revert sh. induction log as [|[id o] log IH]; intros sh; cbn [foldl]; [by rewrite app_nil_r, Z.add_0_r|].
  destruct (IH (account sh (id, o))) as [-> ->]. rewrite account_eq. unfold record_result. cbn [sh_results sh_errors].
  destruct (Hacts id (machine_acts o) sh) as [-> ->]. cbn [mbind list_bind]. rewrite <- app_assoc. split; [done|].
  rewrite filter_cons. destruct o as [[e|[r|]] s]; case_decide as Hd; cbn in Hd; try done; cbn [length fst snd counts]; unfold outcome in *; lia.
Qed.
End Order.

Lemma list_filter_all {A} (P : A → Prop) `{∀ x, Decision (P x)} (l : list A) : (∀ x, x ∈ l → P x) → filter P l = l.
Proof.
  induction l as [|x l IH]; intros Hl; [done|]. rewrite filter_cons_True by (apply Hl, list_elem_of_here).
  f_equal. apply IH. intros y Hy. by apply Hl, list_elem_of_further.
Qed.

(** An invariant of the shared state that accounting for a scrape keeps. *)
Lemma accounts_ind {S R} `{PoolEntry S} `{Scraper S R} (I : shared S R → Prop) (m : gmap string S) :
  (∀ sh id s o, I sh → sh_machines sh !! id = Some s → sc_scrapes s o → I (account sh (id, o))) →
  ∀ log sh, NoDup log.*1 → Forall (scraped m) log → (∀ id, id ∈ log.*1 → sh_machines sh !! id = m !! id) → I sh → I (foldl account sh log).
Proof.
  intros Hacc. induction log as [|[id o] log IH]; intros sh Hnd Hsc Hm HI; [done|]. cbn in Hnd. apply NoDup_cons in Hnd as [Hid Hnd].
  apply Forall_cons in Hsc as [(s & Hs & Ho) Hsc]. cbn in Hs, Ho. cbn [foldl]. apply IH; [done..| |].
  - intros k Hk. rewrite account_other; [apply Hm; by apply list_elem_of_further|]. by intros ->.
  - eapply Hacc; [done| |exact Ho]. rewrite Hm; [done|]. apply list_elem_of_here.
Qed.

Lemma to_visit_entries {A} (m : gmap string A) entries : entries ≡ₚ map_to_list m → to_visit m entries.
Proof. intros He. split; [rewrite He; apply NoDup_fst_map_to_list|]. intros id s. by rewrite He, elem_of_map_to_list. Qed.

Lemma ids_known {A} (m : gmap string A) ids : ids ≡ₚ (map_to_list m).*1 → ∀ id, id ∈ ids ↔ is_Some (m !! id).
Proof.
  intros Hids id. rewrite Hids, list_elem_of_fmap. split.
  - intros ([k v] & -> & ?%elem_of_map_to_list). by eexists.
  - intros [v Hv]. exists (id, v). by rewrite elem_of_map_to_list.
Qed.

(** The sequential models of the collectors run in a world with an environment;
    of the world here only the connections count. *)
Definition sees {G} (w : world G) (u : world unit) : Prop := conns u = conns w ∧ closed u = closed w.

Lemma close_sees {G} {S} `{PoolEntry S} (s : S) (w : world G) u :
  sees w u → (close s u).1 = (close s w).1 ∧ sees (close s w).2 (close s u).2.
Proof.
  intros [Hc Hd]. unfold close. destruct (pe_closed s); [done|]. unfold bind, Close, conn_close. rewrite Hd.
  case_bool_decide; [done|]. unfold sees. cbn. by rewrite Hc.
Qed.

Definition as_shared {S R} (st : gmap string S * list R * Z) (u : world unit) : shared S R :=
  let '(m, rs, n) := st in Shared m rs n u.

Lemma alter_known {A} (m : gmap string A) id x y : m !! id = Some x → alter (λ _, y) id m = <[id := y]> m.
Proof. intros Hid. apply map_eq. intros k. rewrite lookup_alter, lookup_insert. case_decide; subst; [by rewrite Hid|done]. Qed.

(** ** Whole polls *)

Section Polls.
Context {S R : Type} `{PoolEntry S} `{Scraper S R}.

(** A schedule in which the scrape of each goroutine ends in a way it can. *)
Definition fits (m : gmap string S) (ids : list string) (t : turn_of S R) : Prop :=
  match t with
  | Goroutine i o => ∀ id, filter (λ id, default false (sc_active <$> m !! id) = true) ids !! i = Some id → scraped m (id, o)
  | _ => True
  end.

Lemma fits_legal m w ids c t : NoDup ids → explained m w ids c → fits m ids t → legal t c.
Proof.
  intros Hnd (log & ov & crit & Hex) Hf. destruct t as [now|i o|i]; [done| |done]. intros id Hi.
  pose proof Hex as [(pre & Hids & Hws) _ _ _ _ _ _ _ _].
  destruct (Hf id) as (s & Hs & Ho).
  { rewrite Hids, filter_app. apply lookup_app_l_Some. apply (f_equal (λ l, l !! i)) in Hws. rewrite list_lookup_fmap, Hi in Hws. cbn in Hws.
    by rewrite Hws. }
  exists s. split; [|done]. cbn in Hs. rewrite <- Hs. eapply explained_lookup; [done|]. intros y Hy. right. by eapply own_phase.
Qed.

Lemma turns_steps cap m w ids p rs ts (c : config S R) :
  NoDup ids → Forall (fits m ids) ts → turns cap ts (poll_start m w ids p rs) = Some c → rtc (step cap) (poll_start m w ids p rs) c.
Proof.
  intros Hnd Hts. set (c0 := poll_start m w ids p rs). assert (Hgo : ∀ c1, rtc (step cap) c0 c1 → turns cap ts c1 = Some c → rtc (step cap) c0 c); [|by apply Hgo].
  induction Hts as [|t ts Ht _ IH]; intros c1 Hr; cbn; [by intros [= <-]|]. destruct (turn cap t c1) as [c2|] eqn:Et; [|done]. cbn. apply IH.
  eapply rtc_r; [exact Hr|]. exists t. split; [|done]. eapply fits_legal; [done| |done]. by eapply explained_steps.
Qed.

(** What a poll that has returned has done, in terms of how its scrapes ended. *)
Record poll_effect (m : gmap string S) (w : world unit) (ids : list string) (p : published R) (c : config S R) : Prop := {
  pe_ids : (scrapes_of c).*1 = filter (λ id, default false (sc_active <$> m !! id) = true) ids;
  pe_scraped : Forall (scraped m) (scrapes_of c);
  pe_entry id o : (id, o) ∈ scrapes_of c → sh_machines (sh c) !! id = entry_after o (m !! id);
  pe_other id : id ∉ (scrapes_of c).*1 → sh_machines (sh c) !! id = m !! id;
  pe_results : p_results (pub c) ≡ₚ (scrapes_of c ≫= λ e, yields e.2.1);
  pe_errors : p_errors (pub c) = f64_add (p_errors p) (f64_of_Z (Z.of_nat (length (filter (λ e, counts e.2.1 = 1) (scrapes_of c)))));
  pe_published : ∃ now, pub c = publish p (sh c) now;
  pe_accounts log : log ≡ₚ scrapes_of c → same_effect (sh c) (foldl account (shared0 m w) log);
  pe_inv (I : shared S R → Prop) :
    (∀ sh id s o, I sh → sh_machines sh !! id = Some s → sc_scrapes s o → I (account sh (id, o))) → I (shared0 m w) → I (sh c);
}.

Lemma poll_summary cap m w ids p rs (c : config S R) :
  NoDup ids → rtc (step cap) (poll_start m w ids p rs) c → main c = Returned → poll_effect m w ids p c.
Proof.
  intros Hnd Hr Hm. destruct (poll_returned cap m w ids p rs c Hnd Hr Hm) as (log & now & Hlog & Hfst & Hn & Hsc & Hsh & Hpub).
  destruct (accounts_results log (shared0 m w)) as [Hres Herr]. cbn [shared0 sh_results sh_errors app] in Hres, Herr. rewrite Z.add_0_l in Herr. split.
  - done.
  - by rewrite <- Hlog.
  - intros id o Hi. rewrite <- Hlog in Hi. by rewrite Hsh, (accounts_entry _ _ _ _ Hn Hi).
  - intros id Hi. rewrite <- Hlog in Hi. by rewrite Hsh, accounts_other.
  - rewrite Hpub. cbn. by rewrite Hsh, Hres, Hlog.
  - rewrite Hpub. cbn [publish p_errors]. by rewrite Hsh, Herr, Hlog.
  - by exists now.
  - intros log' Hl. rewrite Hsh. apply accounts_permute; [by rewrite Hlog|done|reflexivity].
  - intros I HI H1. rewrite Hsh. by apply (accounts_ind I m).
Qed.

(** C19.  However the goroutines of a poll are scheduled, at most [Concurrency] of
    them are past the semaphore at a time, so that at most that many machines are
    being scraped, and at most one is between Lock and Unlock of resultsMu; the
    values in the channel and the counter of the wait group are the goroutines
    they stand for, and the poll gets past Wait only when all have called Done. *)
Theorem poll_semaphore cap m w ids p rs (c : config S R) :
  rtc (step cap) (poll_start m w ids p rs) c →
  (count in_sem c <= cap)%nat ∧ sem c = count in_sem c ∧ (count in_critical c <= 1)%nat ∧ wg c = count not_done c ∧
  match main c with Spawning _ | Waiting => True | _ => Forall (λ wk, ∃ o, wk_phase wk = Exited o) (workers c) end.
Proof.
  intros Hr. destruct (counted_steps cap _ _ (counted_start cap m w ids p rs) Hr) as [Hs Hc Hw Hm Hz]. split_and!; [lia|done| |done|].
  - destruct (resultsMu c); lia.
  - rewrite Hw in Hz. assert (Hall : count not_done c = 0%nat → Forall (λ wk, ∃ o, wk_phase wk = Exited o) (workers c)); [|by destruct (main c); auto].
    intros Hz0%sum_list_with_zero. eapply Forall_impl; [exact Hz0|]. intros [id x]. destruct x; cbn; try done. eauto.
Qed.

(** C20.  With a positive concurrency a poll neither deadlocks nor runs for ever:
    whatever has happened so far, it can be completed until the poll has returned,
    every goroutine is done and every concurrent call of Collect has returned;
    and no schedule is longer than 11 turns per machine, 5 per call of Collect
    and 7 for the poll itself. *)
Theorem poll_terminates cap m w ids p rs (c : config S R) :
  NoDup ids → (∀ id, id ∈ ids → is_Some (m !! id)) → (0 < cap)%nat → rtc (step cap) (poll_start m w ids p rs) c →
  (∃ c', rtc (step cap) c c' ∧ ended c') ∧
  (∀ n c', nsteps (step cap) n (poll_start m w ids p rs) c' → (n <= 7 + 11 * length ids + 5 * length rs)%nat).
Proof.
  intros Hnd Hin Hcap Hr. split.
  - exact (poll_always_ends cap m w ids p rs c Hnd Hin Hcap Hr).
  - intros n c'. apply poll_length.
Qed.

(** C21.  What a poll leaves behind does not depend on the schedule, nor on the
    order in which the goroutines are started, on the concurrency, or on who
    calls Collect meanwhile: two runs from the same state whose scrapes end in
    the same way leave the same machines in the same states and the same
    connections open, count the same errors, and publish the same results up to
    their order.  No update is lost and none is made twice. *)
Theorem poll_schedule_irrelevant cap1 cap2 m w ids1 ids2 p rs1 rs2 (c1 c2 : config S R) :
  NoDup ids1 → NoDup ids2 →
  rtc (step cap1) (poll_start m w ids1 p rs1) c1 → main c1 = Returned →
  rtc (step cap2) (poll_start m w ids2 p rs2) c2 → main c2 = Returned →
  scrapes_of c1 ≡ₚ scrapes_of c2 →
  same_effect (sh c1) (sh c2) ∧ p_results (pub c1) ≡ₚ p_results (pub c2) ∧ p_errors (pub c1) = p_errors (pub c2).
Proof.
  intros Hn1 Hn2 Hr1 Hm1 Hr2 Hm2 Hsc.
  pose proof (poll_summary cap1 m w ids1 p rs1 c1 Hn1 Hr1 Hm1) as P1. pose proof (poll_summary cap2 m w ids2 p rs2 c2 Hn2 Hr2 Hm2) as P2.
  split_and!.
  - etrans; [apply (pe_accounts _ _ _ _ _ P1); reflexivity|]. symmetry. by apply (pe_accounts _ _ _ _ _ P2).
  - by rewrite (pe_results _ _ _ _ _ P1), (pe_results _ _ _ _ _ P2), Hsc.
  - by rewrite (pe_errors _ _ _ _ _ P1), (pe_errors _ _ _ _ _ P2), Hsc.
Qed.

(** C22.  A call of Collect never sees half of a poll: whenever it runs, it reads
    all three fields as they were before the poll, or all three as the poll that
    has returned published them. *)
Theorem collect_sees_one_poll cap m w ids p rs (c : config S R) a :
  rtc (step cap) (poll_start m w ids p rs) c → Collected a ∈ readers c →
  a = p ∨ (main c = Returned ∧ ∃ now, a = Pub (sh_results (sh c)) (f64_add (p_errors p) (f64_of_Z (sh_errors (sh c)))) (f64_of_Z now)).
Proof.
  intros Hr Ha. destruct (consistent_steps p cap m w ids rs c Hr) as [_ [Hp Hread]]. rewrite Forall_forall in Hread.
  destruct (Hread _ Ha) as [?|[Hm ->]]; [by left|]. right. split; [done|]. unfold pub_ok in Hp. by rewrite Hm in Hp.
Qed.

(** Without room in the channel the poll never returns, once it has a machine to scrape. *)
Lemma poll_hangs m w ids p rs (c : config S R) :
  NoDup ids → Exists (λ id, default false (sc_active <$> m !! id) = true) ids →
  rtc (step 0) (poll_start m w ids p rs) c → match main c with Spawning _ | Waiting => True | _ => False end.
Proof.
  intros Hnd Hact Hr. destruct (explained_steps m w ids Hnd 0 p rs c Hr) as (log & ov & crit & [(pre & Hids & Hws) _ _ _ _ _ _ _ _]).
  destruct (counted_steps 0 _ _ (counted_start 0 m w ids p rs) Hr) as [Hs Hc Hw Hm Hz].
  assert (Hat : Forall (λ wk, wk_phase wk = AtSem) (workers c)).
  { clear -Hr. remember (poll_start m w ids p rs) as c0 eqn:E0. assert (Hw : Forall (λ wk, wk_phase wk = AtSem) (workers c0)) by (by subst c0).
    clear E0. induction Hr as [|c1 c2 c3 (t & _ & Ht) _ IH]; [done|]. apply IH. clear IH. destruct t as [now|i o|i]; cbn in Ht.
    - revert Ht. unfold main_turn. destruct (main c1) as [[|id l]| | |[|f k]|]; try (destruct (existsb _ _); [done|]); try destruct (default false _);
        try case_decide; intros [= <-]; cbn; try done. apply Forall_app. split; [done|]. by apply Forall_singleton.
    - revert Ht. unfold worker_turn. destruct (workers c1 !! i) as [[id x]|] eqn:Hi; [|done]. rewrite Forall_lookup in Hw. specialize (Hw _ _ Hi). cbn in Hw. subst x.
      cbn. by rewrite decide_False by lia.
    - revert Ht. unfold reader_turn. destruct (readers c1 !! i) as [[a|[|f k] a|a]|]; cbn; try (destruct (writing _); [done|]); by intros [= <-]. }
  destruct (workers c) as [|wk l] eqn:Ews.
  - destruct (main c); try done; cbn in Hids; rewrite app_nil_r in Hids; subst pre; exfalso; apply Exists_exists in Hact as (id & Hid & Ha);
      assert (Hf : id ∈ ([] : list string)) by (change ([] : list string) with (wk_id (S := S) (R := R) <$> []); rewrite Hws; by apply list_elem_of_filter);
      by apply elem_of_nil in Hf.
  - assert (wg c ≠ 0%nat) as Hne; [|by destruct (main c)]. rewrite Hw. unfold count. rewrite Ews. apply Forall_cons in Hat as [Ha _].
    destruct wk as [id x]. cbn in Ha. subst x. cbn. lia.
Qed.
End Polls.
