(* ===== verification/PollQmp.v ===== *)
(** * The goroutines of a poll of the QMP collector

    The QMP collector as a [Scraper]: what its goroutines do when a scrape fails,
    and that however they are scheduled the poll leaves behind what the
    sequential model of QmpCollector says. *)
From stdpp Require Import relations.
From S2P Require Import Prelude GoStrings GoFloat GoEffect Script QmpTypes QmpClient PromMetrics ConnPool QmpCollector QmpScrape PollConcurrency PollRefine PollOutcome.

Section Qmp.
Context (cfg : PollerConfig) (haveClient : bool).

Definition qmp_result (res : err + VMIResult) : err + option VMIResult :=
  match res with inl e => inl e | inr r => inr (Some r) end.

(** How a scrape can end, whatever QEMU and the API answer, and whatever others
    make them answer in between. *)
Definition qmp_scrapes (vc : vmConnection) (o : PollConcurrency.outcome vmConnection VMIResult) : Prop :=
  ∃ (G : Type) (E : Environment G) (w : world G), o = (qmp_result (scrapeVM cfg haveClient vc w).1.1, (scrapeVM cfg haveClient vc w).1.2).

(** On an error the connection is closed and the machine forgotten. *)
#[export, program] Instance qmp_scraper : Scraper vmConnection VMIResult := {|
  sc_active _ := true;
  sc_scrapes := qmp_scrapes;
  sc_on_error _ := [CloseConn; ForgetConn];
|}.
Next Obligation. intros vc. by eexists _, script, script_env, (start script0 0). Qed.
Next Obligation. intros e. cbn. lia. Qed.

(** ** The sequential model *)

Section Sequential.
Context {G : Type} `{Environment G}.

(** How the scrapes of the sequential loop end. *)
Fixpoint qmp_seq_scrapes (st : gmap string vmConnection * list VMIResult * Z) (l : list (string * vmConnection)) (w : world G)
    : list (string * PollConcurrency.outcome vmConnection VMIResult) :=
  match l with
  | [] => []
  | (id, vc) :: l' =>
      let '(res, vc') := (scrapeVM cfg haveClient vc w).1 in
      let '(st', w') := scrape_one cfg haveClient st (id, vc) w in (id, (qmp_result res, vc')) :: qmp_seq_scrapes st' l' w'
  end.

(** A turn of the loop accounts for a scrape. *)
Lemma qmp_scrape_one_account m rs n id vc (w : world G) u :
  sees w u → m !! id = Some vc →
  let '(st', w') := scrape_one cfg haveClient (m, rs, n) (id, vc) w in
  let '(res, vc') := (scrapeVM cfg haveClient vc w).1 in
  ∃ u', account (Shared m rs n u) (id, (qmp_result res, vc')) = as_shared st' u' ∧ sees w' u' ∧ ∀ k, k ≠ id → st'.1.1 !! k = m !! k.
Proof.
  intros Hsee Hid. unfold scrape_one, bind. pose proof (qmp_quiet_scrapeVM cfg haveClient vc w) as (Hc & Hd & _).
  destruct (scrapeVM cfg haveClient vc w) as [[res vc'] w1]. cbn [fst snd] in *.
  assert (Hsee1 : sees w1 u) by (destruct Hsee; split; congruence).
  pose proof (alter_known m id vc vc' Hid) as Halt.
  destruct res as [e|r].
  - destruct (close_sees vc' w1 u Hsee1) as [Hv Hs2]. unfold bind. destruct (close vc' w1) as [v1 w2] eqn:Ew, (close vc' u) as [v2 u2] eqn:Eu. cbn [fst snd ret] in *.
    subst v2. exists u2. split_and!; [|done|by intros k Hk; cbn; rewrite lookup_delete_ne].
    etrans; [apply account_eq|]. unfold machine_acts, acts_on, record_result. cbn. rewrite Halt, lookup_insert_eq. cbn. rewrite Eu. cbn.
    by rewrite !delete_insert_eq, app_nil_r.
  - exists u. cbn [ret fst snd]. split_and!; [|done|by intros k Hk; cbn; rewrite lookup_insert_ne].
    etrans; [apply account_eq|]. unfold machine_acts, acts_on, record_result. cbn. by rewrite Halt, Z.add_0_r.
Qed.

Lemma qmp_seq_accounts l m rs n (w : world G) u :
  sees w u → to_visit m l →
  let '(st', w') := for_each (scrape_one cfg haveClient) (m, rs, n) l w in
  ∃ u', foldl account (Shared m rs n u) (qmp_seq_scrapes (m, rs, n) l w) = as_shared st' u' ∧ sees w' u'.
Proof.
  revert m rs n w u. induction l as [|[id vc] l IH]; intros m rs n w u Hs Hv; [by exists u|]. apply to_visit_cons in Hv as (Hid & Hv & Hl).
  pose proof (qmp_scrape_one_account m rs n id vc w u Hs Hid) as Hone. cbn [for_each qmp_seq_scrapes]. unfold bind.
  destruct (scrape_one cfg haveClient (m, rs, n) (id, vc) w) as [[[m1 rs1] n1] w1]. destruct (scrapeVM cfg haveClient vc w).1 as [res vc'].
  destruct Hone as (u1 & Ha & Hs1 & Hm1). cbn [foldl]. rewrite Ha. cbn in Hm1. apply IH; [done|].
  exact (to_visit_other m m1 l id Hv Hl Hm1).
Qed.
End Sequential.

(** ** What a poll leaves behind *)

Lemma qmp_account_pool sh id vc o :
  pool_inv (sh_machines sh) (sh_world sh) → sh_machines sh !! id = Some vc → qmp_scrapes vc o →
  pool_inv (sh_machines (account sh (id, o))) (sh_world (account sh (id, o))).
Proof.
  intros Hinv Hid (G & E & w & ->). pose proof (qmp_scrapeVM_same cfg haveClient vc w) as [Hcl Hcd].
  destruct (scrapeVM cfg haveClient vc w) as [[res vc'] w1]. cbn [fst snd] in *.
  destruct (pi_open _ _ Hinv _ _ Hid) as (Hopen & _ & _). cbn in Hopen.
  assert (Hup : pool_inv (<[id := vc']> (sh_machines sh)) (sh_world sh)) by (eapply pool_update; [done..|cbn; congruence]).
  pose proof (alter_known _ id vc vc' Hid) as Halt.
  rewrite account_eq. unfold machine_acts, acts_on, record_result. destruct res as [e|r]; cbn; rewrite Halt; [|done].
  rewrite lookup_insert_eq. pose proof (pool_close _ _ id vc' Hup ltac:(by rewrite lookup_insert_eq)) as Hc. rewrite delete_insert_eq in Hc.
  destruct (close vc' (sh_world sh)) as [v w2]. cbn in *. by rewrite !delete_insert_eq.
Qed.

(** C17.  The QMP collector's poll does, in parallel, what its sequential model
    does: from a map of open connections, whatever the schedule, when the poll
    has returned every machine has been scraped exactly once, the machines left
    are those whose scrape succeeded, as the scrape left them, and the open
    connections are theirs; what is published are the results of these and the
    number of the others; and a sequential run of the loop whose scrapes end in
    the same way ends with the same map, the same connections, the same count and
    the same results up to order. *)
Theorem qmp_poll_refines m u ids p rs (c : config vmConnection VMIResult) :
  pool_inv m u → ids ≡ₚ (map_to_list m).*1 →
  rtc (step (Z.to_nat (Concurrency cfg))) (poll_start m u ids p rs) c → main c = Returned →
  (scrapes_of c).*1 = ids ∧ Forall (scraped m) (scrapes_of c) ∧
  (∀ id vc, sh_machines (sh c) !! id = Some vc ↔ ∃ r, (id, (inr r, vc)) ∈ scrapes_of c) ∧
  pool_inv (sh_machines (sh c)) (sh_world (sh c)) ∧
  p_results (pub c) ≡ₚ (scrapes_of c ≫= λ e, yields e.2.1) ∧
  p_errors (pub c) = f64_add (p_errors p) (f64_of_Z (Z.of_nat (length (filter (λ e, counts e.2.1 = 1) (scrapes_of c))))) ∧
  (∀ G `(Environment G) (w : world G) entries,
     sees w u → entries ≡ₚ map_to_list m → qmp_seq_scrapes (m, [], 0) entries w ≡ₚ scrapes_of c →
     let '(m', rs', n, w') := for_each (scrape_one cfg haveClient) (m, [], 0) entries w in
     m' = sh_machines (sh c) ∧ conns w' = conns (sh_world (sh c)) ∧ p_results (pub c) ≡ₚ rs' ∧ p_errors (pub c) = f64_add (p_errors p) (f64_of_Z n)).
Proof.
  intros Hinv Hids Hr Hm. assert (Hnd : NoDup ids) by (rewrite Hids; apply NoDup_fst_map_to_list).
  destruct (poll_summary _ m u ids p rs c Hnd Hr Hm) as [Hfst Hsc Hent Hoth Hres Herr [now Hpub] Hacc Hind].
  pose proof (ids_known m ids Hids) as Hsome.
  rewrite list_filter_all in Hfst by (intros id [vc ->]%Hsome; done). split_and!; [done..| | |done|done|].
  - intros id vc. split.
    + intros E. destruct (decide (id ∈ (scrapes_of c).*1)) as [Hi|Hi].
      * apply list_elem_of_fmap in Hi as ([id' [res vc']] & -> & Hi). cbn in E. rewrite (Hent _ _ Hi) in E. destruct res as [e|r]; cbn in E; [done|].
        exists r. by destruct (m !! id'); cbn in E; simplify_eq.
      * rewrite (Hoth _ Hi) in E. rewrite Hfst, Hsome in Hi. destruct Hi. by exists vc.
    + intros [r Hi]. rewrite (Hent _ _ Hi). rewrite Forall_forall in Hsc. destruct (Hsc _ Hi) as (vc0 & Hvc & _). cbn in *. by rewrite Hvc.
  - apply (Hind (λ sh, pool_inv (sh_machines sh) (sh_world sh))); [|done]. intros sh id vc o. apply qmp_account_pool.
  - intros G E w entries Hsee Hentr Hseq.
    pose proof (qmp_seq_accounts entries m [] 0 w u Hsee (to_visit_entries m entries Hentr)) as Hseqa.
    destruct (for_each _ _ entries w) as [[[m' rs'] n] w']. destruct Hseqa as (u' & Hseqa & Hs').
    destruct (Hacc _ Hseq) as (H1 & H2 & H3 & H4 & _). change (Shared m [] 0 u) with (shared0 (R := VMIResult) m u) in Hseqa. rewrite Hseqa in H1, H2, H3, H4.
    cbn [as_shared sh_machines sh_results sh_errors sh_world] in H1, H2, H3, H4. destruct Hs' as [Hc' _]. rewrite Hpub. cbn. rewrite H3. split_and!; congruence || done.
Qed.
End Qmp.

(** ** Two machines, one of which cannot be scraped *)

Definition pair_map : gmap string vmConnection :=
  {[ "c1" := scrape_conn; "c2" := Conn 1 "prod" "web" "virt-launcher-web" ∅ ∅ ∅ false ]}.
Definition pair_world : world unit := World tt {[0%nat; 1%nat]} ∅ 2 [].
Definition pair_outcome (id : string) : PollConcurrency.outcome vmConnection VMIResult :=
  let vc := default scrape_conn (pair_map !! id) in
  let w := if String.eqb id "c1" then scrape_answers else start script0 2 in
  (qmp_result (scrapeVM example_cfg true vc w).1.1, (scrapeVM example_cfg true vc w).1.2).
Definition before : published VMIResult := Pub [] (f64_of_Z 3) (f64_of_Z 50).
Definition nothing_read : published VMIResult := Pub [] (f64_of_Z 0) (f64_of_Z 0).
Definition pair_start : config vmConnection VMIResult := poll_start pair_map pair_world ["c1"; "c2"] before [nothing_read; nothing_read].

Definition go1 : turn_of vmConnection VMIResult := Goroutine 0 (pair_outcome "c1").
Definition go2 : turn_of vmConnection VMIResult := Goroutine 1 (pair_outcome "c2").
(** Both are started and scraped together; the second accounts first; one Collect
    begins before the poll and one while it publishes. *)
Definition pair_begin : list (turn_of vmConnection VMIResult) :=
  [CollectCall 0; Main 0; Main 0; go1; Main 0; go2; go2; go1; CollectCall 0; go2].
Definition pair_rest : list (turn_of vmConnection VMIResult) :=
  replicate 7 go2 ++ replicate 6 go1 ++ replicate 3 (CollectCall 0) ++ replicate 6 (Main 100) ++ replicate 5 (CollectCall 1).

#[local] Instance pair_scraper : Scraper vmConnection VMIResult := qmp_scraper example_cfg true.

Definition pair_run (cap : nat) (ts : list (turn_of vmConnection VMIResult)) : option (config vmConnection VMIResult) := turns cap ts pair_start.

(** One after the other, in the other order. *)
Definition turned_start : config vmConnection VMIResult := poll_start pair_map pair_world ["c2"; "c1"] before [].
Definition turned_turns : list (turn_of vmConnection VMIResult) :=
  replicate 3 (Main 0) ++ replicate 10 (Goroutine 0 (pair_outcome "c2")) ++ replicate 8 (Goroutine 1 (pair_outcome "c1")) ++ replicate 6 (Main 70).
Definition turned_run : option (config vmConnection VMIResult) := turns 1 turned_turns turned_start.

Lemma pair_scraped id : id = "c1" ∨ id = "c2" → scraped pair_map (id, pair_outcome id).
Proof.
  intros [->| ->]; (eexists; split; [reflexivity|]); eexists script, script_env, _; reflexivity.
Qed.

Lemma fits_go1 : fits pair_map ["c1"; "c2"] go1.
Proof. intros id [= <-]. apply pair_scraped. by left. Qed.
Lemma fits_go2 : fits pair_map ["c1"; "c2"] go2.
Proof. intros id [= <-]. apply pair_scraped. by right. Qed.

Ltac pair_fits :=
  repeat lazymatch goal with
  | |- fits _ _ go1 => exact fits_go1
  | |- fits _ _ go2 => exact fits_go2
  | |- fits _ _ _ => exact I
  | |- Forall _ [] => apply Forall_nil_2
  | |- Forall _ (_ :: _) => apply Forall_cons_2
  | |- Forall _ (_ ++ _) => apply Forall_app_2
  | |- Forall _ (replicate _ _) => apply Forall_replicate
  end.

Lemma pair_begin_steps c : pair_run 2 pair_begin = Some c → rtc (step 2) pair_start c.
Proof. apply turns_steps; [apply (bool_decide_unpack _); reflexivity|]. unfold pair_begin. pair_fits. Qed.

Lemma pair_all_steps cap c : pair_run cap (pair_begin ++ pair_rest) = Some c → rtc (step cap) pair_start c.
Proof. apply turns_steps; [apply (bool_decide_unpack _); reflexivity|]. unfold pair_begin, pair_rest. pair_fits. Qed.

Lemma turned_steps c : turned_run = Some c → rtc (step 1) turned_start c.
Proof.
  apply turns_steps; [apply (bool_decide_unpack _); reflexivity|]. unfold turned_turns.
  repeat apply Forall_app_2; apply Forall_replicate; try exact I; intros id [= <-]; apply pair_scraped; auto.
Qed.

Lemma pair_pool : pool_inv pair_map pair_world.
Proof.
  assert (Hm : ∀ id vc, pair_map !! id = Some vc → (id = "c1" ∧ vc = scrape_conn) ∨ (id = "c2" ∧ vc = Conn 1 "prod" "web" "virt-launcher-web" ∅ ∅ ∅ false)).
  { intros id vc. unfold pair_map. rewrite lookup_insert. case_decide as E1; [intros [= <-]; by left|]. rewrite lookup_singleton.
    case_decide as E2; [intros [= <-]; by right|done]. }
  split.
  - intros id vc [[-> ->]|[-> ->]]%Hm; cbn; set_solver.
  - intros id1 id2 v1 v2 [[-> ->]|[-> ->]]%Hm [[-> ->]|[-> ->]]%Hm; done.
  - intros n. cbn. rewrite elem_of_union, !elem_of_singleton. intros [->| ->]; [exists "c1"|exists "c2"]; eexists; split; reflexivity.
  - intros n. cbn. set_unfold. lia.
Qed.

Lemma poll_semaphore_witness :
  ∃ c, pair_run 2 pair_begin = Some c ∧ sem c = 2%nat ∧ resultsMu c = true ∧ (count in_sem c <= 2)%nat ∧ (count in_critical c <= 1)%nat.
Proof.
  destruct (pair_run 2 pair_begin) as [c|] eqn:E; [|exfalso; revert E; vm_compute; discriminate]. exists c.
  assert (Hs : (λ c, (sem c, resultsMu c)) <$> pair_run 2 pair_begin = Some (2%nat, true)) by (vm_compute; reflexivity).
  rewrite E in Hs. injection Hs as Hs1 Hs2.
  destruct (poll_semaphore 2 pair_map pair_world ["c1"; "c2"] before [nothing_read; nothing_read] c (pair_begin_steps c E)) as (H1 & _ & H3 & _).
  split; [reflexivity|]. split; [exact Hs1|]. split; [exact Hs2|]. split; [exact H1|exact H3].
Defined.

Lemma poll_terminates_witness : ∃ c c', pair_run 2 pair_begin = Some c ∧ rtc (step 2) c c' ∧ ended c'.
Proof.
  destruct (pair_run 2 pair_begin) as [c|] eqn:E; [|exfalso; revert E; vm_compute; discriminate]. exists c.
  destruct (poll_terminates 2 pair_map pair_world ["c1"; "c2"] before [nothing_read; nothing_read] c) as [[c' [Hr He]] _].
  - apply (bool_decide_unpack _). reflexivity.
  - intros id [->|[->|[]%elem_of_nil]%elem_of_cons]%elem_of_cons; eexists; reflexivity.
  - lia.
  - exact (pair_begin_steps c E).
  - exists c'. split; [reflexivity|]. split; [exact Hr|exact He].
Defined.

Lemma poll_schedule_irrelevant_witness :
  ∃ c1 c2, pair_run 2 (pair_begin ++ pair_rest) = Some c1 ∧ turned_run = Some c2 ∧ same_effect (sh c1) (sh c2) ∧ p_results (pub c1) ≡ₚ p_results (pub c2).
Proof.
  destruct (pair_run 2 (pair_begin ++ pair_rest)) as [c1|] eqn:E1; [|exfalso; revert E1; vm_compute; discriminate].
  destruct turned_run as [c2|] eqn:E2; [|exfalso; revert E2; vm_compute; discriminate]. exists c1, c2.
  assert (H1 : (λ c, (main c, scrapes_of c)) <$> pair_run 2 (pair_begin ++ pair_rest) = Some (Returned, [("c1", pair_outcome "c1"); ("c2", pair_outcome "c2")]))
    by (vm_compute; reflexivity).
  assert (H2 : (λ c, (main c, scrapes_of c)) <$> turned_run = Some (Returned, [("c2", pair_outcome "c2"); ("c1", pair_outcome "c1")]))
    by (vm_compute; reflexivity).
  rewrite E1 in H1. rewrite E2 in H2. injection H1 as Hm1 Hs1. injection H2 as Hm2 Hs2.
  destruct (poll_schedule_irrelevant 2 1 pair_map pair_world ["c1"; "c2"] ["c2"; "c1"] before [nothing_read; nothing_read] [] c1 c2) as (He & Hr & _).
  - apply (bool_decide_unpack _). reflexivity.
  - apply (bool_decide_unpack _). reflexivity.
  - exact (pair_all_steps 2 c1 E1).
  - exact Hm1.
  - exact (turned_steps c2 E2).
  - exact Hm2.
  - rewrite Hs1, Hs2. apply perm_swap.
  - split; [reflexivity|]. split; [reflexivity|]. split; [exact He|exact Hr].
Defined.

Lemma collect_sees_one_poll_witness :
  ∃ c a, pair_run 2 (pair_begin ++ pair_rest) = Some c ∧ Collected a ∈ readers c ∧ a ≠ before ∧ (a = before ∨ main c = Returned).
Proof.
  destruct (pair_run 2 (pair_begin ++ pair_rest)) as [c|] eqn:E; [|exfalso; revert E; vm_compute; discriminate].
  assert (Hr : ∃ a, (λ c, readers c !! 1%nat) <$> pair_run 2 (pair_begin ++ pair_rest) = Some (Some (Collected a)) ∧ length (p_results a) = 1%nat)
    by (vm_compute; eexists; split; reflexivity).
  rewrite E in Hr. destruct Hr as (a & Ha & Hl). injection Ha as Ha. apply list_elem_of_lookup_2 in Ha. exists c, a. split; [reflexivity|]. split; [exact Ha|].
  split; [by intros ->|].
  destruct (collect_sees_one_poll 2 pair_map pair_world ["c1"; "c2"] before [nothing_read; nothing_read] c a (pair_all_steps 2 c E) Ha) as [Hb|[Hm _]]; [left; exact Hb|right; exact Hm].
Defined.

(** The machine that failed is gone and disconnected. *)
Lemma qmp_poll_refines_witness :
  ∃ c, pair_run 8 (pair_begin ++ pair_rest) = Some c ∧ (scrapes_of c).*1 = ["c1"; "c2"] ∧ pool_inv (sh_machines (sh c)) (sh_world (sh c)) ∧
  sh_machines (sh c) !! "c2" = None ∧ conns (sh_world (sh c)) = {[0%nat]}.
Proof.
  destruct (pair_run 8 (pair_begin ++ pair_rest)) as [c|] eqn:E; [|exfalso; revert E; vm_compute; discriminate]. exists c.
  assert (Hs : (λ c, (main c, sh_machines (sh c) !! "c2", bool_decide (conns (sh_world (sh c)) = {[0%nat]}))) <$> pair_run 8 (pair_begin ++ pair_rest) = Some (Returned, None, true))
    by (vm_compute; reflexivity).
  rewrite E in Hs. injection Hs as Hm Hc2 Hcs. apply bool_decide_eq_true in Hcs.
  destruct (qmp_poll_refines example_cfg true pair_map pair_world ["c1"; "c2"] before [nothing_read; nothing_read] c) as (H1 & _ & _ & H4 & _).
  - exact pair_pool.
  - apply reflexive_eq. vm_compute. reflexivity.
  - exact (pair_all_steps 8 c E).
  - exact Hm.
  - split; [reflexivity|]. split; [exact H1|]. split; [exact H4|]. split; [exact Hc2|exact Hcs].
Defined.
