(* ===== verification/PollQga.v ===== *)
(** * The goroutines of a poll of the guest-agent collector

    The guest-agent collector as a [Scraper]: machines it has given up are not
    scraped, and an error is counted against its machine; however the goroutines
    are scheduled, the poll leaves behind what the sequential model of
    QgaCollector says. *)
From stdpp Require Import relations.
From S2P Require Import Prelude GoStrings GoFloat GoEffect Script QmpTypes QmpClient PromMetrics ConnPool QgaMetrics QgaClient QgaCollector PollConcurrency PollRefine PollOutcome.

Section Qga.
Context (cfg : CollectorConfig) (haveClient : bool).

(** How a scrape can end, whatever the agent and the API answer, and whatever
    others make them answer in between. *)
Definition qga_scrapes (vs : vmState) (o : outcome vmState vmiResult) : Prop :=
  ∃ (G : Type) (E : Environment G) (w : world G), o = (scrapeVM cfg haveClient vs w).1.

#[export, program] Instance qga_scraper : Scraper vmState vmiResult := {|
  sc_active := active_vm;
  sc_scrapes := qga_scrapes;
  sc_on_error e := [UpdateConn (λ vs, handleScrapeError cfg vs e)];
|}.
Next Obligation. intros vs. by eexists _, script, script_env, (start script0 0). Qed.
Next Obligation. intros e. cbn. lia. Qed.

(** ** The sequential model *)

Section Sequential.
Context {G : Type} `{Environment G}.

(** How the scrapes of the sequential loop end. *)
Fixpoint qga_seq_scrapes (st : gmap string vmState * list vmiResult * Z) (l : list (string * vmState)) (w : world G)
    : list (string * outcome vmState vmiResult) :=
  match l with
  | [] => []
  | (id, vs) :: l' =>
      let '(st', w') := scrape_one cfg haveClient st (id, vs) w in
      (if active_vm vs then [(id, (scrapeVM cfg haveClient vs w).1)] else []) ++ qga_seq_scrapes st' l' w'
  end.

(** A turn of the loop accounts for a scrape, or skips the machine. *)
Lemma qga_scrape_one_account m rs n id vs (w : world G) u :
  sees w u → m !! id = Some vs →
  let '(st', w') := scrape_one cfg haveClient (m, rs, n) (id, vs) w in
  foldl account (Shared m rs n u) (if active_vm vs then [(id, (scrapeVM cfg haveClient vs w).1)] else []) = as_shared st' u ∧
  sees w' u ∧ ∀ k, k ≠ id → st'.1.1 !! k = m !! k.
Proof.
  intros Hsee Hid. unfold scrape_one. destruct (active_vm vs); cbn [negb foldl]; [|done].
  pose proof (quiet_scrapeVM cfg haveClient vs w) as (Hc & Hd & _). unfold bind.
  destruct (scrapeVM cfg haveClient vs w) as [[res vs'] w1]. cbn [fst snd] in *. pose proof (alter_known m id vs vs' Hid) as Halt.
  assert (Hsee1 : sees w1 u) by (destruct Hsee; split; congruence).
  destruct res as [e|[r|]]; cbn [ret]; (split_and!; [|done|by intros k Hk; cbn; rewrite lookup_insert_ne]);
    (etrans; [apply account_eq|]); unfold machine_acts, acts_on, record_result; cbn; rewrite Halt, ?app_nil_r, ?Z.add_0_r; try done.
  by rewrite alter_insert_eq.
Qed.

Lemma qga_seq_accounts l m rs n (w : world G) u :
  sees w u → to_visit m l →
  let '(st', w') := for_each (scrape_one cfg haveClient) (m, rs, n) l w in
  foldl account (Shared m rs n u) (qga_seq_scrapes (m, rs, n) l w) = as_shared st' u ∧ sees w' u.
Proof.
  revert m rs n w. induction l as [|[id vs] l IH]; intros m rs n w Hs Hv; [done|]. apply to_visit_cons in Hv as (Hid & Hv & Hl).
  pose proof (qga_scrape_one_account m rs n id vs w u Hs Hid) as Hone. cbn [for_each qga_seq_scrapes]. unfold bind.
  destruct (scrape_one cfg haveClient (m, rs, n) (id, vs) w) as [[[m1 rs1] n1] w1].
  destruct Hone as (Ha & Hs1 & Hm1). cbn in Hm1. specialize (IH m1 rs1 n1 w1 Hs1 (to_visit_other m m1 l id Hv Hl Hm1)).
  destruct (for_each _ _ l w1) as [st' w']. destruct IH as [IH Hs']. split; [|done]. etrans; [apply foldl_app|].
  etrans; [exact (f_equal (λ s, foldl account s (qga_seq_scrapes (m1, rs1, n1) l w1)) Ha)|exact IH].
Qed.
End Sequential.

(** ** What a poll leaves behind *)

Lemma qga_account_pool sh id vs o :
  pool_inv (sh_machines sh) (sh_world sh) → sh_machines sh !! id = Some vs → qga_scrapes vs o →
  pool_inv (sh_machines (account sh (id, o))) (sh_world (account sh (id, o))).
Proof.
  intros Hinv Hid (G & E & w & ->). pose proof (scrapeVM_same cfg haveClient vs w) as (Hcl & Hcd & _).
  destruct (scrapeVM cfg haveClient vs w) as [[res vs'] w1]. cbn [fst snd] in *.
  destruct (pi_open _ _ Hinv _ _ Hid) as (Hopen & _ & _). cbn in Hopen. pose proof (alter_known _ id vs vs' Hid) as Halt.
  rewrite account_eq. unfold machine_acts, acts_on, record_result.
  destruct res as [e|[r|]]; cbn; rewrite Halt; [|eapply pool_update; [done..|cbn; congruence]..].
  rewrite alter_insert_eq. destruct (handleScrapeError_client cfg vs' e). eapply pool_update; [done..|cbn; congruence|cbn; congruence].
Qed.

(** How a machine is after a poll, by how its scrape ended. *)
Definition qga_after (o : outcome vmState vmiResult) : vmState :=
  match o with (inl e, vs) => handleScrapeError cfg vs e | (inr _, vs) => vs end.

(** C18.  The guest-agent collector's poll does, in parallel, what its sequential
    model does: from a map of open connections, whatever the schedule, when the
    poll has returned every machine that was not given up has been scraped exactly
    once and the others are as they were; each scraped machine is as its scrape
    left it, with the failure counted against it if it failed; no connection was
    opened or closed; what is published are the results and the number of
    failures; and a sequential run of the loop whose scrapes end in the same way
    ends with the same map, count and results up to order. *)
Theorem qga_poll_refines m u ids p rs (c : config vmState vmiResult) :
  pool_inv m u → ids ≡ₚ (map_to_list m).*1 →
  rtc (step (Z.to_nat (Concurrency cfg))) (poll_start m u ids p rs) c → main c = Returned →
  NoDup (scrapes_of c).*1 ∧ (∀ id, id ∈ (scrapes_of c).*1 ↔ ∃ vs, m !! id = Some vs ∧ active_vm vs = true) ∧ Forall (scraped m) (scrapes_of c) ∧
  (∀ id o, (id, o) ∈ scrapes_of c → sh_machines (sh c) !! id = Some (qga_after o)) ∧
  (∀ id vs, m !! id = Some vs → active_vm vs = false → sh_machines (sh c) !! id = Some vs) ∧
  pool_inv (sh_machines (sh c)) (sh_world (sh c)) ∧ sh_world (sh c) = u ∧
  p_results (pub c) ≡ₚ (scrapes_of c ≫= λ e, yields e.2.1) ∧
  p_errors (pub c) = f64_add (p_errors p) (f64_of_Z (Z.of_nat (length (filter (λ e, counts e.2.1 = 1) (scrapes_of c))))) ∧
  (∀ G `(Environment G) (w : world G) entries,
     sees w u → entries ≡ₚ map_to_list m → qga_seq_scrapes (m, [], 0) entries w ≡ₚ scrapes_of c →
     let '(m', rs', n, w') := for_each (scrape_one cfg haveClient) (m, [], 0) entries w in
     m' = sh_machines (sh c) ∧ conns w' = conns u ∧ p_results (pub c) ≡ₚ rs' ∧ p_errors (pub c) = f64_add (p_errors p) (f64_of_Z n)).
Proof.
  intros Hinv Hids Hr Hm. assert (Hnd : NoDup ids) by (rewrite Hids; apply NoDup_fst_map_to_list).
  destruct (poll_summary _ m u ids p rs c Hnd Hr Hm) as [Hfst Hsc Hent Hoth Hres Herr [now Hpub] Hacc Hind].
  assert (Hin : ∀ id, id ∈ (scrapes_of c).*1 ↔ ∃ vs, m !! id = Some vs ∧ active_vm vs = true).
  { intros id. rewrite Hfst, list_elem_of_filter, (ids_known m ids Hids). split.
    - intros [Ha [vs Hvs]]. exists vs. rewrite Hvs in Ha. done.
    - intros (vs & Hvs & Ha). rewrite Hvs. by split; [|eexists]. }
  split_and!; [|done..| | | | |done|done|].
  - rewrite Hfst. by apply NoDup_filter.
  - intros id [res vs] Hi. rewrite (Hent _ _ Hi). rewrite Forall_forall in Hsc. destruct (Hsc _ Hi) as (vs0 & Hvs & _). cbn in Hvs.
    rewrite Hvs. by destruct res.
  - intros id vs Hvs Ha. rewrite Hoth; [done|]. rewrite Hin. intros (vs' & ? & ?). congruence.
  - apply (Hind (λ sh, pool_inv (sh_machines sh) (sh_world sh))); [|done]. intros sh id vs o. apply qga_account_pool.
  - apply (Hind (λ sh, sh_world sh = u)); [|done]. intros sh id vs o Hu _ _. rewrite (account_eq sh id o). by destruct o as [[] ?].
  - intros G E w entries Hsee Hentr Hseq.
    pose proof (qga_seq_accounts entries m [] 0 w u Hsee (to_visit_entries m entries Hentr)) as Hseqa.
    destruct (for_each _ _ entries w) as [[[m' rs'] n] w']. destruct Hseqa as [Hseqa Hs'].
    destruct (Hacc _ Hseq) as (H1 & H2 & H3 & _). change (Shared m [] 0 u) with (shared0 (R := vmiResult) m u) in Hseqa. rewrite Hseqa in H1, H2, H3.
    cbn [as_shared sh_machines sh_results sh_errors] in H1, H2, H3. destruct Hs' as [Hc' _]. rewrite Hpub. cbn. rewrite H3. split_and!; congruence || done.
Qed.
End Qga.

(** ** A machine whose agent does not answer, and one that was given up *)

Definition quiet_vm : vmState := VmState 0 "prod" "db" "virt-launcher-db" None ∅ ∅ 1 false NotStopped false.
Definition given_up_vm : vmState := VmState 1 "prod" "web" "virt-launcher-web" None ∅ ∅ 0 true CommandBlacklisted false.
Definition two_vms : gmap string vmState := {[ "c1" := quiet_vm; "c2" := given_up_vm ]}.
Definition two_world : world unit := World tt {[0%nat; 1%nat]} ∅ 2 [].
Definition quiet_outcome : outcome vmState vmiResult := (scrapeVM example_cfg true quiet_vm (start script0 2)).1.
Definition two_before : published vmiResult := Pub [] (f64_of_Z 3) (f64_of_Z 50).
Definition two_turns : list (turn_of vmState vmiResult) := replicate 3 (Main 0) ++ replicate 9 (Goroutine 0 quiet_outcome) ++ replicate 6 (Main 100).

#[local] Instance two_scraper : Scraper vmState vmiResult := qga_scraper example_cfg true.
Definition two_run : option (config vmState vmiResult) := turns 8 two_turns (poll_start two_vms two_world ["c1"; "c2"] two_before []).

Lemma two_steps c : two_run = Some c → rtc (step 8) (poll_start two_vms two_world ["c1"; "c2"] two_before []) c.
Proof.
  apply turns_steps; [apply (bool_decide_unpack _); reflexivity|]. unfold two_turns.
  repeat apply Forall_app_2; apply Forall_replicate; try exact I. intros id [= <-]. eexists. split; [reflexivity|].
  by exists script, script_env, (start script0 2).
Qed.

Lemma two_pool : pool_inv two_vms two_world.
Proof.
  assert (Hm : ∀ id vs, two_vms !! id = Some vs → (id = "c1" ∧ vs = quiet_vm) ∨ (id = "c2" ∧ vs = given_up_vm)).
  { intros id vs. unfold two_vms. rewrite lookup_insert. case_decide as E1; [intros [= <-]; by left|]. rewrite lookup_singleton.
    case_decide as E2; [intros [= <-]; by right|done]. }
  split.
  - intros id vc [[-> ->]|[-> ->]]%Hm; cbn; set_solver.
  - intros id1 id2 v1 v2 [[-> ->]|[-> ->]]%Hm [[-> ->]|[-> ->]]%Hm; done.
  - intros n. cbn. rewrite elem_of_union, !elem_of_singleton. intros [->| ->]; [exists "c1"|exists "c2"]; eexists; split; reflexivity.
  - intros n. cbn. set_unfold. lia.
Qed.

(** The second failure of the first machine is counted; the other is left alone. *)
Lemma qga_poll_refines_witness :
  ∃ c, two_run = Some c ∧ NoDup (scrapes_of c).*1 ∧ sh_world (sh c) = two_world ∧ sh_machines (sh c) !! "c2" = Some given_up_vm ∧
  retryCount <$> sh_machines (sh c) !! "c1" = Some 2.
Proof.
  destruct two_run as [c|] eqn:E; [|exfalso; revert E; vm_compute; discriminate]. exists c.
  assert (Hs : (λ c, (main c, retryCount <$> sh_machines (sh c) !! "c1")) <$> two_run = Some (Returned, Some 2)) by (vm_compute; reflexivity).
  rewrite E in Hs. injection Hs as Hm Hc.
  destruct (qga_poll_refines example_cfg true two_vms two_world ["c1"; "c2"] two_before [] c) as (H1 & _ & _ & _ & H5 & _ & H7 & _).
  - exact two_pool.
  - apply reflexive_eq. vm_compute. reflexivity.
  - exact (two_steps c E).
  - exact Hm.
  - split; [reflexivity|]. split; [exact H1|]. split; [exact H7|]. split; [apply H5; reflexivity|exact Hc].
Defined.
