(* ===== verification/GoNum.v ===== *)
(** * Numbers, durations and truth values as text

    What pkg/config/config.go uses of Go's strconv, time and sort: [ParseInt] with
    base 0, [ParseFloat], [ParseBool], [time.ParseDuration] and [sort.Float64s].
    Every error is [None]. *)
From stdpp Require Import sorting.
From S2P Require Import Prelude GoStrings GoFloat GoJson QmpTypes QgaCsv.

Definition US : ascii := "_".

(** A letter in lower case; other bytes map to no letter. *)
Definition lower (c : ascii) : ascii := chr (Z.lor (byte_of c) 0x20).

(** ** Underscores between digits *)

Inductive saw := SawStart | SawDigit | SawUnderscore | SawOther.

Fixpoint underscore_scan (hex : bool) (st : saw) (s : string) : bool :=
  match s with
  | EmptyString => match st with SawUnderscore => false | _ => true end
  | String c s' =>
      if is_digit c || hex && (97 <=? byte_of (lower c)) && (byte_of (lower c) <=? 102) then underscore_scan hex SawDigit s'
      else if (c =? US)%char then match st with SawDigit => underscore_scan hex SawUnderscore s' | _ => false end
      else match st with SawUnderscore => false | _ => underscore_scan hex SawOther s' end
  end.

Definition drop_sign (s : string) : string :=
  match s with String c s' => if (c =? "-")%char || (c =? "+")%char then s' else s | EmptyString => s end.
Definition is_minus (s : string) : bool := match s with String c _ => (c =? "-")%char | EmptyString => false end.

(** The base that a prefix 0b, 0o or 0x names. *)
Definition base_prefix (s : string) : option (Z * string) :=
  match s with
  | String "0" (String c s') =>
      if (lower c =? "b")%char then Some (2, s') else if (lower c =? "o")%char then Some (8, s')
      else if (lower c =? "x")%char then Some (16, s') else None
  | _ => None
  end.

Definition underscoreOK (s : string) : bool :=
  let s := drop_sign s in
  match base_prefix s with
  | Some (b, s') => underscore_scan (b =? 16) SawDigit s'
  | None => underscore_scan false SawStart s
  end.

Definition has_underscore (s : string) : bool := negb (all_bytes (λ c, negb (c =? US)%char) s).
Definition underscores_ok (s : string) : bool := negb (has_underscore s) || underscoreOK s.

(** ** strconv.ParseInt (s, 0, 64) *)

Definition digit36 (c : ascii) : option Z :=
  match digit_val c with
  | Some d => Some d
  | None => let l := byte_of (lower c) in if (97 <=? l) && (l <=? 122) then Some (l - 97 + 10) else None
  end.

Fixpoint base_digits (base : Z) (s : string) (v : Z) : option Z :=
  match s with
  | EmptyString => Some v
  | String c s' =>
      if (c =? US)%char then base_digits base s' v
      else d ← digit36 c; if base <=? d then None else base_digits base s' (v * base + d)
  end.

Definition ParseInt0 (s : string) : option Z :=
  let u := drop_sign s in
  v ← match u with
      | EmptyString => None
      | String "0" u' =>
          match base_prefix u with
          | Some (b, String c u'') => base_digits b (String c u'') 0
          | _ => base_digits 8 u' 0
          end
      | _ => base_digits 10 u 0
      end;
  let v := if is_minus s then - v else v in
  if underscores_ok u && (- 2 ^ 63 <=? v) && (v <? 2 ^ 63) then Some v else None.

(** ** strconv.ParseFloat (s, 64) *)

(** A mantissa: its digits as a number, how many of them are behind the point,
    whether there were any, and what is left. *)
Fixpoint mantissa (base : Z) (s : string) (m frac : Z) (dot any : bool) : Z * Z * bool * string :=
  match s with
  | EmptyString => (m, frac, any, s)
  | String c s' =>
      if (c =? US)%char then mantissa base s' m frac dot any
      else if (c =? ".")%char then if dot then (m, frac, any, s) else mantissa base s' m frac true any
      else match digit36 c with
      | Some d =>
          if d <? base then mantissa base s' (m * base + d) (if dot then frac + 1 else frac) dot true else (m, frac, any, s)
      | None => (m, frac, any, s)
      end
  end.

(** The digits of an exponent; it stops growing at 10000. *)
Fixpoint exponent_digits (s : string) (e : Z) : option Z :=
  match s with
  | EmptyString => Some e
  | String c s' =>
      if (c =? US)%char then exponent_digits s' e
      else d ← digit_val c; exponent_digits s' (if e <? 10000 then e * 10 + d else e)
  end.

(** All that may follow a mantissa: an exponent introduced by [mark]. *)
Definition exponent_part (mark : ascii) (optional : bool) (s : string) : option Z :=
  match s with
  | EmptyString => if optional then Some 0 else None
  | String c s' =>
      if negb (lower c =? mark)%char then None else
      match drop_sign s' with
      | String d _ as ds => if is_digit d then e ← exponent_digits ds 0; Some (if is_minus s' then - e else e) else None
      | EmptyString => None
      end
  end.

Definition special (s : string) : option float64 :=
  let u := ascii_lower (drop_sign s) in
  if bool_decide (u = "inf") || bool_decide (u = "infinity") then Some (S754_infinity (is_minus s))
  else if bool_decide (ascii_lower s = "nan") then Some S754_nan else None.

(** [m * 2 ^ e]. *)
Definition f64_binary (neg : bool) (m e : Z) : float64 := binary_normalize 53 1024 (if neg then - m else m) e neg.

Definition finite_or_range (x : float64) : option float64 := match x with S754_infinity _ => None | _ => Some x end.

Definition ParseFloat64 (s : string) : option float64 :=
  match special s with
  | Some v => Some v
  | None =>
      if negb (underscores_ok s) then None else
      let u := drop_sign s in
      match base_prefix u with
      | Some (16, String c u') =>
          let '(m, frac, any, rest) := mantissa 16 (String c u') 0 0 false false in
          if negb any then None else
          e ← exponent_part "p" false rest; finite_or_range (f64_binary (is_minus s) m (e - 4 * frac))
      | _ =>
          let '(m, frac, any, rest) := mantissa 10 u 0 0 false false in
          if negb any then None else
          e ← exponent_part "e" true rest; finite_or_range (f64_decimal (is_minus s) m (e - frac))
      end
  end.

(** ** strconv.ParseBool *)

Definition ParseBool (s : string) : option bool :=
  if bool_decide (s ∈ ["1"; "t"; "T"; "TRUE"; "true"; "True"]) then Some true
  else if bool_decide (s ∈ ["0"; "f"; "F"; "FALSE"; "false"; "False"]) then Some false
  else None.

(** ** time.ParseDuration *)

(** [leadingInt]: digits, at most 2^63. *)
Fixpoint leadingInt (s : string) (x : Z) : option (Z * string) :=
  match s with
  | EmptyString => Some (x, s)
  | String c s' =>
      match digit_val c with
      | None => Some (x, s)
      | Some d =>
          if 2 ^ 63 / 10 <? x then None else
          let x := x * 10 + d in
          if 2 ^ 63 <? x then None else leadingInt s' x
      end
  end.

(** [leadingFraction]: digits that no longer fit are dropped. *)
Fixpoint leadingFraction (s : string) (x : Z) (scale : float64) (overflow : bool) : Z * float64 * string :=
  match s with
  | EmptyString => (x, scale, s)
  | String c s' =>
      match digit_val c with
      | None => (x, scale, s)
      | Some d =>
          if overflow then leadingFraction s' x scale true else
          if (2 ^ 63 - 1) / 10 <? x then leadingFraction s' x scale true else
          let y := x * 10 + d in
          if 2 ^ 63 <? y then leadingFraction s' x scale true
          else leadingFraction s' y (f64_mul scale (f64_of_Z 10)) false
      end
  end.

(** A unit goes up to the next digit or point. *)
Fixpoint unit_part (s : string) : string * string :=
  match s with
  | EmptyString => (s, s)
  | String c s' => if (c =? ".")%char || is_digit c then (EmptyString, s) else let '(u, r) := unit_part s' in (String c u, r)
  end.

Definition micro_sign : string := String (chr 0xC2) (String (chr 0xB5) "s").
Definition greek_mu : string := String (chr 0xCE) (String (chr 0xBC) "s").
Definition unitMap (u : string) : option Z :=
  if bool_decide (u = "ns") then Some 1
  else if bool_decide (u ∈ ["us"; micro_sign; greek_mu]) then Some 1000
  else if bool_decide (u = "ms") then Some 1000000
  else if bool_decide (u = "s") then Some 1000000000
  else if bool_decide (u = "m") then Some 60000000000
  else if bool_decide (u = "h") then Some 3600000000000
  else None.

(** The conversion to an unsigned integer of a number that is not negative. *)
Definition f64_trunc (x : float64) : Z :=
  match x with S754_finite false m e => if 0 <=? e then Zpos m * 2 ^ e else Zpos m / 2 ^ (- e) | _ => 0 end.

(** One number with its unit, and what is left. *)
Definition duration_part (s : string) : option (Z * string) :=
  match s with
  | EmptyString => None
  | String c _ =>
      if negb ((c =? ".")%char || is_digit c) then None else
      '(v, s1) ← leadingInt s 0;
      let pre := negb (bool_decide (s1 = s)) in
      let '(f, scale, s2, post) :=
        match s1 with
        | String "." s1' => let '(f, scale, s2) := leadingFraction s1' 0 (f64_of_Z 1) false in (f, scale, s2, negb (bool_decide (s2 = s1')))
        | _ => (0, f64_of_Z 1, s1, false)
        end in
      if negb pre && negb post then None else
      let '(u, s3) := unit_part s2 in
      if bool_decide (u = EmptyString) then None else
      unit ← unitMap u;
      if 2 ^ 63 / unit <? v then None else
      let v := v * unit in
      let v := if 0 <? f then u64 (v + f64_trunc (f64_mul (f64_of_Z f) (f64_div (f64_of_Z unit) scale))) else v in
      if 2 ^ 63 <? v then None else Some (v, s3)
  end.

(** The parts are added up; each takes at least a byte, so that the length of the
    text is fuel enough. *)
Fixpoint duration_parts (fuel : nat) (s : string) (d : Z) : option Z :=
  match s, fuel with
  | EmptyString, _ => Some d
  | _, O => None
  | _, S fuel' =>
      '(v, s') ← duration_part s;
      if 2 ^ 63 <? d + v then None else duration_parts fuel' s' (d + v)
  end.

Definition ParseDuration (s : string) : option Z :=
  let u := drop_sign s in
  if bool_decide (u = "0") then Some 0 else
  if bool_decide (u = EmptyString) then None else
  d ← duration_parts (String.length u) u 0;
  if is_minus s then Some (- d) else if 2 ^ 63 - 1 <? d then None else Some d.

(** ** sort.Float64s *)

(** Ascending, with NaNs first; equal numbers, that is the two zeros, in an order
    Go leaves open. *)
Definition f64_before (x y : float64) : Prop := is_nan x = true ∨ f64_le x y = true.
#[export] Instance f64_before_dec : RelDecision f64_before.
Proof. intros x y. unfold f64_before. apply _. Defined.

Definition Float64s (l : list float64) : list float64 := merge_sort f64_before l.

#[export] Instance f64_before_total : Total f64_before.
Proof.
  intros x y. unfold f64_before. destruct (is_nan x) eqn:Hx; [by auto|]. destruct (is_nan y) eqn:Hy; [by auto|].
  destruct (f64_le_total x y Hx Hy); auto.
Qed.

#[export] Instance f64_before_trans : Transitive f64_before.
Proof.
  intros x y z [Hx|Hxy] [Hy|Hyz]; [by left..| |right; by eapply f64_le_trans].
  apply f64_le_key in Hxy as (_ & Hy' & _). congruence.
Qed.

Lemma Float64s_spec l : Float64s l ≡ₚ l ∧ StronglySorted f64_before (Float64s l).
Proof. split; [apply merge_sort_Permutation|]. apply StronglySorted_merge_sort; apply _. Qed.

(** ** The fuel of a duration *)

Lemma leadingInt_length s x v r : leadingInt s x = Some (v, r) → (String.length r <= String.length s)%nat.
Proof.
  revert x. induction s as [|c s IH]; intros x; cbn [leadingInt]; [by intros [= <- <-]|]. destruct (digit_val c) as [d|]; [|by intros [= <- <-]].
  destruct (_ <? x); [done|]. cbv zeta. destruct (_ <? _); [done|]. intros H%IH. cbn. lia.
Qed.

Lemma leadingFraction_length s x scale o : (String.length (leadingFraction s x scale o).2 <= String.length s)%nat.
Proof.
  revert x scale o. induction s as [|c s IH]; intros x scale o; cbn [leadingFraction]; [done|]. destruct (digit_val c) as [d|]; [|done].
  assert (Hle : ∀ x' scale' o', (String.length (leadingFraction s x' scale' o').2 <= String.length (String c s))%nat)
    by (intros; cbn; specialize (IH x' scale' o'); lia).
  destruct o; [apply Hle|]. destruct (_ <? x); [apply Hle|]. cbv zeta. destruct (_ <? _); apply Hle.
Qed.

Lemma unit_part_length s : (String.length (unit_part s).1 + String.length (unit_part s).2 = String.length s)%nat.
Proof.
  induction s as [|c s IH]; cbn [unit_part]; [done|]. destruct (_ || _); [done|]. destruct (unit_part s) as [u r]. cbn in *. lia.
Qed.

Lemma duration_part_length s v r : duration_part s = Some (v, r) → (String.length r < String.length s)%nat.
Proof.
  unfold duration_part. destruct s as [|c s]; [done|]. set (t := String c s). destruct (negb _); [done|]. intros H. apply bind_Some in H as ([n s1] & Hl & H).
  apply leadingInt_length in Hl. cbv zeta in H.
  destruct (match s1 with String "." s1' => _ | _ => _ end) as [[[f scale] s2] post] eqn:Em.
  assert (Hs2 : (String.length s2 <= String.length s1)%nat).
  { destruct s1 as [|a s1]; [by simplify_eq|]. pose proof (leadingFraction_length s1 0 (f64_of_Z 1) false) as Hf.
    destruct (leadingFraction s1 0 (f64_of_Z 1) false) as [[f' scale'] s2']. cbn in Hf |- *.
    destruct a as [[] [] [] [] [] [] [] []]; simplify_eq; cbn; lia. }
  clear Em. destruct (_ && _); [done|]. pose proof (unit_part_length s2) as Hu. destruct (unit_part s2) as [u s3]. cbn in Hu.
  case_bool_decide as Hne; [done|]. apply bind_Some in H as (un & _ & H). destruct (_ <? n); [done|]. destruct (2 ^ 63 <? _); [done|].
  injection H as _ <-. destruct u; [done|]. cbn in Hu. lia.
Qed.

(** More fuel than the length of the text changes nothing. *)
Lemma duration_parts_fuel f s d : (String.length s <= f)%nat → duration_parts f s d = duration_parts (String.length s) s d.
Proof.
  intros Hf. revert s d Hf. assert (Hall : ∀ n s d f1 f2, (String.length s <= n)%nat → (String.length s <= f1)%nat → (String.length s <= f2)%nat →
    duration_parts f1 s d = duration_parts f2 s d); [|intros; by eapply Hall].
  induction n as [|n IH]; intros s d f1 f2 Hn H1 H2; (destruct s as [|c s]; [by destruct f1, f2|]); [cbn in Hn; lia|].
  destruct f1 as [|f1]; [cbn in H1; lia|]. destruct f2 as [|f2]; [cbn in H2; lia|]. cbn [duration_parts].
  destruct (duration_part (String c s)) as [[v r]|] eqn:E; [|done]. apply duration_part_length in E. rewrite !bind_Some_l.
  destruct (_ <? d + v); [done|]. cbn in *. apply IH; lia.
Qed.

(** ** A printed integer is read as that number *)

Lemma digit_cases c : is_digit c = true → c ∈ (["0"; "1"; "2"; "3"; "4"; "5"; "6"; "7"; "8"; "9"]%char : list ascii).
Proof.
  unfold is_digit, digit_val. destruct (_ && _) eqn:Hr; [|done]. intros _. apply andb_true_iff in Hr as [H1%Z.leb_le H2%Z.leb_le].
  fold (byte_of c) in *. rewrite <- (chr_byte_of c). assert (∃ k, byte_of c = 48 + Z.of_nat k ∧ (k < 10)%nat) as (k & -> & Hk)
    by (exists (Z.to_nat (byte_of c - 48)); lia).
  do 10 (destruct k as [|k]; [vm_compute; repeat constructor|]). lia.
Qed.

(** A fact that holds of each of the ten digits. *)
Lemma for_digits (P : ascii → bool) c :
  forallb P ["0"; "1"; "2"; "3"; "4"; "5"; "6"; "7"; "8"; "9"]%char = true → is_digit c = true → P c = true.
Proof. intros Hall Hc%digit_cases%list_elem_of_In. rewrite forallb_forall in Hall. auto. Qed.

Lemma mantissa_digits s v m any :
  all_bytes is_digit s = true → digits_val s v = Some m →
  mantissa 10 s v 0 false any = (m, 0, any || negb (bool_decide (s = EmptyString)), EmptyString).
Proof.
  revert v any. induction s as [|c s IH]; intros v any Hs Hv; cbn [all_bytes digits_val mantissa] in *.
  - injection Hv as ->. by rewrite orb_false_r.
  - apply andb_true_iff in Hs as [Hc Hs]. inv_bind Hv.
    assert (Hno : negb (c =? US)%char && negb (c =? ".")%char && match digit36 c with Some d => d <? 10 | None => false end = true)
      by (revert Hc; by apply (for_digits (λ c, negb (c =? US)%char && negb (c =? ".")%char && match digit36 c with Some d => d <? 10 | None => false end))).
    assert (H36 : digit36 c = digit_val c) by (unfold digit36, is_digit in *; by destruct (digit_val c)).
    rewrite H36, E in Hno. apply andb_true_iff in Hno as [Hno Hd]. apply andb_true_iff in Hno as [->%negb_true_iff ->%negb_true_iff].
    rewrite H36, E, Hd. replace (v * 10 + x) with (10 * v + x) by lia. rewrite IH by done. by rewrite orb_true_r.
Qed.

Lemma dec_text n : 0 <= n → ∃ c s, dec n = String c s ∧ is_digit c = true ∧ all_bytes is_digit s = true.
Proof.
  intros Hn. pose proof (dec_digits n Hn) as Hd. destruct (dec_nonempty n) as (c & s & E). rewrite E in Hd. cbn in Hd.
  apply andb_true_iff in Hd as [Hc Hs]. by exists c, s.
Qed.

Lemma drop_sign_itoa n : drop_sign (itoa n) = dec (Z.abs n) ∧ is_minus (itoa n) = (n <? 0).
Proof.
  unfold itoa. destruct (Z.ltb_spec n 0); [by rewrite Z.abs_neq by lia|]. rewrite Z.abs_eq by lia.
  destruct (dec_text n) as (c & s & E & Hc & _); [lia|]. rewrite E. cbn [drop_sign is_minus].
  assert (Hno : negb (c =? "-")%char && negb (c =? "+")%char = true)
    by (revert Hc; by apply (for_digits (λ c, negb (c =? "-")%char && negb (c =? "+")%char))).
  apply andb_true_iff in Hno as [->%negb_true_iff ->%negb_true_iff]. done.
Qed.

Lemma base_prefix_digits s : all_bytes is_digit s = true → base_prefix s = None.
Proof.
  destruct s as [|c [|d s]]; [done|by destruct c as [[] [] [] [] [] [] [] []]|]. cbn [all_bytes]. rewrite !andb_true_iff. intros (_ & Hd & _).
  assert (Hno : negb (lower d =? "b")%char && negb (lower d =? "o")%char && negb (lower d =? "x")%char = true)
    by (revert Hd; by apply (for_digits (λ d, negb (lower d =? "b")%char && negb (lower d =? "o")%char && negb (lower d =? "x")%char))).
  rewrite !andb_true_iff, !negb_true_iff in Hno. destruct Hno as [[Hb Ho] Hx]. unfold base_prefix. rewrite Hb, Ho, Hx.
  by destruct c as [[] [] [] [] [] [] [] []].
Qed.

(** Digits have no case. *)
Lemma lower_digit c s : is_digit c = true → ascii_lower (String c s) = String c (ascii_lower s) ∧ c ≠ "i"%char ∧ c ≠ "n"%char.
Proof.
  intros Hc. cbn [ascii_lower]. set (low := λ c, if (65 <=? byte_of c) && (byte_of c <=? 90) then chr (byte_of c + 32) else c).
  change (if (65 <=? byte_of c) && (byte_of c <=? 90) then chr (byte_of c + 32) else c) with (low c).
  assert (H : Ascii.eqb (low c) c && negb (Ascii.eqb c "i") && negb (Ascii.eqb c "n") = true)
    by (revert Hc; by apply (for_digits (λ c, Ascii.eqb (low c) c && negb (Ascii.eqb c "i") && negb (Ascii.eqb c "n")))).
  rewrite !andb_true_iff, !negb_true_iff, !Ascii.eqb_neq, Ascii.eqb_eq in H. destruct H as [[-> ?] ?]. done.
Qed.

Lemma special_digits s c t : drop_sign s = String c t → is_digit c = true → special s = None.
Proof.
  intros Hs Hc. unfold special. cbv zeta. rewrite Hs. destruct (lower_digit c t Hc) as (-> & Hi & Hn).
  rewrite !bool_decide_eq_false_2 by congruence. cbn [orb].
  rewrite bool_decide_eq_false_2; [done|]. intros E. destruct s as [|d s]; [done|]. cbn [drop_sign] in Hs.
  destruct ((d =? "-")%char || (d =? "+")%char) eqn:Hd.
  - apply orb_true_iff in Hd as [->%Ascii.eqb_eq| ->%Ascii.eqb_eq]; done.
  - injection Hs as -> ->. destruct (lower_digit c t Hc) as (E' & _ & _). rewrite E' in E. congruence.
Qed.

Lemma itoa_plain n : all_bytes (λ c, negb (c =? US)%char) (itoa n) = true.
Proof.
  assert (Hd : ∀ m, 0 <= m → all_bytes (λ c, negb (c =? US)%char) (dec m) = true).
  { intros m Hm. eapply all_bytes_impl; [|by apply dec_digits]. intros c. by apply (for_digits (λ c, negb (c =? US)%char)). }
  unfold itoa. destruct (Z.ltb_spec n 0); [cbn [all_bytes]|]; apply Hd; lia.
Qed.

Lemma ParseFloat64_itoa n : - 2 ^ 63 <= n < 2 ^ 63 → ParseFloat64 (itoa n) = Some (f64_of_Z n).
Proof.
  intros Hn. destruct (drop_sign_itoa n) as [Hd Hm]. pose proof (dec_digits (Z.abs n) ltac:(lia)) as Hdig.
  destruct (dec_text (Z.abs n)) as (c & s & E & Hc & Hs); [lia|].
  unfold ParseFloat64. rewrite (special_digits (itoa n) c s) by congruence. unfold underscores_ok, has_underscore. rewrite itoa_plain. cbn [negb orb].
  cbv zeta. rewrite Hd, base_prefix_digits by done. rewrite (mantissa_digits _ 0 (Z.abs n)) by (done || (apply digits_val_dec; lia)).
  rewrite bool_decide_eq_false_2 by congruence. cbn [orb negb exponent_part]. rewrite bind_Some_l, Hm.
  assert (Hv : f64_decimal (n <? 0) (Z.abs n) (0 - 0) = f64_of_Z n).
  { unfold f64_decimal, f64_of_Z. destruct n as [|p|p]; [done|..]; cbn [Z.abs Z.ltb Z.compare Z.sub Z.add Z.opp Z.leb];
      rewrite Z.mul_1_r; done. }
  rewrite Hv. pose proof (f64_of_Z_finite n ltac:(lia)) as Hf. unfold finite_or_range. by destruct (f64_of_Z n).
Qed.
