(* ===== verification/Config.v ===== *)
(** * Configuration (pkg/config/config.go) and how main.go uses it

    Settings come from flags, else from the environment, else from defaults.
    [Parse] is modelled with the environment and the arguments as inputs; an
    argument that Go's flag package rejects ends the process, which is [None]. *)
From stdpp Require Import sorting.
From S2P Require Import Prelude GoStrings GoFloat Histogram GoJson DiskMap KubeletPaths QgaCsv GoNum GoEffect Script QmpTypes QmpClient PromMetrics ConnPool QgaCollector QmpCollector QmpScrape.

Record Config := {
  ListenAddress : string; LogLevel : string; NodeName : string; Namespaces : string;
  Boundaries : list float64; BoundariesNs : list Z;
  CRISocket : string;
  EnableQMP : bool; QMPPollInterval : Z; QMPConcurrency : Z; QMPTimeout : Z; QMPLabelFilter : string;
  EnableQGA : bool; QGAPollInterval : Z; QGATimeout : Z; QGAExecWait : Z; QGARetries : Z; QGAConcurrency : Z; QGALabelFilter : string;
  EnableEBPF : bool; EnableEBPFBlock : bool; EnableEBPFNFS : bool; EnableEBPFNFSKprobe : bool;
  EBPFScanInterval : Z; EBPFBlockMapSize : Z; EBPFNFSMapSize : Z; EBPFNFSKprobeMapSize : Z; EBPFProcPath : string;
}.

(** ** Lists in a setting *)

Definition ParseNamespaces (s : string) : list string :=
  if bool_decide (s = EmptyString) then [] else
  omap (λ p, let trimmed := TrimSpace p in if bool_decide (trimmed = EmptyString) then None else Some trimmed) (Split "," s).

Definition parseBoundariesNs (s : string) : list Z := omap (λ p, Atoi (TrimSpace p)) (Split "," s).

Definition parseBoundariesSeconds (s : string) : list float64 :=
  Float64s (omap (λ p, let p := TrimSpace p in
    if bool_decide (p = EmptyString) then None else ns ← ParseFloat64 p; Some (f64_div ns f64_1e9)) (Split "," s)).

(** ** Defaults and the environment *)

Section Environment.
Context (Getenv : string → string).

Definition envOrDefault (key def : string) : string :=
  if bool_decide (Getenv key = EmptyString) then def else Getenv key.
Definition envDurationOrDefault (key : string) (def : Z) : Z :=
  if bool_decide (Getenv key = EmptyString) then def else default def (ParseDuration (Getenv key)).
Definition envIntOrDefault (key : string) (def : Z) : Z :=
  if bool_decide (Getenv key = EmptyString) then def else default def (Atoi (Getenv key)).
Definition envBoolOrDefault (key : string) (def : bool) : bool :=
  if bool_decide (Getenv key = EmptyString) then def else bool_decide (Getenv key = "true") || bool_decide (Getenv key = "1").
End Environment.

(** ** The flag package *)

Inductive flag_value := VString (s : string) | VBool (b : bool) | VInt (n : Z) | VDuration (d : Z).

(** [Set] of each kind of flag. *)
Definition flag_set (v : flag_value) (s : string) : option flag_value :=
  match v with
  | VString _ => Some (VString s)
  | VBool _ => VBool <$> ParseBool s
  | VInt _ => VInt <$> ParseInt0 s
  | VDuration _ => VDuration <$> ParseDuration s
  end.

Inductive argument := Operand | BadFlag | Flag (name : string) (value : option string).

(** What an argument is: -name, --name, either with =value; "--" ends the flags. *)
Definition classify (s : string) : argument :=
  match s with
  | String "-" (String c s') =>
      let name := if (c =? "-")%char then s' else String c s' in
      match name with
      | EmptyString => Operand
      | String d _ =>
          if (d =? "-")%char || (d =? "=")%char then BadFlag else
          match cut "=" name with Some (n, v) => Flag n (Some v) | None => Flag name None end
      end
  | _ => Operand
  end.

Abbreviation flag_store := (gmap string flag_value).

Fixpoint parse_args (store : flag_store) (args : list string) : option flag_store :=
  match args with
  | [] => Some store
  | s :: args' =>
      match classify s with
      | Operand => Some store
      | BadFlag => None
      | Flag name value =>
          v ← store !! name;
          match v, value with
          | VBool _, None => parse_args (<[name := VBool true]> store) args'
          | _, Some x => v' ← flag_set v x; parse_args (<[name := v']> store) args'
          | _, None => match args' with [] => None | x :: args'' => v' ← flag_set v x; parse_args (<[name := v']> store) args'' end
          end
      end
  end.

Definition string_flag (store : flag_store) (name : string) : string := match store !! name with Some (VString s) => s | _ => EmptyString end.
Definition bool_flag (store : flag_store) (name : string) : bool := match store !! name with Some (VBool b) => b | _ => false end.
Definition int_flag (store : flag_store) (name : string) : Z := match store !! name with Some (VInt n) => n | _ => 0 end.
Definition duration_flag (store : flag_store) (name : string) : Z := match store !! name with Some (VDuration d) => d | _ => 0 end.

(** ** Parse *)

(** The flags with the values they have before the arguments are read. *)
Definition flags (Getenv : string → string) : list (string * flag_value) :=
  let str key def := VString (envOrDefault Getenv key def) in
  let bool key def := VBool (envBoolOrDefault Getenv key def) in
  let int key def := VInt (envIntOrDefault Getenv key def) in
  let dur key def := VDuration (envDurationOrDefault Getenv key def) in
  [("listen-address", str "LISTEN_ADDRESS" ":8080");
   ("log-level", str "LOG_LEVEL" "info");
   ("boundaries", str "BOUNDARIES" "10000000,100000000,1000000000");
   ("namespaces", str "NAMESPACES" EmptyString);
   ("cri-socket", str "CRI_SOCKET" "/run/crio/crio.sock");
   ("enable-qmp", bool "ENABLE_QMP" true);
   ("qmp-poll-interval", dur "QMP_POLL_INTERVAL" 60000000000);
   ("qmp-concurrency", int "QMP_CONCURRENCY" 8);
   ("qmp-timeout", dur "QMP_TIMEOUT" 5000000000);
   ("qmp-label-filter", str "QMP_LABEL_FILTER" EmptyString);
   ("enable-qga", bool "ENABLE_QGA" true);
   ("qga-poll-interval", dur "QGA_POLL_INTERVAL" 60000000000);
   ("qga-timeout", int "QGA_TIMEOUT" 10);
   ("qga-exec-wait", dur "QGA_EXEC_WAIT" 1000000000);
   ("qga-retries", int "QGA_RETRIES" 10);
   ("qga-concurrency", int "QGA_CONCURRENCY" 8);
   ("qga-label-filter", str "QGA_LABEL_FILTER" EmptyString);
   ("enable-ebpf", bool "ENABLE_EBPF" true);
   ("enable-ebpf-block", bool "ENABLE_EBPF_BLOCK" true);
   ("enable-ebpf-nfs", bool "ENABLE_EBPF_NFS" true);
   ("enable-ebpf-nfs-kprobe", bool "ENABLE_EBPF_NFS_KPROBE" false);
   ("ebpf-scan-interval", int "EBPF_SCAN_INTERVAL" 30);
   ("ebpf-block-map-size", int "EBPF_BLOCK_MAP_SIZE" 10240);
   ("ebpf-nfs-map-size", int "EBPF_NFS_MAP_SIZE" 10240);
   ("ebpf-nfs-kprobe-map-size", int "EBPF_NFS_KPROBE_MAP_SIZE" 10240);
   ("ebpf-proc-path", str "EBPF_PROC_PATH" "/proc")].

(** The configuration that the values of the flags make. *)
Definition config_of (nodeName : string) (store : flag_store) : Config := {|
  ListenAddress := string_flag store "listen-address"; LogLevel := string_flag store "log-level";
  NodeName := nodeName; Namespaces := string_flag store "namespaces";
  Boundaries := parseBoundariesSeconds (string_flag store "boundaries");
  BoundariesNs := parseBoundariesNs (string_flag store "boundaries");
  CRISocket := string_flag store "cri-socket";
  EnableQMP := bool_flag store "enable-qmp"; QMPPollInterval := duration_flag store "qmp-poll-interval";
  QMPConcurrency := int_flag store "qmp-concurrency"; QMPTimeout := duration_flag store "qmp-timeout";
  QMPLabelFilter := string_flag store "qmp-label-filter";
  EnableQGA := bool_flag store "enable-qga"; QGAPollInterval := duration_flag store "qga-poll-interval";
  QGATimeout := s32 (int_flag store "qga-timeout"); QGAExecWait := duration_flag store "qga-exec-wait";
  QGARetries := int_flag store "qga-retries"; QGAConcurrency := int_flag store "qga-concurrency";
  QGALabelFilter := string_flag store "qga-label-filter";
  EnableEBPF := bool_flag store "enable-ebpf"; EnableEBPFBlock := bool_flag store "enable-ebpf-block";
  EnableEBPFNFS := bool_flag store "enable-ebpf-nfs"; EnableEBPFNFSKprobe := bool_flag store "enable-ebpf-nfs-kprobe";
  EBPFScanInterval := int_flag store "ebpf-scan-interval"; EBPFBlockMapSize := int_flag store "ebpf-block-map-size";
  EBPFNFSMapSize := int_flag store "ebpf-nfs-map-size"; EBPFNFSKprobeMapSize := int_flag store "ebpf-nfs-kprobe-map-size";
  EBPFProcPath := string_flag store "ebpf-proc-path";
|}.

Definition Parse (Getenv : string → string) (args : list string) : option Config :=
  store ← parse_args (list_to_map (flags Getenv)) args;
  Some (config_of (Getenv "NODE_NAME") store).

(** ** Validate *)

Inductive config_error := NodeNameRequired | NoBoundaries | ScanIntervalNotPositive (n : Z).

Definition Validate (c : Config) : option config_error :=
  if bool_decide (NodeName c = EmptyString) then Some NodeNameRequired else
  if bool_decide (BoundariesNs c = []) then Some NoBoundaries else
  if EnableEBPF c && (EBPFScanInterval c <=? 0) then Some (ScanIntervalNotPositive (EBPFScanInterval c)) else None.

(** ** main.go *)

(** The configurations [startQMP] and [startQGA] hand to the collectors, and the
    period [startEBPF] hands to the resolver. *)
Definition startQMP (c : Config) : QmpCollector.PollerConfig :=
  QmpCollector.Poller (NodeName c) (QMPPollInterval c) (BoundariesNs c) (QMPTimeout c) (QMPConcurrency c) (ParseNamespaces (Namespaces c)) (QMPLabelFilter c).
Definition startQGA (c : Config) : QgaCollector.CollectorConfig :=
  QgaCollector.Config (NodeName c) (QGAPollInterval c) (QGATimeout c) (QGAExecWait c) (QGARetries c) (QGAConcurrency c) (ParseNamespaces (Namespaces c)) (QGALabelFilter c).

Definition resolver_interval (c : Config) : Z := s64 (EBPFScanInterval c * 1000000000).

(** ** Boundaries *)

Definition comma_free (s : string) : Prop := all_bytes (λ c, negb (c =? ",")%char) s = true.

Lemma Split_join l : l ≠ [] → Forall comma_free l → Split "," (join_sep "," l) = l.
Proof.
  intros Hne HF. induction HF as [|x l Hx HF IH]; [done|]. destruct l as [|y l]; [by apply Split_single|].
  change (join_sep "," (x :: y :: l)) with (x +:+ String "," (join_sep "," (y :: l))). by rewrite Split_app, IH.
Qed.

(** Every text that printing gives is read back. *)
Lemma omap_printed {A B} (f : string → option B) (pr : A → string) (g : A → B) (l : list A) :
  (∀ x, x ∈ l → f (pr x) = Some (g x)) → omap f (pr <$> l) = g <$> l.
Proof.
  induction l as [|x l IH]; intros Hf; [done|]. cbn. rewrite (Hf x) by apply list_elem_of_here. f_equal. apply IH. intros. by apply Hf, list_elem_of_further.
Qed.

Lemma itoa_bytes P n : P "-"%char = true → forallb P ["0"; "1"; "2"; "3"; "4"; "5"; "6"; "7"; "8"; "9"]%char = true → all_bytes P (itoa n) = true.
Proof.
  intros Hm HP. assert (Hd : ∀ m, 0 <= m → all_bytes P (dec m) = true).
  { intros m H. eapply all_bytes_impl; [|by apply dec_digits]. intros c. by apply for_digits. }
  unfold itoa. destruct (Z.ltb_spec n 0); [cbn [all_bytes]; rewrite Hm|]; apply Hd; lia.
Qed.

Lemma TrimSpace_itoa n : TrimSpace (itoa n) = itoa n.
Proof. apply TrimSpace_all_visible. by apply itoa_bytes. Qed.

Lemma Atoi_itoa_i64 n : - 2 ^ 63 <= n < 2 ^ 63 → Atoi (itoa n) = Some n.
Proof.
  intros Hn. unfold itoa. destruct (Z.ltb_spec n 0); [|apply Atoi_dec; lia]. destruct (dec_nonempty (- n)) as (c & s & E).
  pose proof (digits_val_dec (- n) ltac:(lia)) as Hv. rewrite E in Hv |- *. unfold Atoi. rewrite Ascii.eqb_refl. cbn [orb].
  rewrite Hv, bind_Some_l, Z.opp_involutive. destruct (Z.leb_spec (- 2 ^ 63) n), (Z.ltb_spec n (2 ^ 63)); [done|lia..].
Qed.

(** C30.  Boundaries written as integers reach both subsystems: QMP gets exactly
    the list, and eBPF the same numbers in seconds, each once for every time it
    is listed, in ascending order. *)
Theorem boundaries_roundtrip l :
  l ≠ [] → Forall (λ n, - 2 ^ 63 <= n < 2 ^ 63) l →
  let text := join_sep "," (itoa <$> l) in
  parseBoundariesNs text = l ∧
  parseBoundariesSeconds text ≡ₚ (λ n, f64_div (f64_of_Z n) f64_1e9) <$> l ∧
  StronglySorted f64_before (parseBoundariesSeconds text).
Proof.
  intros Hne Hl text. rewrite Forall_forall in Hl. assert (Hs : Split "," text = itoa <$> l).
  { apply Split_join; [by destruct l|]. apply Forall_forall. intros x (n & -> & _)%list_elem_of_fmap. by apply itoa_bytes. }
  unfold parseBoundariesNs, parseBoundariesSeconds. rewrite Hs.
  rewrite (omap_printed _ _ id), list_fmap_id by (intros n Hn; cbn; rewrite TrimSpace_itoa; by apply Atoi_itoa_i64, Hl). split; [done|].
  rewrite (omap_printed _ _ (λ n, f64_div (f64_of_Z n) f64_1e9)); [apply Float64s_spec|].
  intros n Hn. cbv zeta. rewrite TrimSpace_itoa. specialize (Hl n Hn). rewrite bool_decide_eq_false_2.
  - by rewrite ParseFloat64_itoa.
  - intros E. apply Atoi_itoa_i64 in Hl. by rewrite E in Hl.
Qed.

Lemma boundaries_roundtrip_witness :
  parseBoundariesNs (join_sep "," (itoa <$> [1000000000; 10000000])) = [1000000000; 10000000] ∧
  parseBoundariesSeconds (join_sep "," (itoa <$> [1000000000; 10000000])) ≡ₚ [f64_of_Z 1; f64_ratio 1 100].
Proof.
  destruct (boundaries_roundtrip [1000000000; 10000000]) as (Hn & Hs & _); [discriminate|repeat constructor; cbn; lia|]. split; [exact Hn|].
  etransitivity; [exact Hs|]. vm_compute. reflexivity.
Defined.

(** ** Arguments *)

(** --name=value. *)
Definition setting (nv : string * string) : string := "--" +:+ nv.1 +:+ "=" +:+ nv.2.

(** A name that can be written on the command line. *)
Definition is_flag_name (n : string) : bool :=
  match n with String c _ => negb (c =? "-")%char | EmptyString => false end && all_bytes (λ c, negb (c =? "=")%char) n.

Lemma classify_setting n v : is_flag_name n = true → classify (setting (n, v)) = Flag n (Some v).
Proof.
  intros Hn. unfold is_flag_name in Hn. apply andb_true_iff in Hn as [Hm He]. destruct n as [|c n]; [done|]. apply negb_true_iff in Hm.
  unfold setting. cbn [fst snd]. change ("--" +:+ String c n +:+ "=" +:+ v) with (String "-" (String "-" (String c n +:+ String "=" v))).
  cbn [classify]. rewrite Ascii.eqb_refl. cbv zeta. rewrite (cut_app "=" (String c n) v He).
  rewrite append_cons. cbn [all_bytes] in He. apply andb_true_iff in He as [He%negb_true_iff _]. by rewrite Hm, He.
Qed.

(** Assigning the values of a list of settings one after the other. *)
Fixpoint assign (store : flag_store) (l : list (string * string)) : option flag_store :=
  match l with
  | [] => Some store
  | (n, x) :: l' => v ← store !! n; v' ← flag_set v x; assign (<[n := v']> store) l'
  end.

Lemma parse_settings store l : Forall (λ nv, is_flag_name nv.1 = true) l → parse_args store (setting <$> l) = assign store l.
Proof.
  intros HF. revert store. induction HF as [|[n x] l Hn HF IH]; intros store; [done|]. cbn [fmap list_fmap parse_args assign].
  rewrite classify_setting by done. destruct (store !! n) as [v|]; [|done]. rewrite !bind_Some_l.
  destruct v; (destruct (flag_set _ x); [rewrite !bind_Some_l; apply IH|done]).
Qed.

(** The kind of a flag never changes. *)
Definition same_kind (v v' : flag_value) : bool :=
  match v, v' with VString _, VString _ | VBool _, VBool _ | VInt _, VInt _ | VDuration _, VDuration _ => true | _, _ => false end.

Lemma flag_set_kind v x v' : flag_set v x = Some v' → same_kind v v' = true ∧ ∀ u, same_kind v u = true → flag_set u x = Some v'.
Proof.
  destruct v; cbn [flag_set]; intros H.
  - injection H as <-. split; [done|]. by intros [].
  - apply fmap_Some in H as (b' & H & ->). split; [done|]. intros [] Hu; try done. cbn [flag_set]. by rewrite H.
  - apply fmap_Some in H as (b' & H & ->). split; [done|]. intros [] Hu; try done. cbn [flag_set]. by rewrite H.
  - apply fmap_Some in H as (b' & H & ->). split; [done|]. intros [] Hu; try done. cbn [flag_set]. by rewrite H.
Qed.

(** The last setting of a flag decides; other flags keep their values. *)
Lemma assign_last store l :
  (∀ n x, (n, x) ∈ l → ∃ v v', store !! n = Some v ∧ flag_set v x = Some v') →
  ∃ store', assign store l = Some store' ∧
    (∀ n, n ∉ l.*1 → store' !! n = store !! n) ∧
    ∀ l1 l2 n x v, l = l1 ++ (n, x) :: l2 → n ∉ l2.*1 → store !! n = Some v → store' !! n = flag_set v x.
Proof.
  revert store. induction l as [|[n x] l IH]; intros store Hl; cbn [assign].
  { exists store. split_and!; [done..|]. by intros [] ? ? ? ?. }
  destruct (Hl n x ltac:(apply list_elem_of_here)) as (v & v' & Hs & Hv). rewrite Hs, bind_Some_l, Hv, bind_Some_l.
  destruct (flag_set_kind _ _ _ Hv) as [Hk Hset].
  destruct (IH (<[n := v']> store)) as (store' & Ha & Hother & Hlast).
  { intros m y Hin. destruct (Hl m y ltac:(by apply list_elem_of_further)) as (u & u' & Hu & Hy). rewrite lookup_insert. case_decide as Hm; [|eauto].
    subst m. exists v'. rewrite Hs in Hu. injection Hu as <-. destruct (flag_set_kind _ _ _ Hy) as [_ Hy']. exists u'. split; [done|]. by apply Hy'. }
  exists store'. split_and!; [done| |].
  - intros m Hm. cbn in Hm. apply not_elem_of_cons in Hm as [Hne Hm]. rewrite (Hother m Hm). by rewrite lookup_insert_ne.
  - intros [|[n1 x1] l1] l2 m y u E Hm Hu; cbn in E; injection E as E1 E2.
    + subst. rewrite (Hother m Hm), lookup_insert_eq. congruence.
    + intros. simplify_eq. destruct (decide (m = n1)) as [->|Hne].
      * rewrite Hs in Hu. injection Hu as <-. rewrite (Hlast l1 l2 n1 y v' eq_refl Hm ltac:(by rewrite lookup_insert_eq)).
        destruct (Hl n1 y ltac:(apply list_elem_of_further, elem_of_app; right; apply list_elem_of_here)) as (u & u' & Hu & Hy).
        rewrite Hs in Hu. injection Hu as <-. destruct (flag_set_kind _ _ _ Hy) as [_ Hy']. rewrite Hy. by apply Hy'.
      * rewrite (Hlast l1 l2 m y u eq_refl Hm); [done|]. by rewrite lookup_insert_ne.
Qed.

Lemma flag_names Getenv n v : (list_to_map (flags Getenv) : flag_store) !! n = Some v → is_flag_name n = true.
Proof.
  intros Hin%elem_of_list_to_map_2. apply (list_elem_of_fmap_2 fst) in Hin. cbn [fst] in Hin. apply list_elem_of_In in Hin.
  assert (Hall : forallb is_flag_name (flags Getenv).*1 = true) by reflexivity. rewrite forallb_forall in Hall. auto.
Qed.

(** Flags go before the environment, which goes before the defaults: with
    well-formed settings of known flags as arguments, the configuration is made
    from values in which the last setting of a flag decides, and every flag that
    is not set has the value of its variable or its default. *)
Theorem flag_precedence Getenv l :
  let initial := list_to_map (flags Getenv) : flag_store in
  (∀ n x, (n, x) ∈ l → ∃ v v', initial !! n = Some v ∧ flag_set v x = Some v') →
  ∃ store, Parse Getenv (setting <$> l) = Some (config_of (Getenv "NODE_NAME") store) ∧
    (∀ n, n ∉ l.*1 → store !! n = initial !! n) ∧
    ∀ l1 l2 n x v, l = l1 ++ (n, x) :: l2 → n ∉ l2.*1 → initial !! n = Some v → store !! n = flag_set v x.
Proof.
  intros initial Hl. destruct (assign_last initial l Hl) as (store & Ha & Hother & Hlast). exists store. split_and!; [|done..].
  unfold Parse. fold initial. rewrite parse_settings, Ha; [done|]. apply Forall_forall. intros [n x] Hin.
  destruct (Hl n x Hin) as (v & v' & Hv & _). by eapply flag_names.
Qed.

(** An environment with the name of the node only. *)
Definition node_env (k : string) : string := if bool_decide (k = "NODE_NAME") then "node-1" else EmptyString.

Definition example_settings : list (string * string) := [("qmp-timeout", "10s"); ("qmp-concurrency", "4"); ("qmp-timeout", "1m30s")].

Lemma example_settings_valid n x :
  (n, x) ∈ example_settings → ∃ v v', (list_to_map (flags node_env) : flag_store) !! n = Some v ∧ flag_set v x = Some v'.
Proof.
  unfold example_settings. intros Hin. repeat (apply elem_of_cons in Hin as [Hin|Hin]; [injection Hin as -> ->; eexists _, _; split; vm_compute; reflexivity|]).
  by apply elem_of_nil in Hin.
Qed.

Lemma flag_precedence_witness :
  ∃ store, Parse node_env (setting <$> example_settings) = Some (config_of "node-1" store) ∧
    store !! "qmp-timeout" = Some (VDuration 90000000000) ∧ store !! "qmp-concurrency" = Some (VInt 4) ∧ store !! "qga-retries" = Some (VInt 10).
Proof.
  destruct (flag_precedence node_env example_settings example_settings_valid) as (store & Hp & Hother & Hlast). exists store. split; [exact Hp|]. split_and!.
  - rewrite (Hlast [("qmp-timeout", "10s"); ("qmp-concurrency", "4")] [] "qmp-timeout" "1m30s" (VDuration 5000000000) eq_refl); [vm_compute; reflexivity|apply not_elem_of_nil|vm_compute; reflexivity].
  - rewrite (Hlast [("qmp-timeout", "10s")] [("qmp-timeout", "1m30s")] "qmp-concurrency" "4" (VInt 8) eq_refl); [vm_compute; reflexivity|by apply not_elem_of_cons; split; [|apply not_elem_of_nil]|vm_compute; reflexivity].
  - rewrite (Hother "qga-retries"); [vm_compute; reflexivity|]. cbn. intros Hin. repeat (apply elem_of_cons in Hin as [Hin|Hin]; [discriminate|]). by apply elem_of_nil in Hin.
Defined.

(** ** Configurations and runs *)

Lemma flags_no_env Getenv : (∀ k, k ≠ "NODE_NAME" → Getenv k = EmptyString) → flags Getenv = flags (λ _, EmptyString).
Proof.
  intros Hk. unfold flags, envOrDefault, envBoolOrDefault, envIntOrDefault, envDurationOrDefault. by rewrite !Hk by done.
Qed.

(** C29.  Out of the box: with the name of the node and nothing else in the
    environment, the configuration is valid, has the documented boundaries, and
    both polling collectors run with it without a panic or a hang and leave no
    connection open, whatever happens outside. *)
Theorem default_config_runs Getenv :
  (∀ k, k ≠ "NODE_NAME" → Getenv k = EmptyString) → Getenv "NODE_NAME" ≠ EmptyString →
  ∃ c, Parse Getenv [] = Some c ∧ Validate c = None ∧ NodeName c = Getenv "NODE_NAME" ∧
    BoundariesNs c = [10000000; 100000000; 1000000000] ∧ Boundaries c = [f64_ratio 1 100; f64_ratio 1 10; f64_of_Z 1] ∧
    ∀ G `(Environment G) haveClient store ticks (w : world G), conns w = ∅ → closed w = ∅ →
      (∃ q w', Run (QmpCollector.poll (startQMP c) haveClient) QmpCollector.stop (QMPPollInterval c) store ticks QmpCollector.NewCollector w = (Polled q, w') ∧ conns w' = ∅) ∧
      (∃ q w', Run (QgaCollector.poll (startQGA c) haveClient) QgaCollector.stop (QGAPollInterval c) store ticks QgaCollector.NewCollector w = (Polled q, w') ∧ conns w' = ∅).
Proof.
  intros Hk Hn. exists (config_of (Getenv "NODE_NAME") (list_to_map (flags (λ _, EmptyString)))).
  split_and!; [unfold Parse; by rewrite flags_no_env| | |vm_compute; reflexivity|vm_compute; reflexivity|].
  - unfold Validate. cbn [NodeName config_of]. rewrite bool_decide_eq_false_2 by done. vm_compute. reflexivity.
  - done.
  - intros G H haveClient store ticks w Ho Hc. split.
    + apply qmp_run_clean; [vm_compute; reflexivity..|done|done].
    + apply qga_run_clean; [vm_compute; reflexivity..|done|done].
Qed.

Lemma default_config_runs_witness :
  ∃ c, Parse node_env [] = Some c ∧ Validate c = None ∧
    ∃ q w', Run (QmpCollector.poll (startQMP c) false) QmpCollector.stop (QMPPollInterval c) QmpScrape.example_store [] QmpCollector.NewCollector
      (start (qmp_script plain_run) 0) = (Polled q, w') ∧ conns w' = ∅.
Proof.
  destruct (default_config_runs node_env) as (c & Hp & Hv & _ & _ & _ & Hrun); [|discriminate|].
  - intros k Hk. unfold node_env. rewrite bool_decide_eq_false_2 by exact Hk. reflexivity.
  - exists c. split; [exact Hp|]. split; [exact Hv|]. apply (Hrun script script_env false QmpScrape.example_store [] (start (qmp_script plain_run) 0)); reflexivity.
Defined.

(** What becomes of a run of the QMP collector with the given arguments, over a
    node with one machine; [None] where the configuration is rejected. *)
Inductive run_end := Ends | Panics | Hangs.
Definition qmp_run (args : list string) : option run_end :=
  c ← Parse node_env args;
  if match Validate c with Some _ => true | None => false end then None else
  Some match Run (QmpCollector.poll (startQMP c) false) QmpCollector.stop (QMPPollInterval c) QmpScrape.example_store [] QmpCollector.NewCollector
    (start (qmp_script plain_run) 0) with
  | (Polled _, _) => Ends
  | (PollPanics, _) => Panics
  | (PollHangs, _) => Hangs
  end.

(** [Validate] lets configurations through with which the exporter cannot
    work: a concurrency of zero hangs in the first poll that finds a machine, a
    negative one panics, and so does a poll interval that is not positive; a scan
    interval that is positive in seconds may be negative in nanoseconds.  With
    the defaults the same run ends. *)
Theorem valid_config_breaks :
  qmp_run [] = Some Ends ∧ qmp_run ["--qmp-concurrency=0"] = Some Hangs ∧ qmp_run ["--qmp-concurrency=-1"] = Some Panics ∧
  qmp_run ["--qmp-poll-interval"; "0s"] = Some Panics ∧
  (∃ c, Parse node_env ["-ebpf-scan-interval=9223372037"] = Some c ∧ Validate c = None ∧ resolver_interval c < 0) ∧
  (∃ c, Parse node_env ["-ebpf-scan-interval=0"] = Some c ∧ Validate c = Some (ScanIntervalNotPositive 0)).
Proof.
  split; [vm_compute; reflexivity|]. split; [vm_compute; reflexivity|]. split; [vm_compute; reflexivity|]. split; [vm_compute; reflexivity|].
  split; eexists; (split; [vm_compute; reflexivity|]); [split|]; vm_compute; reflexivity.
Qed.

(** The two readings of the boundaries differ in more than their unit: eBPF
    sorts them, QMP passes them on in the order given, so that for descending
    boundaries QEMU is sent a list it does not accept; and a number such as 1e7 is
    a boundary for eBPF but not for QMP. *)
Theorem boundaries_unsorted_for_qemu :
  (∃ c, Parse node_env ["--boundaries=1000000000,10000000"] = Some c ∧ Validate c = None ∧
     Boundaries c = [f64_ratio 1 100; f64_of_Z 1] ∧ BoundariesNs c = [1000000000; 10000000] ∧
     trace (QmpClient.EnableHistogram 0 "ua-rootdisk" (QmpCollector.BoundariesNs (startQMP c)) (start script0 1)).2 =
       [Monitor 0 (arm_command [1000000000; 10000000] "ua-rootdisk")]) ∧
  (∃ c, Parse node_env ["--boundaries=1e7, 100000000"] = Some c ∧ Validate c = None ∧
     Boundaries c = [f64_ratio 1 100; f64_ratio 1 10] ∧ BoundariesNs c = [100000000]).
Proof.
  split; eexists; (split; [vm_compute; reflexivity|]); repeat split; vm_compute; reflexivity.
Qed.
