(* ===== verification/Bindings.v ===== *)
(** * The Go side of the BPF objects (pkg/ebpf/*_x86_bpfel.go, gen.go)

    bpf2go writes, for each C file, Go structs for its types, structs whose tags
    name the programs and maps, and functions that load and close them.  Here:
    the layout of these Go structs and of those the collector declares itself, what
    is read through them from the bytes the kernel holds, which program ends up
    attached to which hook, and how a loaded collection is closed. *)
From S2P Require Import Prelude CLayout VmlinuxCore KernelTypes CoreRead Common BpfMap BlockLatency NfsLatency NfsKprobeLatency MapBytes GoFloat Histogram Loader.

(** ** Go structs *)

(** [structs.HostLayout] is a marker of size zero. *)
Inductive go_type := HostLayout | GoUint (bytes : Z) | GoArray (t : go_type) (n : Z).
Definition go_struct : Type := list (string * go_type).

(** Sizes and alignments on a machine whose largest alignment is [w]: 8 on
    amd64 and 4 on 386, the two targets of the build constraint. *)
Fixpoint go_size (t : go_type) : Z :=
  match t with HostLayout => 0 | GoUint n => n | GoArray t n => n * go_size t end.
Fixpoint go_align (w : Z) (t : go_type) : Z :=
  match t with HostLayout => 1 | GoUint n => n `min` w | GoArray t _ => go_align w t end.

Definition round_up (n a : Z) : Z := (n + a - 1) `div` a * a.

(** Each field with its offset and size, from position [pos] on; and the end. *)
Fixpoint go_place (w pos al : Z) (s : go_struct) : list (string * Z * Z) * Z * Z :=
  match s with
  | [] => ([], pos, al)
  | (f, t) :: s' =>
      let o := round_up pos (go_align w t) in
      let '(ps, e, al') := go_place w (o + go_size t) (al `max` go_align w t) s' in ((f, o, go_size t) :: ps, e, al')
  end.
Definition go_fields (w : Z) (s : go_struct) : list (string * Z * Z) :=
  filter (λ p, p.1.1 ≠ "_") (go_place w 0 1 s).1.1.
Definition go_sizeof (w : Z) (s : go_struct) : Z := let '(_, e, al) := go_place w 0 1 s in round_up e al.

Definition blockBlockHistKey : go_struct := [("_", HostLayout); ("Dev", GoUint 4); ("Op", GoUint 1); ("Pad", GoArray (GoUint 1) 3)].
Definition blockHist : go_struct := [("_", HostLayout); ("Slots", GoArray (GoUint 8) 26)].
Definition blockReqKey : go_struct := [("_", HostLayout); ("Dev", GoUint 4); ("_", GoArray (GoUint 1) 4); ("Sector", GoUint 8)].
Definition nfsHist : go_struct := [("_", HostLayout); ("Slots", GoArray (GoUint 8) 26)].
Definition nfsNfsHistKey : go_struct := [("_", HostLayout); ("Dev", GoUint 4); ("Op", GoUint 1); ("Pad", GoArray (GoUint 1) 3)].
Definition nfsNfsReqKey : go_struct :=
  [("_", HostLayout); ("Dev", GoUint 4); ("Count", GoUint 4); ("Offset", GoUint 8); ("Op", GoUint 1); ("Pad", GoArray (GoUint 1) 7)].
Definition nfsKprobeHist : go_struct := [("_", HostLayout); ("Slots", GoArray (GoUint 8) 26)].
Definition nfsKprobeNfsHistKey : go_struct := [("_", HostLayout); ("Dev", GoUint 4); ("Op", GoUint 1); ("Pad", GoArray (GoUint 1) 3)].
Definition nfsKprobeNfsKprobeStartVal : go_struct :=
  [("_", HostLayout); ("Ts", GoUint 8); ("Dev", GoUint 4); ("Op", GoUint 1); ("Pad", GoArray (GoUint 1) 3)].

(** The structs of collector.go through which the maps are read. *)
Definition blockHistKey : go_struct := [("Dev", GoUint 4); ("Op", GoUint 1); ("Pad", GoArray (GoUint 1) 3)].
Definition nfsHistKey : go_struct := [("Dev", GoUint 4); ("Op", GoUint 1); ("Pad", GoArray (GoUint 1) 3)].
Definition histValue : go_struct := [("Slots", GoArray (GoUint 8) (Z.of_nat MaxSlots))].

(** Which declaration each stands for. *)
Definition bindings : list (go_struct * decl) :=
  [(blockBlockHistKey, block_hist_key_decl); (blockHist, hist_decl); (blockReqKey, req_key_decl);
   (nfsHist, hist_decl); (nfsNfsHistKey, nfs_hist_key_decl); (nfsNfsReqKey, nfs_req_key_decl);
   (nfsKprobeHist, hist_decl); (nfsKprobeNfsHistKey, nfs_hist_key_decl); (nfsKprobeNfsKprobeStartVal, nfs_kprobe_start_val_decl);
   (blockHistKey, block_hist_key_decl); (nfsHistKey, nfs_hist_key_decl); (histValue, hist_decl)].

(** The Go name of a member: its first letter in upper case. *)
Definition go_name (s : string) : string :=
  match s with String c s' => String (if (97 <=? Z.of_nat (Ascii.nat_of_ascii c)) && (Z.of_nat (Ascii.nat_of_ascii c) <=? 122)
    then Ascii.ascii_of_nat (Ascii.nat_of_ascii c - 32) else c) s' | EmptyString => s end.

(** Reading a field of a Go struct from memory. *)
Definition go_bytes (w : Z) (s : go_struct) (f : string) (bs : list Z) : option (list Z) :=
  p ← find (λ p, bool_decide (p.1.1 = f)) (go_fields w s); Some (member_bytes (Z.to_nat p.1.2) (Z.to_nat p.2) bs).
Definition go_uint (w : Z) (s : go_struct) (f : string) (bs : list Z) : option Z := le_val <$> go_bytes w s f bs.
Definition go_uint64s (w : Z) (s : go_struct) (f : string) (bs : list Z) : option (list Z) :=
  (λ b, words64 (Nat.div (length b) 8) b) <$> go_bytes w s f bs.

(** ** Programs and hooks *)

(** The programs of a C file: the section that says what they are for, and the
    name of the function.  And its maps. *)
Definition block_sections : list (string * string) :=
  [("tracepoint/block/block_rq_issue", "tracepoint__block__block_rq_issue");
   ("tracepoint/block/block_rq_complete", "tracepoint__block__block_rq_complete")].
Definition nfs_sections : list (string * string) :=
  [("raw_tracepoint/nfs_initiate_read", "raw_tp_nfs_initiate_read"); ("raw_tracepoint/nfs_initiate_write", "raw_tp_nfs_initiate_write");
   ("raw_tracepoint/nfs_readpage_done", "raw_tp_nfs_readpage_done"); ("raw_tracepoint/nfs_writeback_done", "raw_tp_nfs_writeback_done")].
Definition nfs_kprobe_sections : list (string * string) :=
  [("kprobe/nfs_file_read", "kprobe_nfs_file_read"); ("kprobe/nfs_file_write", "kprobe_nfs_file_write"); ("kprobe/nfs_file_open", "kprobe_nfs_file_open");
   ("kprobe/nfs4_file_open", "kprobe_nfs4_file_open"); ("kprobe/nfs_getattr", "kprobe_nfs_getattr"); ("kretprobe/nfs_file_read", "kretprobe_nfs_vfs")].
Definition block_map_names : list string := ["block_start"; "block_hists"].
Definition nfs_map_names : list string := ["nfs_start"; "nfs_hists"].
Definition nfs_kprobe_map_names : list string := ["nfs_kprobe_start"; "nfs_kprobe_hists"].

(** The tagged fields of the generated structs. *)
Definition blockPrograms : list (string * string) :=
  [("TracepointBlockBlockRqComplete", "tracepoint__block__block_rq_complete"); ("TracepointBlockBlockRqIssue", "tracepoint__block__block_rq_issue")].
Definition blockMaps : list (string * string) := [("BlockHists", "block_hists"); ("BlockStart", "block_start")].
Definition nfsPrograms : list (string * string) :=
  [("RawTpNfsInitiateRead", "raw_tp_nfs_initiate_read"); ("RawTpNfsInitiateWrite", "raw_tp_nfs_initiate_write");
   ("RawTpNfsReadpageDone", "raw_tp_nfs_readpage_done"); ("RawTpNfsWritebackDone", "raw_tp_nfs_writeback_done")].
Definition nfsMaps : list (string * string) := [("NfsHists", "nfs_hists"); ("NfsStart", "nfs_start")].
Definition nfsKprobePrograms : list (string * string) :=
  [("KprobeNfs4FileOpen", "kprobe_nfs4_file_open"); ("KprobeNfsFileOpen", "kprobe_nfs_file_open"); ("KprobeNfsFileRead", "kprobe_nfs_file_read");
   ("KprobeNfsFileWrite", "kprobe_nfs_file_write"); ("KprobeNfsGetattr", "kprobe_nfs_getattr"); ("KretprobeNfsVfs", "kretprobe_nfs_vfs")].
Definition nfsKprobeMaps : list (string * string) := [("NfsKprobeHists", "nfs_kprobe_hists"); ("NfsKprobeStart", "nfs_kprobe_start")].

(** What the loader attaches: the hook and the field with the program. *)
Definition block_attachments : list (string * string) :=
  [("tracepoint/block/block_rq_issue", "TracepointBlockBlockRqIssue"); ("tracepoint/block/block_rq_complete", "TracepointBlockBlockRqComplete")].
Definition nfsTracepoints : list (string * string) :=
  [("nfs_initiate_read", "RawTpNfsInitiateRead"); ("nfs_initiate_write", "RawTpNfsInitiateWrite");
   ("nfs_readpage_done", "RawTpNfsReadpageDone"); ("nfs_writeback_done", "RawTpNfsWritebackDone")].
Definition kprobes : list (string * string * bool) :=
  [("nfs_file_read", "KprobeNfsFileRead", false); ("nfs_file_write", "KprobeNfsFileWrite", false); ("nfs_file_open", "KprobeNfsFileOpen", false);
   ("nfs4_file_open", "KprobeNfs4FileOpen", true); ("nfs_getattr", "KprobeNfsGetattr", false)].

Definition nfs_attachments : list (string * string) := (λ '(n, f), ("raw_tracepoint/" +:+ n, f)) <$> nfsTracepoints.
Definition kprobe_attachments : list (string * string) := (λ '(n, f, _), ("kprobe/" +:+ n, f)) <$> kprobes.

(** The C function behind a field, and the section it was written for. *)
Definition tag_of (tags : list (string * string)) (field : string) : option string := snd <$> find (λ t, bool_decide (t.1 = field)) tags.
Definition section_of (sections : list (string * string)) (prog : string) : option string := fst <$> find (λ s, bool_decide (s.2 = prog)) sections.
Definition hook_of (tags sections : list (string * string)) (field : string) : option string := p ← tag_of tags field; section_of sections p.

(** ** Closing a collection *)

(** [_BlockClose] and its two copies: the closers in order, until one fails.  Whether
    closing a handle fails is the kernel's answer. *)
Fixpoint close_all (fails : handle → bool) (hs : list handle) (k : kernel) : kernel * bool :=
  match hs with
  | [] => (k, true)
  | h :: hs' => if fails h then (k, false) else close_all fails hs' (k_close [h] k)
  end.

(** The handles of a loaded collection, in the order of the generated fields. *)
Record objects := Objects { o_programs : list handle; o_maps : list handle }.

Definition objects_Close (fails : handle → bool) (o : objects) (k : kernel) : kernel * bool :=
  let '(k, ok) := close_all fails (o_programs o) k in
  if ok then close_all fails (o_maps o) k else (k, false).

(** ** Theorems *)

Lemma length_le_words xs : length (mjoin (le_bytes 8 <$> xs)) = (8 * length xs)%nat.
Proof. induction xs as [|x xs IH]; [done|].
  change (mjoin (le_bytes 8 <$> x :: xs)) with (le_bytes 8 x ++ mjoin (le_bytes 8 <$> xs)). rewrite length_app, IH, length_le_bytes. cbn. lia.
Qed.

(** C36.  The exporter reads the maps as the programs wrote them.  On both targets
    of the generated files every Go struct, generated or declared by the
    collector, has the members of its C declaration, with Go names, at the offsets
    and with the sizes of the C layout, and is as large; and reading device,
    operation and slots through the Go structs from the bytes of a key or of a
    histogram yields the values the program put there. *)
Theorem binding_layouts w :
  w = 8 ∨ w = 4 →
  Forall (λ b : go_struct * decl,
    go_fields w b.1 = (λ m : string * Z * Z, (go_name m.1.1, m.1.2, m.2)) <$> member_table b.2 ∧
    Some (go_sizeof w b.1) = fst <$> layout vmfuel vmlinux b.2.2) bindings ∧
  (∀ k s, block_hist_key_wf k → s = blockHistKey ∨ s = blockBlockHistKey →
     go_uint w s "Dev" (block_hist_key_bytes k) = Some (bhk_dev k) ∧ go_uint w s "Op" (block_hist_key_bytes k) = Some (bhk_op k)) ∧
  (∀ k s, nfs_hist_key_wf k → s = nfsHistKey ∨ s = nfsNfsHistKey ∨ s = nfsKprobeNfsHistKey →
     go_uint w s "Dev" (nfs_hist_key_bytes k) = Some (nhk_dev k) ∧ go_uint w s "Op" (nfs_hist_key_bytes k) = Some (nhk_op k)) ∧
  (∀ h s, hist_wf h → s = histValue ∨ s = blockHist ∨ s = nfsHist ∨ s = nfsKprobeHist → go_uint64s w s "Slots" (hist_bytes h) = Some (slots h)).
Proof.
  intros Hw. split_and!.
  - destruct Hw as [->| ->]; repeat (apply Forall_cons_2; [split; vm_compute; reflexivity|]); apply Forall_nil_2.
  - intros k s Hk [->| ->]; pose proof (parse_block_hist_key_bytes k Hk) as E; destruct Hw as [->| ->]; (split; [apply (f_equal bhk_dev) in E|apply (f_equal bhk_op) in E]);
      rewrite <- E; reflexivity.
  - intros k s Hk [->|[->| ->]]; pose proof (parse_nfs_hist_key_bytes k Hk) as E; destruct Hw as [->| ->];
      (split; [apply (f_equal nhk_dev) in E|apply (f_equal nhk_op) in E]); rewrite <- E; reflexivity.
  - intros h s Hh Hs. rewrite <- (parse_hist_bytes h Hh) at 2.
    assert (Hl : length (hist_bytes h) = 208%nat).
    { destruct Hh as [Hl _]. unfold hist_bytes. rewrite (length_le_words (slots h)), Hl. reflexivity. }
    assert (Hg : go_bytes w s "Slots" (hist_bytes h) = Some (hist_bytes h)).
    { transitivity (Some (member_bytes 0 208 (hist_bytes h))); [destruct Hw as [->| ->], Hs as [->|[->|[->| ->]]]; reflexivity|].
      unfold member_bytes. by rewrite drop_0, take_ge by lia. }
    unfold go_uint64s. rewrite Hg. cbn [fmap option_fmap option_map]. by rewrite Hl.
Qed.

Lemma binding_layouts_witness :
  go_uint 8 blockHistKey "Dev" (block_hist_key_bytes (BlockHistKey 8388608 1 [0; 0; 0])) = Some 8388608 ∧
  go_uint64s 8 histValue "Slots" (hist_bytes zero_hist) = Some (replicate 26 0).
Proof.
  destruct (binding_layouts 8 (or_introl eq_refl)) as (_ & Hb & _ & Hh). split.
  - apply (Hb (BlockHistKey 8388608 1 [0; 0; 0]) blockHistKey); [|by left]. unfold block_hist_key_wf, is_u32, is_u8. cbn. lia.
  - apply (Hh zero_hist histValue zero_hist_wf). by left.
Defined.

(** ** Wiring *)

(** Every program ends up at the hook it was written for: the C function the
    tag of each attached field names has, as its section, the kind and the name of
    the hook the loader attaches it to; every entry probe and tracepoint program
    of the C files is attached, to one hook; the return probe is attached to the
    functions whose entry probes were; the tags name exactly the programs and maps
    of the C files; and the loader counts on as many attachments. *)
Theorem programs_wired :
  Forall (λ a, hook_of blockPrograms block_sections a.2 = Some a.1) block_attachments ∧
  Forall (λ a, hook_of nfsPrograms nfs_sections a.2 = Some a.1) nfs_attachments ∧
  Forall (λ a, hook_of nfsKprobePrograms nfs_kprobe_sections a.2 = Some a.1) kprobe_attachments ∧
  (block_attachments.*1 ≡ₚ block_sections.*1 ∧ nfs_attachments.*1 ≡ₚ nfs_sections.*1 ∧
   kprobe_attachments.*1 ++ [default EmptyString (hook_of nfsKprobePrograms nfs_kprobe_sections "KretprobeNfsVfs")] ≡ₚ nfs_kprobe_sections.*1) ∧
  (blockPrograms.*2 ≡ₚ block_sections.*2 ∧ nfsPrograms.*2 ≡ₚ nfs_sections.*2 ∧ nfsKprobePrograms.*2 ≡ₚ nfs_kprobe_sections.*2 ∧
   blockMaps.*2 ≡ₚ block_map_names ∧ nfsMaps.*2 ≡ₚ nfs_map_names ∧ nfsKprobeMaps.*2 ≡ₚ nfs_kprobe_map_names) ∧
  NoDup (block_attachments.*1 ++ nfs_attachments.*1 ++ kprobe_attachments.*1) ∧ kprobes.*2 = [false; false; false; true; false].
Proof.
  assert (Hperm : ∀ l l' : list string, bool_decide (l ≡ₚ l') = true → l ≡ₚ l') by (intros l l'; by rewrite bool_decide_eq_true).
  split_and!; try (repeat (apply Forall_cons_2; [vm_compute; reflexivity|]); apply Forall_nil_2); try (apply Hperm; vm_compute; reflexivity); [|reflexivity].
  apply (bool_decide_unpack _). vm_compute. exact I.
Qed.

(** ** Closing *)

Lemma close_all_ok fails hs k : Forall (λ h, fails h = false) hs → close_all fails hs k = (k_close hs k, true).
Proof.
  intros Hf. revert k. induction Hf as [|h hs Hh _ IH]; intros k; cbn [close_all].
  - f_equal. destruct k as [n o]. unfold k_close. cbn. f_equal. set_solver.
  - rewrite Hh, IH. f_equal. unfold k_close. cbn. f_equal. set_solver.
Qed.

Lemma close_all_stops fails hs1 h hs2 k :
  Forall (λ h, fails h = false) hs1 → fails h = true → close_all fails (hs1 ++ h :: hs2) k = (k_close hs1 k, false).
Proof.
  intros Hf Hh. revert k. induction Hf as [|h1 hs1 H1 _ IH]; intros k; cbn [close_all app].
  - rewrite Hh. f_equal. destruct k as [n o]. unfold k_close. cbn. f_equal. set_solver.
  - rewrite H1, IH. f_equal. unfold k_close. cbn. f_equal. set_solver.
Qed.

(** Closing a collection closes all its programs and maps, which is what the
    loader's model does in one step, unless the kernel fails to close one:
    then the ones after it, in the order programs before maps, stay open. *)
Theorem objects_close fails o k :
  (Forall (λ h, fails h = false) (o_programs o ++ o_maps o) → objects_Close fails o k = (k_close (o_programs o ++ o_maps o) k, true)) ∧
  (∀ hs1 h hs2, o_programs o ++ o_maps o = hs1 ++ h :: hs2 → Forall (λ h, fails h = false) hs1 → fails h = true →
     objects_Close fails o k = (k_close hs1 k, false)).
Proof.
  assert (Heq : objects_Close fails o k = close_all fails (o_programs o ++ o_maps o) k).
  { unfold objects_Close. generalize (o_programs o) as l. intros l. revert k. induction l as [|h l IH]; intros k; [done|].
    cbn [close_all app]. destruct (fails h); [done|]. apply IH. }
  rewrite Heq. split; [apply close_all_ok|]. intros hs1 h hs2 -> H1 H2. by apply close_all_stops.
Qed.
