(* ===== verification/Command.v ===== *)
(** * The command (cmd/exporter/main.go)

    main reads the configuration, connects to the Kubernetes API, starts the
    subsystems that are enabled and serves metrics until it is told to stop.  A
    run is what was started, in order, and how it ended; what the libraries and
    the kernel answer is an argument.  The second part is what happens at the
    end, when main, the server's shutdown and the goroutines that clean up go on
    at the same time. *)
From stdpp Require Import relations.
From S2P Require Import Prelude GoStrings GoFloat QmpCollector QgaCollector EbpfCollector Loader Config.

(** ** Logging *)

Inductive level := LevelDebug | LevelInfo | LevelWarn | LevelError.

(** [strings.ToLower]; no letter outside of ASCII has one of the letters of the
    three names as its lower case. *)
Definition lower (c : ascii) : ascii :=
  let n := N_of_ascii c in if (65 <=? n)%N && (n <=? 90)%N then ascii_of_N (n + 32) else c.
Fixpoint ToLower (s : string) : string := match s with EmptyString => s | String c s' => String (lower c) (ToLower s') end.

Definition setupLogging (l : string) : level :=
  if bool_decide (ToLower l = "debug") then LevelDebug
  else if bool_decide (ToLower l = "warn") then LevelWarn
  else if bool_decide (ToLower l = "error") then LevelError
  else LevelInfo.

(** ** The registry *)

(** What [prometheus.NewDesc] is given; none of the descriptions has constant labels. *)
Record prom_desc := PromDesc { fqName : string; help : string; labelNames : list string }.

#[export] Instance prom_desc_eq_dec : EqDecision prom_desc.
Proof. solve_decision. Defined.

(** The names of the Prometheus data model: a metric's is made of letters, digits,
    underscores and colons, a label's of letters, digits and underscores; neither
    begins with a digit, and labels that begin with two underscores are reserved. *)
Definition letter (c : ascii) : bool :=
  let n := N_of_ascii c in ((65 <=? n) && (n <=? 90) || (97 <=? n) && (n <=? 122) || (n =? 95))%N.
Definition digit (c : ascii) : bool := let n := N_of_ascii c in ((48 <=? n) && (n <=? 57))%N.
Definition named (first : ascii → bool) (s : string) : bool :=
  match s with
  | EmptyString => false
  | String c s' => first c && forallb (λ c, first c || digit c) (String.list_ascii_of_string s')
  end.
Definition metric_name (s : string) : bool := named (λ c, letter c || bool_decide (c = ":"%char)) s.
Definition label_name (s : string) : bool := named letter s && negb (String.prefix "__" s).
Definition valid_desc (d : prom_desc) : bool :=
  metric_name (fqName d) && forallb label_name (labelNames d) && bool_decide (NoDup (labelNames d)).

(** [prometheus.Register] on a registry that holds collectors with the
    descriptions [reg], for a collector with the descriptions [ds]: whether it
    returns without an error.  As documented, descriptions must be valid, and those
    that share a name must be consistent and differ in their constant labels:
    collectors with valid descriptions and new names are registered, and labels
    used twice, or a name that is registered (there being no constant labels), are
    errors. *)
Class Registerer := {
  Register : list prom_desc → list prom_desc → bool;
  Register_new reg ds :
    forallb valid_desc ds = true → NoDup (fqName <$> ds) → (∀ n, n ∈ fqName <$> ds → n ∉ fqName <$> reg) → Register reg ds = true;
  Register_labels_twice reg ds d : d ∈ ds → ¬ NoDup (labelNames d) → Register reg ds = false;
  Register_again reg ds d : d ∈ ds → d ∈ reg → Register reg ds = false;
}.

(** A registry that accepts new names only. *)
#[export] Instance strict_registerer : Registerer.
Proof.
  refine {| Register reg ds := forallb valid_desc ds && bool_decide (NoDup (fqName <$> ds)) &&
              forallb (λ n, bool_decide (n ∉ fqName <$> reg)) (fqName <$> ds) |}.
  - intros reg ds Hv Hnd Hnew. rewrite Hv, bool_decide_eq_true_2 by done. cbn. apply forallb_forall. intros n Hn%list_elem_of_In.
    apply bool_decide_eq_true_2. by apply Hnew.
  - intros reg ds d Hin Hnd. apply not_true_is_false. intros [[Hv _]%andb_true_iff _]%andb_true_iff.
    apply list_elem_of_In in Hin. rewrite forallb_forall in Hv. specialize (Hv d Hin). unfold valid_desc in Hv.
    apply andb_true_iff in Hv as [_ Hv%bool_decide_eq_true]. done.
  - intros reg ds d Hin Hreg. apply not_true_is_false. intros [_ Hf]%andb_true_iff. rewrite forallb_forall in Hf.
    assert (Hn : bool_decide (fqName d ∉ fqName <$> reg) = true) by (apply Hf, list_elem_of_In, list_elem_of_fmap; by exists d).
    apply bool_decide_eq_true in Hn. apply Hn, list_elem_of_fmap. by exists d.
Defined.

Definition qmp_name (d : qmp_desc) : string :=
  match d with
  | latencyDesc => "kubevirt_vmi_storage_io_latency_seconds"
  | scrapeErrorsDesc => "kme_qmp_scrape_errors_total"
  | lastPollDesc => "kme_qmp_last_poll_timestamp_seconds"
  | virtqueueInuseDesc => "kubevirt_vmi_storage_queue_inuse"
  | virtqueueSizeDesc => "kubevirt_vmi_storage_queue_size"
  end.
Definition qga_name (d : qga_desc) : string :=
  match d with
  | latencyAvgDesc => "kubevirt_vmi_storage_guest_latency_avg_seconds"
  | iopsDesc => "kubevirt_vmi_storage_guest_iops"
  | qgaScrapeErrorsDesc => "kme_qga_scrape_errors_total"
  | qgaLastPollDesc => "kme_qga_last_poll_timestamp_seconds"
  end.
Definition ebpf_name (d : desc) : string :=
  match d with
  | podBlockDesc => "kme_block_io_latency_seconds"
  | systemBlockDesc => "kme_system_block_io_latency_seconds"
  | nfsDesc => "kme_nfs_io_latency_seconds"
  | nfsVfsDesc => "kme_nfs_vfs_latency_seconds"
  | subsystemDesc => "kme_subsystem_active"
  end.

(** The descriptions of the eBPF collector, in the order it sends them. *)
Definition ebpf_Describe : list desc := [podBlockDesc; systemBlockDesc; nfsDesc; nfsVfsDesc; subsystemDesc].

Definition qmp_help (d : qmp_desc) : string :=
  match d with
  | latencyDesc => "Block I/O latency histogram for KubeVirt VMI disks via QMP"
  | scrapeErrorsDesc => "Total number of errors encountered during QMP scrape cycles"
  | lastPollDesc => "Unix timestamp of the last successful QMP poll cycle"
  | virtqueueInuseDesc => "Number of in-flight descriptors in a storage virtqueue"
  | virtqueueSizeDesc => "Maximum number of descriptors (capacity) of a storage virtqueue"
  end.
Definition qga_help (d : qga_desc) : string :=
  match d with
  | latencyAvgDesc => "Average guest-side I/O latency per disk via QEMU Guest Agent (Windows PDH raw counters, derived via Little's Law)"
  | iopsDesc => "Guest-side I/O operations per second per disk via QEMU Guest Agent (Windows PDH raw counters)"
  | qgaScrapeErrorsDesc => "Total number of errors encountered during QGA scrape cycles"
  | qgaLastPollDesc => "Unix timestamp of the last QGA poll cycle"
  end.
Definition ebpf_help (d : desc) : string :=
  match d with
  | podBlockDesc => "Histogram of block I/O latency in seconds, attributed to a pod volume"
  | systemBlockDesc => "Histogram of block I/O latency in seconds for system/unresolvable devices"
  | nfsDesc => "Histogram of NFS I/O latency in seconds"
  | nfsVfsDesc => "Histogram of NFS VFS call latency in seconds (kprobe-based)"
  | subsystemDesc => "Whether an eBPF monitoring subsystem is active (1) or failed to load (0)"
  end.

(** What each collector describes itself with. *)
Definition qmp_descs : list prom_desc := (λ d, PromDesc (qmp_name d) (qmp_help d) (qmp_labels d)) <$> QmpCollector.Describe.
Definition qga_descs : list prom_desc := (λ d, PromDesc (qga_name d) (qga_help d) (qga_labels d)) <$> QgaCollector.Describe.
Definition ebpf_descs : list prom_desc := (λ d, PromDesc (ebpf_name d) (ebpf_help d) (variableLabels d)) <$> ebpf_Describe.

(** ** main *)

(** What main starts, in order. *)
Inductive startup :=
  | Logging (l : level)
  | Informers (node : string)
  | RunQMP (c : QmpCollector.PollerConfig)
  | RunQGA (c : QgaCollector.CollectorConfig)
  | RunResolver (node proc : string) (interval : Z)
  | RunRetry
  | CloseOnDone
  | EbpfCollector (node : string) (buckets : list float64) (namespaces : list string)
  | Serve (addr : string).

Inductive ending := FlagsExit | ExitOne | Panic | Return.

(** What libraries, cluster and kernel answer. *)
Record main_answers := MainAnswers {
  InClusterConfig : bool; NewForConfig : bool; NewDynamic : bool;
  NewCRIClient_qmp : bool; NewCRIClient_qga : bool;
  load_block : answers; load_nfs : answers; load_kprobe : answers;
  ErrServerClosed : bool;       (** how ListenAndServe ends *)
}.

Record process := Process { started : list startup; registry : list prom_desc; kern : kernel }.

(** Code that may end the process. *)
Definition P : Type := process → (ending * process) + process.
Definition andThen (m k : P) : P := λ p, match m p with inl e => inl e | inr p' => k p' end.
Notation "m ;> k" := (andThen m k) (at level 95, right associativity).
Definition start_up (s : startup) : P := λ p, inr (Process (started p ++ [s]) (registry p) (kern p)).
Definition ends (e : ending) : P := λ p, inl (e, p).
Definition exit_unless (ok : bool) : P := if ok then inr else ends ExitOne.
Definition when (b : bool) (m : P) : P := if b then m else inr.

(** [prometheus.MustRegister (collector)], which panics when [Register] returns an error. *)
Definition register `{!Registerer} (ds : list prom_desc) : P := λ p,
  if Register (registry p) ds then inr (Process (started p) (registry p ++ ds) (kern p)) else inl (Panic, p).

Section Main.
Context `{!Registerer} (a : main_answers).

Definition startInformers (nodeName : string) : P :=
  exit_unless (InClusterConfig a) ;> exit_unless (NewForConfig a) ;> exit_unless (NewDynamic a) ;> start_up (Informers nodeName).

Definition main_startQMP (c : Config) : P :=
  exit_unless (NewCRIClient_qmp a) ;> register qmp_descs ;> start_up (RunQMP (startQMP c)).

Definition main_startQGA (c : Config) : P :=
  exit_unless (NewCRIClient_qga a) ;> register qga_descs ;> start_up (RunQGA (startQGA c)).

Definition ebpf_options (c : Config) : options :=
  Options (EnableEBPFBlock c) (EnableEBPFNFS c) (EnableEBPFNFSKprobe c) (EBPFBlockMapSize c) (EBPFNFSMapSize c) (EBPFNFSKprobeMapSize c).

(** Without programs the subsystem is given up and the process goes on. *)
Definition main_startEBPF (c : Config) : P :=
  start_up (RunResolver (NodeName c) (EBPFProcPath c) (resolver_interval c)) ;>
  λ p, let '(_, k, ok) := LoadAndAttach (ebpf_options c) (load_block a) (load_nfs a) (load_kprobe a) (kern p) in
    let p := Process (started p) (registry p) k in
    if negb ok then inr p else
    (start_up RunRetry ;> start_up CloseOnDone ;> register ebpf_descs ;>
     start_up (EbpfCollector (NodeName c) (Boundaries c) (ParseNamespaces (Namespaces c)))) p.

Definition serve (c : Config) : P :=
  start_up (Serve (ListenAddress c)) ;> ends (if ErrServerClosed a then Return else ExitOne).

Definition run_main (c : Config) : P :=
  start_up (Logging (setupLogging (LogLevel c))) ;>
  exit_unless (match Validate c with None => true | Some _ => false end) ;>
  startInformers (NodeName c) ;>
  when (EnableQMP c) (main_startQMP c) ;>
  when (EnableQGA c) (main_startQGA c) ;>
  when (EnableEBPF c) (main_startEBPF c) ;>
  serve c.

Definition main (Getenv : string → string) (args : list string) (p : process) : ending * process :=
  match Parse Getenv args with
  | None => (FlagsExit, p)
  | Some c => match run_main c p with inl e => e | inr p' => (Return, p') end
  end.
End Main.

(** ** Starting up *)

(** What main starts when the cluster answers and both clients can be made. *)
Definition expected (c : Config) (ebpf_loaded : bool) : list startup :=
  [Logging (setupLogging (LogLevel c)); Informers (NodeName c)] ++
  (if EnableQMP c then [RunQMP (startQMP c)] else []) ++
  (if EnableQGA c then [RunQGA (startQGA c)] else []) ++
  (if EnableEBPF c then RunResolver (NodeName c) (EBPFProcPath c) (resolver_interval c) ::
     (if ebpf_loaded then [RunRetry; CloseOnDone; EbpfCollector (NodeName c) (Boundaries c) (ParseNamespaces (Namespaces c))] else []) else []) ++
  [Serve (ListenAddress c)].

(** The descriptions registered by then. *)
Definition expected_descs (c : Config) (ebpf_loaded : bool) : list prom_desc :=
  (if EnableQMP c then qmp_descs else []) ++ (if EnableQGA c then qga_descs else []) ++ (if EnableEBPF c && ebpf_loaded then ebpf_descs else []).

(** The default registry already has the collectors for the Go runtime and the
    process, and the handler's. *)
Definition default_name (n : string) : bool :=
  String.prefix "go_" n || String.prefix "process_" n || String.prefix "promhttp_" n.

Definition own_descs : list prom_desc := qmp_descs ++ qga_descs ++ ebpf_descs.

Lemma own_descs_valid : forallb valid_desc own_descs = true ∧ Forall (λ n, default_name n = false) (fqName <$> own_descs).
Proof. split; [vm_compute; reflexivity|]. apply (bool_decide_unpack _). vm_compute. exact I. Qed.

(** Descriptions of ours with names of their own that are not among those
    registered before. *)
Definition registrable (l ds : list prom_desc) : Prop :=
  Forall (λ d, d ∈ own_descs ∧ (fqName d ∉ fqName <$> l)) ds ∧ NoDup (fqName <$> ds).

Lemma registrable_dec l ds : bool_decide (Forall (λ d, d ∈ own_descs ∧ (fqName d ∉ fqName <$> l)) ds ∧ NoDup (fqName <$> ds)) = true → registrable l ds.
Proof. apply bool_decide_eq_true_1. Qed.

Section Startup.
Context `{!Registerer} (a : main_answers) (c : Config) (defaults : list prom_desc) (Hd : Forall (λ d, default_name (fqName d) = true) defaults).

Lemma register_ok ds l p :
  registry p = defaults ++ l → registrable l ds → register ds p = inr (Process (started p) (defaults ++ l ++ ds) (kern p)).
Proof.
  intros Hr [Hn Hnd]. rewrite Forall_forall in Hn. pose proof own_descs_valid as [Hv Hdef]. unfold register. rewrite Register_new; [by rewrite Hr, <- app_assoc| |done|].
  - apply forallb_forall. intros d Hin%list_elem_of_In. rewrite forallb_forall in Hv. apply Hv, list_elem_of_In. by apply Hn.
  - intros n (d & -> & Hin)%list_elem_of_fmap. destruct (Hn d Hin) as [Hown Hl]. rewrite Hr, fmap_app, not_elem_of_app. split; [|done].
    intros (d' & E & Hin')%list_elem_of_fmap. pose proof (proj1 (Forall_forall _ _) Hd d' Hin') as Hdef'. cbv beta in Hdef'. rewrite <- E in Hdef'.
    rewrite (proj1 (Forall_forall _ _) Hdef (fqName d)) in Hdef'; [done|]. apply list_elem_of_fmap. by exists d.
Qed.

Definition loaded (k : kernel) : bool := (LoadAndAttach (ebpf_options c) (load_block a) (load_nfs a) (load_kprobe a) k).2.

(** Starting a polling collector, or not. *)
Lemma start_collector enabled ok ds s l p :
  registry p = defaults ++ l → registrable l ds →
  when enabled (exit_unless ok ;> register ds ;> start_up s) p =
    if enabled && negb ok then inl (ExitOne, p)
    else inr (if enabled then Process (started p ++ [s]) (defaults ++ l ++ ds) (kern p) else p).
Proof.
  intros Hr Hn. destruct enabled; [|done]. destruct ok; [|done]. unfold when, andThen, exit_unless. by rewrite (register_ok ds l p Hr Hn).
Qed.

Lemma start_ebpf l p :
  registry p = defaults ++ l → registrable l ebpf_descs →
  ∃ p', when (EnableEBPF c) (main_startEBPF a c) p = inr p' ∧
    started p' = started p ++ (if EnableEBPF c then RunResolver (NodeName c) (EBPFProcPath c) (resolver_interval c) ::
      (if loaded (kern p) then [RunRetry; CloseOnDone; EbpfCollector (NodeName c) (Boundaries c) (ParseNamespaces (Namespaces c))] else []) else []) ∧
    registry p' = registry p ++ (if EnableEBPF c && loaded (kern p) then ebpf_descs else []).
Proof.
  intros Hr Hn. destruct (EnableEBPF c); [|exists p; by rewrite !app_nil_r]. unfold when, main_startEBPF, andThen at 1, start_up at 1, loaded. cbn [kern started registry].
  destruct (LoadAndAttach _ _ _ _ (kern p)) as [[pr k] ok]. cbn [snd]. destruct ok; cbn [negb andb]; [|eexists; split; [done|]; cbn; by rewrite app_nil_r].
  unfold andThen, start_up. cbn [started registry kern]. rewrite (register_ok _ l) by done. eexists. split; [done|]. cbn. by rewrite Hr, <- !app_assoc.
Qed.

Definition qmp_due : list startup := if EnableQMP c then [RunQMP (startQMP c)] else [].
Definition qga_due : list startup := if EnableQGA c then [RunQGA (startQGA c)] else [].
Definition ebpf_due (k : kernel) : list startup :=
  if EnableEBPF c then RunResolver (NodeName c) (EBPFProcPath c) (resolver_interval c) ::
    (if loaded k then [RunRetry; CloseOnDone; EbpfCollector (NodeName c) (Boundaries c) (ParseNamespaces (Namespaces c))] else []) else [].

(** From the synchronised informers on. *)
Lemma run_rest p :
  registry p = defaults →
  let due := qmp_due ++ qga_due ++ ebpf_due (kern p) ++ [Serve (ListenAddress c)] in
  ∃ e p', (when (EnableQMP c) (main_startQMP a c) ;> when (EnableQGA c) (main_startQGA a c) ;> when (EnableEBPF c) (main_startEBPF a c) ;> serve a c) p = inl (e, p') ∧
    e ≠ Panic ∧ started p' `prefix_of` started p ++ due ∧
    ((EnableQMP c = true → NewCRIClient_qmp a = true) → (EnableQGA c = true → NewCRIClient_qga a = true) →
     started p' = started p ++ due ∧ registry p' = defaults ++ expected_descs c (loaded (kern p)) ∧ e = if ErrServerClosed a then Return else ExitOne).
Proof.
  intros Hr due. unfold andThen at 1, main_startQMP. rewrite (start_collector _ _ _ _ []); [|by rewrite app_nil_r|apply registrable_dec; vm_compute; reflexivity].
  destruct (EnableQMP c && negb (NewCRIClient_qmp a)) eqn:Eq.
  { apply andb_true_iff in Eq as [E1 E2%negb_true_iff]. eexists _, _. split_and!; [done|done|by apply prefix_app_r|]. intros H1. rewrite (H1 E1) in E2. done. }
  set (p1 := if EnableQMP c then _ else _). set (l1 := if EnableQMP c then qmp_descs else []).
  assert (registry p1 = defaults ++ l1 ∧ started p1 = started p ++ qmp_due ∧ kern p1 = kern p) as (Hr1 & Hs1 & Hk1)
    by (unfold p1, l1, qmp_due; destruct (EnableQMP c); [done|by rewrite !app_nil_r]).
  clearbody p1. unfold andThen at 1, main_startQGA.
  rewrite (start_collector _ _ _ _ l1); [|done|unfold l1; destruct (EnableQMP c); apply registrable_dec; vm_compute; reflexivity].
  destruct (EnableQGA c && negb (NewCRIClient_qga a)) eqn:Eg.
  { apply andb_true_iff in Eg as [E1 E2%negb_true_iff]. eexists _, _. split_and!; [done|done| |].
    - rewrite Hs1. unfold due. rewrite app_assoc. by apply prefix_app_r.
    - intros _ H1. rewrite (H1 E1) in E2. done. }
  set (p2 := if EnableQGA c then _ else _). set (l2 := l1 ++ if EnableQGA c then qga_descs else []).
  assert (registry p2 = defaults ++ l2 ∧ started p2 = started p1 ++ qga_due ∧ kern p2 = kern p1) as (Hr2 & Hs2 & Hk2)
    by (unfold p2, l2, qga_due; destruct (EnableQGA c); [done|by rewrite !app_nil_r]).
  clearbody p2. unfold andThen at 1.
  destruct (start_ebpf l2 p2 Hr2) as (p3 & -> & Hs3 & Hr3); [unfold l2, l1; destruct (EnableQMP c), (EnableQGA c); apply registrable_dec; vm_compute; reflexivity|].
  assert (Hall : started p3 ++ [Serve (ListenAddress c)] = started p ++ due).
  { rewrite Hs3, Hs2, Hs1, Hk2, Hk1. unfold due. by rewrite <- !app_assoc. }
  eexists _, _. split_and!; [reflexivity|by destruct (ErrServerClosed a)| |].
  - cbn. by rewrite Hall.
  - intros _ _. cbn. rewrite Hall. split_and!; [done| |done]. rewrite Hr3, Hr2, Hk2, Hk1. unfold l2, l1, expected_descs. by rewrite <- !app_assoc.
Qed.
End Startup.

(** C37.  main starts what the configuration enables and nothing else, in order,
    up to the first failure: once the flags are parsed, an invalid configuration
    starts nothing but the log; what it has started is always a prefix of what is
    due; failing to load the BPF programs costs only the programs; registering the
    collectors never panics, whatever registry there is that accepts valid
    descriptions with new names, since the descriptions of the collectors are valid,
    their names differ, and none is among those of the Go runtime, the process and
    the handler; and when cluster and runtime answer, everything due is started,
    its collectors are registered, and main ends as the server does. *)
Theorem main_starts_enabled `{!Registerer} a Getenv args c defaults k :
  Parse Getenv args = Some c → Forall (λ d, default_name (fqName d) = true) defaults →
  let '(e, p) := main a Getenv args (Process [] defaults k) in
  e ≠ Panic ∧ started p `prefix_of` expected c (loaded a c k) ∧
  (Validate c ≠ None → e = ExitOne ∧ started p = [Logging (setupLogging (LogLevel c))] ∧ registry p = defaults) ∧
  (Validate c = None → InClusterConfig a && NewForConfig a && NewDynamic a = true →
   (EnableQMP c = true → NewCRIClient_qmp a = true) → (EnableQGA c = true → NewCRIClient_qga a = true) →
   started p = expected c (loaded a c k) ∧ registry p = defaults ++ expected_descs c (loaded a c k) ∧ e = if ErrServerClosed a then Return else ExitOne).
Proof.
  intros Hp Hd. unfold main. rewrite Hp. unfold run_main, andThen at 1, start_up at 1. cbn [started registry kern app]. unfold andThen at 1.
  destruct (Validate c) as [er|]; cbn [exit_unless].
  { cbn. split_and!; try done. by apply (prefix_app_r _ [Logging _]). }
  destruct (InClusterConfig a && NewForConfig a && NewDynamic a) eqn:Ek.
  - apply andb_true_iff in Ek as [[E1 E2]%andb_true_iff E3]. unfold andThen at 1, startInformers. rewrite E1, E2, E3. cbn [exit_unless andThen start_up started registry kern app].
    destruct (run_rest a c defaults Hd (Process [Logging (setupLogging (LogLevel c)); Informers (NodeName c)] defaults k) eq_refl) as (e & p & -> & He & Hpre & Hrun).
    cbn [started kern] in Hpre, Hrun. split_and!; [done|exact Hpre|done|]. intros _ _ H1 H2. exact (Hrun H1 H2).
  - assert (startInformers a (NodeName c) (Process [Logging (setupLogging (LogLevel c))] defaults k) = inl (ExitOne, Process [Logging (setupLogging (LogLevel c))] defaults k)) as Hs.
    { unfold startInformers, andThen, exit_unless, ends. destruct (InClusterConfig a), (NewForConfig a), (NewDynamic a); done. }
    unfold andThen at 1. rewrite Hs. split_and!; try done. by apply (prefix_app_r _ [Logging _]).
Qed.

Definition all_answer : answers := Answers true (λ _, true) (replicate 10 true).
Definition cluster_up : main_answers := MainAnswers true true true true true all_answer all_answer all_answer true.
Definition runtime_descs : list prom_desc :=
  [PromDesc "go_goroutines" "Number of goroutines that currently exist." [];
   PromDesc "process_cpu_seconds_total" "Total user and system CPU time spent in seconds." []].
Definition fresh_process : process := Process [] runtime_descs (Kernel 0 ∅).

Lemma main_starts_enabled_witness :
  ∃ c, Parse node_env ["--log-level=Debug"; "--enable-qga"] = Some c ∧
    started (main cluster_up node_env ["--log-level=Debug"; "--enable-qga"] fresh_process).2 = expected c (loaded cluster_up c (Kernel 0 ∅)) ∧
    registry (main cluster_up node_env ["--log-level=Debug"; "--enable-qga"] fresh_process).2 = runtime_descs ++ expected_descs c (loaded cluster_up c (Kernel 0 ∅)) ∧
    take 2 (expected c true) = [Logging LevelDebug; Informers "node-1"] ∧ RunQGA (startQGA c) ∈ expected c true.
Proof.
  destruct (Parse node_env ["--log-level=Debug"; "--enable-qga"]) as [c|] eqn:E; [|exfalso; revert E; vm_compute; discriminate].
  exists c. split; [reflexivity|].
  assert (Hf : (λ c, (NodeName c, LogLevel c, EnableQGA c, match Validate c with None => true | _ => false end)) <$> Parse node_env ["--log-level=Debug"; "--enable-qga"] = Some ("node-1", "Debug", true, true))
    by (vm_compute; reflexivity).
  rewrite E in Hf. injection Hf as Hn Hl Hq Hv.
  pose proof (main_starts_enabled cluster_up node_env ["--log-level=Debug"; "--enable-qga"] c runtime_descs (Kernel 0 ∅) E
    ltac:(repeat (apply Forall_cons_2; [reflexivity|]); apply Forall_nil_2)) as Hm.
  unfold fresh_process. destruct (main _ _ _ _) as [e p]. destruct Hm as (_ & _ & _ & Hrun).
  destruct Hrun as (Hst & Hre & _); [destruct (Validate c); [discriminate|reflexivity]|reflexivity|reflexivity|reflexivity|].
  split; [exact Hst|]. split; [exact Hre|]. split.
  - unfold expected. cbn [take app]. rewrite Hl, Hn. reflexivity.
  - unfold expected. rewrite Hq. set_solver.
Defined.

(** ** Shutting down *)

(** When the context is done, the collectors close their connections, the loader
    its programs and another goroutine shuts the server down, all at the same
    time; ListenAndServe returns as soon as Shutdown is called, while Shutdown
    itself waits for the requests being served; and when main returns, everything
    else ends with it. *)
Inductive server := Serving | Draining | Drained.
Record closing := Closing { cancelled : bool; srv : server; requests : nat; cleanups : list bool; main_returned : bool }.

Inductive closing_step : closing → closing → Prop :=
  | cs_signal s r l : closing_step (Closing false s r l false) (Closing true s r l false)
  | cs_shutdown r l : closing_step (Closing true Serving r l false) (Closing true Draining r l false)
  | cs_request b s r l : closing_step (Closing b s (S r) l false) (Closing b s r l false)
  | cs_drained l : closing_step (Closing true Draining 0 l false) (Closing true Drained 0 l false)
  | cs_cleanup s r l1 l2 : closing_step (Closing true s r (l1 ++ false :: l2) false) (Closing true s r (l1 ++ true :: l2) false)
  | cs_return s r l : s ≠ Serving → closing_step (Closing true s r l false) (Closing true s r l true).

(** main does not wait for the shutdown it began, nor for the goroutines that
    clean up: with a request in progress and connections open, the process can end
    with the request unanswered and nothing closed, and after that nothing more
    happens. *)
Theorem shutdown_not_awaited n l :
  ∃ s, rtc closing_step (Closing false Serving n l false) s ∧ main_returned s = true ∧ requests s = n ∧ cleanups s = l ∧ ∀ s', ¬ closing_step s s'.
Proof.
  exists (Closing true Draining n l true). split_and!; [|done..|].
  - eapply rtc_l; [apply cs_signal|]. eapply rtc_l; [apply cs_shutdown|]. eapply rtc_once, cs_return. done.
  - intros s' Hs. inversion Hs.
Qed.
